(** * QUICNetVConnection: the per-connection QUIC endpoint

    A shallow embedding of [iocore/net/QUICNetVConnection.cc]: the closing and
    draining part of the connection state machine, the receive step
    [_recv_and_ack], the packetizer [_packetize_frames] and the send loop
    [_state_common_send_packet].

    Conventions.
    - Fixed-width integers are [Z] with the wrap-around written out
      ([u32], [u64], and [int64] for the signed [ink_hrtime]).
    - The connection object is the record [QUICNetVConnection]; member
      functions are state transformers in the monad [M].
    - The connection talks to collaborators whose code lives in other files
      (handshake engine, loss detector, congestion controller, stream
      manager, flow controllers, frame generators, packet factory, the event
      scheduler).  Every call that hands something to a collaborator is
      recorded in the connection's [trace], most recent call first; every
      answer a collaborator gives is read from an environment [Env] of
      functions of the trace so far.  Theorems quantify over all
      environments, so they hold for every behaviour of the collaborators.
    - In a release build [ink_assert(EX)] evaluates [EX] and drops the
      result: nothing is checked, but a pointer that [EX] goes through is
      dereferenced.  Debug and error log output is not modelled. *)

From Stdlib Require Import String ZArith List Bool Lia.
Import ListNotations.
Open Scope Z_scope.

(** ** Machine integers *)

Definition u16 (x : Z) : Z := x mod 2 ^ 16.
Definition u32 (x : Z) : Z := x mod 2 ^ 32.
Definition u64 (x : Z) : Z := x mod 2 ^ 64.

(** A signed 64-bit integer ([int64_t], [ink_hrtime]) in two's complement. *)
Definition int64 (x : Z) : Z := (x + 2 ^ 63) mod 2 ^ 64 - 2 ^ 63.

Definition UINT16_MAX : Z := 65535.

(** ** Constants (QUICNetVConnection.cc, lines 60-74) *)

Definition IPV4_HEADER_SIZE : Z := 20.
Definition IPV6_HEADER_SIZE : Z := 40.
Definition UDP_HEADER_SIZE : Z := 8.
Definition MAX_PACKET_OVERHEAD : Z := 62.
Definition MAX_STREAM_FRAME_OVERHEAD : Z := 24.
Definition MINIMUM_INITIAL_PACKET_SIZE : Z := 1200.
(* HRTIME_MSECONDS(20), in nanoseconds *)
Definition WRITE_READY_INTERVAL : Z := 20 * 1000000.
Definition PACKET_PER_EVENT : Z := 32.
Definition MAX_CONSECUTIVE_STREAMS : Z := 8.
Definition MAX_PACKETS_WITHOUT_SRC_ADDR_VARIDATION : Z := 3.
Definition STATE_CLOSING_MAX_SEND_PKT_NUM : Z := 8.
Definition STATE_CLOSING_MAX_RECV_PKT_WIND : Z :=
  Z.shiftl 1 STATE_CLOSING_MAX_SEND_PKT_NUM.

(** ** Enumerations *)

Inductive NetVConnectionContext_t :=
| NET_VCONNECTION_UNSET
| NET_VCONNECTION_IN
| NET_VCONNECTION_OUT.

Definition context_eqb (a b : NetVConnectionContext_t) : bool :=
  match a, b with
  | NET_VCONNECTION_UNSET, NET_VCONNECTION_UNSET
  | NET_VCONNECTION_IN, NET_VCONNECTION_IN
  | NET_VCONNECTION_OUT, NET_VCONNECTION_OUT => true
  | _, _ => false
  end.

Inductive IpFamily := PF_INET | PF_INET6.

Module QUICPacketType.
Inductive t :=
| VERSION_NEGOTIATION
| PROTECTED
| STATELESS_RESET
| INITIAL
| ZERO_RTT_PROTECTED
| HANDSHAKE
| RETRY
| UNINITIALIZED.

Definition eqb (a b : t) : bool :=
  match a, b with
  | VERSION_NEGOTIATION, VERSION_NEGOTIATION | PROTECTED, PROTECTED
  | STATELESS_RESET, STATELESS_RESET | INITIAL, INITIAL
  | ZERO_RTT_PROTECTED, ZERO_RTT_PROTECTED | HANDSHAKE, HANDSHAKE
  | RETRY, RETRY | UNINITIALIZED, UNINITIALIZED => true
  | _, _ => false
  end.
End QUICPacketType.

Module QUICEncryptionLevel.
Inductive t := NONE | INITIAL | ZERO_RTT | HANDSHAKE | ONE_RTT.

Definition eqb (a b : t) : bool :=
  match a, b with
  | NONE, NONE | INITIAL, INITIAL | ZERO_RTT, ZERO_RTT
  | HANDSHAKE, HANDSHAKE | ONE_RTT, ONE_RTT => true
  | _, _ => false
  end.
End QUICEncryptionLevel.

(** Modelled from the spec: [QUIC_ENCRYPTION_LEVELS] (QUICTypes.h), the fixed
    ordering Initial, 0-RTT, Handshake, 1-RTT in which the send loop goes
    through the encryption levels (section 4.3). *)
Definition QUIC_ENCRYPTION_LEVELS : list QUICEncryptionLevel.t :=
  [QUICEncryptionLevel.INITIAL; QUICEncryptionLevel.ZERO_RTT;
   QUICEncryptionLevel.HANDSHAKE; QUICEncryptionLevel.ONE_RTT].

Module QUICFrameType.
Inductive t :=
| PADDING | RST_STREAM | CONNECTION_CLOSE | APPLICATION_CLOSE | MAX_DATA
| MAX_STREAM_DATA | MAX_STREAM_ID | PING | BLOCKED | STREAM_BLOCKED
| STREAM_ID_BLOCKED | NEW_CONNECTION_ID | STOP_SENDING | ACK
| PATH_CHALLENGE | PATH_RESPONSE | STREAM | CRYPTO | UNKNOWN.

Definition eqb (a b : t) : bool :=
  match a, b with
  | PADDING, PADDING | RST_STREAM, RST_STREAM
  | CONNECTION_CLOSE, CONNECTION_CLOSE | APPLICATION_CLOSE, APPLICATION_CLOSE
  | MAX_DATA, MAX_DATA | MAX_STREAM_DATA, MAX_STREAM_DATA
  | MAX_STREAM_ID, MAX_STREAM_ID | PING, PING | BLOCKED, BLOCKED
  | STREAM_BLOCKED, STREAM_BLOCKED | STREAM_ID_BLOCKED, STREAM_ID_BLOCKED
  | NEW_CONNECTION_ID, NEW_CONNECTION_ID | STOP_SENDING, STOP_SENDING
  | ACK, ACK | PATH_CHALLENGE, PATH_CHALLENGE | PATH_RESPONSE, PATH_RESPONSE
  | STREAM, STREAM | CRYPTO, CRYPTO | UNKNOWN, UNKNOWN => true
  | _, _ => false
  end.
End QUICFrameType.

Inductive QUICPacketCreationResult :=
| SUCCESS | FAILED | NO_PACKET | NOT_READY | IGNORED | UNSUPPORTED.

Inductive QUICErrorClass := CLS_NONE | TRANSPORT | APPLICATION.

(** Error codes are 16-bit values.  The transport error codes this file
    names are kept symbolic (their numbers are declared in QUICTypes.h);
    [ERROR_CODE n] is any other value, such as the code carried by a received
    close frame. *)
Inductive QUICErrorCode :=
| NO_ERROR
| INTERNAL_ERROR
| FLOW_CONTROL_ERROR
| PROTOCOL_VIOLATION
| TRANSPORT_PARAMETER_ERROR
| VERSION_NEGOTIATION_ERROR
| ERROR_CODE (n : Z).

Record QUICConnectionError := {
  cls : QUICErrorClass;
  code : QUICErrorCode;
  error_msg : option string;
  error_frame_type : option QUICFrameType.t
}.

(** The constructors of [QUICConnectionError] used in this file. *)
Definition QUICConnectionError_trans (c : QUICErrorCode) : QUICConnectionError :=
  {| cls := TRANSPORT; code := c; error_msg := None;
     error_frame_type := None |}.

Definition QUICConnectionError_trans_msg (c : QUICErrorCode) (m : string)
  : QUICConnectionError :=
  {| cls := TRANSPORT; code := c; error_msg := Some m;
     error_frame_type := None |}.

Definition QUICConnectionError_trans_frame (c : QUICErrorCode) (m : string)
  (ft : QUICFrameType.t) : QUICConnectionError :=
  {| cls := TRANSPORT; code := c; error_msg := Some m;
     error_frame_type := Some ft |}.

Definition QUICConnectionError_app (c : QUICErrorCode) : QUICConnectionError :=
  {| cls := APPLICATION; code := c; error_msg := None;
     error_frame_type := None |}.

(** A connection ID is its byte string; [QUICConnectionId::ZERO()] is the
    zero-length one. *)
Definition QUICConnectionId := list Z.
Definition QUICConnectionId_ZERO : QUICConnectionId := [].

Fixpoint cid_eqb (a b : QUICConnectionId) : bool :=
  match a, b with
  | [], [] => true
  | x :: a', y :: b' => (x =? y) && cid_eqb a' b'
  | _, _ => false
  end.

(** A frame, as far as this file looks into one. *)
Record QUICFrame := {
  frame_type : QUICFrameType.t;
  (* QUICMaxDataFrame::maximum_data() *)
  maximum_data : Z;
  (* QUIC{Connection,Application}CloseFrame::error_code() *)
  frame_error_code : QUICErrorCode;
  (* QUICNewConnectionIdFrame::connection_id() *)
  frame_connection_id : QUICConnectionId;
  is_probing_frame : bool
}.

(** A packet: the header fields this file reads or writes, the payload as
    the sequence of frames it carries, and the payload's length in bytes
    (padding included). *)
Record QUICPacket := {
  pkt_type : QUICPacketType.t;
  destination_cid : QUICConnectionId;
  source_cid : QUICConnectionId;
  packet_number : Z;
  base_packet_number : Z;
  payload : list QUICFrame;
  payload_length : Z;
  is_retransmittable : bool;
  is_probing_packet : bool
}.

(** What the receive queue holds: a datagram that decodes to a packet, or one
    for which packet creation gives another result. *)
Inductive Datagram :=
| Decodable (p : QUICPacket)
| Undecodable (r : QUICPacketCreationResult).

Record QUICTransportParameters := {
  (* getAsUInt32(QUICTransportParameterId::INITIAL_MAX_DATA) *)
  tp_initial_max_data : Z;
  (* contains(QUICTransportParameterId::DISABLE_MIGRATION) *)
  tp_disable_migration : bool
}.

(** Events delivered to the connection's handler. *)
Inductive QUICEvent :=
| QUIC_EVENT_PACKET_READ_READY
| QUIC_EVENT_PACKET_WRITE_READY
| QUIC_EVENT_PATH_VALIDATION_TIMEOUT
| QUIC_EVENT_CLOSING_TIMEOUT
| QUIC_EVENT_SHUTDOWN
| QUIC_EVENT_LD_SHUTDOWN
| EVENT_IMMEDIATE
| EVENT_OTHER (n : Z).

Inductive NetEvent := NET_EVENT_ACCEPT | NET_EVENT_OPEN.

Inductive EventResult := EVENT_DONE | EVENT_CONT.

(** The member functions a [Continuation] handler can point at. *)
Module Handler.
Inductive t :=
| acceptEvent
| startEvent
| state_pre_handshake
| state_handshake
| state_connection_established
| state_connection_closing
| state_connection_draining
| state_connection_closed.

Definition eqb (a b : t) : bool :=
  match a, b with
  | acceptEvent, acceptEvent | startEvent, startEvent
  | state_pre_handshake, state_pre_handshake
  | state_handshake, state_handshake
  | state_connection_established, state_connection_established
  | state_connection_closing, state_connection_closing
  | state_connection_draining, state_connection_draining
  | state_connection_closed, state_connection_closed => true
  | _, _ => false
  end.
End Handler.

(** The frame generators [_packetize_frames] queries, in its order. *)
Inductive FrameGenerator :=
| GEN_handshake_handler
| GEN_path_validator
| GEN_alt_con_manager
| GEN_packet_retransmitter
| GEN_local_flow_controller
| GEN_remote_flow_controller
| GEN_stream_manager
| GEN_ack_frame_creator.

(** ** Calls to collaborators *)

Inductive Call :=
(* std::random_device / engine draw *)
| C_rnd
(* EThread::schedule_imm / schedule_in / schedule_in_local, Event::cancel *)
| C_schedule_imm (ev : QUICEvent)
| C_schedule_in (ev : QUICEvent) (interval : Z)
| C_schedule_in_local (ev : QUICEvent) (interval : Z)
| C_cancel (ev : QUICEvent)
(* UnixNetVConnection *)
| C_remove_from_active_queue
| C_set_inactivity_timeout (t : Z)
| C_net_activity
| C_clear_timeouts
| C_free_netvc
(* QUICPacketHandler::close_conenction *)
| C_close_connection
(* QUICStreamManager::init_flow_control_params *)
| C_sm_init_flow_control_params
    (local_tp remote_tp : option QUICTransportParameters)
(* QUIC{Local,Remote}ConnectionFlowController *)
| C_lfc_set_limit (limit : Z)
| C_rfc_set_limit (limit : Z)
| C_lfc_update (offset : Z)
| C_lfc_forward_limit (limit : Z)
| C_rfc_update (offset : Z)
| C_rfc_forward_limit (limit : Z)
(* QUICAckFrameCreator::update *)
| C_ack_update (level : QUICEncryptionLevel.t) (packet_num : Z)
    (should_send_ack : bool)
(* the application: endpoint / action_.continuation ->handleEvent *)
| C_app_handleEvent (ev : NetEvent)
(* a frame handed to a frame handler other than the connection *)
| C_dispatch_frame (level : QUICEncryptionLevel.t) (f : QUICFrame)
(* QUICFrameGenerator::generate_frame *)
| C_generate_frame (g : FrameGenerator) (level : QUICEncryptionLevel.t)
    (connection_credit max_frame_size : Z)
(* QUICPacketFactory::create_*_packet *)
| C_create_packet (p : QUICPacket)
(* QUICPacketHandler::send_packet: one UDP datagram *)
| C_send_packet (packets : list QUICPacket)
(* QUICLossDetector::on_packet_sent, and its shutdown event *)
| C_on_packet_sent (index : Z) (p : QUICPacket)
| C_ld_shutdown (index : Z)
(* QUIC_INCREMENT_DYN_STAT_EX(total_packets_sent_stat, n) *)
| C_stat_packets_sent (n : Z).

Definition Trace := list Call.

(** ** The collaborators' answers

    One field per query the connection makes.  The first argument is the
    trace of calls made so far: an answer may depend on everything the
    collaborators have been handed. *)
Record Env := {
  (* this->_rnd() *)
  rnd : Trace -> Z;
  (* QUICHandshake *)
  hs_is_completed : Trace -> bool;
  hs_has_remote_tp : Trace -> bool;
  hs_local_transport_parameters : Trace -> option QUICTransportParameters;
  hs_remote_transport_parameters : Trace -> option QUICTransportParameters;
  hs_negotiated_application_name : Trace -> option string;
  (* QUICHandshakeProtocol::current_encryption_level *)
  hsp_current_encryption_level : Trace -> QUICEncryptionLevel.t;
  (* IP_PROTO_TAG_HTTP_QUIC, the application name used when none was
     negotiated *)
  IP_PROTO_TAG_HTTP_QUIC : string;
  (* SSLNextProtocolSet::findEndpoint(...) != nullptr *)
  np_findEndpoint : Trace -> string -> bool;
  (* QUICLossDetector, by packet number space index *)
  ld_current_rto_period : Trace -> Z -> Z;
  ld_largest_acked_packet_number : Trace -> Z -> Z;
  (* QUICCongestionController::open_window *)
  cc_open_window : Trace -> Z;
  (* QUICPathValidator *)
  pv_is_validated : Trace -> bool;
  pv_is_validating : Trace -> bool;
  (* QUICStreamManager *)
  sm_total_offset_received : Trace -> Z;
  sm_total_reordered_bytes : Trace -> Z;
  sm_total_offset_sent : Trace -> Z;
  sm_will_generate_frame : Trace -> QUICEncryptionLevel.t -> bool;
  (* QUICLocalFlowController::update(offset): its int result;
     QUICRemoteFlowController::credit *)
  lfc_update : Trace -> Z -> Z;
  rfc_credit : Trace -> Z;
  (* QUICAckFrameCreator::will_generate_frame *)
  ack_will_generate_frame : Trace -> QUICEncryptionLevel.t -> bool;
  (* QUICFrameGenerator::generate_frame(level, connection_credit,
     maximum_frame_size), nullptr as None *)
  generate_frame :
    Trace -> FrameGenerator -> QUICEncryptionLevel.t -> Z -> Z -> option QUICFrame;
  (* QUICFrame::store(buf, &l, limit): the length l written *)
  frame_store : QUICFrame -> Z -> Z;
  (* QUICPacketFactory::create_*_packet: the number given to the next packet
     of a type, None when the factory returns the null packet *)
  pf_create_packet : Trace -> QUICPacketType.t -> option Z;
  (* QUICPacket::store(buf, &len): the length len written *)
  packet_store : QUICPacket -> Z;
  (* QUICFrameDispatcher::receive_frames: the two flags it reports for a
     payload, and the error (if any) of a handler other than the connection *)
  fd_should_send_ack : Trace -> QUICEncryptionLevel.t -> list QUICFrame -> bool;
  fd_is_flow_controlled : Trace -> QUICEncryptionLevel.t -> list QUICFrame -> bool;
  fh_handle_frame :
    Trace -> QUICEncryptionLevel.t -> QUICFrame -> option QUICConnectionError;
  (* QUICTypeUtil *)
  encryption_level : QUICPacketType.t -> QUICEncryptionLevel.t;
  pn_space_index : QUICEncryptionLevel.t -> Z
}.

(** Modelled from the spec: [QUICTypeUtil::packet_type] (QUICTypes.cc); each
    encryption level maps to a packet type for packetization (section 3). *)
Definition packet_type (level : QUICEncryptionLevel.t) : QUICPacketType.t :=
  match level with
  | QUICEncryptionLevel.INITIAL => QUICPacketType.INITIAL
  | QUICEncryptionLevel.ZERO_RTT => QUICPacketType.ZERO_RTT_PROTECTED
  | QUICEncryptionLevel.HANDSHAKE => QUICPacketType.HANDSHAKE
  | QUICEncryptionLevel.ONE_RTT => QUICPacketType.PROTECTED
  | QUICEncryptionLevel.NONE => QUICPacketType.UNINITIALIZED
  end.

(** ** The connection object *)

Record QUICNetVConnection := {
  (* the Continuation's current handler *)
  handler : Handler.t;
  netvc_context : NetVConnectionContext_t;
  (* options.ip_family *)
  ip_family : IpFamily;
  _pmtu : Z;
  _quic_connection_id : QUICConnectionId;
  _peer_quic_connection_id : QUICConnectionId;
  _original_quic_connection_id : QUICConnectionId;
  (* a queue, front first *)
  _remote_alt_cids : list QUICConnectionId;
  (* front first *)
  _packet_recv_queue : list Datagram;
  _last_received_packet_type : QUICPacketType.t;
  (* the pointer is set *)
  _handshake_handler : bool;
  (* the pointer is set *)
  _alt_con_manager : bool;
  _application_started : bool;
  _flow_control_buffer_size : Z;
  _src_addr_verified : bool;
  _handshake_packets_sent : Z;
  _stream_frames_sent : Z;
  _connection_error : option QUICConnectionError;
  _the_final_packet : option QUICPacket;
  _state_closing_recv_packet_count : Z;
  _state_closing_recv_packet_window : Z;
  (* a scheduled event is pending *)
  _packet_write_ready : bool;
  (* a scheduled event is pending *)
  _closing_timeout : bool;
  (* a scheduled event is pending *)
  _path_validation_timeout : bool;
  (* a scheduled event is pending *)
  _closed_event : bool;
  (* the pointer is set *)
  nh : bool;
  (* calls made to collaborators, most recent first *)
  trace : Trace
}.

(** Field updates: [set_x v c] is [c] after [this->_x = v]. *)
Definition set_handler (v : Handler.t) (c : QUICNetVConnection) :=
  {| handler := v; netvc_context := netvc_context c; ip_family := ip_family c;
     _pmtu := _pmtu c; _quic_connection_id := _quic_connection_id c;
     _peer_quic_connection_id := _peer_quic_connection_id c;
     _original_quic_connection_id := _original_quic_connection_id c;
     _remote_alt_cids := _remote_alt_cids c;
     _packet_recv_queue := _packet_recv_queue c;
     _last_received_packet_type := _last_received_packet_type c;
     _handshake_handler := _handshake_handler c;
     _alt_con_manager := _alt_con_manager c;
     _application_started := _application_started c;
     _flow_control_buffer_size := _flow_control_buffer_size c;
     _src_addr_verified := _src_addr_verified c;
     _handshake_packets_sent := _handshake_packets_sent c;
     _stream_frames_sent := _stream_frames_sent c;
     _connection_error := _connection_error c;
     _the_final_packet := _the_final_packet c;
     _state_closing_recv_packet_count := _state_closing_recv_packet_count c;
     _state_closing_recv_packet_window := _state_closing_recv_packet_window c;
     _packet_write_ready := _packet_write_ready c;
     _closing_timeout := _closing_timeout c;
     _path_validation_timeout := _path_validation_timeout c;
     _closed_event := _closed_event c; nh := nh c; trace := trace c |}.

Definition set_peer_quic_connection_id (v : QUICConnectionId) (c : QUICNetVConnection) :=
  {| handler := handler c; netvc_context := netvc_context c;
     ip_family := ip_family c; _pmtu := _pmtu c;
     _quic_connection_id := _quic_connection_id c;
     _peer_quic_connection_id := v;
     _original_quic_connection_id := _original_quic_connection_id c;
     _remote_alt_cids := _remote_alt_cids c;
     _packet_recv_queue := _packet_recv_queue c;
     _last_received_packet_type := _last_received_packet_type c;
     _handshake_handler := _handshake_handler c;
     _alt_con_manager := _alt_con_manager c;
     _application_started := _application_started c;
     _flow_control_buffer_size := _flow_control_buffer_size c;
     _src_addr_verified := _src_addr_verified c;
     _handshake_packets_sent := _handshake_packets_sent c;
     _stream_frames_sent := _stream_frames_sent c;
     _connection_error := _connection_error c;
     _the_final_packet := _the_final_packet c;
     _state_closing_recv_packet_count := _state_closing_recv_packet_count c;
     _state_closing_recv_packet_window := _state_closing_recv_packet_window c;
     _packet_write_ready := _packet_write_ready c;
     _closing_timeout := _closing_timeout c;
     _path_validation_timeout := _path_validation_timeout c;
     _closed_event := _closed_event c; nh := nh c; trace := trace c |}.

Definition set_remote_alt_cids (v : list QUICConnectionId) (c : QUICNetVConnection) :=
  {| handler := handler c; netvc_context := netvc_context c;
     ip_family := ip_family c; _pmtu := _pmtu c;
     _quic_connection_id := _quic_connection_id c;
     _peer_quic_connection_id := _peer_quic_connection_id c;
     _original_quic_connection_id := _original_quic_connection_id c;
     _remote_alt_cids := v; _packet_recv_queue := _packet_recv_queue c;
     _last_received_packet_type := _last_received_packet_type c;
     _handshake_handler := _handshake_handler c;
     _alt_con_manager := _alt_con_manager c;
     _application_started := _application_started c;
     _flow_control_buffer_size := _flow_control_buffer_size c;
     _src_addr_verified := _src_addr_verified c;
     _handshake_packets_sent := _handshake_packets_sent c;
     _stream_frames_sent := _stream_frames_sent c;
     _connection_error := _connection_error c;
     _the_final_packet := _the_final_packet c;
     _state_closing_recv_packet_count := _state_closing_recv_packet_count c;
     _state_closing_recv_packet_window := _state_closing_recv_packet_window c;
     _packet_write_ready := _packet_write_ready c;
     _closing_timeout := _closing_timeout c;
     _path_validation_timeout := _path_validation_timeout c;
     _closed_event := _closed_event c; nh := nh c; trace := trace c |}.

Definition set_packet_recv_queue (v : list Datagram) (c : QUICNetVConnection) :=
  {| handler := handler c; netvc_context := netvc_context c;
     ip_family := ip_family c; _pmtu := _pmtu c;
     _quic_connection_id := _quic_connection_id c;
     _peer_quic_connection_id := _peer_quic_connection_id c;
     _original_quic_connection_id := _original_quic_connection_id c;
     _remote_alt_cids := _remote_alt_cids c; _packet_recv_queue := v;
     _last_received_packet_type := _last_received_packet_type c;
     _handshake_handler := _handshake_handler c;
     _alt_con_manager := _alt_con_manager c;
     _application_started := _application_started c;
     _flow_control_buffer_size := _flow_control_buffer_size c;
     _src_addr_verified := _src_addr_verified c;
     _handshake_packets_sent := _handshake_packets_sent c;
     _stream_frames_sent := _stream_frames_sent c;
     _connection_error := _connection_error c;
     _the_final_packet := _the_final_packet c;
     _state_closing_recv_packet_count := _state_closing_recv_packet_count c;
     _state_closing_recv_packet_window := _state_closing_recv_packet_window c;
     _packet_write_ready := _packet_write_ready c;
     _closing_timeout := _closing_timeout c;
     _path_validation_timeout := _path_validation_timeout c;
     _closed_event := _closed_event c; nh := nh c; trace := trace c |}.

Definition set_last_received_packet_type (v : QUICPacketType.t) (c : QUICNetVConnection) :=
  {| handler := handler c; netvc_context := netvc_context c;
     ip_family := ip_family c; _pmtu := _pmtu c;
     _quic_connection_id := _quic_connection_id c;
     _peer_quic_connection_id := _peer_quic_connection_id c;
     _original_quic_connection_id := _original_quic_connection_id c;
     _remote_alt_cids := _remote_alt_cids c;
     _packet_recv_queue := _packet_recv_queue c;
     _last_received_packet_type := v;
     _handshake_handler := _handshake_handler c;
     _alt_con_manager := _alt_con_manager c;
     _application_started := _application_started c;
     _flow_control_buffer_size := _flow_control_buffer_size c;
     _src_addr_verified := _src_addr_verified c;
     _handshake_packets_sent := _handshake_packets_sent c;
     _stream_frames_sent := _stream_frames_sent c;
     _connection_error := _connection_error c;
     _the_final_packet := _the_final_packet c;
     _state_closing_recv_packet_count := _state_closing_recv_packet_count c;
     _state_closing_recv_packet_window := _state_closing_recv_packet_window c;
     _packet_write_ready := _packet_write_ready c;
     _closing_timeout := _closing_timeout c;
     _path_validation_timeout := _path_validation_timeout c;
     _closed_event := _closed_event c; nh := nh c; trace := trace c |}.

Definition set_application_started (v : bool) (c : QUICNetVConnection) :=
  {| handler := handler c; netvc_context := netvc_context c;
     ip_family := ip_family c; _pmtu := _pmtu c;
     _quic_connection_id := _quic_connection_id c;
     _peer_quic_connection_id := _peer_quic_connection_id c;
     _original_quic_connection_id := _original_quic_connection_id c;
     _remote_alt_cids := _remote_alt_cids c;
     _packet_recv_queue := _packet_recv_queue c;
     _last_received_packet_type := _last_received_packet_type c;
     _handshake_handler := _handshake_handler c;
     _alt_con_manager := _alt_con_manager c; _application_started := v;
     _flow_control_buffer_size := _flow_control_buffer_size c;
     _src_addr_verified := _src_addr_verified c;
     _handshake_packets_sent := _handshake_packets_sent c;
     _stream_frames_sent := _stream_frames_sent c;
     _connection_error := _connection_error c;
     _the_final_packet := _the_final_packet c;
     _state_closing_recv_packet_count := _state_closing_recv_packet_count c;
     _state_closing_recv_packet_window := _state_closing_recv_packet_window c;
     _packet_write_ready := _packet_write_ready c;
     _closing_timeout := _closing_timeout c;
     _path_validation_timeout := _path_validation_timeout c;
     _closed_event := _closed_event c; nh := nh c; trace := trace c |}.

Definition set_flow_control_buffer_size (v : Z) (c : QUICNetVConnection) :=
  {| handler := handler c; netvc_context := netvc_context c;
     ip_family := ip_family c; _pmtu := _pmtu c;
     _quic_connection_id := _quic_connection_id c;
     _peer_quic_connection_id := _peer_quic_connection_id c;
     _original_quic_connection_id := _original_quic_connection_id c;
     _remote_alt_cids := _remote_alt_cids c;
     _packet_recv_queue := _packet_recv_queue c;
     _last_received_packet_type := _last_received_packet_type c;
     _handshake_handler := _handshake_handler c;
     _alt_con_manager := _alt_con_manager c;
     _application_started := _application_started c;
     _flow_control_buffer_size := v;
     _src_addr_verified := _src_addr_verified c;
     _handshake_packets_sent := _handshake_packets_sent c;
     _stream_frames_sent := _stream_frames_sent c;
     _connection_error := _connection_error c;
     _the_final_packet := _the_final_packet c;
     _state_closing_recv_packet_count := _state_closing_recv_packet_count c;
     _state_closing_recv_packet_window := _state_closing_recv_packet_window c;
     _packet_write_ready := _packet_write_ready c;
     _closing_timeout := _closing_timeout c;
     _path_validation_timeout := _path_validation_timeout c;
     _closed_event := _closed_event c; nh := nh c; trace := trace c |}.

Definition set_handshake_packets_sent (v : Z) (c : QUICNetVConnection) :=
  {| handler := handler c; netvc_context := netvc_context c;
     ip_family := ip_family c; _pmtu := _pmtu c;
     _quic_connection_id := _quic_connection_id c;
     _peer_quic_connection_id := _peer_quic_connection_id c;
     _original_quic_connection_id := _original_quic_connection_id c;
     _remote_alt_cids := _remote_alt_cids c;
     _packet_recv_queue := _packet_recv_queue c;
     _last_received_packet_type := _last_received_packet_type c;
     _handshake_handler := _handshake_handler c;
     _alt_con_manager := _alt_con_manager c;
     _application_started := _application_started c;
     _flow_control_buffer_size := _flow_control_buffer_size c;
     _src_addr_verified := _src_addr_verified c; _handshake_packets_sent := v;
     _stream_frames_sent := _stream_frames_sent c;
     _connection_error := _connection_error c;
     _the_final_packet := _the_final_packet c;
     _state_closing_recv_packet_count := _state_closing_recv_packet_count c;
     _state_closing_recv_packet_window := _state_closing_recv_packet_window c;
     _packet_write_ready := _packet_write_ready c;
     _closing_timeout := _closing_timeout c;
     _path_validation_timeout := _path_validation_timeout c;
     _closed_event := _closed_event c; nh := nh c; trace := trace c |}.

Definition set_stream_frames_sent (v : Z) (c : QUICNetVConnection) :=
  {| handler := handler c; netvc_context := netvc_context c;
     ip_family := ip_family c; _pmtu := _pmtu c;
     _quic_connection_id := _quic_connection_id c;
     _peer_quic_connection_id := _peer_quic_connection_id c;
     _original_quic_connection_id := _original_quic_connection_id c;
     _remote_alt_cids := _remote_alt_cids c;
     _packet_recv_queue := _packet_recv_queue c;
     _last_received_packet_type := _last_received_packet_type c;
     _handshake_handler := _handshake_handler c;
     _alt_con_manager := _alt_con_manager c;
     _application_started := _application_started c;
     _flow_control_buffer_size := _flow_control_buffer_size c;
     _src_addr_verified := _src_addr_verified c;
     _handshake_packets_sent := _handshake_packets_sent c;
     _stream_frames_sent := v; _connection_error := _connection_error c;
     _the_final_packet := _the_final_packet c;
     _state_closing_recv_packet_count := _state_closing_recv_packet_count c;
     _state_closing_recv_packet_window := _state_closing_recv_packet_window c;
     _packet_write_ready := _packet_write_ready c;
     _closing_timeout := _closing_timeout c;
     _path_validation_timeout := _path_validation_timeout c;
     _closed_event := _closed_event c; nh := nh c; trace := trace c |}.

Definition set_connection_error (v : option QUICConnectionError) (c : QUICNetVConnection) :=
  {| handler := handler c; netvc_context := netvc_context c;
     ip_family := ip_family c; _pmtu := _pmtu c;
     _quic_connection_id := _quic_connection_id c;
     _peer_quic_connection_id := _peer_quic_connection_id c;
     _original_quic_connection_id := _original_quic_connection_id c;
     _remote_alt_cids := _remote_alt_cids c;
     _packet_recv_queue := _packet_recv_queue c;
     _last_received_packet_type := _last_received_packet_type c;
     _handshake_handler := _handshake_handler c;
     _alt_con_manager := _alt_con_manager c;
     _application_started := _application_started c;
     _flow_control_buffer_size := _flow_control_buffer_size c;
     _src_addr_verified := _src_addr_verified c;
     _handshake_packets_sent := _handshake_packets_sent c;
     _stream_frames_sent := _stream_frames_sent c; _connection_error := v;
     _the_final_packet := _the_final_packet c;
     _state_closing_recv_packet_count := _state_closing_recv_packet_count c;
     _state_closing_recv_packet_window := _state_closing_recv_packet_window c;
     _packet_write_ready := _packet_write_ready c;
     _closing_timeout := _closing_timeout c;
     _path_validation_timeout := _path_validation_timeout c;
     _closed_event := _closed_event c; nh := nh c; trace := trace c |}.

Definition set_the_final_packet (v : option QUICPacket) (c : QUICNetVConnection) :=
  {| handler := handler c; netvc_context := netvc_context c;
     ip_family := ip_family c; _pmtu := _pmtu c;
     _quic_connection_id := _quic_connection_id c;
     _peer_quic_connection_id := _peer_quic_connection_id c;
     _original_quic_connection_id := _original_quic_connection_id c;
     _remote_alt_cids := _remote_alt_cids c;
     _packet_recv_queue := _packet_recv_queue c;
     _last_received_packet_type := _last_received_packet_type c;
     _handshake_handler := _handshake_handler c;
     _alt_con_manager := _alt_con_manager c;
     _application_started := _application_started c;
     _flow_control_buffer_size := _flow_control_buffer_size c;
     _src_addr_verified := _src_addr_verified c;
     _handshake_packets_sent := _handshake_packets_sent c;
     _stream_frames_sent := _stream_frames_sent c;
     _connection_error := _connection_error c; _the_final_packet := v;
     _state_closing_recv_packet_count := _state_closing_recv_packet_count c;
     _state_closing_recv_packet_window := _state_closing_recv_packet_window c;
     _packet_write_ready := _packet_write_ready c;
     _closing_timeout := _closing_timeout c;
     _path_validation_timeout := _path_validation_timeout c;
     _closed_event := _closed_event c; nh := nh c; trace := trace c |}.

Definition set_state_closing_recv_packet_count (v : Z) (c : QUICNetVConnection) :=
  {| handler := handler c; netvc_context := netvc_context c;
     ip_family := ip_family c; _pmtu := _pmtu c;
     _quic_connection_id := _quic_connection_id c;
     _peer_quic_connection_id := _peer_quic_connection_id c;
     _original_quic_connection_id := _original_quic_connection_id c;
     _remote_alt_cids := _remote_alt_cids c;
     _packet_recv_queue := _packet_recv_queue c;
     _last_received_packet_type := _last_received_packet_type c;
     _handshake_handler := _handshake_handler c;
     _alt_con_manager := _alt_con_manager c;
     _application_started := _application_started c;
     _flow_control_buffer_size := _flow_control_buffer_size c;
     _src_addr_verified := _src_addr_verified c;
     _handshake_packets_sent := _handshake_packets_sent c;
     _stream_frames_sent := _stream_frames_sent c;
     _connection_error := _connection_error c;
     _the_final_packet := _the_final_packet c;
     _state_closing_recv_packet_count := v;
     _state_closing_recv_packet_window := _state_closing_recv_packet_window c;
     _packet_write_ready := _packet_write_ready c;
     _closing_timeout := _closing_timeout c;
     _path_validation_timeout := _path_validation_timeout c;
     _closed_event := _closed_event c; nh := nh c; trace := trace c |}.

Definition set_state_closing_recv_packet_window (v : Z) (c : QUICNetVConnection) :=
  {| handler := handler c; netvc_context := netvc_context c;
     ip_family := ip_family c; _pmtu := _pmtu c;
     _quic_connection_id := _quic_connection_id c;
     _peer_quic_connection_id := _peer_quic_connection_id c;
     _original_quic_connection_id := _original_quic_connection_id c;
     _remote_alt_cids := _remote_alt_cids c;
     _packet_recv_queue := _packet_recv_queue c;
     _last_received_packet_type := _last_received_packet_type c;
     _handshake_handler := _handshake_handler c;
     _alt_con_manager := _alt_con_manager c;
     _application_started := _application_started c;
     _flow_control_buffer_size := _flow_control_buffer_size c;
     _src_addr_verified := _src_addr_verified c;
     _handshake_packets_sent := _handshake_packets_sent c;
     _stream_frames_sent := _stream_frames_sent c;
     _connection_error := _connection_error c;
     _the_final_packet := _the_final_packet c;
     _state_closing_recv_packet_count := _state_closing_recv_packet_count c;
     _state_closing_recv_packet_window := v;
     _packet_write_ready := _packet_write_ready c;
     _closing_timeout := _closing_timeout c;
     _path_validation_timeout := _path_validation_timeout c;
     _closed_event := _closed_event c; nh := nh c; trace := trace c |}.

Definition set_packet_write_ready (v : bool) (c : QUICNetVConnection) :=
  {| handler := handler c; netvc_context := netvc_context c;
     ip_family := ip_family c; _pmtu := _pmtu c;
     _quic_connection_id := _quic_connection_id c;
     _peer_quic_connection_id := _peer_quic_connection_id c;
     _original_quic_connection_id := _original_quic_connection_id c;
     _remote_alt_cids := _remote_alt_cids c;
     _packet_recv_queue := _packet_recv_queue c;
     _last_received_packet_type := _last_received_packet_type c;
     _handshake_handler := _handshake_handler c;
     _alt_con_manager := _alt_con_manager c;
     _application_started := _application_started c;
     _flow_control_buffer_size := _flow_control_buffer_size c;
     _src_addr_verified := _src_addr_verified c;
     _handshake_packets_sent := _handshake_packets_sent c;
     _stream_frames_sent := _stream_frames_sent c;
     _connection_error := _connection_error c;
     _the_final_packet := _the_final_packet c;
     _state_closing_recv_packet_count := _state_closing_recv_packet_count c;
     _state_closing_recv_packet_window := _state_closing_recv_packet_window c;
     _packet_write_ready := v; _closing_timeout := _closing_timeout c;
     _path_validation_timeout := _path_validation_timeout c;
     _closed_event := _closed_event c; nh := nh c; trace := trace c |}.

Definition set_closing_timeout (v : bool) (c : QUICNetVConnection) :=
  {| handler := handler c; netvc_context := netvc_context c;
     ip_family := ip_family c; _pmtu := _pmtu c;
     _quic_connection_id := _quic_connection_id c;
     _peer_quic_connection_id := _peer_quic_connection_id c;
     _original_quic_connection_id := _original_quic_connection_id c;
     _remote_alt_cids := _remote_alt_cids c;
     _packet_recv_queue := _packet_recv_queue c;
     _last_received_packet_type := _last_received_packet_type c;
     _handshake_handler := _handshake_handler c;
     _alt_con_manager := _alt_con_manager c;
     _application_started := _application_started c;
     _flow_control_buffer_size := _flow_control_buffer_size c;
     _src_addr_verified := _src_addr_verified c;
     _handshake_packets_sent := _handshake_packets_sent c;
     _stream_frames_sent := _stream_frames_sent c;
     _connection_error := _connection_error c;
     _the_final_packet := _the_final_packet c;
     _state_closing_recv_packet_count := _state_closing_recv_packet_count c;
     _state_closing_recv_packet_window := _state_closing_recv_packet_window c;
     _packet_write_ready := _packet_write_ready c; _closing_timeout := v;
     _path_validation_timeout := _path_validation_timeout c;
     _closed_event := _closed_event c; nh := nh c; trace := trace c |}.

Definition set_path_validation_timeout (v : bool) (c : QUICNetVConnection) :=
  {| handler := handler c; netvc_context := netvc_context c;
     ip_family := ip_family c; _pmtu := _pmtu c;
     _quic_connection_id := _quic_connection_id c;
     _peer_quic_connection_id := _peer_quic_connection_id c;
     _original_quic_connection_id := _original_quic_connection_id c;
     _remote_alt_cids := _remote_alt_cids c;
     _packet_recv_queue := _packet_recv_queue c;
     _last_received_packet_type := _last_received_packet_type c;
     _handshake_handler := _handshake_handler c;
     _alt_con_manager := _alt_con_manager c;
     _application_started := _application_started c;
     _flow_control_buffer_size := _flow_control_buffer_size c;
     _src_addr_verified := _src_addr_verified c;
     _handshake_packets_sent := _handshake_packets_sent c;
     _stream_frames_sent := _stream_frames_sent c;
     _connection_error := _connection_error c;
     _the_final_packet := _the_final_packet c;
     _state_closing_recv_packet_count := _state_closing_recv_packet_count c;
     _state_closing_recv_packet_window := _state_closing_recv_packet_window c;
     _packet_write_ready := _packet_write_ready c;
     _closing_timeout := _closing_timeout c; _path_validation_timeout := v;
     _closed_event := _closed_event c; nh := nh c; trace := trace c |}.

Definition set_closed_event (v : bool) (c : QUICNetVConnection) :=
  {| handler := handler c; netvc_context := netvc_context c;
     ip_family := ip_family c; _pmtu := _pmtu c;
     _quic_connection_id := _quic_connection_id c;
     _peer_quic_connection_id := _peer_quic_connection_id c;
     _original_quic_connection_id := _original_quic_connection_id c;
     _remote_alt_cids := _remote_alt_cids c;
     _packet_recv_queue := _packet_recv_queue c;
     _last_received_packet_type := _last_received_packet_type c;
     _handshake_handler := _handshake_handler c;
     _alt_con_manager := _alt_con_manager c;
     _application_started := _application_started c;
     _flow_control_buffer_size := _flow_control_buffer_size c;
     _src_addr_verified := _src_addr_verified c;
     _handshake_packets_sent := _handshake_packets_sent c;
     _stream_frames_sent := _stream_frames_sent c;
     _connection_error := _connection_error c;
     _the_final_packet := _the_final_packet c;
     _state_closing_recv_packet_count := _state_closing_recv_packet_count c;
     _state_closing_recv_packet_window := _state_closing_recv_packet_window c;
     _packet_write_ready := _packet_write_ready c;
     _closing_timeout := _closing_timeout c;
     _path_validation_timeout := _path_validation_timeout c;
     _closed_event := v; nh := nh c; trace := trace c |}.

Definition set_trace (v : Trace) (c : QUICNetVConnection) :=
  {| handler := handler c; netvc_context := netvc_context c;
     ip_family := ip_family c; _pmtu := _pmtu c;
     _quic_connection_id := _quic_connection_id c;
     _peer_quic_connection_id := _peer_quic_connection_id c;
     _original_quic_connection_id := _original_quic_connection_id c;
     _remote_alt_cids := _remote_alt_cids c;
     _packet_recv_queue := _packet_recv_queue c;
     _last_received_packet_type := _last_received_packet_type c;
     _handshake_handler := _handshake_handler c;
     _alt_con_manager := _alt_con_manager c;
     _application_started := _application_started c;
     _flow_control_buffer_size := _flow_control_buffer_size c;
     _src_addr_verified := _src_addr_verified c;
     _handshake_packets_sent := _handshake_packets_sent c;
     _stream_frames_sent := _stream_frames_sent c;
     _connection_error := _connection_error c;
     _the_final_packet := _the_final_packet c;
     _state_closing_recv_packet_count := _state_closing_recv_packet_count c;
     _state_closing_recv_packet_window := _state_closing_recv_packet_window c;
     _packet_write_ready := _packet_write_ready c;
     _closing_timeout := _closing_timeout c;
     _path_validation_timeout := _path_validation_timeout c;
     _closed_event := _closed_event c; nh := nh c; trace := v |}.

(** ** The state monad of member functions *)

Definition M (A : Type) : Type := QUICNetVConnection -> A * QUICNetVConnection.

Definition ret {A} (a : A) : M A := fun c => (a, c).

Definition bind {A B} (m : M A) (k : A -> M B) : M B :=
  fun c => let (a, c') := m c in k a c'.

Declare Scope conn_scope.
Delimit Scope conn_scope with conn.
Notation "x <- m ;; k" := (bind m (fun x => k))
  (at level 61, m at next level, right associativity) : conn_scope.
Notation "m ;; k" := (bind m (fun _ => k))
  (at level 61, right associativity) : conn_scope.
Open Scope conn_scope.

(** Read a member; assign to one through a field update. *)
Definition gets {A} (f : QUICNetVConnection -> A) : M A := fun c => (f c, c).
Definition modify (f : QUICNetVConnection -> QUICNetVConnection) : M unit :=
  fun c => (tt, f c).

(** Hand something to a collaborator. *)
Definition call (x : Call) : M unit :=
  modify (fun c => set_trace (x :: trace c) c).

(** [when b m]: [if (b) { m }]. *)
Definition when (b : bool) (m : M unit) : M unit := if b then m else ret tt.

Definition exec {A} (m : M A) (c : QUICNetVConnection) : QUICNetVConnection :=
  snd (m c).
Definition eval {A} (m : M A) (c : QUICNetVConnection) : A := fst (m c).

Section Connection.

Variable env : Env.

(** Ask a collaborator. *)
Definition ask {A} (q : Env -> Trace -> A) : M A :=
  fun c => (q env (trace c), c).

Definition direction : M NetVConnectionContext_t := gets netvc_context.

(** [_rnd()]: one draw of the random engine. *)
Definition _rnd : M Z :=
  r <- ask rnd ;;
  call C_rnd ;;
  ret r.

(** *** Packet sizes (lines 383-411) *)

Definition minimum_quic_packet_size : M Z :=
  ctx <- gets netvc_context ;;
  if context_eqb ctx NET_VCONNECTION_OUT
  then ret MINIMUM_INITIAL_PACKET_SIZE
  else
    r <- _rnd ;;
    ret (32 + Z.land r 0x3f).

Definition maximum_quic_packet_size (c : QUICNetVConnection) : Z :=
  match ip_family c with
  | PF_INET6 => u32 (u32 (_pmtu c - UDP_HEADER_SIZE) - IPV6_HEADER_SIZE)
  | PF_INET => u32 (u32 (_pmtu c - UDP_HEADER_SIZE) - IPV4_HEADER_SIZE)
  end.

Definition _maximum_stream_frame_data_size (c : QUICNetVConnection) : Z :=
  u32 (u32 (maximum_quic_packet_size c - MAX_STREAM_FRAME_OVERHEAD)
       - MAX_PACKET_OVERHEAD).

(** *** Scheduling (lines 1558-1645, 1670-1695)

    [_schedule_packet_write_ready(bool delay)] is called without an argument
    by [handle_frame] and [_switch_to_closing_state]: the write is then
    scheduled at once ([delay] defaults to [false] in the class
    declaration). *)

Definition _schedule_packet_write_ready (delay : bool) : M unit :=
  pending <- gets _packet_write_ready ;;
  when (negb pending)
    ((if delay
      then call (C_schedule_in QUIC_EVENT_PACKET_WRITE_READY WRITE_READY_INTERVAL)
      else call (C_schedule_imm QUIC_EVENT_PACKET_WRITE_READY)) ;;
     modify (set_packet_write_ready true)).

Definition _unschedule_packet_write_ready : M unit :=
  pending <- gets _packet_write_ready ;;
  when pending
    (call (C_cancel QUIC_EVENT_PACKET_WRITE_READY) ;;
     modify (set_packet_write_ready false)).

Definition _close_packet_write_ready : M unit :=
  modify (set_packet_write_ready false).

Definition _schedule_closing_timeout (interval : Z) : M unit :=
  pending <- gets _closing_timeout ;;
  when (negb pending)
    (call (C_schedule_in_local QUIC_EVENT_CLOSING_TIMEOUT interval) ;;
     modify (set_closing_timeout true)).

Definition _unschedule_closing_timeout : M unit :=
  pending <- gets _closing_timeout ;;
  when pending
    (call (C_cancel QUIC_EVENT_CLOSING_TIMEOUT) ;;
     modify (set_closing_timeout false)).

Definition _close_closing_timeout : M unit :=
  modify (set_closing_timeout false).

Definition _schedule_closed_event : M unit :=
  pending <- gets _closed_event ;;
  when (negb pending)
    (call (C_schedule_imm QUIC_EVENT_SHUTDOWN) ;;
     modify (set_closed_event true)).

Definition _close_closed_event : M unit :=
  modify (set_closed_event false).

Definition _schedule_path_validation_timeout (interval : Z) : M unit :=
  pending <- gets _path_validation_timeout ;;
  when (negb pending)
    (call (C_schedule_in_local QUIC_EVENT_PATH_VALIDATION_TIMEOUT interval) ;;
     modify (set_path_validation_timeout true)).

Definition _unschedule_path_validation_timeout : M unit :=
  pending <- gets _path_validation_timeout ;;
  when pending
    (call (C_cancel QUIC_EVENT_PATH_VALIDATION_TIMEOUT) ;;
     modify (set_path_validation_timeout false)).

Definition _close_path_validation_timeout : M unit :=
  modify (set_path_validation_timeout false).

(** The closing timer period: [3 * rto], [rto] read from the loss detector of
    the current encryption level's packet number space.  [ink_hrtime] is a
    signed 64-bit count: the product wraps around. *)
Definition closing_period : M Z :=
  level <- ask hsp_current_encryption_level ;;
  rto <- ask (fun e t => ld_current_rto_period e t (pn_space_index env level)) ;;
  ret (int64 (3 * rto)).

(** *** Handshake completion and the switch to closing (lines 1464-1486,
    1647-1668, 1697-1778)

    [close] calls [_switch_to_closing_state], which calls
    [_complete_handshake_if_possible], which calls [_start_application],
    which on a missing endpoint calls [_handle_error], which calls [close].
    The functions are first written with that innermost call left open
    ([handle_error]); [close] below ties the knot. *)

Definition _init_flow_control_params
  (local_tp remote_tp : option QUICTransportParameters) : M unit :=
  call (C_sm_init_flow_control_params local_tp remote_tp) ;;
  match local_tp with
  | Some tp => modify (set_flow_control_buffer_size (tp_initial_max_data tp))
  | None => ret tt
  end ;;
  let local_initial_max_data :=
    match local_tp with Some tp => tp_initial_max_data tp | None => 0 end in
  let remote_initial_max_data :=
    match remote_tp with Some tp => tp_initial_max_data tp | None => 0 end in
  call (C_lfc_set_limit local_initial_max_data) ;;
  call (C_rfc_set_limit remote_initial_max_data).

Section OpenRecursion.

Variable handle_error : QUICConnectionError -> M unit.

Definition _start_application_rec : M unit :=
  started <- gets _application_started ;;
  when (negb started)
    (modify (set_application_started true) ;;
     name <- ask hs_negotiated_application_name ;;
     let app_name :=
       match name with Some n => n | None => IP_PROTO_TAG_HTTP_QUIC env end in
     ctx <- gets netvc_context ;;
     if context_eqb ctx NET_VCONNECTION_IN
     then
       found <- ask (fun e t => np_findEndpoint e t app_name) ;;
       if found
       then call (C_app_handleEvent NET_EVENT_ACCEPT)
       else handle_error (QUICConnectionError_trans VERSION_NEGOTIATION_ERROR)
     else call (C_app_handleEvent NET_EVENT_OPEN)).

Definition _complete_handshake_if_possible_rec : M Z :=
  h <- gets handler ;;
  if negb (Handler.eqb h Handler.state_handshake) then ret 0
  else
    present <- gets _handshake_handler ;;
    completed <- ask hs_is_completed ;;
    if negb (present && completed) then ret (-1)
    else
      ctx <- gets netvc_context ;;
      has_tp <- ask hs_has_remote_tp ;;
      if context_eqb ctx NET_VCONNECTION_OUT && negb has_tp then ret (-1)
      else
        local_tp <- ask hs_local_transport_parameters ;;
        remote_tp <- ask hs_remote_transport_parameters ;;
        _init_flow_control_params local_tp remote_tp ;;
        _start_application_rec ;;
        ret 0.

Definition _switch_to_closing_state_rec (error : QUICConnectionError) : M unit :=
  _complete_handshake_if_possible_rec ;;
  modify (set_connection_error (Some error)) ;;
  _schedule_packet_write_ready false ;;
  call C_remove_from_active_queue ;;
  call (C_set_inactivity_timeout 0) ;;
  period <- closing_period ;;
  modify (set_handler Handler.state_connection_closing) ;;
  _schedule_closing_timeout period.

Definition close_rec (error : QUICConnectionError) : M unit :=
  h <- gets handler ;;
  if Handler.eqb h Handler.state_connection_closed
     || Handler.eqb h Handler.state_connection_closing
  then ret tt
  else _switch_to_closing_state_rec error.

End OpenRecursion.

(** [_start_application] sets [_application_started] before it can call
    [_handle_error], and does nothing when the flag is set: the calls nest
    at most twice ([close_unfold] below shows that [close] satisfies its own
    defining equation). *)
Fixpoint close_nested (depth : nat) : QUICConnectionError -> M unit :=
  match depth with
  | O => fun _ => ret tt
  | S d => close_rec (close_nested d)
  end.

Definition close : QUICConnectionError -> M unit := close_nested 2.

Definition _handle_error (error : QUICConnectionError) : M unit := close error.

Definition _start_application : M unit := _start_application_rec _handle_error.

Definition _complete_handshake_if_possible : M Z :=
  _complete_handshake_if_possible_rec _handle_error.

Definition _switch_to_closing_state : QUICConnectionError -> M unit :=
  _switch_to_closing_state_rec _handle_error.

Definition _switch_to_draining_state (error : QUICConnectionError) : M unit :=
  _complete_handshake_if_possible ;;
  call C_remove_from_active_queue ;;
  call (C_set_inactivity_timeout 0) ;;
  period <- closing_period ;;
  modify (set_handler Handler.state_connection_draining) ;;
  _schedule_closing_timeout period.

Definition _switch_to_close_state : M unit :=
  _unschedule_closing_timeout ;;
  _unschedule_path_validation_timeout ;;
  _complete_handshake_if_possible ;;
  modify (set_handler Handler.state_connection_closed) ;;
  _schedule_closed_event.

Definition _handle_path_validation_timeout : M unit :=
  _close_path_validation_timeout ;;
  validated <- ask pv_is_validated ;;
  when (negb validated) _switch_to_close_state.

(** *** Frame handling (lines 449-518) *)

Definition interests : list QUICFrameType.t :=
  [QUICFrameType.APPLICATION_CLOSE; QUICFrameType.CONNECTION_CLOSE;
   QUICFrameType.BLOCKED; QUICFrameType.MAX_DATA;
   QUICFrameType.NEW_CONNECTION_ID].

Definition _handle_frame (frame : QUICFrame) : M (option QUICConnectionError) :=
  if cid_eqb (frame_connection_id frame) QUICConnectionId_ZERO
  then ret (Some (QUICConnectionError_trans_frame PROTOCOL_VIOLATION
                    "received zero-length cid" QUICFrameType.NEW_CONNECTION_ID))
  else
    alt <- gets _remote_alt_cids ;;
    modify (set_remote_alt_cids (alt ++ [frame_connection_id frame])) ;;
    ret None.

Definition handle_frame (level : QUICEncryptionLevel.t) (frame : QUICFrame)
  : M (option QUICConnectionError) :=
  match frame_type frame with
  | QUICFrameType.MAX_DATA =>
      call (C_rfc_forward_limit (maximum_data frame)) ;;
      _schedule_packet_write_ready false ;;
      ret None
  | QUICFrameType.PING => ret None
  | QUICFrameType.BLOCKED => ret None
  | QUICFrameType.NEW_CONNECTION_ID => _handle_frame frame
  | QUICFrameType.APPLICATION_CLOSE | QUICFrameType.CONNECTION_CLOSE =>
      h <- gets handler ;;
      if Handler.eqb h Handler.state_connection_closed
         || Handler.eqb h Handler.state_connection_draining
      then ret None
      else
        (if QUICFrameType.eqb (frame_type frame) QUICFrameType.APPLICATION_CLOSE
         then _switch_to_draining_state
                (QUICConnectionError_app (frame_error_code frame))
         else _switch_to_draining_state
                (QUICConnectionError_trans (frame_error_code frame))) ;;
        ret None
  | _ => ret None
  end.

(** *** The frame dispatcher *)

(** Modelled from the spec: [QUICFrameDispatcher::receive_frames], whose code
    is in QUICFrameDispatcher.cc.  The spec has it route the frames of a
    payload to the registered handlers, stop at the first handler error, and
    return [(should_send_ack, is_flow_controlled, error?)].  The connection
    registers itself for [interests] ([add_handler(this)] in [start]), so
    frames of those types reach [handle_frame]; every other frame goes to a
    handler that is a collaborator. *)
Fixpoint dispatch_frames (level : QUICEncryptionLevel.t) (frames : list QUICFrame)
  : M (option QUICConnectionError) :=
  match frames with
  | [] => ret None
  | f :: rest =>
      error <-
        (if existsb (QUICFrameType.eqb (frame_type f)) interests
         then handle_frame level f
         else
           e <- ask (fun e t => fh_handle_frame e t level f) ;;
           call (C_dispatch_frame level f) ;;
           ret e) ;;
      match error with
      | Some e => ret (Some e)
      | None => dispatch_frames level rest
      end
  end.

Definition receive_frames (level : QUICEncryptionLevel.t) (frames : list QUICFrame)
  : M (option QUICConnectionError * bool * bool) :=
  error <- dispatch_frames level frames ;;
  should_send_ack <- ask (fun e t => fd_should_send_ack e t level frames) ;;
  is_flow_controlled <- ask (fun e t => fd_is_flow_controlled e t level frames) ;;
  ret (error, should_send_ack, is_flow_controlled).

(** *** [_recv_and_ack] (lines 1386-1425) *)

Definition _recv_and_ack (packet : QUICPacket) : M (option QUICConnectionError) :=
  let packet_num := packet_number packet in
  let level := encryption_level env (pkt_type packet) in
  r <- receive_frames level (payload packet) ;;
  let '(error, should_send_ack, is_flow_controlled) := r in
  match error with
  | Some e => ret (Some e)
  | None =>
      let should_send_ack :=
        if QUICPacketType.eqb (pkt_type packet) QUICPacketType.RETRY
        then false else should_send_ack in
      if is_flow_controlled
      then
        offset <- ask sm_total_offset_received ;;
        result <- ask (fun e t => lfc_update e t offset) ;;
        call (C_lfc_update offset) ;;
        if negb (result =? 0)
        then ret (Some (QUICConnectionError_trans FLOW_CONTROL_ERROR))
        else
          reordered <- ask sm_total_reordered_bytes ;;
          buffer_size <- gets _flow_control_buffer_size ;;
          call (C_lfc_forward_limit (u64 (reordered + buffer_size))) ;;
          call (C_ack_update level packet_num should_send_ack) ;;
          ret None
      else
        call (C_ack_update level packet_num should_send_ack) ;;
        ret None
  end.

(** *** The receive queue (lines 1488-1540) *)

Definition _update_peer_cid (new_cid : QUICConnectionId) : M unit :=
  modify (set_peer_quic_connection_id new_cid).

(** Modelled from the spec: [QUICPacketReceiveQueue::dequeue] (section 4.7), a
    FIFO whose [dequeue] returns [(packet, result)], [NO_PACKET] when empty. *)
Definition QUICPacketReceiveQueue_dequeue
  : M (option QUICPacket * QUICPacketCreationResult) :=
  q <- gets _packet_recv_queue ;;
  match q with
  | [] => ret (None, NO_PACKET)
  | d :: q' =>
      modify (set_packet_recv_queue q') ;;
      match d with
      | Decodable p => ret (Some p, SUCCESS)
      | Undecodable r => ret (None, r)
      end
  end.

Definition _dequeue_recv_packet
  : M (option QUICPacket * QUICPacketCreationResult) :=
  r <- QUICPacketReceiveQueue_dequeue ;;
  match r with
  | (Some packet, SUCCESS) =>
      ctx <- direction ;;
      when (context_eqb ctx NET_VCONNECTION_OUT)
        (let src_cid := source_cid packet in
         when (negb (cid_eqb src_cid QUICConnectionId_ZERO))
           (peer <- gets _peer_quic_connection_id ;;
            when (negb (cid_eqb peer src_cid)) (_update_peer_cid src_cid))) ;;
      modify (set_last_received_packet_type (pkt_type packet)) ;;
      ret r
  | _ => ret r
  end.

(** [QUICNetVConnection::handle_received_packet] *)
Definition handle_received_packet (d : Datagram) : M unit :=
  q <- gets _packet_recv_queue ;;
  modify (set_packet_recv_queue (q ++ [d])).

(** *** Building packets (lines 1427-1470) *)

Definition largest_acked_packet_number (level : QUICEncryptionLevel.t) : M Z :=
  ask (fun e t => ld_largest_acked_packet_number e t (pn_space_index e level)).

(** Modelled from the spec: the packet codec ([QUICPacketFactory], whose code
    is in QUICPacket.cc) builds and protects outbound packets.  Here it
    returns a packet with the fields it was given and the next number the
    factory has for the type, or the null packet. *)
Definition create_packet (type : QUICPacketType.t) (dcid scid : QUICConnectionId)
  (base : Z) (buf : list QUICFrame) (len : Z) (retransmittable probing : bool)
  : M (option QUICPacket) :=
  r <- ask (fun e t => pf_create_packet e t type) ;;
  match r with
  | None => ret None
  | Some pn =>
      let p := {| pkt_type := type; destination_cid := dcid; source_cid := scid;
                  packet_number := pn; base_packet_number := base; payload := buf;
                  payload_length := len; is_retransmittable := retransmittable;
                  is_probing_packet := probing |} in
      call (C_create_packet p) ;;
      ret (Some p)
  end.

Definition _build_packet_of_type (buf : list QUICFrame) (len : Z)
  (retransmittable probing : bool) (type : QUICPacketType.t)
  : M (option QUICPacket) :=
  ctx <- gets netvc_context ;;
  local <- gets _quic_connection_id ;;
  peer <- gets _peer_quic_connection_id ;;
  original <- gets _original_quic_connection_id ;;
  match type with
  | QUICPacketType.INITIAL =>
      let dcid := if context_eqb ctx NET_VCONNECTION_OUT then original else peer in
      base <- largest_acked_packet_number QUICEncryptionLevel.INITIAL ;;
      create_packet type dcid local base buf len retransmittable probing
  | QUICPacketType.RETRY =>
      create_packet type peer local 0 buf len retransmittable probing
  | QUICPacketType.HANDSHAKE =>
      base <- largest_acked_packet_number QUICEncryptionLevel.HANDSHAKE ;;
      create_packet type peer local base buf len retransmittable probing
  | QUICPacketType.PROTECTED =>
      base <- largest_acked_packet_number QUICEncryptionLevel.ONE_RTT ;;
      create_packet type peer QUICConnectionId_ZERO base buf len
        retransmittable probing
  | _ => ret None
  end.

Definition _build_packet (level : QUICEncryptionLevel.t) (buf : list QUICFrame)
  (len : Z) (retransmittable probing : bool) : M (option QUICPacket) :=
  _build_packet_of_type buf len retransmittable probing (packet_type level).

(** *** Closing and draining (lines 1026-1071, 1171-1188, 1354-1384) *)

(** The locals [buf], [len] and [max_frame_size] that [_store_frame] updates
    through its reference parameters. *)
Record FrameBuffer := {
  buf : list QUICFrame;
  len : Z;
  max_frame_size : Z
}.

Definition _store_frame (b : FrameBuffer) (frame : QUICFrame) : FrameBuffer :=
  let l := frame_store env frame (max_frame_size b) in
  {| buf := buf b ++ [frame];
     len := u64 (len b + l);
     max_frame_size := u64 (max_frame_size b - l) |}.

(** [QUICFrameFactory::create_{application,connection}_close_frame]. *)
Definition create_close_frame (type : QUICFrameType.t) (error : QUICConnectionError)
  : QUICFrame :=
  {| frame_type := type; maximum_data := 0; frame_error_code := code error;
     frame_connection_id := QUICConnectionId_ZERO; is_probing_frame := false |}.

Definition _packetize_closing_frame : M unit :=
  error <- gets _connection_error ;;
  match error with
  | None => ret tt
  | Some e =>
      let frame :=
        match cls e with
        | APPLICATION => create_close_frame QUICFrameType.APPLICATION_CLOSE e
        | _ => create_close_frame QUICFrameType.CONNECTION_CLOSE e
        end in
      (* the error object is moved into the frame *)
      modify (set_connection_error None) ;;
      max_size <- gets maximum_quic_packet_size ;;
      let b := _store_frame {| buf := []; len := 0; max_frame_size := max_size |}
                 frame in
      level <- ask hsp_current_encryption_level ;;
      packet <- _build_packet level (buf b) (len b) false false ;;
      modify (set_the_final_packet packet)
  end.

Definition _state_closing_send_packet : M (option QUICConnectionError) :=
  _packetize_closing_frame ;;
  final <- gets _the_final_packet ;;
  match final with
  | Some p => call (C_send_packet [p])
  | None => ret tt
  end ;;
  ret None.

(** One turn of the [while] loop of [_state_closing_receive_packet]; the
    result says whether the loop was left through [break]. *)
Definition _state_closing_receive_packet_body : M bool :=
  r <- _dequeue_recv_packet ;;
  match r with
  | (Some packet, SUCCESS) =>
      if QUICPacketType.eqb (pkt_type packet) QUICPacketType.VERSION_NEGOTIATION
      then ret tt
      else (_recv_and_ack packet ;; ret tt)
  | _ => ret tt
  end ;;
  count <- gets _state_closing_recv_packet_count ;;
  modify (set_state_closing_recv_packet_count (u32 (count + 1))) ;;
  window <- gets _state_closing_recv_packet_window ;;
  count <- gets _state_closing_recv_packet_count ;;
  if (window <? STATE_CLOSING_MAX_RECV_PKT_WIND) && (window <=? count)
  then
    modify (set_state_closing_recv_packet_count 0) ;;
    modify (set_state_closing_recv_packet_window (u32 (Z.shiftl window 1))) ;;
    _schedule_packet_write_ready true ;;
    ret true
  else ret false.

(** The loop runs while the queue is not empty; every turn takes one
    datagram off the queue, so [turns] = the queue's length is enough
    ([closing_receive_turns] below). *)
Fixpoint _state_closing_receive_packet_loop (turns : nat) : M unit :=
  match turns with
  | O => ret tt
  | S turns' =>
      q <- gets _packet_recv_queue ;;
      if 0 <? Z.of_nat (length q)
      then
        stop <- _state_closing_receive_packet_body ;;
        if stop then ret tt else _state_closing_receive_packet_loop turns'
      else ret tt
  end.

Definition _state_closing_receive_packet : M (option QUICConnectionError) :=
  q <- gets _packet_recv_queue ;;
  _state_closing_receive_packet_loop (length q) ;;
  ret None.

Definition _state_draining_receive_packet_body : M unit :=
  r <- _dequeue_recv_packet ;;
  match r with
  | (Some packet, SUCCESS) => _recv_and_ack packet ;; ret tt
  | _ => ret tt
  end.

Fixpoint _state_draining_receive_packet_loop (turns : nat) : M unit :=
  match turns with
  | O => ret tt
  | S turns' =>
      q <- gets _packet_recv_queue ;;
      if 0 <? Z.of_nat (length q)
      then
        _state_draining_receive_packet_body ;;
        _state_draining_receive_packet_loop turns'
      else ret tt
  end.

Definition _state_draining_receive_packet : M (option QUICConnectionError) :=
  q <- gets _packet_recv_queue ;;
  _state_draining_receive_packet_loop (length q) ;;
  ret None.

(** *** The handlers of the closing, draining and closed states
    (lines 654-752) *)

Definition state_connection_closing (event : QUICEvent) : M EventResult :=
  match event with
  | QUIC_EVENT_PACKET_READ_READY => _state_closing_receive_packet ;; ret tt
  | QUIC_EVENT_PACKET_WRITE_READY =>
      _close_packet_write_ready ;;
      _state_closing_send_packet ;;
      ret tt
  | QUIC_EVENT_PATH_VALIDATION_TIMEOUT => _handle_path_validation_timeout
  | QUIC_EVENT_CLOSING_TIMEOUT =>
      _close_closing_timeout ;;
      _switch_to_close_state
  | _ => ret tt
  end ;;
  ret EVENT_DONE.

Definition state_connection_draining (event : QUICEvent) : M EventResult :=
  match event with
  | QUIC_EVENT_PACKET_READ_READY => _state_draining_receive_packet ;; ret tt
  | QUIC_EVENT_PACKET_WRITE_READY => _close_packet_write_ready
  | QUIC_EVENT_PATH_VALIDATION_TIMEOUT => _handle_path_validation_timeout
  | QUIC_EVENT_CLOSING_TIMEOUT =>
      _close_closing_timeout ;;
      _switch_to_close_state
  | _ => ret tt
  end ;;
  ret EVENT_DONE.

(** Modelled from the spec: [QUIC_PN_SPACES] (QUICTypes.h), the three packet
    number spaces Initial, Handshake and Application, as loss detector
    indices. *)
Definition QUIC_PN_SPACES : list Z := [0; 1; 2].

Fixpoint shutdown_loss_detectors (spaces : list Z) : M unit :=
  match spaces with
  | [] => ret tt
  | s :: rest => call (C_ld_shutdown s) ;; shutdown_loss_detectors rest
  end.

(** [QUICNetVConnection::free] (lines 243-268): with its clean-up commented
    out, it hands the connection to the packet handler, which [init] has
    set. *)
Definition free : M unit := call C_close_connection.

Definition state_connection_closed (event : QUICEvent) : M EventResult :=
  match event with
  | QUIC_EVENT_SHUTDOWN =>
      _unschedule_packet_write_ready ;;
      _unschedule_closing_timeout ;;
      _unschedule_path_validation_timeout ;;
      _close_closed_event ;;
      call C_clear_timeouts ;;
      shutdown_loss_detectors QUIC_PN_SPACES ;;
      net_handler <- gets nh ;;
      if net_handler then call C_free_netvc else free
  | QUIC_EVENT_PACKET_WRITE_READY => _close_packet_write_ready
  | _ => ret tt
  end ;;
  ret EVENT_DONE.

(** [Continuation::handleEvent]: the event goes to the current handler.  The
    handlers of the states before closing are not part of this development:
    for them the result is [None]. *)
Definition handleEvent (event : QUICEvent) (c : QUICNetVConnection)
  : option QUICNetVConnection :=
  match handler c with
  | Handler.state_connection_closing => Some (exec (state_connection_closing event) c)
  | Handler.state_connection_draining => Some (exec (state_connection_draining event) c)
  | Handler.state_connection_closed => Some (exec (state_connection_closed event) c)
  | _ => None
  end.

(** What happens to a connection from outside: a datagram is queued
    ([handle_received_packet]), an event is delivered, or [close] is
    called. *)
Inductive Input :=
| Receive (d : Datagram)
| Deliver (event : QUICEvent)
| Close (error : QUICConnectionError).

Definition input (i : Input) (c : QUICNetVConnection) : option QUICNetVConnection :=
  match i with
  | Receive d => Some (exec (handle_received_packet d) c)
  | Deliver event => handleEvent event c
  | Close error => Some (exec (close error) c)
  end.

Fixpoint inputs (l : list Input) (c : QUICNetVConnection)
  : option QUICNetVConnection :=
  match l with
  | [] => Some c
  | i :: rest =>
      match input i c with
      | Some c' => inputs rest c'
      | None => None
      end
  end.

(** *** The packetizer (lines 1190-1352)

    The [while (frame)] loops of [_packetize_frames] end when a generator
    returns no frame, which is up to the generator.  The loops take [fuel];
    a function that runs out of it returns [None] (the state is the one
    reached so far). *)

Definition bind_fuel {A B} (m : M (option A)) (k : A -> M (option B))
  : M (option B) :=
  r <- m ;;
  match r with
  | Some a => k a
  | None => ret None
  end.

Notation "x <-? m ;; k" := (bind_fuel m (fun x => k))
  (at level 61, m at next level, right associativity) : conn_scope.

(** The locals of [_packetize_frames]. *)
Record Packetizing := {
  frames : FrameBuffer;
  frame_count : Z;
  probing : bool
}.

(** [++frame_count; probing |= frame->is_probing_frame();
     this->_store_frame(buf, len, max_frame_size, std::move(frame));] *)
Definition add_frame (st : Packetizing) (frame : QUICFrame) : Packetizing :=
  {| frames := _store_frame (frames st) frame;
     frame_count := frame_count st + 1;
     probing := probing st || is_probing_frame frame |}.

Definition generate (g : FrameGenerator) (level : QUICEncryptionLevel.t)
  (connection_credit maximum_frame_size : Z) : M (option QUICFrame) :=
  frame <- ask (fun e t =>
                  generate_frame e t g level connection_credit maximum_frame_size) ;;
  call (C_generate_frame g level connection_credit maximum_frame_size) ;;
  ret frame.

(** [frame = g->generate_frame(..); while (frame) { ..; frame = g->generate_frame(..); }] *)
Fixpoint generate_while (fuel : nat) (g : FrameGenerator)
  (level : QUICEncryptionLevel.t) (st : Packetizing) : M (option Packetizing) :=
  frame <- generate g level UINT16_MAX (max_frame_size (frames st)) ;;
  match frame with
  | None => ret (Some st)
  | Some f =>
      match fuel with
      | O => ret None
      | S fuel' => generate_while fuel' g level (add_frame st f)
      end
  end.

(** [frame = g->generate_frame(..); if (frame) { .. }] *)
Definition generate_once (g : FrameGenerator) (level : QUICEncryptionLevel.t)
  (st : Packetizing) : M Packetizing :=
  frame <- generate g level UINT16_MAX (max_frame_size (frames st)) ;;
  match frame with
  | None => ret st
  | Some f => ret (add_frame st f)
  end.

(** The STREAM loop, left through [break] after every
    [MAX_CONSECUTIVE_STREAMS]-th frame. *)
Fixpoint generate_streams (fuel : nat) (level : QUICEncryptionLevel.t)
  (st : Packetizing) : M (option Packetizing) :=
  credit <- ask rfc_credit ;;
  frame <- generate GEN_stream_manager level credit (max_frame_size (frames st)) ;;
  match frame with
  | None => ret (Some st)
  | Some f =>
      when (QUICFrameType.eqb (frame_type f) QUICFrameType.STREAM)
        (offset <- ask sm_total_offset_sent ;;
         call (C_rfc_update offset)) ;;
      let st' := add_frame st f in
      sent <- gets _stream_frames_sent ;;
      modify (set_stream_frames_sent (u32 (sent + 1))) ;;
      if (u32 (sent + 1)) mod MAX_CONSECUTIVE_STREAMS =? 0
      then ret (Some st')
      else
        match fuel with
        | O => ret None
        | S fuel' => generate_streams fuel' level st'
        end
  end.

Definition _packetize_frames (fuel : nat) (level : QUICEncryptionLevel.t)
  (max_packet_size : Z) : M (option (option QUICPacket)) :=
  if max_packet_size <=? MAX_PACKET_OVERHEAD then ret (Some None)
  else
    limit <- gets _maximum_stream_frame_data_size ;;
    let st := {| frames := {| buf := []; len := 0;
                              max_frame_size :=
                                Z.min (u64 (max_packet_size - MAX_PACKET_OVERHEAD))
                                      limit |};
                 frame_count := 0; probing := false |} in
    (* CRYPTO *)
    st <-? generate_while fuel GEN_handshake_handler level st ;;
    (* PATH_CHALLENGE, PATH_RESPONSE *)
    st <- generate_once GEN_path_validator level st ;;
    (* NEW_CONNECTION_ID *)
    acm <- gets _alt_con_manager ;;
    st <-? (if acm then generate_while fuel GEN_alt_con_manager level st
            else ret (Some st)) ;;
    (* Lost frames *)
    st <-? generate_while fuel GEN_packet_retransmitter level st ;;
    (* MAX_DATA *)
    st <- generate_once GEN_local_flow_controller level st ;;
    (* BLOCKED *)
    credit <- ask rfc_credit ;;
    pending <- ask (fun e t => sm_will_generate_frame e t level) ;;
    st <- (if (credit =? 0) && pending
           then generate_once GEN_remote_flow_controller level st
           else ret st) ;;
    (* STREAM, MAX_STREAM_DATA, STREAM_BLOCKED *)
    validating <- ask pv_is_validating ;;
    st <-? (if negb validating then generate_streams fuel level st
            else ret (Some st)) ;;
    (* ACK *)
    due <- ask (fun e t => ack_will_generate_frame e t level) ;;
    frame <- (if (frame_count st =? 0) && negb due then ret None
              else generate GEN_ack_frame_creator level UINT16_MAX
                     (max_frame_size (frames st))) ;;
    let ack_only :=
      match frame with Some _ => frame_count st =? 0 | None => false end in
    let st := match frame with Some f => add_frame st f | None => st end in
    (* Schedule a packet *)
    if negb (len (frames st) =? 0)
    then
      ctx <- gets netvc_context ;;
      padded_len <-
        (if QUICEncryptionLevel.eqb level QUICEncryptionLevel.INITIAL
            && context_eqb ctx NET_VCONNECTION_OUT
         then
           min_size <- minimum_quic_packet_size ;;
           let min_size := Z.min min_size max_packet_size in
           ret (if len (frames st) <? min_size then min_size
                else len (frames st))
         else ret (len (frames st))) ;;
      packet <- _build_packet level (buf (frames st)) padded_len (negb ack_only)
                  (probing st) ;;
      ret (Some packet)
    else ret (Some None).

(** *** The send loop (lines 1073-1148) *)

(** The locals of [_state_common_send_packet] that live across one UDP
    payload: [written], [packet_count], [error], and the packets stored in
    the payload so far. *)
Record Sending := {
  written : Z;
  packet_count : Z;
  error : Z;
  stored : list QUICPacket
}.

Definition _is_src_addr_verified : M bool := gets _src_addr_verified.

(** The [for (auto level : QUIC_ENCRYPTION_LEVELS)] loop. *)
Fixpoint send_levels (fuel : nat) (levels : list QUICEncryptionLevel.t)
  (udp_payload_len : Z) (s : Sending) : M (option Sending) :=
  match levels with
  | [] => ret (Some s)
  | level :: rest =>
      ctx <- gets netvc_context ;;
      verified <- _is_src_addr_verified ;;
      sent <- gets _handshake_packets_sent ;;
      if context_eqb ctx NET_VCONNECTION_IN && negb verified
         && (MAX_PACKETS_WITHOUT_SRC_ADDR_VARIDATION <=? sent)
      then ret (Some {| written := written s; packet_count := packet_count s;
                        error := 1; stored := stored s |})
      else
        let max_packet_size := u32 (udp_payload_len - written s) in
        packet <-? _packetize_frames fuel level max_packet_size ;;
        match packet with
        | None => send_levels fuel rest udp_payload_len s
        | Some p =>
            when (context_eqb ctx NET_VCONNECTION_IN
                  && (QUICPacketType.eqb (pkt_type p) QUICPacketType.INITIAL
                      || QUICPacketType.eqb (pkt_type p) QUICPacketType.HANDSHAKE))
              (modify (set_handshake_packets_sent (u32 (sent + 1)))) ;;
            let stored_len := packet_store env p in
            call (C_on_packet_sent (pn_space_index env level) p) ;;
            send_levels fuel rest udp_payload_len
              {| written := u32 (written s + stored_len);
                 packet_count := u32 (packet_count s + 1);
                 error := error s;
                 stored := stored s ++ [p] |}
        end
  end.

(** The [while (error == 0 && packet_count < PACKET_PER_EVENT)] loop; the
    result is [packet_count].  Every turn that goes round again has sent a
    datagram with at least one packet in it, so the loop takes at most
    [PACKET_PER_EVENT] turns ([send_datagrams_turns] below): [turns] only
    makes the recursion structural. *)
Fixpoint send_datagrams (fuel : nat) (turns : nat) (count err : Z)
  : M (option Z) :=
  if (err =? 0) && (count <? PACKET_PER_EVENT)
  then
    window <- ask cc_open_window ;;
    if window =? 0 then ret (Some count)
    else
      pmtu <- gets _pmtu ;;
      let udp_payload_len := Z.min window pmtu in
      s <-? send_levels fuel QUIC_ENCRYPTION_LEVELS udp_payload_len
              {| written := 0; packet_count := count; error := err;
                 stored := [] |} ;;
      if negb (written s =? 0)
      then
        call (C_send_packet (stored s)) ;;
        match turns with
        | O => ret None
        | S turns' => send_datagrams fuel turns' (packet_count s) (error s)
        end
      else ret (Some (packet_count s))
  else ret (Some count).

Definition _state_common_send_packet (fuel : nat)
  : M (option (option QUICConnectionError)) :=
  count <-? send_datagrams fuel (Z.to_nat PACKET_PER_EVENT) 0 0 ;;
  when (negb (count =? 0))
    (call (C_stat_packets_sent count) ;;
     call C_net_activity) ;;
  ret (Some None).

End Connection.

(** ** Concrete connections and environments

    Used for the examples, witnesses and counterexamples below. *)

Definition frame_of (type : QUICFrameType.t) : QUICFrame :=
  {| frame_type := type; maximum_data := 0; frame_error_code := NO_ERROR;
     frame_connection_id := QUICConnectionId_ZERO; is_probing_frame := false |}.

Definition max_data_frame (limit : Z) : QUICFrame :=
  {| frame_type := QUICFrameType.MAX_DATA; maximum_data := limit;
     frame_error_code := NO_ERROR;
     frame_connection_id := QUICConnectionId_ZERO; is_probing_frame := false |}.

(** A received packet of a type, with a number and a payload. *)
Definition received (type : QUICPacketType.t) (number : Z) (fs : list QUICFrame)
  : QUICPacket :=
  {| pkt_type := type; destination_cid := [1; 2; 3; 4]; source_cid := [5; 6; 7; 8];
     packet_number := number; base_packet_number := 0; payload := fs;
     payload_length := 20 * Z.of_nat (length fs); is_retransmittable := true;
     is_probing_packet := false |}.

Definition is_packet_built (x : Call) : bool :=
  match x with C_create_packet _ => true | _ => false end.

Definition is_datagram_sent (x : Call) : bool :=
  match x with C_send_packet _ => true | _ => false end.

Definition is_packet_handed_to_loss_detector (x : Call) : bool :=
  match x with C_on_packet_sent _ _ => true | _ => false end.

Definition is_write_ready_scheduled (x : Call) : bool :=
  match x with
  | C_schedule_imm QUIC_EVENT_PACKET_WRITE_READY
  | C_schedule_in QUIC_EVENT_PACKET_WRITE_READY _ => true
  | _ => false
  end.

(** How often a trace holds a call of a kind. *)
Definition count (kind : Call -> bool) (t : Trace) : Z :=
  Z.of_nat (length (filter kind t)).

(** [QUICAckFrameCreator::update] calls of a trace, most recent first. *)
Fixpoint ack_updates (t : Trace) : list (QUICEncryptionLevel.t * Z * bool) :=
  match t with
  | [] => []
  | C_ack_update level pn b :: t' => (level, pn, b) :: ack_updates t'
  | _ :: t' => ack_updates t'
  end.

(** An environment in which the handshake is complete, the path validated,
    no generator has a frame, the congestion window is open, and the flow
    controller accepts every offset. *)
Definition env_idle : Env :=
  {| rnd := fun _ => 0;
     hs_is_completed := fun _ => true;
     hs_has_remote_tp := fun _ => true;
     hs_local_transport_parameters := fun _ =>
       Some {| tp_initial_max_data := 65536; tp_disable_migration := false |};
     hs_remote_transport_parameters := fun _ =>
       Some {| tp_initial_max_data := 65536; tp_disable_migration := false |};
     hs_negotiated_application_name := fun _ => None;
     hsp_current_encryption_level := fun _ => QUICEncryptionLevel.ONE_RTT;
     IP_PROTO_TAG_HTTP_QUIC := "hq";
     np_findEndpoint := fun _ _ => true;
     ld_current_rto_period := fun _ _ => 100 * 1000000;
     ld_largest_acked_packet_number := fun _ _ => 0;
     cc_open_window := fun _ => 12000;
     pv_is_validated := fun _ => true;
     pv_is_validating := fun _ => false;
     sm_total_offset_received := fun _ => 0;
     sm_total_reordered_bytes := fun _ => 0;
     sm_total_offset_sent := fun _ => 0;
     sm_will_generate_frame := fun _ _ => false;
     lfc_update := fun _ _ => 0;
     rfc_credit := fun _ => 65536;
     ack_will_generate_frame := fun _ _ => false;
     generate_frame := fun _ _ _ _ _ => None;
     frame_store := fun _ _ => 10;
     pf_create_packet := fun t _ => Some (count is_packet_built t);
     packet_store := fun p => payload_length p + 40;
     fd_should_send_ack := fun _ _ fs =>
       existsb (fun f => negb (QUICFrameType.eqb (frame_type f) QUICFrameType.PADDING
                               || QUICFrameType.eqb (frame_type f) QUICFrameType.ACK))
               fs;
     fd_is_flow_controlled := fun _ _ fs =>
       existsb (fun f => QUICFrameType.eqb (frame_type f) QUICFrameType.STREAM) fs;
     fh_handle_frame := fun _ _ _ => None;
     encryption_level := fun type =>
       match type with
       | QUICPacketType.INITIAL => QUICEncryptionLevel.INITIAL
       | QUICPacketType.ZERO_RTT_PROTECTED => QUICEncryptionLevel.ZERO_RTT
       | QUICPacketType.HANDSHAKE => QUICEncryptionLevel.HANDSHAKE
       | QUICPacketType.PROTECTED => QUICEncryptionLevel.ONE_RTT
       | _ => QUICEncryptionLevel.NONE
       end;
     pn_space_index := fun level =>
       match level with
       | QUICEncryptionLevel.INITIAL => 0
       | QUICEncryptionLevel.HANDSHAKE => 1
       | _ => 2
       end |}.

(** Modelled from the spec: a connection after [start] (the member
    initialisers are in QUICNetVConnection.h).  The handshake handler is set,
    and so is the net handler, nothing is queued or scheduled, no call has
    been made; the closing receive window starts at 1 with a count of 0, from
    where 8 doublings reach the maximum window 2^8 (section 4.1). *)
Definition connection (ctx : NetVConnectionContext_t) (h : Handler.t)
  : QUICNetVConnection :=
  {| handler := h; netvc_context := ctx; ip_family := PF_INET; _pmtu := 1500;
     _quic_connection_id := [1; 2; 3; 4];
     _peer_quic_connection_id := [5; 6; 7; 8];
     _original_quic_connection_id := [9; 9; 9; 9];
     _remote_alt_cids := []; _packet_recv_queue := [];
     _last_received_packet_type := QUICPacketType.UNINITIALIZED;
     _handshake_handler := true; _alt_con_manager := false;
     _application_started := false; _flow_control_buffer_size := 1024;
     _src_addr_verified := true; _handshake_packets_sent := 0;
     _stream_frames_sent := 0; _connection_error := None;
     _the_final_packet := None;
     _state_closing_recv_packet_count := 0;
     _state_closing_recv_packet_window := 1;
     _packet_write_ready := false; _closing_timeout := false;
     _path_validation_timeout := false; _closed_event := false;
     nh := true; trace := [] |}.

(** An environment whose stream manager has received 5000 bytes and whose
    local flow controller refuses offsets above 1024. *)
Definition env_over_limit : Env :=
  {| rnd := rnd env_idle;
     hs_is_completed := hs_is_completed env_idle;
     hs_has_remote_tp := hs_has_remote_tp env_idle;
     hs_local_transport_parameters := hs_local_transport_parameters env_idle;
     hs_remote_transport_parameters := hs_remote_transport_parameters env_idle;
     hs_negotiated_application_name := hs_negotiated_application_name env_idle;
     hsp_current_encryption_level := hsp_current_encryption_level env_idle;
     IP_PROTO_TAG_HTTP_QUIC := IP_PROTO_TAG_HTTP_QUIC env_idle;
     np_findEndpoint := np_findEndpoint env_idle;
     ld_current_rto_period := ld_current_rto_period env_idle;
     ld_largest_acked_packet_number := ld_largest_acked_packet_number env_idle;
     cc_open_window := cc_open_window env_idle;
     pv_is_validated := pv_is_validated env_idle;
     pv_is_validating := pv_is_validating env_idle;
     sm_total_offset_received := fun _ => 5000;
     sm_total_reordered_bytes := fun _ => 5000;
     sm_total_offset_sent := sm_total_offset_sent env_idle;
     sm_will_generate_frame := sm_will_generate_frame env_idle;
     lfc_update := fun _ offset => if 1024 <? offset then -1 else 0;
     rfc_credit := rfc_credit env_idle;
     ack_will_generate_frame := ack_will_generate_frame env_idle;
     generate_frame := generate_frame env_idle;
     frame_store := frame_store env_idle;
     pf_create_packet := pf_create_packet env_idle;
     packet_store := packet_store env_idle;
     fd_should_send_ack := fd_should_send_ack env_idle;
     fd_is_flow_controlled := fd_is_flow_controlled env_idle;
     fh_handle_frame := fh_handle_frame env_idle;
     encryption_level := encryption_level env_idle;
     pn_space_index := pn_space_index env_idle |}.

(** An environment with bulk data to send: the stream manager has a STREAM
    frame of 1100 bytes whenever 1000 bytes of room are left at the 1-RTT
    level, and the ACKs of the Initial and Handshake spaces fall due once 31
    packets have gone out. *)
Definition env_bulk : Env :=
  {| rnd := rnd env_idle;
     hs_is_completed := hs_is_completed env_idle;
     hs_has_remote_tp := hs_has_remote_tp env_idle;
     hs_local_transport_parameters := hs_local_transport_parameters env_idle;
     hs_remote_transport_parameters := hs_remote_transport_parameters env_idle;
     hs_negotiated_application_name := hs_negotiated_application_name env_idle;
     hsp_current_encryption_level := hsp_current_encryption_level env_idle;
     IP_PROTO_TAG_HTTP_QUIC := IP_PROTO_TAG_HTTP_QUIC env_idle;
     np_findEndpoint := np_findEndpoint env_idle;
     ld_current_rto_period := ld_current_rto_period env_idle;
     ld_largest_acked_packet_number := ld_largest_acked_packet_number env_idle;
     cc_open_window := fun _ => 100000;
     pv_is_validated := pv_is_validated env_idle;
     pv_is_validating := pv_is_validating env_idle;
     sm_total_offset_received := sm_total_offset_received env_idle;
     sm_total_reordered_bytes := sm_total_reordered_bytes env_idle;
     sm_total_offset_sent := fun t =>
       1100 * count is_packet_handed_to_loss_detector t;
     sm_will_generate_frame := fun _ level =>
       QUICEncryptionLevel.eqb level QUICEncryptionLevel.ONE_RTT;
     lfc_update := lfc_update env_idle;
     rfc_credit := fun _ => 1000000;
     ack_will_generate_frame := fun t level =>
       (QUICEncryptionLevel.eqb level QUICEncryptionLevel.INITIAL
        || QUICEncryptionLevel.eqb level QUICEncryptionLevel.HANDSHAKE)
       && (31 <=? count is_packet_handed_to_loss_detector t);
     generate_frame := fun t g level _ room =>
       match g, level with
       | GEN_stream_manager, QUICEncryptionLevel.ONE_RTT =>
           if 1000 <=? room then Some (frame_of QUICFrameType.STREAM) else None
       | GEN_ack_frame_creator, QUICEncryptionLevel.INITIAL
       | GEN_ack_frame_creator, QUICEncryptionLevel.HANDSHAKE =>
           if 31 <=? count is_packet_handed_to_loss_detector t
           then Some (frame_of QUICFrameType.ACK) else None
       | _, _ => None
       end;
     frame_store := fun f _ =>
       if QUICFrameType.eqb (frame_type f) QUICFrameType.STREAM then 1100 else 10;
     pf_create_packet := pf_create_packet env_idle;
     packet_store := packet_store env_idle;
     fd_should_send_ack := fd_should_send_ack env_idle;
     fd_is_flow_controlled := fd_is_flow_controlled env_idle;
     fh_handle_frame := fh_handle_frame env_idle;
     encryption_level := encryption_level env_idle;
     pn_space_index := pn_space_index env_idle |}.

(** Connections and packets of the examples. *)
Definition server_established : QUICNetVConnection :=
  connection NET_VCONNECTION_IN Handler.state_connection_established.

Definition server_draining : QUICNetVConnection :=
  connection NET_VCONNECTION_IN Handler.state_connection_draining.

Definition server_in_handshake : QUICNetVConnection :=
  connection NET_VCONNECTION_IN Handler.state_handshake.

Definition client_in_handshake : QUICNetVConnection :=
  connection NET_VCONNECTION_OUT Handler.state_handshake.

Definition packet_with_zero_cid : QUICPacket :=
  received QUICPacketType.PROTECTED 7 [frame_of QUICFrameType.NEW_CONNECTION_ID].

Definition packet_with_stream : QUICPacket :=
  received QUICPacketType.PROTECTED 8 [frame_of QUICFrameType.STREAM].

Definition packet_with_stream_and_zero_cid : QUICPacket :=
  received QUICPacketType.PROTECTED 10
    [frame_of QUICFrameType.STREAM; frame_of QUICFrameType.NEW_CONNECTION_ID].

Definition packet_with_max_data : QUICPacket :=
  received QUICPacketType.PROTECTED 9 [max_data_frame 100000].

Definition retry_with_stream : QUICPacket :=
  received QUICPacketType.RETRY 0 [frame_of QUICFrameType.STREAM].

Definition retry_with_ping : QUICPacket :=
  received QUICPacketType.RETRY 0 [frame_of QUICFrameType.PING].

Definition zero_cid_error : QUICConnectionError :=
  QUICConnectionError_trans_frame PROTOCOL_VIOLATION "received zero-length cid"
    QUICFrameType.NEW_CONNECTION_ID.

Definition flow_control_error : QUICConnectionError :=
  QUICConnectionError_trans FLOW_CONTROL_ERROR.

Definition internal_error : QUICConnectionError :=
  QUICConnectionError_trans INTERNAL_ERROR.

(** An environment with another random engine. *)
Definition env_with_rnd (r : Trace -> Z) (env : Env) : Env :=
  {| rnd := r;
     hs_is_completed := hs_is_completed env;
     hs_has_remote_tp := hs_has_remote_tp env;
     hs_local_transport_parameters := hs_local_transport_parameters env;
     hs_remote_transport_parameters := hs_remote_transport_parameters env;
     hs_negotiated_application_name := hs_negotiated_application_name env;
     hsp_current_encryption_level := hsp_current_encryption_level env;
     IP_PROTO_TAG_HTTP_QUIC := IP_PROTO_TAG_HTTP_QUIC env;
     np_findEndpoint := np_findEndpoint env;
     ld_current_rto_period := ld_current_rto_period env;
     ld_largest_acked_packet_number := ld_largest_acked_packet_number env;
     cc_open_window := cc_open_window env;
     pv_is_validated := pv_is_validated env;
     pv_is_validating := pv_is_validating env;
     sm_total_offset_received := sm_total_offset_received env;
     sm_total_reordered_bytes := sm_total_reordered_bytes env;
     sm_total_offset_sent := sm_total_offset_sent env;
     sm_will_generate_frame := sm_will_generate_frame env;
     lfc_update := lfc_update env;
     rfc_credit := rfc_credit env;
     ack_will_generate_frame := ack_will_generate_frame env;
     generate_frame := generate_frame env;
     frame_store := frame_store env;
     pf_create_packet := pf_create_packet env;
     packet_store := packet_store env;
     fd_should_send_ack := fd_should_send_ack env;
     fd_is_flow_controlled := fd_is_flow_controlled env;
     fh_handle_frame := fh_handle_frame env;
     encryption_level := encryption_level env;
     pn_space_index := pn_space_index env |}.

(** ** More field updates *)

Definition set_src_addr_verified (v : bool) (c : QUICNetVConnection) :=
  {| handler := handler c; netvc_context := netvc_context c;
     ip_family := ip_family c; _pmtu := _pmtu c;
     _quic_connection_id := _quic_connection_id c;
     _peer_quic_connection_id := _peer_quic_connection_id c;
     _original_quic_connection_id := _original_quic_connection_id c;
     _remote_alt_cids := _remote_alt_cids c;
     _packet_recv_queue := _packet_recv_queue c;
     _last_received_packet_type := _last_received_packet_type c;
     _handshake_handler := _handshake_handler c;
     _alt_con_manager := _alt_con_manager c;
     _application_started := _application_started c;
     _flow_control_buffer_size := _flow_control_buffer_size c;
     _src_addr_verified := v;
     _handshake_packets_sent := _handshake_packets_sent c;
     _stream_frames_sent := _stream_frames_sent c;
     _connection_error := _connection_error c;
     _the_final_packet := _the_final_packet c;
     _state_closing_recv_packet_count := _state_closing_recv_packet_count c;
     _state_closing_recv_packet_window := _state_closing_recv_packet_window c;
     _packet_write_ready := _packet_write_ready c;
     _closing_timeout := _closing_timeout c;
     _path_validation_timeout := _path_validation_timeout c;
     _closed_event := _closed_event c; nh := nh c; trace := trace c |}.

Definition set_alt_con_manager (v : bool) (c : QUICNetVConnection) :=
  {| handler := handler c; netvc_context := netvc_context c;
     ip_family := ip_family c; _pmtu := _pmtu c;
     _quic_connection_id := _quic_connection_id c;
     _peer_quic_connection_id := _peer_quic_connection_id c;
     _original_quic_connection_id := _original_quic_connection_id c;
     _remote_alt_cids := _remote_alt_cids c;
     _packet_recv_queue := _packet_recv_queue c;
     _last_received_packet_type := _last_received_packet_type c;
     _handshake_handler := _handshake_handler c; _alt_con_manager := v;
     _application_started := _application_started c;
     _flow_control_buffer_size := _flow_control_buffer_size c;
     _src_addr_verified := _src_addr_verified c;
     _handshake_packets_sent := _handshake_packets_sent c;
     _stream_frames_sent := _stream_frames_sent c;
     _connection_error := _connection_error c;
     _the_final_packet := _the_final_packet c;
     _state_closing_recv_packet_count := _state_closing_recv_packet_count c;
     _state_closing_recv_packet_window := _state_closing_recv_packet_window c;
     _packet_write_ready := _packet_write_ready c;
     _closing_timeout := _closing_timeout c;
     _path_validation_timeout := _path_validation_timeout c;
     _closed_event := _closed_event c; nh := nh c; trace := trace c |}.

Definition set_quic_connection_id (v : QUICConnectionId) (c : QUICNetVConnection) :=
  {| handler := handler c; netvc_context := netvc_context c;
     ip_family := ip_family c; _pmtu := _pmtu c; _quic_connection_id := v;
     _peer_quic_connection_id := _peer_quic_connection_id c;
     _original_quic_connection_id := _original_quic_connection_id c;
     _remote_alt_cids := _remote_alt_cids c;
     _packet_recv_queue := _packet_recv_queue c;
     _last_received_packet_type := _last_received_packet_type c;
     _handshake_handler := _handshake_handler c;
     _alt_con_manager := _alt_con_manager c;
     _application_started := _application_started c;
     _flow_control_buffer_size := _flow_control_buffer_size c;
     _src_addr_verified := _src_addr_verified c;
     _handshake_packets_sent := _handshake_packets_sent c;
     _stream_frames_sent := _stream_frames_sent c;
     _connection_error := _connection_error c;
     _the_final_packet := _the_final_packet c;
     _state_closing_recv_packet_count := _state_closing_recv_packet_count c;
     _state_closing_recv_packet_window := _state_closing_recv_packet_window c;
     _packet_write_ready := _packet_write_ready c;
     _closing_timeout := _closing_timeout c;
     _path_validation_timeout := _path_validation_timeout c;
     _closed_event := _closed_event c; nh := nh c; trace := trace c |}.

Definition set_original_quic_connection_id (v : QUICConnectionId) (c : QUICNetVConnection) :=
  {| handler := handler c; netvc_context := netvc_context c;
     ip_family := ip_family c; _pmtu := _pmtu c;
     _quic_connection_id := _quic_connection_id c;
     _peer_quic_connection_id := _peer_quic_connection_id c;
     _original_quic_connection_id := v;
     _remote_alt_cids := _remote_alt_cids c;
     _packet_recv_queue := _packet_recv_queue c;
     _last_received_packet_type := _last_received_packet_type c;
     _handshake_handler := _handshake_handler c;
     _alt_con_manager := _alt_con_manager c;
     _application_started := _application_started c;
     _flow_control_buffer_size := _flow_control_buffer_size c;
     _src_addr_verified := _src_addr_verified c;
     _handshake_packets_sent := _handshake_packets_sent c;
     _stream_frames_sent := _stream_frames_sent c;
     _connection_error := _connection_error c;
     _the_final_packet := _the_final_packet c;
     _state_closing_recv_packet_count := _state_closing_recv_packet_count c;
     _state_closing_recv_packet_window := _state_closing_recv_packet_window c;
     _packet_write_ready := _packet_write_ready c;
     _closing_timeout := _closing_timeout c;
     _path_validation_timeout := _path_validation_timeout c;
     _closed_event := _closed_event c; nh := nh c; trace := trace c |}.

Definition set_nh (v : bool) (c : QUICNetVConnection) :=
  {| handler := handler c; netvc_context := netvc_context c;
     ip_family := ip_family c; _pmtu := _pmtu c;
     _quic_connection_id := _quic_connection_id c;
     _peer_quic_connection_id := _peer_quic_connection_id c;
     _original_quic_connection_id := _original_quic_connection_id c;
     _remote_alt_cids := _remote_alt_cids c;
     _packet_recv_queue := _packet_recv_queue c;
     _last_received_packet_type := _last_received_packet_type c;
     _handshake_handler := _handshake_handler c;
     _alt_con_manager := _alt_con_manager c;
     _application_started := _application_started c;
     _flow_control_buffer_size := _flow_control_buffer_size c;
     _src_addr_verified := _src_addr_verified c;
     _handshake_packets_sent := _handshake_packets_sent c;
     _stream_frames_sent := _stream_frames_sent c;
     _connection_error := _connection_error c;
     _the_final_packet := _the_final_packet c;
     _state_closing_recv_packet_count := _state_closing_recv_packet_count c;
     _state_closing_recv_packet_window := _state_closing_recv_packet_window c;
     _packet_write_ready := _packet_write_ready c;
     _closing_timeout := _closing_timeout c;
     _path_validation_timeout := _path_validation_timeout c;
     _closed_event := _closed_event c; nh := v; trace := trace c |}.

(** ** More environments *)

(** As [env_idle], but the negotiated application protocol has no endpoint. *)
Definition env_no_endpoint : Env :=
  {| rnd := rnd env_idle;
     hs_is_completed := hs_is_completed env_idle;
     hs_has_remote_tp := hs_has_remote_tp env_idle;
     hs_local_transport_parameters := hs_local_transport_parameters env_idle;
     hs_remote_transport_parameters := hs_remote_transport_parameters env_idle;
     hs_negotiated_application_name := hs_negotiated_application_name env_idle;
     hsp_current_encryption_level := hsp_current_encryption_level env_idle;
     IP_PROTO_TAG_HTTP_QUIC := IP_PROTO_TAG_HTTP_QUIC env_idle;
     np_findEndpoint := fun _ _ => false;
     ld_current_rto_period := ld_current_rto_period env_idle;
     ld_largest_acked_packet_number := ld_largest_acked_packet_number env_idle;
     cc_open_window := cc_open_window env_idle;
     pv_is_validated := pv_is_validated env_idle;
     pv_is_validating := pv_is_validating env_idle;
     sm_total_offset_received := sm_total_offset_received env_idle;
     sm_total_reordered_bytes := sm_total_reordered_bytes env_idle;
     sm_total_offset_sent := sm_total_offset_sent env_idle;
     sm_will_generate_frame := sm_will_generate_frame env_idle;
     lfc_update := lfc_update env_idle;
     rfc_credit := rfc_credit env_idle;
     ack_will_generate_frame := ack_will_generate_frame env_idle;
     generate_frame := generate_frame env_idle;
     frame_store := frame_store env_idle;
     pf_create_packet := pf_create_packet env_idle;
     packet_store := packet_store env_idle;
     fd_should_send_ack := fd_should_send_ack env_idle;
     fd_is_flow_controlled := fd_is_flow_controlled env_idle;
     fh_handle_frame := fh_handle_frame env_idle;
     encryption_level := encryption_level env_idle;
     pn_space_index := pn_space_index env_idle |}.

(** An environment whose handshake engine has CRYPTO frames of 500 bytes for
    the Initial level whenever 500 bytes of room are left. *)
Definition env_handshake_flight : Env :=
  {| rnd := rnd env_idle;
     hs_is_completed := hs_is_completed env_idle;
     hs_has_remote_tp := hs_has_remote_tp env_idle;
     hs_local_transport_parameters := hs_local_transport_parameters env_idle;
     hs_remote_transport_parameters := hs_remote_transport_parameters env_idle;
     hs_negotiated_application_name := hs_negotiated_application_name env_idle;
     hsp_current_encryption_level := hsp_current_encryption_level env_idle;
     IP_PROTO_TAG_HTTP_QUIC := IP_PROTO_TAG_HTTP_QUIC env_idle;
     np_findEndpoint := np_findEndpoint env_idle;
     ld_current_rto_period := ld_current_rto_period env_idle;
     ld_largest_acked_packet_number := ld_largest_acked_packet_number env_idle;
     cc_open_window := cc_open_window env_idle;
     pv_is_validated := pv_is_validated env_idle;
     pv_is_validating := pv_is_validating env_idle;
     sm_total_offset_received := sm_total_offset_received env_idle;
     sm_total_reordered_bytes := sm_total_reordered_bytes env_idle;
     sm_total_offset_sent := sm_total_offset_sent env_idle;
     sm_will_generate_frame := sm_will_generate_frame env_idle;
     lfc_update := lfc_update env_idle;
     rfc_credit := rfc_credit env_idle;
     ack_will_generate_frame := ack_will_generate_frame env_idle;
     generate_frame := fun _ g level _ room =>
       match g, level with
       | GEN_handshake_handler, QUICEncryptionLevel.INITIAL =>
           if 500 <=? room then Some (frame_of QUICFrameType.CRYPTO) else None
       | _, _ => None
       end;
     frame_store := fun f _ =>
       if QUICFrameType.eqb (frame_type f) QUICFrameType.CRYPTO then 500 else 10;
     pf_create_packet := pf_create_packet env_idle;
     packet_store := packet_store env_idle;
     fd_should_send_ack := fd_should_send_ack env_idle;
     fd_is_flow_controlled := fd_is_flow_controlled env_idle;
     fh_handle_frame := fh_handle_frame env_idle;
     encryption_level := encryption_level env_idle;
     pn_space_index := pn_space_index env_idle |}.

(** As [env_handshake_flight], but a frame is cut to the room it is given. *)
Definition env_fitting_frames : Env :=
  {| rnd := rnd env_handshake_flight;
     hs_is_completed := hs_is_completed env_handshake_flight;
     hs_has_remote_tp := hs_has_remote_tp env_handshake_flight;
     hs_local_transport_parameters := hs_local_transport_parameters env_handshake_flight;
     hs_remote_transport_parameters := hs_remote_transport_parameters env_handshake_flight;
     hs_negotiated_application_name := hs_negotiated_application_name env_handshake_flight;
     hsp_current_encryption_level := hsp_current_encryption_level env_handshake_flight;
     IP_PROTO_TAG_HTTP_QUIC := IP_PROTO_TAG_HTTP_QUIC env_handshake_flight;
     np_findEndpoint := np_findEndpoint env_handshake_flight;
     ld_current_rto_period := ld_current_rto_period env_handshake_flight;
     ld_largest_acked_packet_number := ld_largest_acked_packet_number env_handshake_flight;
     cc_open_window := cc_open_window env_handshake_flight;
     pv_is_validated := pv_is_validated env_handshake_flight;
     pv_is_validating := pv_is_validating env_handshake_flight;
     sm_total_offset_received := sm_total_offset_received env_handshake_flight;
     sm_total_reordered_bytes := sm_total_reordered_bytes env_handshake_flight;
     sm_total_offset_sent := sm_total_offset_sent env_handshake_flight;
     sm_will_generate_frame := sm_will_generate_frame env_handshake_flight;
     lfc_update := lfc_update env_handshake_flight;
     rfc_credit := rfc_credit env_handshake_flight;
     ack_will_generate_frame := ack_will_generate_frame env_handshake_flight;
     generate_frame := generate_frame env_handshake_flight;
     frame_store := fun f room =>
       Z.min room
         (if QUICFrameType.eqb (frame_type f) QUICFrameType.CRYPTO then 500
          else 10);
     pf_create_packet := pf_create_packet env_handshake_flight;
     packet_store := packet_store env_handshake_flight;
     fd_should_send_ack := fd_should_send_ack env_handshake_flight;
     fd_is_flow_controlled := fd_is_flow_controlled env_handshake_flight;
     fh_handle_frame := fh_handle_frame env_handshake_flight;
     encryption_level := encryption_level env_handshake_flight;
     pn_space_index := pn_space_index env_handshake_flight |}.

(** An environment in which only an ACK frame is waiting to be sent. *)
Definition env_ack_due : Env :=
  {| rnd := rnd env_idle;
     hs_is_completed := hs_is_completed env_idle;
     hs_has_remote_tp := hs_has_remote_tp env_idle;
     hs_local_transport_parameters := hs_local_transport_parameters env_idle;
     hs_remote_transport_parameters := hs_remote_transport_parameters env_idle;
     hs_negotiated_application_name := hs_negotiated_application_name env_idle;
     hsp_current_encryption_level := hsp_current_encryption_level env_idle;
     IP_PROTO_TAG_HTTP_QUIC := IP_PROTO_TAG_HTTP_QUIC env_idle;
     np_findEndpoint := np_findEndpoint env_idle;
     ld_current_rto_period := ld_current_rto_period env_idle;
     ld_largest_acked_packet_number := ld_largest_acked_packet_number env_idle;
     cc_open_window := cc_open_window env_idle;
     pv_is_validated := pv_is_validated env_idle;
     pv_is_validating := pv_is_validating env_idle;
     sm_total_offset_received := sm_total_offset_received env_idle;
     sm_total_reordered_bytes := sm_total_reordered_bytes env_idle;
     sm_total_offset_sent := sm_total_offset_sent env_idle;
     sm_will_generate_frame := sm_will_generate_frame env_idle;
     lfc_update := lfc_update env_idle;
     rfc_credit := rfc_credit env_idle;
     ack_will_generate_frame := fun _ _ => true;
     generate_frame := fun _ g _ _ _ =>
       match g with
       | GEN_ack_frame_creator => Some (frame_of QUICFrameType.ACK)
       | _ => None
       end;
     frame_store := frame_store env_idle;
     pf_create_packet := pf_create_packet env_idle;
     packet_store := packet_store env_idle;
     fd_should_send_ack := fd_should_send_ack env_idle;
     fd_is_flow_controlled := fd_is_flow_controlled env_idle;
     fh_handle_frame := fh_handle_frame env_idle;
     encryption_level := encryption_level env_idle;
     pn_space_index := pn_space_index env_idle |}.

(** An environment whose stream manager has a STREAM frame of 10 bytes for the
    1-RTT level whenever 10 bytes of room are left. *)
Definition env_small_streams : Env :=
  {| rnd := rnd env_idle;
     hs_is_completed := hs_is_completed env_idle;
     hs_has_remote_tp := hs_has_remote_tp env_idle;
     hs_local_transport_parameters := hs_local_transport_parameters env_idle;
     hs_remote_transport_parameters := hs_remote_transport_parameters env_idle;
     hs_negotiated_application_name := hs_negotiated_application_name env_idle;
     hsp_current_encryption_level := hsp_current_encryption_level env_idle;
     IP_PROTO_TAG_HTTP_QUIC := IP_PROTO_TAG_HTTP_QUIC env_idle;
     np_findEndpoint := np_findEndpoint env_idle;
     ld_current_rto_period := ld_current_rto_period env_idle;
     ld_largest_acked_packet_number := ld_largest_acked_packet_number env_idle;
     cc_open_window := cc_open_window env_idle;
     pv_is_validated := pv_is_validated env_idle;
     pv_is_validating := pv_is_validating env_idle;
     sm_total_offset_received := sm_total_offset_received env_idle;
     sm_total_reordered_bytes := sm_total_reordered_bytes env_idle;
     sm_total_offset_sent := sm_total_offset_sent env_idle;
     sm_will_generate_frame := fun _ level =>
       QUICEncryptionLevel.eqb level QUICEncryptionLevel.ONE_RTT;
     lfc_update := lfc_update env_idle;
     rfc_credit := rfc_credit env_idle;
     ack_will_generate_frame := ack_will_generate_frame env_idle;
     generate_frame := fun _ g level _ room =>
       match g, level with
       | GEN_stream_manager, QUICEncryptionLevel.ONE_RTT =>
           if 10 <=? room then Some (frame_of QUICFrameType.STREAM) else None
       | _, _ => None
       end;
     frame_store := frame_store env_idle;
     pf_create_packet := pf_create_packet env_idle;
     packet_store := packet_store env_idle;
     fd_should_send_ack := fd_should_send_ack env_idle;
     fd_is_flow_controlled := fd_is_flow_controlled env_idle;
     fh_handle_frame := fh_handle_frame env_idle;
     encryption_level := encryption_level env_idle;
     pn_space_index := pn_space_index env_idle |}.

(** As [env_small_streams], while a path validation is in progress. *)
Definition env_validating : Env :=
  {| rnd := rnd env_small_streams;
     hs_is_completed := hs_is_completed env_small_streams;
     hs_has_remote_tp := hs_has_remote_tp env_small_streams;
     hs_local_transport_parameters := hs_local_transport_parameters env_small_streams;
     hs_remote_transport_parameters := hs_remote_transport_parameters env_small_streams;
     hs_negotiated_application_name := hs_negotiated_application_name env_small_streams;
     hsp_current_encryption_level := hsp_current_encryption_level env_small_streams;
     IP_PROTO_TAG_HTTP_QUIC := IP_PROTO_TAG_HTTP_QUIC env_small_streams;
     np_findEndpoint := np_findEndpoint env_small_streams;
     ld_current_rto_period := ld_current_rto_period env_small_streams;
     ld_largest_acked_packet_number := ld_largest_acked_packet_number env_small_streams;
     cc_open_window := cc_open_window env_small_streams;
     pv_is_validated := pv_is_validated env_small_streams;
     pv_is_validating := fun _ => true;
     sm_total_offset_received := sm_total_offset_received env_small_streams;
     sm_total_reordered_bytes := sm_total_reordered_bytes env_small_streams;
     sm_total_offset_sent := sm_total_offset_sent env_small_streams;
     sm_will_generate_frame := sm_will_generate_frame env_small_streams;
     lfc_update := lfc_update env_small_streams;
     rfc_credit := rfc_credit env_small_streams;
     ack_will_generate_frame := ack_will_generate_frame env_small_streams;
     generate_frame := generate_frame env_small_streams;
     frame_store := frame_store env_small_streams;
     pf_create_packet := pf_create_packet env_small_streams;
     packet_store := packet_store env_small_streams;
     fd_should_send_ack := fd_should_send_ack env_small_streams;
     fd_is_flow_controlled := fd_is_flow_controlled env_small_streams;
     fh_handle_frame := fh_handle_frame env_small_streams;
     encryption_level := encryption_level env_small_streams;
     pn_space_index := pn_space_index env_small_streams |}.

(** A server in the handshake state whose client's address is not verified
    yet. *)
Definition server_unverified : QUICNetVConnection :=
  set_src_addr_verified false server_in_handshake.

(** The close packet of a server that is closed with [internal_error] in the
    established state. *)
Definition server_close_packet : QUICPacket :=
  {| pkt_type := QUICPacketType.PROTECTED;
     destination_cid := [5; 6; 7; 8];
     source_cid := QUICConnectionId_ZERO;
     packet_number := 0; base_packet_number := 0;
     payload := [create_close_frame QUICFrameType.CONNECTION_CLOSE internal_error];
     payload_length := 10; is_retransmittable := false;
     is_probing_packet := false |}.

(** * The states before closing

    The handshake and the established state, connection migration and the
    idle timeout (lines 524-651, 829-1024, 1723-1750, 1820-1989).

    Conventions, on top of those above.
    - The functions of this part have collaborators and configuration that
      the functions above do not talk to.  Their calls are recorded in a log
      of the connection's own, each with the length of [trace] at the time of
      the call, so that the two records together give the order of all calls.
      Their answers are read from an environment [Env'] of functions of both
      records.  The collaborators of the functions above may answer
      differently after a call recorded here: [env_of] gives their
      environment for the log so far.
    - A member function called through a null pointer, a null packet or null
      transport parameters looked into, and [front()] of an empty queue, make
      the outcome [Crashes].
    - [this->handleEvent(event, data)] dispatches on the handler again; the
      recursion is cut by [fuel], and [OutOfFuel] is the outcome when it runs
      out, as it is when a frame loop of the packetizer does.
    - [acceptEvent] and [startEvent], which run before the connection has a
      thread, are not part of this development: [NotModelled] is the outcome
      of an event dispatched to them. *)

(** ** Calls to the collaborators of this part *)

Inductive Call' :=
(* UnixNetVConnection::add_to_active_queue *)
| C_add_to_active_queue
(* QUICHandshake::start(packet, &_packet_factory), negotiate_version(packet,
   &_packet_factory), reset, do_handshake *)
| C_hs_start (p : QUICPacket)
| C_hs_negotiate_version (p : QUICPacket)
| C_hs_reset
| C_hs_do_handshake
(* QUICLossDetector::reset, QUICCongestionController::reset,
   QUICPacketRetransmitter::reset, QUICPacketReceiveQueue::reset *)
| C_ld_reset (index : Z)
| C_cc_reset
| C_packet_retransmitter_reset
| C_packet_recv_queue_reset
(* QUICConnectionId::randomize, on _original_quic_connection_id *)
| C_cid_randomize
(* QUICHandshakeProtocol::initialize_key_materials *)
| C_initialize_key_materials (cid : QUICConnectionId)
(* new QUICAltConnectionManager(this, *this->_ctable) *)
| C_new_alt_con_manager
(* QUICAltConnectionManager::migrate_to(cid, _reset_token) *)
| C_acm_migrate_to (cid : QUICConnectionId)
(* this->con.move(con), con with the sender of the packet as its remote *)
| C_con_move (p : QUICPacket)
(* QUICPathValidator::validate *)
| C_pv_validate.

(** A call, and the length of [trace] when it was made. *)
Definition Log := list (Call' * nat).

Record Env' := {
  (* the collaborators of the functions above, after the calls of the log *)
  env_of : Log -> Env;
  (* QUICConfig::scoped_config params: no_activity_timeout_in(),
     no_activity_timeout_out() in seconds, cm_exercise_enabled() *)
  no_activity_timeout_in : Log -> Trace -> Z;
  no_activity_timeout_out : Log -> Trace -> Z;
  cm_exercise_enabled : Log -> Trace -> bool;
  (* QUICHandshake::is_version_negotiated, and the errors (nullptr as None)
     of start and negotiate_version *)
  hs_is_version_negotiated : Log -> Trace -> bool;
  hs_start : Log -> Trace -> QUICPacket -> option QUICConnectionError;
  hs_negotiate_version : Log -> Trace -> QUICPacket -> option QUICConnectionError;
  (* QUICConnectionId::randomize: the new value *)
  cid_randomize : Log -> Trace -> QUICConnectionId;
  (* QUICAltConnectionManager::migrate_to, will_generate_frame *)
  acm_migrate_to : Log -> Trace -> QUICConnectionId -> bool;
  acm_will_generate_frame : Log -> Trace -> QUICEncryptionLevel.t -> bool
}.

(** ** The connection, with the members and the log of this part *)

Record Endpoint := {
  vc : QUICNetVConnection;
  _connection_migration_initiated : bool;
  log : Log
}.

Definition set_vc (c : QUICNetVConnection) (e : Endpoint) : Endpoint :=
  {| vc := c;
     _connection_migration_initiated := _connection_migration_initiated e;
     log := log e |}.

Definition set_connection_migration_initiated (v : bool) (e : Endpoint)
  : Endpoint :=
  {| vc := vc e; _connection_migration_initiated := v; log := log e |}.

Definition set_log (l : Log) (e : Endpoint) : Endpoint :=
  {| vc := vc e;
     _connection_migration_initiated := _connection_migration_initiated e;
     log := l |}.

(** ** Member functions that can crash or fail to return *)

Inductive Outcome (A : Type) :=
| Returns (a : A) (e : Endpoint)
| Crashes
| OutOfFuel
| NotModelled.

Arguments Returns {A} a e.
Arguments Crashes {A}.
Arguments OutOfFuel {A}.
Arguments NotModelled {A}.

Definition M' (A : Type) : Type := Endpoint -> Outcome A.

Definition ret' {A} (a : A) : M' A := fun e => Returns a e.

Definition bind' {A B} (m : M' A) (k : A -> M' B) : M' B :=
  fun e =>
    match m e with
    | Returns a e' => k a e'
    | Crashes => Crashes
    | OutOfFuel => OutOfFuel
    | NotModelled => NotModelled
    end.

Declare Scope endpoint_scope.
Delimit Scope endpoint_scope with endpoint.
Notation "x <- m ;; k" := (bind' m (fun x => k))
  (at level 61, m at next level, right associativity) : endpoint_scope.
Notation "m ;; k" := (bind' m (fun _ => k))
  (at level 61, right associativity) : endpoint_scope.

Definition crash {A} : M' A := fun _ => Crashes.
Definition out_of_fuel {A} : M' A := fun _ => OutOfFuel.
Definition not_modelled {A} : M' A := fun _ => NotModelled.

(** [when' b m]: [if (b) { m }]. *)
Definition when' (b : bool) (m : M' unit) : M' unit :=
  if b then m else ret' tt.

(** [p->f()]: [crash] when [p] is null. *)
Definition deref {A} (p : option A) : M' A :=
  match p with
  | Some a => ret' a
  | None => crash
  end.

(** A turn of a loop: go round again, or leave with a result. *)
Inductive Turn (A : Type) :=
| Again
| Leave (a : A).

Arguments Again {A}.
Arguments Leave {A} a.

Section Endpoint.

Variable env : Env'.

Open Scope endpoint_scope.

(** Read a member of the connection object. *)
Definition member {A} (f : QUICNetVConnection -> A) : M' A :=
  fun e => Returns (f (vc e)) e.

(** Run a function of the parts above. *)
Definition lift {A} (m : Env -> M A) : M' A :=
  fun e =>
    let r := m (env_of env (log e)) (vc e) in
    Returns (fst r) (set_vc (snd r) e).

(** Run one whose frame loops take fuel. *)
Definition lift_fuel {A} (m : Env -> M (option A)) : M' A :=
  r <- lift m ;;
  match r with
  | Some a => ret' a
  | None => out_of_fuel
  end.

(** Ask a collaborator of this part. *)
Definition ask' {A} (q : Env' -> Log -> Trace -> A) : M' A :=
  fun e => Returns (q env (log e) (trace (vc e))) e.

(** Hand something to a collaborator of this part. *)
Definition call' (x : Call') : M' unit :=
  fun e => Returns tt (set_log ((x, length (trace (vc e))) :: log e) e).

(** [this->_handshake_handler->...]: the handshake handler is dereferenced. *)
Definition handshake_handler : M' unit :=
  present <- member _handshake_handler ;;
  if present then ret' tt else crash.

(** [this->_alt_con_manager->...] *)
Definition alt_con_manager : M' unit :=
  present <- member _alt_con_manager ;;
  if present then ret' tt else crash.

(** *** Idle timeout and path validation (lines 1820-1838) *)

Definition _handle_idle_timeout : M' unit :=
  lift (fun _ => call C_remove_from_active_queue) ;;
  lift (fun b =>
          _switch_to_draining_state b
            (QUICConnectionError_trans_msg NO_ERROR "Idle Timeout")).

Definition _validate_new_path : M' unit :=
  call' C_pv_validate ;;
  level <- lift (fun b => ask b hsp_current_encryption_level) ;;
  rto <- lift (fun b =>
                 ask b (fun e t => ld_current_rto_period e t (pn_space_index e level))) ;;
  lift (fun _ => _schedule_path_validation_timeout (int64 (3 * rto))).

(** *** Connection IDs (lines 1840-1895)

    [_update_cids] only renews the string that the debug output prints. *)

Definition _update_local_cid (new_cid : QUICConnectionId) : M' unit :=
  lift (fun _ => modify (set_quic_connection_id new_cid)).

Definition _rerandomize_original_cid : M' unit :=
  cid <- ask' cid_randomize ;;
  call' C_cid_randomize ;;
  lift (fun _ => modify (set_original_quic_connection_id cid)).

(** *** Connection migration (lines 1913-1989) *)

(** [_update_peer_cid(_remote_alt_cids.front()); _remote_alt_cids.pop();] *)
Definition take_remote_alt_cid : M' unit :=
  alt <- member _remote_alt_cids ;;
  match alt with
  | [] => crash
  | front :: rest =>
      lift (fun _ => _update_peer_cid front) ;;
      lift (fun _ => modify (set_remote_alt_cids rest))
  end.

Definition _state_connection_established_migrate_connection (p : QUICPacket)
  : M' (option QUICConnectionError) :=
  (* ink_assert(this->_handshake_handler->is_completed()) *)
  handshake_handler ;;
  let dcid := destination_cid p in
  local_cid <- member _quic_connection_id ;;
  if cid_eqb dcid local_cid then ret' None
  else
    ctx <- member netvc_context ;;
    alt <- member _remote_alt_cids ;;
    if context_eqb ctx NET_VCONNECTION_IN
       && (match alt with [] => true | _ => false end)
    then ret' None
    else
      alt_con_manager ;;
      migrated <- ask' (fun e l t => acm_migrate_to e l t dcid) ;;
      call' (C_acm_migrate_to dcid) ;;
      when' migrated
        (_update_local_cid dcid ;;
         when' (context_eqb ctx NET_VCONNECTION_IN)
           (call' (C_con_move p) ;;
            take_remote_alt_cid ;;
            _validate_new_path)) ;;
      ret' None.

Definition _state_connection_established_initiate_connection_migration
  : M' (option QUICConnectionError) :=
  (* ink_assert(this->_handshake_handler->is_completed()) *)
  handshake_handler ;;
  remote_tp <- lift (fun b => ask b hs_remote_transport_parameters) ;;
  enabled <- ask' cm_exercise_enabled ;;
  initiated <- (fun e => Returns (_connection_migration_initiated e) e) ;;
  if negb enabled || initiated then ret' None
  else
    tp <- deref remote_tp ;;
    alt <- member _remote_alt_cids ;;
    if tp_disable_migration tp || (match alt with [] => true | _ => false end)
    then ret' None
    else
      alt_con_manager ;;
      pending <- ask' (fun e l t =>
                         acm_will_generate_frame e l t QUICEncryptionLevel.ONE_RTT) ;;
      if pending then ret' None
      else
        (fun e => Returns tt (set_connection_migration_initiated true e)) ;;
        take_remote_alt_cid ;;
        _validate_new_path ;;
        ret' None.

(** *** Receiving in the established state (lines 968-1024) *)

Definition _state_connection_established_process_protected_packet
  (packet : QUICPacket) : M' (option QUICConnectionError) :=
  lift (fun b => _recv_and_ack b packet).

(** One turn of the [do ... while] loop of
    [_state_connection_established_receive_packet]: [Leave error] when the
    function returns [error] or the loop ends with it. *)
Definition _state_connection_established_receive_packet_body
  : M' (Turn (option QUICConnectionError)) :=
  r <- lift (fun _ => _dequeue_recv_packet) ;;
  let '(p, result) := r in
  match result with
  | FAILED => ret' (Leave (Some (QUICConnectionError_trans INTERNAL_ERROR)))
  | NO_PACKET => ret' (Leave None)
  | NOT_READY => ret' (Leave None)
  | IGNORED => ret' Again
  | _ =>
      p <- deref p ;;
      error <-
        match pkt_type p with
        | QUICPacketType.PROTECTED =>
            error <- _state_connection_established_migrate_connection p ;;
            match error with
            | Some e => ret' (Some e)
            | None =>
                ctx <- member netvc_context ;;
                when' (context_eqb ctx NET_VCONNECTION_OUT)
                  (_state_connection_established_initiate_connection_migration ;;
                   ret' tt) ;;
                _state_connection_established_process_protected_packet p
            end
        | QUICPacketType.INITIAL
        | QUICPacketType.HANDSHAKE
        | QUICPacketType.ZERO_RTT_PROTECTED =>
            lift (fun b => _recv_and_ack b p)
        | _ => ret' (Some (QUICConnectionError_trans INTERNAL_ERROR))
        end ;;
      match error, result with
      | None, SUCCESS => ret' Again
      | _, _ => ret' (Leave error)
      end
  end.

(** Every turn that goes round again has taken a datagram off the queue, and
    a turn that finds the queue empty leaves: [turns] = the queue's length
    + 1 is enough. *)
Fixpoint _state_connection_established_receive_packet_loop (turns : nat)
  : M' (option QUICConnectionError) :=
  match turns with
  | O => out_of_fuel
  | S turns' =>
      t <- _state_connection_established_receive_packet_body ;;
      match t with
      | Again => _state_connection_established_receive_packet_loop turns'
      | Leave error => ret' error
      end
  end.

Definition _state_connection_established_receive_packet
  : M' (option QUICConnectionError) :=
  lift (fun _ => call C_net_activity) ;;
  q <- member _packet_recv_queue ;;
  _state_connection_established_receive_packet_loop (S (length q)).

(** *** The packets of the handshake (lines 829-966) *)

(** [for (auto s : QUIC_PN_SPACES) { _loss_detector[s]->reset(); }] *)
Fixpoint reset_loss_detectors (spaces : list Z) : M' unit :=
  match spaces with
  | [] => ret' tt
  | s :: rest => call' (C_ld_reset s) ;; reset_loss_detectors rest
  end.

Definition _state_handshake_process_version_negotiation_packet
  (packet : QUICPacket) : M' (option QUICConnectionError) :=
  local_cid <- member _quic_connection_id ;;
  if negb (cid_eqb (destination_cid packet) local_cid) then ret' None
  else
    handshake_handler ;;
    negotiated <- ask' hs_is_version_negotiated ;;
    if negotiated then ret' None
    else
      error <- ask' (fun e l t => hs_negotiate_version e l t packet) ;;
      call' (C_hs_negotiate_version packet) ;;
      (* discard all transport state except packet number *)
      reset_loss_detectors QUIC_PN_SPACES ;;
      call' C_cc_reset ;;
      call' C_packet_retransmitter_reset ;;
      (* start handshake over *)
      call' C_hs_reset ;;
      call' C_hs_do_handshake ;;
      lift (fun _ => _schedule_packet_write_ready false) ;;
      ret' error.

Definition _state_handshake_process_initial_packet (packet : QUICPacket)
  : M' (option QUICConnectionError) :=
  ctx <- member netvc_context ;;
  if context_eqb ctx NET_VCONNECTION_IN
  then
    handshake_handler ;;
    error <- ask' (fun e l t => hs_start e l t packet) ;;
    call' (C_hs_start packet) ;;
    negotiated <- ask' hs_is_version_negotiated ;;
    if negotiated
    then
      error <- lift (fun b => _recv_and_ack b packet) ;;
      match error with
      | Some e => ret' (Some e)
      | None =>
          has_tp <- lift (fun b => ask b hs_has_remote_tp) ;;
          if negb has_tp
          then ret' (Some (QUICConnectionError_trans TRANSPORT_PARAMETER_ERROR))
          else ret' None
      end
    else ret' error
  else lift (fun b => _recv_and_ack b packet).

Definition _state_handshake_process_retry_packet (packet : QUICPacket)
  : M' (option QUICConnectionError) :=
  (* discard all transport state *)
  handshake_handler ;;
  call' C_hs_reset ;;
  reset_loss_detectors QUIC_PN_SPACES ;;
  call' C_cc_reset ;;
  call' C_packet_retransmitter_reset ;;
  error <- lift (fun b => _recv_and_ack b packet) ;;
  call' C_packet_recv_queue_reset ;;
  _rerandomize_original_cid ;;
  original_cid <- member _original_quic_connection_id ;;
  call' (C_initialize_key_materials original_cid) ;;
  ret' error.

Definition _state_handshake_process_handshake_packet (packet : QUICPacket)
  : M' (option QUICConnectionError) :=
  ctx <- member netvc_context ;;
  verified <- member _src_addr_verified ;;
  when' (context_eqb ctx NET_VCONNECTION_IN && negb verified)
    (lift (fun _ => modify (set_src_addr_verified true))) ;;
  lift (fun b => _recv_and_ack b packet).

Definition _state_handshake_process_zero_rtt_protected_packet
  (packet : QUICPacket) : M' (option QUICConnectionError) :=
  handshake_handler ;;
  local_tp <- lift (fun b => ask b hs_local_transport_parameters) ;;
  remote_tp <- lift (fun b => ask b hs_remote_transport_parameters) ;;
  lift (fun _ => call (C_sm_init_flow_control_params local_tp remote_tp)) ;;
  lift _start_application ;;
  lift (fun b => _recv_and_ack b packet).

Definition _state_handshake_process_packet (packet : option QUICPacket)
  : M' (option QUICConnectionError) :=
  packet <- deref packet ;;
  match pkt_type packet with
  | QUICPacketType.VERSION_NEGOTIATION =>
      _state_handshake_process_version_negotiation_packet packet
  | QUICPacketType.INITIAL => _state_handshake_process_initial_packet packet
  | QUICPacketType.RETRY => _state_handshake_process_retry_packet packet
  | QUICPacketType.HANDSHAKE => _state_handshake_process_handshake_packet packet
  | QUICPacketType.ZERO_RTT_PROTECTED =>
      _state_handshake_process_zero_rtt_protected_packet packet
  | _ => ret' (Some (QUICConnectionError_trans INTERNAL_ERROR))
  end.

(** *** Switching states (lines 1723-1750) *)

Definition _switch_to_handshake_state : M' unit :=
  lift (fun _ => modify (set_handler Handler.state_handshake)).

Definition _switch_to_established_state : M' unit :=
  r <- lift _complete_handshake_if_possible ;;
  when' (r =? 0)
    (lift (fun _ => modify (set_handler Handler.state_connection_established)) ;;
     handshake_handler ;;
     remote_tp <- lift (fun b => ask b hs_remote_transport_parameters) ;;
     ctx <- member netvc_context ;;
     permitted <-
       (if context_eqb ctx NET_VCONNECTION_IN then ret' true
        else if context_eqb ctx NET_VCONNECTION_OUT
        then
          enabled <- ask' cm_exercise_enabled ;;
          if enabled
          then (tp <- deref remote_tp ;; ret' (negb (tp_disable_migration tp)))
          else ret' false
        else ret' false) ;;
     when' permitted
       (call' C_new_alt_con_manager ;;
        lift (fun _ => modify (set_alt_con_manager true)))).

(** *** The handlers (lines 523-651) *)

(** [HRTIME_SECONDS(x)], in nanoseconds. *)
Definition HRTIME_SECONDS (x : Z) : Z := x * 1000000000.

(** [this->_handshake_handler && this->_handshake_handler->is_completed()] *)
Definition handshake_is_completed : M' bool :=
  present <- member _handshake_handler ;;
  if present then lift (fun b => ask b hs_is_completed) else ret' false.

Section Redispatch.

(** [this->handleEvent(event, data)] *)
Variable handleEvent_again : QUICEvent -> M' EventResult.

(** [this->thread], through which the events are scheduled, is not
    represented. *)
Definition state_pre_handshake (event : QUICEvent) : M' EventResult :=
  net_handler <- member nh ;;
  when' (negb net_handler) (lift (fun _ => modify (set_nh true))) ;;
  ctx <- member netvc_context ;;
  (if context_eqb ctx NET_VCONNECTION_IN
   then
     seconds <- ask' no_activity_timeout_in ;;
     lift (fun _ => call (C_set_inactivity_timeout (HRTIME_SECONDS seconds)))
   else
     seconds <- ask' no_activity_timeout_out ;;
     lift (fun _ => call (C_set_inactivity_timeout (HRTIME_SECONDS seconds)))) ;;
  call' C_add_to_active_queue ;;
  _switch_to_handshake_state ;;
  handleEvent_again event.

(** One turn of the [do ... while] loop of [state_handshake]:
    [Leave (inl r)] when the handler returns [r] from within the loop,
    [Leave (inr error)] when the loop ends with [error]. *)
Definition state_handshake_read_body (event : QUICEvent)
  : M' (Turn (EventResult + option QUICConnectionError)) :=
  r <- lift (fun _ => _dequeue_recv_packet) ;;
  let '(packet, result) := r in
  error <-
    match result with
    | NOT_READY => ret' None
    | FAILED => ret' (Some (QUICConnectionError_trans INTERNAL_ERROR))
    | SUCCESS | UNSUPPORTED => _state_handshake_process_packet packet
    | _ => ret' None
    end ;;
  (* if we complete handshake, switch to establish state *)
  completed <- handshake_is_completed ;;
  if completed
  then
    _switch_to_established_state ;;
    r <- handleEvent_again event ;;
    ret' (Leave (inl r))
  else
    match error, result with
    | None, SUCCESS | None, IGNORED => ret' Again
    | _, _ => ret' (Leave (inr error))
    end.

(** As in the established state, [turns] = the queue's length + 1 is
    enough. *)
Fixpoint state_handshake_read_loop (turns : nat) (event : QUICEvent)
  : M' (EventResult + option QUICConnectionError) :=
  match turns with
  | O => out_of_fuel
  | S turns' =>
      t <- state_handshake_read_body event ;;
      match t with
      | Again => state_handshake_read_loop turns' event
      | Leave r => ret' r
      end
  end.

Definition state_handshake (fuel : nat) (event : QUICEvent) : M' EventResult :=
  completed <- handshake_is_completed ;;
  if completed
  then
    _switch_to_established_state ;;
    handleEvent_again event
  else
    r <-
      match event with
      | QUIC_EVENT_PACKET_READ_READY =>
          lift (fun _ => call C_net_activity) ;;
          q <- member _packet_recv_queue ;;
          state_handshake_read_loop (S (length q)) event
      | QUIC_EVENT_PACKET_WRITE_READY =>
          lift (fun _ => _close_packet_write_ready) ;;
          error <- lift_fuel (fun b => _state_common_send_packet b fuel) ;;
          (* Reschedule WRITE_READY *)
          lift (fun _ => _schedule_packet_write_ready true) ;;
          ret' (inr error)
      | QUIC_EVENT_PATH_VALIDATION_TIMEOUT =>
          lift _handle_path_validation_timeout ;;
          ret' (inr None)
      | EVENT_IMMEDIATE =>
          (* Start Immediate Close because of Idle Timeout *)
          _handle_idle_timeout ;;
          ret' (inr None)
      | _ => ret' (inr None)
      end ;;
    match r with
    | inl result => ret' result
    | inr error =>
        match error with
        | Some e => lift (fun b => _handle_error b e)
        | None => ret' tt
        end ;;
        ret' EVENT_CONT
    end.

End Redispatch.

Definition state_connection_established (fuel : nat) (event : QUICEvent)
  : M' EventResult :=
  error <-
    match event with
    | QUIC_EVENT_PACKET_READ_READY => _state_connection_established_receive_packet
    | QUIC_EVENT_PACKET_WRITE_READY =>
        lift (fun _ => _close_packet_write_ready) ;;
        error <- lift_fuel (fun b => _state_common_send_packet b fuel) ;;
        (* Reschedule WRITE_READY *)
        lift (fun _ => _schedule_packet_write_ready true) ;;
        ret' error
    | QUIC_EVENT_PATH_VALIDATION_TIMEOUT =>
        lift _handle_path_validation_timeout ;;
        ret' None
    | EVENT_IMMEDIATE =>
        (* Start Immediate Close because of Idle Timeout *)
        _handle_idle_timeout ;;
        ret' None
    | _ => ret' None
    end ;;
  match error with
  | Some e => lift (fun b => _handle_error b e)
  | None => ret' tt
  end ;;
  ret' EVENT_CONT.

(** [Continuation::handleEvent], for every state; [handleEvent] above is its
    restriction to the closing, draining and closed states. *)
Fixpoint handleEvent' (fuel : nat) (event : QUICEvent) : M' EventResult :=
  match fuel with
  | O => out_of_fuel
  | S fuel' =>
      h <- member handler ;;
      match h with
      | Handler.state_pre_handshake =>
          state_pre_handshake (handleEvent' fuel') event
      | Handler.state_handshake =>
          state_handshake (handleEvent' fuel') fuel' event
      | Handler.state_connection_established =>
          state_connection_established fuel' event
      | Handler.state_connection_closing =>
          lift (fun b => state_connection_closing b event)
      | Handler.state_connection_draining =>
          lift (fun b => state_connection_draining b event)
      | Handler.state_connection_closed =>
          lift (fun _ => state_connection_closed event)
      | _ => not_modelled
      end
  end.

(** [net_read_io] (lines 760-767) *)
Definition net_read_io (fuel : nat) : M' unit :=
  handleEvent' fuel QUIC_EVENT_PACKET_READ_READY ;;
  ret' tt.

(** What happens to the connection from outside, as above. *)
Definition input' (fuel : nat) (i : Input) : M' unit :=
  match i with
  | Receive d => lift (fun _ => handle_received_packet d)
  | Deliver event => handleEvent' fuel event ;; ret' tt
  | Close error => lift (fun b => close b error)
  end.

Fixpoint inputs' (fuel : nat) (l : list Input) : M' unit :=
  match l with
  | [] => ret' tt
  | i :: rest => input' fuel i ;; inputs' fuel rest
  end.

End Endpoint.

(** [QUICNetVConnection::is_closed] (lines 809-813) *)
Definition is_closed (c : QUICNetVConnection) : bool :=
  Handler.eqb (handler c) Handler.state_connection_closed.

(** ** Environments and connections of the handshake examples *)

(** The collaborators of the handshake in their simplest form, around an
    environment [b] of the others: the version is negotiated, migration
    exercise is off, the alt-CID manager accepts every CID. *)
Definition env_around (b : Env) : Env' :=
  {| env_of := fun _ => b;
     no_activity_timeout_in := fun _ _ => 30;
     no_activity_timeout_out := fun _ _ => 30;
     cm_exercise_enabled := fun _ _ => false;
     hs_is_version_negotiated := fun _ _ => true;
     hs_start := fun _ _ _ => None;
     hs_negotiate_version := fun _ _ _ => None;
     cid_randomize := fun _ _ => [7; 7; 7; 7];
     acm_migrate_to := fun _ _ _ => true;
     acm_will_generate_frame := fun _ _ _ => false |}.

Definition endpoint (c : QUICNetVConnection) : Endpoint :=
  {| vc := c; _connection_migration_initiated := false; log := [] |}.

(** As [env_idle], but the peer's transport parameters are missing. *)
Definition env_without_remote_tp : Env :=
  {| rnd := rnd env_idle;
     hs_is_completed := hs_is_completed env_idle;
     hs_has_remote_tp := fun _ => false;
     hs_local_transport_parameters := hs_local_transport_parameters env_idle;
     hs_remote_transport_parameters := hs_remote_transport_parameters env_idle;
     hs_negotiated_application_name := hs_negotiated_application_name env_idle;
     hsp_current_encryption_level := hsp_current_encryption_level env_idle;
     IP_PROTO_TAG_HTTP_QUIC := IP_PROTO_TAG_HTTP_QUIC env_idle;
     np_findEndpoint := np_findEndpoint env_idle;
     ld_current_rto_period := ld_current_rto_period env_idle;
     ld_largest_acked_packet_number := ld_largest_acked_packet_number env_idle;
     cc_open_window := cc_open_window env_idle;
     pv_is_validated := pv_is_validated env_idle;
     pv_is_validating := pv_is_validating env_idle;
     sm_total_offset_received := sm_total_offset_received env_idle;
     sm_total_reordered_bytes := sm_total_reordered_bytes env_idle;
     sm_total_offset_sent := sm_total_offset_sent env_idle;
     sm_will_generate_frame := sm_will_generate_frame env_idle;
     lfc_update := lfc_update env_idle;
     rfc_credit := rfc_credit env_idle;
     ack_will_generate_frame := ack_will_generate_frame env_idle;
     generate_frame := generate_frame env_idle;
     frame_store := frame_store env_idle;
     pf_create_packet := pf_create_packet env_idle;
     packet_store := packet_store env_idle;
     fd_should_send_ack := fd_should_send_ack env_idle;
     fd_is_flow_controlled := fd_is_flow_controlled env_idle;
     fh_handle_frame := fh_handle_frame env_idle;
     encryption_level := encryption_level env_idle;
     pn_space_index := pn_space_index env_idle |}.

(** As [env_idle], but the handshake is not completed. *)
Definition env_handshaking : Env :=
  {| rnd := rnd env_idle;
     hs_is_completed := fun _ => false;
     hs_has_remote_tp := hs_has_remote_tp env_idle;
     hs_local_transport_parameters := hs_local_transport_parameters env_idle;
     hs_remote_transport_parameters := hs_remote_transport_parameters env_idle;
     hs_negotiated_application_name := hs_negotiated_application_name env_idle;
     hsp_current_encryption_level := hsp_current_encryption_level env_idle;
     IP_PROTO_TAG_HTTP_QUIC := IP_PROTO_TAG_HTTP_QUIC env_idle;
     np_findEndpoint := np_findEndpoint env_idle;
     ld_current_rto_period := ld_current_rto_period env_idle;
     ld_largest_acked_packet_number := ld_largest_acked_packet_number env_idle;
     cc_open_window := cc_open_window env_idle;
     pv_is_validated := pv_is_validated env_idle;
     pv_is_validating := pv_is_validating env_idle;
     sm_total_offset_received := sm_total_offset_received env_idle;
     sm_total_reordered_bytes := sm_total_reordered_bytes env_idle;
     sm_total_offset_sent := sm_total_offset_sent env_idle;
     sm_will_generate_frame := sm_will_generate_frame env_idle;
     lfc_update := lfc_update env_idle;
     rfc_credit := rfc_credit env_idle;
     ack_will_generate_frame := ack_will_generate_frame env_idle;
     generate_frame := generate_frame env_idle;
     frame_store := frame_store env_idle;
     pf_create_packet := pf_create_packet env_idle;
     packet_store := packet_store env_idle;
     fd_should_send_ack := fd_should_send_ack env_idle;
     fd_is_flow_controlled := fd_is_flow_controlled env_idle;
     fh_handle_frame := fh_handle_frame env_idle;
     encryption_level := encryption_level env_idle;
     pn_space_index := pn_space_index env_idle |}.

Definition client_established : QUICNetVConnection :=
  connection NET_VCONNECTION_OUT Handler.state_connection_established.

(** A 1-RTT packet addressed to a connection ID other than the one of
    [connection]. *)
Definition packet_to_other_cid : QUICPacket :=
  {| pkt_type := QUICPacketType.PROTECTED; destination_cid := [4; 3; 2; 1];
     source_cid := QUICConnectionId_ZERO; packet_number := 12;
     base_packet_number := 0; payload := [frame_of QUICFrameType.PING];
     payload_length := 20; is_retransmittable := true;
     is_probing_packet := false |}.

Definition version_negotiation_packet : QUICPacket :=
  received QUICPacketType.VERSION_NEGOTIATION 0 [].

(** As [env_idle], but the handshake is not completed and the peer's transport
    parameters are missing. *)
Definition env_first_flight : Env :=
  {| rnd := rnd env_idle;
     hs_is_completed := fun _ => false;
     hs_has_remote_tp := fun _ => false;
     hs_local_transport_parameters := hs_local_transport_parameters env_idle;
     hs_remote_transport_parameters := hs_remote_transport_parameters env_idle;
     hs_negotiated_application_name := hs_negotiated_application_name env_idle;
     hsp_current_encryption_level := hsp_current_encryption_level env_idle;
     IP_PROTO_TAG_HTTP_QUIC := IP_PROTO_TAG_HTTP_QUIC env_idle;
     np_findEndpoint := np_findEndpoint env_idle;
     ld_current_rto_period := ld_current_rto_period env_idle;
     ld_largest_acked_packet_number := ld_largest_acked_packet_number env_idle;
     cc_open_window := cc_open_window env_idle;
     pv_is_validated := pv_is_validated env_idle;
     pv_is_validating := pv_is_validating env_idle;
     sm_total_offset_received := sm_total_offset_received env_idle;
     sm_total_reordered_bytes := sm_total_reordered_bytes env_idle;
     sm_total_offset_sent := sm_total_offset_sent env_idle;
     sm_will_generate_frame := sm_will_generate_frame env_idle;
     lfc_update := lfc_update env_idle;
     rfc_credit := rfc_credit env_idle;
     ack_will_generate_frame := ack_will_generate_frame env_idle;
     generate_frame := generate_frame env_idle;
     frame_store := frame_store env_idle;
     pf_create_packet := pf_create_packet env_idle;
     packet_store := packet_store env_idle;
     fd_should_send_ack := fd_should_send_ack env_idle;
     fd_is_flow_controlled := fd_is_flow_controlled env_idle;
     fh_handle_frame := fh_handle_frame env_idle;
     encryption_level := encryption_level env_idle;
     pn_space_index := pn_space_index env_idle |}.

(** The packets of the handshake examples. *)
Definition initial_packet : QUICPacket :=
  received QUICPacketType.INITIAL 0 [frame_of QUICFrameType.CRYPTO].

Definition handshake_packet : QUICPacket :=
  received QUICPacketType.HANDSHAKE 1 [frame_of QUICFrameType.CRYPTO].

(** A server in the handshake state that has received an Initial packet. *)
Definition server_with_initial : QUICNetVConnection :=
  set_packet_recv_queue [Decodable initial_packet] server_in_handshake.

(** An established server with its alt-connection manager, to which the peer
    has supplied one spare connection ID. *)
Definition server_migratable : QUICNetVConnection :=
  set_alt_con_manager true
    (set_remote_alt_cids [[8; 8; 8; 8]] server_established).

(** The same server with three datagrams received: a packet addressed to
    another connection ID, a packet that could not be created, and a packet
    whose NEW_CONNECTION_ID frame carries the zero-length connection ID. *)
Definition server_with_datagrams : QUICNetVConnection :=
  set_packet_recv_queue
    [Decodable packet_to_other_cid; Undecodable FAILED;
     Decodable packet_with_zero_cid]
    server_migratable.

(** As [env_idle], but the path validator has not validated the path. *)
Definition env_path_unvalidated : Env :=
  {| rnd := rnd env_idle;
     hs_is_completed := hs_is_completed env_idle;
     hs_has_remote_tp := hs_has_remote_tp env_idle;
     hs_local_transport_parameters := hs_local_transport_parameters env_idle;
     hs_remote_transport_parameters := hs_remote_transport_parameters env_idle;
     hs_negotiated_application_name := hs_negotiated_application_name env_idle;
     hsp_current_encryption_level := hsp_current_encryption_level env_idle;
     IP_PROTO_TAG_HTTP_QUIC := IP_PROTO_TAG_HTTP_QUIC env_idle;
     np_findEndpoint := np_findEndpoint env_idle;
     ld_current_rto_period := ld_current_rto_period env_idle;
     ld_largest_acked_packet_number := ld_largest_acked_packet_number env_idle;
     cc_open_window := cc_open_window env_idle;
     pv_is_validated := fun _ => false;
     pv_is_validating := pv_is_validating env_idle;
     sm_total_offset_received := sm_total_offset_received env_idle;
     sm_total_reordered_bytes := sm_total_reordered_bytes env_idle;
     sm_total_offset_sent := sm_total_offset_sent env_idle;
     sm_will_generate_frame := sm_will_generate_frame env_idle;
     lfc_update := lfc_update env_idle;
     rfc_credit := rfc_credit env_idle;
     ack_will_generate_frame := ack_will_generate_frame env_idle;
     generate_frame := generate_frame env_idle;
     frame_store := frame_store env_idle;
     pf_create_packet := pf_create_packet env_idle;
     packet_store := packet_store env_idle;
     fd_should_send_ack := fd_should_send_ack env_idle;
     fd_is_flow_controlled := fd_is_flow_controlled env_idle;
     fh_handle_frame := fh_handle_frame env_idle;
     encryption_level := encryption_level env_idle;
     pn_space_index := pn_space_index env_idle |}.

(** An established server that waits for the validation of a new path. *)
Definition server_validating_path : QUICNetVConnection :=
  set_path_validation_timeout true server_migratable.

(** * The vocabulary of the statements *)

(** The trace of [c'] is the trace of [c] with calls of class [Q] in front
    (and a started application stays started). *)
Definition extends (Q : Call -> bool) (c c' : QUICNetVConnection) : Prop :=
  (exists l, trace c' = l ++ trace c /\ forallb Q l = true) /\
  (_application_started c = true -> _application_started c' = true).

(** Every run of [m] extends the connection with calls of class [Q]. *)
Definition adds (Q : Call -> bool) {A} (m : M A) : Prop :=
  forall c, extends Q c (exec m c).

(** The calls of connection management: timers, the net handler's queues,
    flow-control limits, the application, frames handed to other handlers. *)
Definition housekeeping (x : Call) : bool :=
  match x with
  | C_schedule_imm _ | C_schedule_in _ _ | C_schedule_in_local _ _ | C_cancel _
  | C_remove_from_active_queue | C_set_inactivity_timeout _ | C_clear_timeouts
  | C_free_netvc | C_close_connection | C_ld_shutdown _
  | C_sm_init_flow_control_params _ _ | C_lfc_set_limit _ | C_rfc_set_limit _
  | C_rfc_forward_limit _ | C_app_handleEvent _ | C_dispatch_frame _ _ => true
  | _ => false
  end.

(** What the receive path adds to them: local flow control and ack
    bookkeeping. *)
Definition receiving (x : Call) : bool :=
  match x with
  | C_lfc_update _ | C_lfc_forward_limit _ | C_ack_update _ _ _ => true
  | _ => housekeeping x
  end.

(** The calls of the packetizer. *)
Definition packetizing (x : Call) : bool :=
  match x with
  | C_generate_frame _ _ _ _ | C_create_packet _ | C_rfc_update _ | C_rnd => true
  | _ => false
  end.

(** The calls that put a packet on its way out. *)
Definition outbound (x : Call) : bool :=
  match x with
  | C_generate_frame _ _ _ _ | C_create_packet _ | C_send_packet _
  | C_on_packet_sent _ _ => true
  | _ => false
  end.

(** The limit a flow controller is given: [INITIAL_MAX_DATA] of the transport
    parameters, 0 without them. *)
Definition initial_max_data (tp : option QUICTransportParameters) : Z :=
  match tp with
  | Some p => tp_initial_max_data p
  | None => 0
  end.

(** The application has been handed the connection. *)
Definition is_app_event (x : Call) : bool :=
  match x with
  | C_app_handleEvent _ => true
  | _ => false
  end.

(** What [_start_application] has done when [_complete_handshake_if_possible]
    returns 0 in the handshake state, [t] being the trace with the
    flow-control limits set.  If the application was started before, nothing.
    Otherwise the client hands the connection to its continuation
    (NET_EVENT_OPEN); the server looks up the endpoint of the negotiated
    protocol (HTTP over QUIC if none was negotiated) and hands the connection
    to it (NET_EVENT_ACCEPT); if the protocol has no endpoint, no application
    is notified and the connection is closed with VERSION_NEGOTIATION_ERROR. *)
Definition application_started_from (env : Env) (t : Trace)
  (c c' : QUICNetVConnection) : Prop :=
  _application_started c' = true /\
  if _application_started c
  then trace c' = t /\ handler c' = Handler.state_handshake
  else if context_eqb (netvc_context c) NET_VCONNECTION_IN
  then
    let app_name :=
      match hs_negotiated_application_name env t with
      | Some n => n
      | None => IP_PROTO_TAG_HTTP_QUIC env
      end in
    if np_findEndpoint env t app_name
    then trace c' = C_app_handleEvent NET_EVENT_ACCEPT :: t /\
         handler c' = Handler.state_handshake
    else handler c' = Handler.state_connection_closing /\
         _connection_error c'
         = Some (QUICConnectionError_trans VERSION_NEGOTIATION_ERROR) /\
         filter is_app_event (trace c') = filter is_app_event (trace c)
  else trace c' = C_app_handleEvent NET_EVENT_OPEN :: t /\
       handler c' = Handler.state_handshake.

(** Running [m] does not change the member [f]. *)
Definition keeps {B} (f : QUICNetVConnection -> B) {A} (m : M A) : Prop :=
  forall c, f (exec m c) = f c.

(** Draining, or closed (where draining ends). *)
Definition drained (c : QUICNetVConnection) : Prop :=
  handler c = Handler.state_connection_draining \/
  handler c = Handler.state_connection_closed.

(** The receive counters of the closing state: the count of packets received
    in the current window, and the window. *)
Definition closing_counters (c : QUICNetVConnection) : Z * Z :=
  (_state_closing_recv_packet_count c, _state_closing_recv_packet_window c).

(** Inputs that reach the connection from outside: datagrams and events (not
    calls of [close]). *)
Definition from_outside (i : Input) : bool :=
  match i with
  | Close _ => false
  | _ => true
  end.

(** A MAX_DATA frame. *)
Definition is_max_data (f : QUICFrame) : bool :=
  QUICFrameType.eqb (frame_type f) QUICFrameType.MAX_DATA.

(** A queued datagram that decodes to a packet with a MAX_DATA frame. *)
Definition carries_max_data (d : Datagram) : bool :=
  match d with
  | Decodable p => existsb is_max_data (payload p)
  | Undecodable _ => false
  end.

(** The calls of the receive path proper: frames handed to other handlers,
    local flow control, ack bookkeeping. *)
Definition bookkeeping (x : Call) : bool :=
  match x with
  | C_dispatch_frame _ _ | C_lfc_update _ | C_lfc_forward_limit _
  | C_ack_update _ _ _ => true
  | _ => false
  end.

(** The inputs of the examples: a packet with a MAX_DATA frame arrives, the
    queue is read, the write event (if any) fires. *)
Definition max_data_round : list Input :=
  [Receive (Decodable packet_with_max_data);
   Deliver QUIC_EVENT_PACKET_READ_READY;
   Deliver QUIC_EVENT_PACKET_WRITE_READY].

(** Packets handed to a loss detector so far. *)
Definition handed (c : QUICNetVConnection) : Z :=
  count is_packet_handed_to_loss_detector (trace c).

(** UDP datagrams sent so far. *)
Definition datagrams (c : QUICNetVConnection) : Z :=
  count is_datagram_sent (trace c).

(** The encryption levels for which [_build_packet] has a packet type: all
    but 0-RTT (and [NONE]). *)
Definition has_packet_type (level : QUICEncryptionLevel.t) : bool :=
  match packet_type level with
  | QUICPacketType.INITIAL | QUICPacketType.RETRY | QUICPacketType.HANDSHAKE
  | QUICPacketType.PROTECTED => true
  | _ => false
  end.

(** The levels of a list that have a packet type. *)
Definition packet_levels (levels : list QUICEncryptionLevel.t)
  : list QUICEncryptionLevel.t :=
  filter has_packet_type levels.

(** [m] returns the null packet (or runs out of fuel). *)
Definition builds_nothing (m : M (option (option QUICPacket))) : Prop :=
  forall c, eval m c = Some None \/ eval m c = None.

(** The receive window of the closing state after [k] doublings. *)
Definition closing_window_at (k : Z) (c : QUICNetVConnection) : Prop :=
  0 <= k <= STATE_CLOSING_MAX_SEND_PKT_NUM /\
  _state_closing_recv_packet_window c = 2 ^ k.

(** The receive window is a power of two, at most 2^8. *)
Definition closing_window (c : QUICNetVConnection) : Prop :=
  exists k, closing_window_at k c.

(** The part of a connection that the close packet is resent from: the
    closing state with the packet built, the error handed over to it, no
    write pending and nothing queued. *)
Definition closing_with (p : QUICPacket) (c : QUICNetVConnection) : Prop :=
  handler c = Handler.state_connection_closing /\
  _the_final_packet c = Some p /\
  _connection_error c = None /\
  _packet_write_ready c = false /\
  _packet_recv_queue c = [].

(** What the event system does with the write event: it is delivered when
    the connection holds a scheduled one ([_packet_write_ready] is that
    event), and not otherwise. *)
Definition deliver_scheduled_write (env : Env) (c : QUICNetVConnection)
  : option QUICNetVConnection :=
  if _packet_write_ready c
  then handleEvent env QUIC_EVENT_PACKET_WRITE_READY c
  else Some c.

(** A datagram arrives and the queue is read; the write event follows only
    if the read has left one scheduled. *)
Definition receive_and_serve (env : Env) (d : Datagram) (c : QUICNetVConnection)
  : option QUICNetVConnection :=
  match inputs env [Receive d; Deliver QUIC_EVENT_PACKET_READ_READY] c with
  | Some c' => deliver_scheduled_write env c'
  | None => None
  end.

(** The same for one datagram after the other. *)
Fixpoint receive_all (env : Env) (ds : list Datagram) (c : QUICNetVConnection)
  : option QUICNetVConnection :=
  match ds with
  | [] => Some c
  | d :: rest =>
      match receive_and_serve env d c with
      | Some c' => receive_all env rest c'
      | None => None
      end
  end.

(** An established server connection after [close] and the first write
    event: it has sent its close packet once. *)
Definition server_closing : QUICNetVConnection :=
  exec (state_connection_closing env_idle QUIC_EVENT_PACKET_WRITE_READY)
    (exec (close env_idle internal_error) server_established).

(** A packet of the Initial or Handshake type handed to a loss detector. *)
Definition is_handshake_packet_handed (x : Call) : bool :=
  match x with
  | C_on_packet_sent _ p =>
      QUICPacketType.eqb (pkt_type p) QUICPacketType.INITIAL
      || QUICPacketType.eqb (pkt_type p) QUICPacketType.HANDSHAKE
  | _ => false
  end.

(** A server that has not verified its client's address. *)
Definition unverified_server (c : QUICNetVConnection) : Prop :=
  netvc_context c = NET_VCONNECTION_IN /\ _src_addr_verified c = false.

(** How many Initial and Handshake packets have been handed to the loss
    detectors. *)
Definition handshake_packets_handed (c : QUICNetVConnection) : Z :=
  count is_handshake_packet_handed (trace c).

(** The locals of [_packetize_frames] before the first generator is asked. *)
Definition packetize_start (size limit : Z) : Packetizing :=
  {| frames := {| buf := []; len := 0;
                  max_frame_size := Z.min (u64 (size - MAX_PACKET_OVERHEAD)) limit |};
     frame_count := 0; probing := false |}.

(** [_packetize_frames] from the ACK step on, with the locals [st]. *)
Definition packetize_finish (env : Env) (level : QUICEncryptionLevel.t)
  (max_packet_size : Z) (st : Packetizing) : M (option (option QUICPacket)) :=
  due <- ask env (fun e t => ack_will_generate_frame e t level) ;;
  frame <- (if (frame_count st =? 0) && negb due then ret None
            else generate env GEN_ack_frame_creator level UINT16_MAX
                   (max_frame_size (frames st))) ;;
  let ack_only :=
    match frame with Some _ => frame_count st =? 0 | None => false end in
  let st := match frame with Some f => add_frame env st f | None => st end in
  if negb (len (frames st) =? 0)
  then
    ctx <- gets netvc_context ;;
    padded_len <-
      (if QUICEncryptionLevel.eqb level QUICEncryptionLevel.INITIAL
          && context_eqb ctx NET_VCONNECTION_OUT
       then
         min_size <- minimum_quic_packet_size env ;;
         let min_size := Z.min min_size max_packet_size in
         ret (if len (frames st) <? min_size then min_size
              else len (frames st))
       else ret (len (frames st))) ;;
    packet <- _build_packet env level (buf (frames st)) padded_len (negb ack_only)
                (probing st) ;;
    ret (Some packet)
  else ret (Some None).

(** The frame counter and the probing flag follow the buffer. *)
Definition counted (st : Packetizing) : Prop :=
  probing st = existsb is_probing_frame (buf (frames st)) /\
  frame_count st = Z.of_nat (length (buf (frames st))) /\
  (buf (frames st) = [] -> len (frames st) = 0).

(** The room left and the bytes stored add up to at most [budget]. *)
Definition within (budget : Z) (st : Packetizing) : Prop :=
  0 <= len (frames st) /\ 0 <= max_frame_size (frames st) /\
  len (frames st) + max_frame_size (frames st) <= budget.

(** A request to the stream manager for a frame. *)
Definition is_stream_generation (x : Call) : bool :=
  match x with
  | C_generate_frame GEN_stream_manager _ _ _ => true
  | _ => false
  end.

(** Requests to the stream manager for a frame so far. *)
Definition stream_generations (c : QUICNetVConnection) : Z :=
  count is_stream_generation (trace c).

(** The packetizer's calls outside of its STREAM loop. *)
Definition packetizing_others (x : Call) : bool :=
  match x with
  | C_generate_frame GEN_stream_manager _ _ _ => false
  | C_generate_frame _ _ _ _ | C_create_packet _ | C_rnd => true
  | _ => false
  end.

(** [m] neither asks the stream manager nor counts a stream frame. *)
Definition leaves_streams {A} (m : M A) : Prop :=
  forall c,
    stream_generations (exec m c) = stream_generations c /\
    _stream_frames_sent (exec m c) = _stream_frames_sent c.

(** The connection is closing, draining or closed. *)
Definition past_close (c : QUICNetVConnection) : Prop :=
  handler c = Handler.state_connection_closing \/ drained c.

(** [c'] is closing, draining or closed, with the error and the close packet
    of [c]. *)
Definition settled (c c' : QUICNetVConnection) : Prop :=
  past_close c' /\
  _connection_error c' = _connection_error c /\
  _the_final_packet c' = _the_final_packet c.

(** Run on a closing, draining or closed connection, [m] leaves it closing,
    draining or closed, with its error and its close packet. *)
Definition settles {A} (m : M A) : Prop :=
  forall c, past_close c -> settled c (exec m c).

(** The datagrams sent, most recent first. *)
Fixpoint datagrams_sent (t : Trace) : list (list QUICPacket) :=
  match t with
  | [] => []
  | C_send_packet ps :: t' => ps :: datagrams_sent t'
  | _ :: t' => datagrams_sent t'
  end.

(** A write event. *)
Definition is_write_event (i : Input) : bool :=
  match i with
  | Deliver QUIC_EVENT_PACKET_WRITE_READY => true
  | _ => false
  end.

(** The connection is closing, draining or closed, and its close packet [p]
    is built from the error it was closed with. *)
Definition close_packet_built (p : QUICPacket) (c : QUICNetVConnection) : Prop :=
  past_close c /\ _the_final_packet c = Some p /\ _connection_error c = None.

(** The connection is handed back: to the net handler, or through [free] to
    the packet handler. *)
Definition is_handed_back (x : Call) : bool :=
  match x with
  | C_free_netvc | C_close_connection => true
  | _ => false
  end.

(** A server whose handshake is completed, with no endpoint for the
    application protocol. *)
Definition server_without_endpoint (env : Env') (e : Endpoint) : Prop :=
  handler (vc e) = Handler.state_handshake /\
  netvc_context (vc e) = NET_VCONNECTION_IN /\
  _handshake_handler (vc e) = true /\
  _application_started (vc e) = false /\
  hs_is_completed (env_of env (log e)) (trace (vc e)) = true /\
  (forall t name, np_findEndpoint (env_of env (log e)) t name = false).

(** The connection is in the established state with a close under way: the
    error is recorded and the closing timer runs, but no handler of the
    closing state is installed. *)
Definition established_with_close_pending (e : Endpoint) : Prop :=
  handler (vc e) = Handler.state_connection_established /\
  _connection_error (vc e)
  = Some (QUICConnectionError_trans VERSION_NEGOTIATION_ERROR) /\
  _closing_timeout (vc e) = true /\
  _alt_con_manager (vc e) = true.

(** A client whose handshake is completed without the transport parameters of
    the server. *)
Definition client_without_remote_tp (env : Env') (e : Endpoint) : Prop :=
  handler (vc e) = Handler.state_handshake /\
  netvc_context (vc e) = NET_VCONNECTION_OUT /\
  _handshake_handler (vc e) = true /\
  hs_is_completed (env_of env (log e)) (trace (vc e)) = true /\
  hs_has_remote_tp (env_of env (log e)) (trace (vc e)) = false.

(** A packet type that the established state has no case for. *)
Definition unexpected_when_established (type : QUICPacketType.t) : bool :=
  match type with
  | QUICPacketType.PROTECTED | QUICPacketType.INITIAL
  | QUICPacketType.HANDSHAKE | QUICPacketType.ZERO_RTT_PROTECTED => false
  | _ => true
  end.

(** A packet type that the handshake state has no case for. *)
Definition unexpected_in_handshake (type : QUICPacketType.t) : bool :=
  match type with
  | QUICPacketType.VERSION_NEGOTIATION | QUICPacketType.INITIAL
  | QUICPacketType.RETRY | QUICPacketType.HANDSHAKE
  | QUICPacketType.ZERO_RTT_PROTECTED => false
  | _ => true
  end.

(** A datagram for which packet creation fails, or one that decodes to a
    packet of a type that the state of the connection has no case for. *)
Definition unacceptable (h : Handler.t) (d : Datagram) : bool :=
  match d with
  | Undecodable FAILED => true
  | Undecodable _ => false
  | Decodable p =>
      match h with
      | Handler.state_connection_established =>
          unexpected_when_established (pkt_type p)
      | Handler.state_handshake => unexpected_in_handshake (pkt_type p)
      | _ => false
      end
  end.



(** The server migrates to the connection ID a packet is addressed to when
    that is not its current one, the peer has supplied a spare connection ID,
    and the alt-connection manager accepts the new one. *)
Definition migration_accepted (env : Env') (p : QUICPacket) (e : Endpoint)
  : bool :=
  negb (cid_eqb (destination_cid p) (_quic_connection_id (vc e)))
  && match _remote_alt_cids (vc e) with [] => false | _ => true end
  && acm_migrate_to env (log e) (trace (vc e)) (destination_cid p).

(** The handshake engine never reports completion. *)
Definition never_completed (b : Env) : Prop :=
  forall t, hs_is_completed b t = false.

(** The connection is in the handshake state or draining. *)
Definition before_close (c : QUICNetVConnection) : Prop :=
  handler c = Handler.state_handshake \/
  handler c = Handler.state_connection_draining.

(** [m] leaves a connection that is in the handshake state or draining in
    one of these states. *)
Definition stays_before_close {A} (m : M A) : Prop :=
  forall c, before_close c -> before_close (exec m c).

(** The peer's transport parameters are not known after the first Initial
    packet. *)
Definition server_without_remote_tp (env : Env') (e : Endpoint) : Prop :=
  handler (vc e) = Handler.state_handshake /\
  netvc_context (vc e) = NET_VCONNECTION_IN /\
  _handshake_handler (vc e) = true /\
  (forall l, never_completed (env_of env l)) /\
  (forall l t, hs_is_version_negotiated env l t = true) /\
  (forall l t, hs_has_remote_tp (env_of env l) t = false).

(** A datagram as the receive queue hands it on: with a packet when the
    result is SUCCESS, without one otherwise. *)
Definition well_formed (d : Datagram) : bool :=
  match d with
  | Undecodable SUCCESS | Undecodable UNSUPPORTED => false
  | _ => true
  end.

(** A server with its handshake handler and its alt-connection manager, and
    a queue of well-formed datagrams. *)
Definition server_reading (e : Endpoint) : Prop :=
  netvc_context (vc e) = NET_VCONNECTION_IN /\
  _handshake_handler (vc e) = true /\
  _alt_con_manager (vc e) = true /\
  forallb well_formed (_packet_recv_queue (vc e)) = true.

(** * Properties *)

(** ** Running the monad *)

Ltac mrun :=
  cbv beta iota delta
    [bind ret gets modify call ask when exec eval bind_fuel fst snd direction].

(** On a connection given by its fields, member accesses and field updates
    compute too. *)
Ltac crun :=
  cbv beta iota zeta delta
    [bind ret gets modify call ask when exec eval bind_fuel fst snd direction
     handler netvc_context ip_family _pmtu _quic_connection_id
     _peer_quic_connection_id _original_quic_connection_id _remote_alt_cids
     _packet_recv_queue _last_received_packet_type _handshake_handler
     _alt_con_manager _application_started _flow_control_buffer_size
     _src_addr_verified _handshake_packets_sent _stream_frames_sent
     _connection_error _the_final_packet _state_closing_recv_packet_count
     _state_closing_recv_packet_window _packet_write_ready _closing_timeout
     _path_validation_timeout _closed_event nh trace
     set_handler set_peer_quic_connection_id set_remote_alt_cids
     set_packet_recv_queue set_last_received_packet_type
     set_application_started set_flow_control_buffer_size
     set_handshake_packets_sent set_stream_frames_sent set_connection_error
     set_the_final_packet set_state_closing_recv_packet_count
     set_state_closing_recv_packet_window set_packet_write_ready
     set_closing_timeout set_path_validation_timeout set_closed_event
     set_trace negb andb orb Handler.eqb context_eqb].

Lemma bind_eq {A B} (m : M A) (k : A -> M B) c :
  bind m k c = k (fst (m c)) (snd (m c)).
Proof. unfold bind. destruct (m c); reflexivity. Qed.

Lemma exec_bind {A B} (m : M A) (k : A -> M B) c :
  exec (bind m k) c = exec (k (eval m c)) (exec m c).
Proof. unfold exec, eval. rewrite bind_eq. reflexivity. Qed.

Lemma eval_bind {A B} (m : M A) (k : A -> M B) c :
  eval (bind m k) c = eval (k (eval m c)) (exec m c).
Proof. unfold exec, eval. rewrite bind_eq. reflexivity. Qed.

Lemma run_eq {A} (m : M A) c : m c = (eval m c, exec m c).
Proof. unfold eval, exec. destruct (m c); reflexivity. Qed.

(** ** Which calls a function makes

    [extends Q c c']: the trace of [c'] is the trace of [c] with calls of
    class [Q] put in front, and an application that was started in [c] is
    started in [c'].  [adds Q m]: every run of [m] extends the connection
    that way. *)

Lemma extends_refl Q c : extends Q c c.
Proof. split; [exists []; split; reflexivity | auto]. Qed.

Lemma extends_trans Q c1 c2 c3 :
  extends Q c1 c2 -> extends Q c2 c3 -> extends Q c1 c3.
Proof.
  intros [[l1 [E1 F1]] S1] [[l2 [E2 F2]] S2]. split; [|auto].
  exists (l2 ++ l1). split.
  - rewrite E2, E1, app_assoc. reflexivity.
  - rewrite forallb_app, F1, F2. reflexivity.
Qed.

Lemma extends_weaken (Q Q' : Call -> bool) c c' :
  (forall x, Q x = true -> Q' x = true) -> extends Q c c' -> extends Q' c c'.
Proof.
  intros W [[l [E F]] S]. split; [|exact S]. exists l. split; [exact E|].
  rewrite forallb_forall in *. auto.
Qed.

Lemma adds_weaken (Q Q' : Call -> bool) {A} (m : M A) :
  (forall x, Q x = true -> Q' x = true) -> adds Q m -> adds Q' m.
Proof. intros W H c. eapply extends_weaken; eauto. Qed.

Lemma adds_ret Q {A} (a : A) : adds Q (ret a).
Proof. intros c. apply extends_refl. Qed.

Lemma adds_bind Q {A B} (m : M A) (k : A -> M B) :
  adds Q m -> (forall a, adds Q (k a)) -> adds Q (bind m k).
Proof.
  intros Hm Hk c. rewrite exec_bind. eapply extends_trans; [apply Hm | apply Hk].
Qed.

Lemma adds_gets Q {A} (f : QUICNetVConnection -> A) : adds Q (gets f).
Proof. intros c. apply extends_refl. Qed.

Lemma adds_ask Q env {A} (q : Env -> Trace -> A) : adds Q (ask env q).
Proof. intros c. apply extends_refl. Qed.

Lemma adds_modify Q (f : QUICNetVConnection -> QUICNetVConnection) :
  (forall c, trace (f c) = trace c /\
             (_application_started c = true -> _application_started (f c) = true)) ->
  adds Q (modify f).
Proof.
  intros H c. destruct (H c) as [E S]. split; [|exact S].
  exists []. split; [exact E | reflexivity].
Qed.

Lemma adds_call (Q : Call -> bool) x : Q x = true -> adds Q (call x).
Proof.
  intros H c. split; [|auto]. exists [x]. split; [reflexivity|].
  cbn. rewrite H. reflexivity.
Qed.

Lemma adds_bind_fuel Q {A B} (m : M (option A)) (k : A -> M (option B)) :
  adds Q m -> (forall a, adds Q (k a)) -> adds Q (bind_fuel m k).
Proof.
  intros Hm Hk. unfold bind_fuel. apply adds_bind; [exact Hm|].
  intros [a|]; [apply Hk | apply adds_ret].
Qed.

Create HintDb adds discriminated.

Ltac adds_step :=
  lazymatch goal with
  | |- adds _ (bind _ _) => apply adds_bind; [ | intros ]
  | |- adds _ (bind_fuel _ _) => apply adds_bind_fuel; [ | intros ]
  | |- adds _ (ret _) => apply adds_ret
  | |- adds _ (gets _) => apply adds_gets
  | |- adds _ (ask _ _) => apply adds_ask
  | |- adds _ direction => apply adds_gets
  | |- adds _ (modify _) =>
      apply adds_modify; intros; split; [reflexivity | cbn; auto]
  | |- adds _ (call _) => apply adds_call; reflexivity
  | |- adds _ (when ?b _) => unfold when
  | |- adds _ (if ?b then _ else _) => destruct b
  | |- adds _ (match ?x with _ => _ end) => destruct x
  | |- adds _ _ => solve [eauto with adds]
  end.

Ltac adds_tac := repeat adds_step.

Lemma housekeeping_receiving x : housekeeping x = true -> receiving x = true.
Proof. destruct x; cbn; congruence. Qed.

Lemma receiving_not_outbound x : receiving x = true -> outbound x = false.
Proof. destruct x; cbn; congruence. Qed.

Lemma schedule_packet_write_ready_adds delay :
  adds housekeeping (_schedule_packet_write_ready delay).
Proof. unfold _schedule_packet_write_ready. adds_tac. Qed.

Lemma unschedule_packet_write_ready_adds :
  adds housekeeping _unschedule_packet_write_ready.
Proof. unfold _unschedule_packet_write_ready. adds_tac. Qed.

Lemma close_packet_write_ready_adds Q : adds Q _close_packet_write_ready.
Proof. unfold _close_packet_write_ready. adds_tac. Qed.

Lemma schedule_closing_timeout_adds i :
  adds housekeeping (_schedule_closing_timeout i).
Proof. unfold _schedule_closing_timeout. adds_tac. Qed.

Lemma unschedule_closing_timeout_adds :
  adds housekeeping _unschedule_closing_timeout.
Proof. unfold _unschedule_closing_timeout. adds_tac. Qed.

Lemma close_closing_timeout_adds Q : adds Q _close_closing_timeout.
Proof. unfold _close_closing_timeout. adds_tac. Qed.

Lemma schedule_closed_event_adds : adds housekeeping _schedule_closed_event.
Proof. unfold _schedule_closed_event. adds_tac. Qed.

Lemma close_closed_event_adds Q : adds Q _close_closed_event.
Proof. unfold _close_closed_event. adds_tac. Qed.

Lemma unschedule_path_validation_timeout_adds :
  adds housekeeping _unschedule_path_validation_timeout.
Proof. unfold _unschedule_path_validation_timeout. adds_tac. Qed.

Lemma close_path_validation_timeout_adds Q :
  adds Q _close_path_validation_timeout.
Proof. unfold _close_path_validation_timeout. adds_tac. Qed.

Lemma closing_period_adds env Q : adds Q (closing_period env).
Proof. unfold closing_period. adds_tac. Qed.

Lemma init_flow_control_params_adds l r :
  adds housekeeping (_init_flow_control_params l r).
Proof. unfold _init_flow_control_params. adds_tac. Qed.

#[export] Hint Resolve schedule_packet_write_ready_adds
  unschedule_packet_write_ready_adds close_packet_write_ready_adds
  schedule_closing_timeout_adds unschedule_closing_timeout_adds
  close_closing_timeout_adds schedule_closed_event_adds
  close_closed_event_adds unschedule_path_validation_timeout_adds
  close_path_validation_timeout_adds closing_period_adds
  init_flow_control_params_adds : adds.

Lemma start_application_rec_adds env h :
  (forall e, adds housekeeping (h e)) ->
  adds housekeeping (_start_application_rec env h).
Proof. intros H. unfold _start_application_rec. adds_tac. Qed.

Lemma complete_handshake_if_possible_rec_adds env h :
  (forall e, adds housekeeping (h e)) ->
  adds housekeeping (_complete_handshake_if_possible_rec env h).
Proof.
  intros H. pose proof (start_application_rec_adds env h H).
  unfold _complete_handshake_if_possible_rec. adds_tac.
Qed.

Lemma close_rec_adds env h e :
  (forall e, adds housekeeping (h e)) ->
  adds housekeeping (close_rec env h e).
Proof.
  intros H. pose proof (complete_handshake_if_possible_rec_adds env h H).
  unfold close_rec, _switch_to_closing_state_rec. adds_tac.
Qed.

Lemma close_nested_adds env n e : adds housekeeping (close_nested env n e).
Proof.
  revert e. induction n; intros e; cbn [close_nested].
  - apply adds_ret.
  - apply close_rec_adds. exact IHn.
Qed.

Lemma close_adds env e : adds housekeeping (close env e).
Proof. apply close_nested_adds. Qed.

Lemma handle_error_adds env e : adds housekeeping (_handle_error env e).
Proof. apply close_adds. Qed.

Lemma start_application_adds env : adds housekeeping (_start_application env).
Proof. apply start_application_rec_adds. apply handle_error_adds. Qed.

Lemma complete_handshake_if_possible_adds env :
  adds housekeeping (_complete_handshake_if_possible env).
Proof. apply complete_handshake_if_possible_rec_adds. apply handle_error_adds. Qed.

#[export] Hint Resolve close_adds handle_error_adds start_application_adds
  complete_handshake_if_possible_adds : adds.

Lemma switch_to_draining_state_adds env e :
  adds housekeeping (_switch_to_draining_state env e).
Proof. unfold _switch_to_draining_state. adds_tac. Qed.

Lemma switch_to_close_state_adds env :
  adds housekeeping (_switch_to_close_state env).
Proof. unfold _switch_to_close_state. adds_tac. Qed.

#[export] Hint Resolve switch_to_draining_state_adds switch_to_close_state_adds
  : adds.

Lemma handle_path_validation_timeout_adds env :
  adds housekeeping (_handle_path_validation_timeout env).
Proof. unfold _handle_path_validation_timeout. adds_tac. Qed.

Lemma handle_frame_adds env level f : adds housekeeping (handle_frame env level f).
Proof. unfold handle_frame, _handle_frame. adds_tac. Qed.

#[export] Hint Resolve handle_path_validation_timeout_adds handle_frame_adds
  : adds.

Lemma dispatch_frames_adds env level fs :
  adds housekeeping (dispatch_frames env level fs).
Proof. induction fs as [|f fs IH]; cbn [dispatch_frames]; adds_tac. Qed.

#[export] Hint Resolve dispatch_frames_adds : adds.

Lemma receive_frames_adds env level fs :
  adds housekeeping (receive_frames env level fs).
Proof. unfold receive_frames. adds_tac. Qed.

Lemma dequeue_recv_packet_adds Q : adds Q _dequeue_recv_packet.
Proof.
  unfold _dequeue_recv_packet, QUICPacketReceiveQueue_dequeue, _update_peer_cid.
  adds_tac.
Qed.

Lemma handle_received_packet_adds Q d : adds Q (handle_received_packet d).
Proof. unfold handle_received_packet. adds_tac. Qed.

#[export] Hint Resolve receive_frames_adds dequeue_recv_packet_adds
  handle_received_packet_adds : adds.

Lemma receive_frames_adds_receiving env level fs :
  adds receiving (receive_frames env level fs).
Proof.
  eapply adds_weaken; [apply housekeeping_receiving | apply receive_frames_adds].
Qed.

#[export] Hint Resolve receive_frames_adds_receiving : adds.

Lemma recv_and_ack_adds env p : adds receiving (_recv_and_ack env p).
Proof. unfold _recv_and_ack. adds_tac. Qed.

#[export] Hint Resolve recv_and_ack_adds : adds.

Lemma state_draining_receive_packet_adds env :
  adds receiving (_state_draining_receive_packet env).
Proof.
  unfold _state_draining_receive_packet.
  assert (L : forall n, adds receiving (_state_draining_receive_packet_loop env n)).
  { induction n; cbn [_state_draining_receive_packet_loop];
      unfold _state_draining_receive_packet_body; adds_tac. }
  adds_tac.
Qed.

Lemma shutdown_loss_detectors_adds l : adds housekeeping (shutdown_loss_detectors l).
Proof. induction l; cbn [shutdown_loss_detectors]; adds_tac. Qed.

#[export] Hint Resolve state_draining_receive_packet_adds
  shutdown_loss_detectors_adds : adds.

Lemma housekeeping_adds_receiving {A} (m : M A) :
  adds housekeeping m -> adds receiving m.
Proof. apply adds_weaken. apply housekeeping_receiving. Qed.

Lemma state_connection_draining_adds env event :
  adds receiving (state_connection_draining env event).
Proof.
  unfold state_connection_draining.
  pose proof (housekeeping_adds_receiving _ (handle_path_validation_timeout_adds env)).
  pose proof (housekeeping_adds_receiving _ (switch_to_close_state_adds env)).
  adds_tac.
Qed.

Lemma state_connection_closed_adds event :
  adds housekeeping (state_connection_closed event).
Proof. unfold state_connection_closed, free, free. adds_tac. Qed.

(** ** [close] satisfies its defining equation *)

Lemma init_flow_control_params_started l r c :
  _application_started (exec (_init_flow_control_params l r) c)
  = _application_started c.
Proof. unfold _init_flow_control_params. destruct l; reflexivity. Qed.

Lemma start_application_rec_started_noop env h c :
  _application_started c = true -> _start_application_rec env h c = (tt, c).
Proof. intros H. unfold _start_application_rec. mrun. rewrite H. reflexivity. Qed.

(** The handler given to [_start_application_rec] is only ever run on a
    connection whose application is started. *)
Lemma start_application_rec_ext env h h' c :
  (forall e c', _application_started c' = true -> h e c' = h' e c') ->
  _start_application_rec env h c = _start_application_rec env h' c.
Proof.
  intros H. unfold _start_application_rec. mrun.
  destruct (_application_started c); cbn [negb]; [reflexivity|].
  cbn [netvc_context set_application_started].
  destruct (context_eqb (netvc_context c) NET_VCONNECTION_IN); [|reflexivity].
  cbn [trace]. destruct (np_findEndpoint env _ _); [reflexivity|].
  apply H. reflexivity.
Qed.

Ltac mnorm := repeat first [rewrite bind_eq | progress cbn [gets ask fst snd]].

Lemma complete_handshake_if_possible_rec_ext env h h' c :
  (forall e c', _application_started c' = true -> h e c' = h' e c') ->
  _complete_handshake_if_possible_rec env h c
  = _complete_handshake_if_possible_rec env h' c.
Proof.
  intros H. unfold _complete_handshake_if_possible_rec. mnorm.
  destruct (negb (Handler.eqb (handler c) Handler.state_handshake)); [reflexivity|].
  mnorm.
  destruct (negb (_handshake_handler c && hs_is_completed env (trace c)));
    [reflexivity|].
  mnorm.
  destruct (context_eqb (netvc_context c) NET_VCONNECTION_OUT
            && negb (hs_has_remote_tp env (trace c))); [reflexivity|].
  mnorm.
  rewrite (start_application_rec_ext env h h' _ H). reflexivity.
Qed.

Lemma close_rec_ext env h h' e c :
  (forall e c', _application_started c' = true -> h e c' = h' e c') ->
  close_rec env h e c = close_rec env h' e c.
Proof.
  intros H. unfold close_rec, _switch_to_closing_state_rec. mnorm.
  destruct (Handler.eqb (handler c) Handler.state_connection_closed
            || Handler.eqb (handler c) Handler.state_connection_closing);
    [reflexivity|].
  mnorm.
  rewrite (complete_handshake_if_possible_rec_ext env h h' c H). reflexivity.
Qed.

Lemma complete_handshake_if_possible_rec_started env h h' c :
  _application_started c = true ->
  _complete_handshake_if_possible_rec env h c
  = _complete_handshake_if_possible_rec env h' c.
Proof.
  intros S. unfold _complete_handshake_if_possible_rec. mnorm.
  destruct (negb (Handler.eqb (handler c) Handler.state_handshake)); [reflexivity|].
  mnorm.
  destruct (negb (_handshake_handler c && hs_is_completed env (trace c)));
    [reflexivity|].
  mnorm.
  destruct (context_eqb (netvc_context c) NET_VCONNECTION_OUT
            && negb (hs_has_remote_tp env (trace c))); [reflexivity|].
  mnorm.
  rewrite !start_application_rec_started_noop; [reflexivity| |];
    fold (exec (_init_flow_control_params
                  (hs_local_transport_parameters env (trace c))
                  (hs_remote_transport_parameters env (trace c))) c);
    rewrite init_flow_control_params_started; exact S.
Qed.

Lemma close_rec_started env h h' e c :
  _application_started c = true -> close_rec env h e c = close_rec env h' e c.
Proof.
  intros S. unfold close_rec, _switch_to_closing_state_rec. mnorm.
  destruct (Handler.eqb (handler c) Handler.state_connection_closed
            || Handler.eqb (handler c) Handler.state_connection_closing);
    [reflexivity|].
  mnorm.
  rewrite (complete_handshake_if_possible_rec_started env h h' c S). reflexivity.
Qed.

(** [close] is the function the source defines: the one that satisfies
    [close = close_rec close], with [_handle_error = close]. *)
Lemma close_unfold env e c : close env e c = close_rec env (_handle_error env) e c.
Proof.
  unfold _handle_error, close. cbn [close_nested].
  apply close_rec_ext. intros e' c' S. apply close_rec_started. exact S.
Qed.

Lemma close_nested_enough env n e c :
  close_nested env (2 + n) e c = close env e c.
Proof.
  unfold close. cbn [close_nested Nat.add].
  apply close_rec_ext. intros e' c' S. apply close_rec_started. exact S.
Qed.

(** ** Handshake completion *)

Lemma Handler_eqb_eq a b : Handler.eqb a b = true <-> a = b.
Proof. split; [destruct a, b; cbn; congruence | intros ->; destruct b; reflexivity]. Qed.

Lemma Handler_eqb_neq a b : Handler.eqb a b = false <-> a <> b.
Proof.
  split.
  - intros H E. apply Handler_eqb_eq in E. congruence.
  - intros H. destruct (Handler.eqb a b) eqn:E; [|reflexivity].
    apply Handler_eqb_eq in E. contradiction.
Qed.

Lemma context_eqb_eq a b : context_eqb a b = true <-> a = b.
Proof. split; [destruct a, b; cbn; congruence | intros ->; destruct b; reflexivity]. Qed.

Lemma complete_handshake_if_possible_rec_other_state env h c :
  handler c <> Handler.state_handshake ->
  _complete_handshake_if_possible_rec env h c = (0, c).
Proof.
  intros H. apply Handler_eqb_neq in H.
  unfold _complete_handshake_if_possible_rec. mnorm. rewrite H. reflexivity.
Qed.

Lemma start_application_rec_starts env h c :
  (forall e, adds housekeeping (h e)) ->
  _application_started (exec (_start_application_rec env h) c) = true.
Proof.
  intros H. unfold _start_application_rec, exec. mnorm.
  destruct (_application_started c) eqn:S; cbn [negb when]; [exact S|].
  mnorm. cbn [modify fst snd]. mnorm.
  destruct (context_eqb _ _); [|reflexivity].
  mnorm. destruct (np_findEndpoint env _ _); [reflexivity|].
  apply (H _ (set_application_started true c)). reflexivity.
Qed.

Lemma init_flow_control_params_trace l r c :
  trace (exec (_init_flow_control_params l r) c)
  = C_rfc_set_limit (initial_max_data r) :: C_lfc_set_limit (initial_max_data l)
    :: C_sm_init_flow_control_params l r :: trace c.
Proof. unfold _init_flow_control_params. destruct l, r; reflexivity. Qed.

Lemma complete_handshake_if_possible_application env c :
  handler c = Handler.state_handshake ->
  eval (_complete_handshake_if_possible env) c = 0 ->
  let local_tp := hs_local_transport_parameters env (trace c) in
  let remote_tp := hs_remote_transport_parameters env (trace c) in
  application_started_from env
    (C_rfc_set_limit (initial_max_data remote_tp)
     :: C_lfc_set_limit (initial_max_data local_tp)
     :: C_sm_init_flow_control_params local_tp remote_tp :: trace c)
    c (exec (_complete_handshake_if_possible env) c).
Proof.
  destruct c as [h ctx fam mtu cid pcid ocid alt rq lrt hsh acm aps fcb sav hps
                 sfs err fin cnt wnd pwr cto pvt cev nhp tr].
  cbn [handler trace]. intros ->. cbv zeta.
  unfold application_started_from, eval, exec, _complete_handshake_if_possible,
    _handle_error, close, close_nested, close_rec, _switch_to_closing_state_rec,
    _complete_handshake_if_possible_rec, _start_application_rec,
    _init_flow_control_params, closing_period, _schedule_packet_write_ready,
    _schedule_closing_timeout, initial_max_data.
  crun.
  destruct hsh; crun; [|discriminate].
  destruct (hs_is_completed env tr); crun; [|discriminate].
  destruct ctx; crun; destruct (hs_has_remote_tp env tr); crun;
    try discriminate; intros _.
  all: destruct (hs_local_transport_parameters env tr) as [ltp|],
    (hs_remote_transport_parameters env tr) as [rtp|]; crun.
  all: destruct aps; crun; try (repeat split; reflexivity).
  all: repeat match goal with
         | |- context [np_findEndpoint ?e ?t ?n] =>
             destruct (np_findEndpoint e t n) eqn:?
         | |- context [match ?x with _ => _ end] =>
             lazymatch x with
             | context [match _ with _ => _ end] => fail
             | _ => destruct x eqn:?
             end
         | _ => progress crun
         end.
  all: cbn [filter is_app_event]; repeat split; reflexivity.
Qed.

(** C8, as amended.  [_complete_handshake_if_possible] returns 0 exactly when
    the connection is not in the handshake state, or the handshake engine
    reports completion and (on the client) the remote transport parameters
    are present; otherwise it returns -1.  Outside the handshake state it
    changes nothing.  In the handshake state, a return of 0 comes with the
    stream manager and both connection flow controllers initialised from the
    transport parameters, and with [_start_application] run on top of that:
    the application is marked started and, unless it was started before, is
    handed the connection, except on a server whose protocol has no endpoint,
    where no application is notified and the connection is closed. *)
Theorem complete_handshake_if_possible_result (env : Env) (c : QUICNetVConnection) :
  let r := eval (_complete_handshake_if_possible env) c in
  let c' := exec (_complete_handshake_if_possible env) c in
  (r = 0 <->
   handler c <> Handler.state_handshake \/
   (_handshake_handler c = true /\ hs_is_completed env (trace c) = true /\
    (netvc_context c = NET_VCONNECTION_OUT ->
     hs_has_remote_tp env (trace c) = true))) /\
  (r = 0 \/ r = -1) /\
  (handler c <> Handler.state_handshake -> c' = c) /\
  (handler c = Handler.state_handshake -> r = 0 ->
   let local_tp := hs_local_transport_parameters env (trace c) in
   let remote_tp := hs_remote_transport_parameters env (trace c) in
   In (C_sm_init_flow_control_params local_tp remote_tp) (trace c') /\
   In (C_lfc_set_limit (initial_max_data local_tp)) (trace c') /\
   In (C_rfc_set_limit (initial_max_data remote_tp)) (trace c') /\
   _application_started c' = true /\
   application_started_from env
     (C_rfc_set_limit (initial_max_data remote_tp)
      :: C_lfc_set_limit (initial_max_data local_tp)
      :: C_sm_init_flow_control_params local_tp remote_tp :: trace c)
     c c').
Proof.
  assert (App : handler c = Handler.state_handshake ->
                eval (_complete_handshake_if_possible env) c = 0 ->
                application_started_from env
                  (C_rfc_set_limit
                     (initial_max_data (hs_remote_transport_parameters env (trace c)))
                   :: C_lfc_set_limit
                        (initial_max_data (hs_local_transport_parameters env (trace c)))
                   :: C_sm_init_flow_control_params
                        (hs_local_transport_parameters env (trace c))
                        (hs_remote_transport_parameters env (trace c))
                   :: trace c)
                  c (exec (_complete_handshake_if_possible env) c))
    by (apply complete_handshake_if_possible_application).
  revert App.
  cbv zeta. unfold eval, exec, _complete_handshake_if_possible.
  intros App.
  destruct (Handler.eqb (handler c) Handler.state_handshake) eqn:Hh.
  2:{ apply Handler_eqb_neq in Hh.
      rewrite (complete_handshake_if_possible_rec_other_state env _ c Hh).
      cbn [fst snd]. intuition congruence. }
  revert App.
  unfold _complete_handshake_if_possible_rec. mnorm.
  rewrite Hh. cbn [negb]. mnorm. apply Handler_eqb_eq in Hh.
  destruct (_handshake_handler c) eqn:Hp; cbn [andb negb];
    [|cbn [ret fst snd]; intuition congruence].
  destruct (hs_is_completed env (trace c)) eqn:Hc; cbn [negb];
    [|cbn [ret fst snd]; intuition congruence].
  mnorm.
  destruct (context_eqb (netvc_context c) NET_VCONNECTION_OUT) eqn:Hx;
    destruct (hs_has_remote_tp env (trace c)) eqn:Ht; cbn [andb negb].
  2:{ apply context_eqb_eq in Hx. cbn [ret fst snd]. intuition congruence. }
  all: mnorm; cbn [ret fst snd].
  all: set (l := hs_local_transport_parameters env (trace c)).
  all: set (r := hs_remote_transport_parameters env (trace c)).
  all: fold (exec (_init_flow_control_params l r) c).
  all: fold (exec (_start_application_rec env (_handle_error env))
               (exec (_init_flow_control_params l r) c)).
  all: intros App.
  all: pose proof (start_application_rec_adds env (_handle_error env)
                     (handle_error_adds env)
                     (exec (_init_flow_control_params l r) c)) as [[k [Ek _]] _].
  all: pose proof (start_application_rec_starts env (_handle_error env)
                     (exec (_init_flow_control_params l r) c)
                     (handle_error_adds env)) as Hs.
  all: rewrite init_flow_control_params_trace in Ek.
  all: assert (Hin : forall x,
                 In x [C_rfc_set_limit (initial_max_data r);
                       C_lfc_set_limit (initial_max_data l);
                       C_sm_init_flow_control_params l r] ->
                 In x (trace (exec (_start_application_rec env (_handle_error env))
                                (exec (_init_flow_control_params l r) c))))
         by (intros x Hx'; rewrite Ek; apply in_or_app; right; cbn in *; tauto).
  all: assert (Hctx : netvc_context c = NET_VCONNECTION_OUT ->
                      context_eqb (netvc_context c) NET_VCONNECTION_OUT = true)
         by (apply context_eqb_eq).
  all: repeat split; auto; try (intros; apply Hin; cbn; tauto).
  all: try (intros _; right; repeat split; auto; intros Ho; apply Hctx in Ho;
            congruence).
  all: try (intros Hn; contradiction).
  all: try (apply App; auto).
Qed.

(** C8, as stated, fails: on an established connection the function returns
    0 although the connection is not in the handshake state, and it
    initialises nothing. *)
Lemma complete_handshake_if_possible_outside_handshake :
  handler server_established = Handler.state_connection_established /\
  _complete_handshake_if_possible env_idle server_established
  = (0, server_established).
Proof. split; vm_compute; reflexivity. Qed.

(** The amended C8 at a server connection in the handshake state whose
    handshake is complete: 0 is returned, the limits are set, the
    application is started and the endpoint is handed the connection. *)
Lemma complete_handshake_if_possible_result_witness :
  eval (_complete_handshake_if_possible env_idle) server_in_handshake = 0 /\
  In (C_lfc_set_limit 65536)
    (trace (exec (_complete_handshake_if_possible env_idle) server_in_handshake)) /\
  In (C_rfc_set_limit 65536)
    (trace (exec (_complete_handshake_if_possible env_idle) server_in_handshake)) /\
  _application_started
    (exec (_complete_handshake_if_possible env_idle) server_in_handshake) = true /\
  hd_error
    (trace (exec (_complete_handshake_if_possible env_idle) server_in_handshake))
  = Some (C_app_handleEvent NET_EVENT_ACCEPT).
Proof.
  assert (E : eval (_complete_handshake_if_possible env_idle) server_in_handshake
              = 0) by (vm_compute; reflexivity).
  destruct (complete_handshake_if_possible_result env_idle server_in_handshake)
    as [_ [_ [_ H]]].
  split; [exact E|].
  destruct (H eq_refl E) as [_ [H1 [H2 [H3 _]]]].
  split; [exact H1|]. split; [exact H2|]. split; [exact H3|].
  vm_compute. reflexivity.
Defined.

(** On a server whose protocol has no endpoint the same call returns 0 as
    well, with no application notified and the connection closing. *)
Example complete_handshake_if_possible_no_application :
  eval (_complete_handshake_if_possible env_no_endpoint) server_in_handshake = 0 /\
  handler (exec (_complete_handshake_if_possible env_no_endpoint)
             server_in_handshake)
  = Handler.state_connection_closing /\
  filter is_app_event
    (trace (exec (_complete_handshake_if_possible env_no_endpoint)
              server_in_handshake)) = [].
Proof. repeat split; vm_compute; reflexivity. Qed.

(** ** [close] *)

(** In the closing and in the closed state [close] does nothing. *)
Lemma close_noop_when_closing_or_closed env e c :
  handler c = Handler.state_connection_closing \/
  handler c = Handler.state_connection_closed ->
  close env e c = (tt, c).
Proof.
  intros H. rewrite close_unfold. unfold close_rec. mnorm.
  destruct H as [H | H]; rewrite H; reflexivity.
Qed.

(** C1 at the draining state: [close] is not a no-op there.  It records the
    error, leaves a write pending (scheduling one if none was) and moves the
    connection to the closing state. *)
Theorem close_in_draining_enters_closing (env : Env) (e : QUICConnectionError)
  (c : QUICNetVConnection) :
  handler c = Handler.state_connection_draining ->
  let c' := exec (close env e) c in
  handler c' = Handler.state_connection_closing /\
  _connection_error c' = Some e /\
  _packet_write_ready c' = true /\
  (_packet_write_ready c = false ->
   In (C_schedule_imm QUIC_EVENT_PACKET_WRITE_READY) (trace c')).
Proof.
  intros H. cbv zeta. unfold exec. rewrite close_unfold.
  unfold close_rec. mnorm. rewrite H. cbn [Handler.eqb orb].
  unfold _switch_to_closing_state_rec. mnorm.
  rewrite complete_handshake_if_possible_rec_other_state by congruence.
  unfold _schedule_packet_write_ready, _schedule_closing_timeout, closing_period.
  destruct c as [h ctx fam mtu cid pcid ocid alt rq lrt hsh acm app fcb sav hps
                 sfs err fin cnt wnd pwr cto pvt cev nhp tr].
  destruct pwr, cto; crun;
    repeat split; auto; try (intros Hf; discriminate); cbn; tauto.
Qed.

(** The theorem at a draining server connection, and what follows: the next
    PACKET_WRITE_READY event sends a packet with the close frame. *)
Lemma close_in_draining_enters_closing_witness :
  (handler (exec (close env_idle internal_error) server_draining)
   = Handler.state_connection_closing /\
   _connection_error (exec (close env_idle internal_error) server_draining)
   = Some internal_error) /\
  option_map (fun c' => count is_datagram_sent (trace c'))
    (inputs env_idle [Close internal_error; Deliver QUIC_EVENT_PACKET_WRITE_READY]
       server_draining)
  = Some 1.
Proof.
  split.
  - destruct (close_in_draining_enters_closing env_idle internal_error
                server_draining eq_refl) as [H1 [H2 _]].
    split; assumption.
  - vm_compute. reflexivity.
Defined.

(** ** [_recv_and_ack] *)

Lemma ack_updates_app l t :
  forallb housekeeping l = true -> ack_updates (l ++ t) = ack_updates t.
Proof.
  induction l as [|x l IH]; cbn [forallb app]; [reflexivity|].
  intros H. apply andb_true_iff in H as [Hx Hl].
  destruct x; cbn in Hx |- *; try discriminate; auto.
Qed.

Lemma extends_housekeeping_ack_updates c c' :
  extends housekeeping c c' -> ack_updates (trace c') = ack_updates (trace c).
Proof. intros [[l [E F]] _]. rewrite E. apply ack_updates_app. exact F. Qed.

(** What [_recv_and_ack] does after the frames are dispatched, by the case
    it takes: [c1] is the connection after the dispatch. *)
Lemma recv_and_ack_after_dispatch env p c :
  let level := encryption_level env (pkt_type p) in
  let c1 := exec (receive_frames env level (payload p)) c in
  let offset := sm_total_offset_received env (trace c1) in
  let t1 := C_lfc_update offset :: trace c1 in
  let limit := u64 (sm_total_reordered_bytes env t1 + _flow_control_buffer_size c1) in
  forall error ack fc,
    eval (receive_frames env level (payload p)) c = (error, ack, fc) ->
    let ack' := if QUICPacketType.eqb (pkt_type p) QUICPacketType.RETRY
                then false else ack in
    _recv_and_ack env p c =
    match error with
    | Some e => (Some e, c1)
    | None =>
        if fc
        then
          if negb (lfc_update env (trace c1) offset =? 0)
          then (Some (QUICConnectionError_trans FLOW_CONTROL_ERROR),
                set_trace t1 c1)
          else (None,
                set_trace (C_ack_update level (packet_number p) ack'
                           :: C_lfc_forward_limit limit :: t1) c1)
        else (None,
              set_trace (C_ack_update level (packet_number p) ack' :: trace c1) c1)
    end.
Proof.
  cbv zeta. intros error ack fc H. unfold _recv_and_ack. rewrite bind_eq.
  unfold eval in H. rewrite H. unfold exec.
  destruct error as [e|]; [reflexivity|].
  destruct fc; [|reflexivity].
  mnorm. cbn [call modify fst snd set_trace trace].
  destruct (negb (lfc_update env _ _ =? 0)); reflexivity.
Qed.

Lemma receive_frames_triple env level fs c :
  exists error ack fc, eval (receive_frames env level fs) c = (error, ack, fc).
Proof. destruct (eval (receive_frames env level fs) c) as [[e a] f]. eauto. Qed.

Lemma recv_and_ack_error_keeps_acks env p c e :
  eval (_recv_and_ack env p) c = Some e ->
  ack_updates (trace (exec (_recv_and_ack env p) c)) = ack_updates (trace c).
Proof.
  intros H.
  destruct (receive_frames_triple env (encryption_level env (pkt_type p))
              (payload p) c) as [error [ack [fc Hr]]].
  pose proof (recv_and_ack_after_dispatch env p c error ack fc Hr) as E.
  pose proof (extends_housekeeping_ack_updates _ _
                (receive_frames_adds env (encryption_level env (pkt_type p))
                   (payload p) c)) as Hd.
  cbv zeta in E. unfold eval, exec in *. rewrite E in H |- *.
  destruct error; [exact Hd|].
  destruct fc; [|discriminate].
  destruct (negb (lfc_update env _ _ =? 0)); [|discriminate].
  cbn [snd trace set_trace ack_updates]. exact Hd.
Qed.

(** C10.  When [_recv_and_ack] returns a connection error, the ack frame
    creator has not been updated: the [update] calls it has received are
    those it had received before. *)
Theorem recv_and_ack_error_leaves_ack_creator (env : Env) (p : QUICPacket)
  (c : QUICNetVConnection) (e : QUICConnectionError) :
  eval (_recv_and_ack env p) c = Some e ->
  ack_updates (trace (exec (_recv_and_ack env p) c)) = ack_updates (trace c).
Proof. apply recv_and_ack_error_keeps_acks. Qed.

(** C10 on both error paths: a NEW_CONNECTION_ID frame with a zero-length
    connection ID (a dispatch error), and stream data beyond the local limit
    (FLOW_CONTROL_ERROR). *)
Lemma recv_and_ack_error_leaves_ack_creator_witness :
  (eval (_recv_and_ack env_idle packet_with_zero_cid) server_established
   = Some zero_cid_error /\
   ack_updates (trace (exec (_recv_and_ack env_idle packet_with_zero_cid)
                         server_established)) = []) /\
  (eval (_recv_and_ack env_over_limit packet_with_stream) server_established
   = Some flow_control_error /\
   ack_updates (trace (exec (_recv_and_ack env_over_limit packet_with_stream)
                         server_established)) = []).
Proof.
  assert (H1 : eval (_recv_and_ack env_idle packet_with_zero_cid)
                 server_established = Some zero_cid_error)
    by (vm_compute; reflexivity).
  assert (H2 : eval (_recv_and_ack env_over_limit packet_with_stream)
                 server_established = Some flow_control_error)
    by (vm_compute; reflexivity).
  split; (split; [assumption|]).
  - exact (recv_and_ack_error_leaves_ack_creator env_idle packet_with_zero_cid
             server_established zero_cid_error H1).
  - exact (recv_and_ack_error_leaves_ack_creator env_over_limit
             packet_with_stream server_established flow_control_error H2).
Defined.

(** C5, as amended.  Let the dispatch report stream data
    ([is_flow_controlled]).  If the dispatch returns an error,
    [_recv_and_ack] returns it and calls nothing more: the flow controller
    is not updated.  Otherwise it calls [update] on the local flow
    controller with the stream manager's total received offset.  If [update]
    reports a failure, the result is FLOW_CONTROL_ERROR and nothing else is
    called; otherwise the limit is forwarded to
    [total_reordered_bytes + _flow_control_buffer_size] (a 64-bit sum), the
    ack creator is updated, and no error is returned. *)
Theorem recv_and_ack_flow_control (env : Env) (p : QUICPacket)
  (c : QUICNetVConnection) (error : option QUICConnectionError) (ack : bool) :
  let level := encryption_level env (pkt_type p) in
  let c1 := exec (receive_frames env level (payload p)) c in
  let offset := sm_total_offset_received env (trace c1) in
  let t1 := C_lfc_update offset :: trace c1 in
  let limit := u64 (sm_total_reordered_bytes env t1 + _flow_control_buffer_size c1) in
  eval (receive_frames env level (payload p)) c = (error, ack, true) ->
  match error with
  | Some e =>
      eval (_recv_and_ack env p) c = Some e /\
      trace (exec (_recv_and_ack env p) c) = trace c1
  | None =>
      (lfc_update env (trace c1) offset <> 0 ->
       eval (_recv_and_ack env p) c
       = Some (QUICConnectionError_trans FLOW_CONTROL_ERROR) /\
       trace (exec (_recv_and_ack env p) c) = t1) /\
      (lfc_update env (trace c1) offset = 0 ->
       eval (_recv_and_ack env p) c = None /\
       exists ack',
         trace (exec (_recv_and_ack env p) c)
         = C_ack_update level (packet_number p) ack'
           :: C_lfc_forward_limit limit :: t1)
  end.
Proof.
  cbv zeta. intros H.
  pose proof (recv_and_ack_after_dispatch env p c error ack true H) as E.
  cbv zeta in E. unfold eval, exec in *. rewrite E.
  destruct error as [e|]; [split; reflexivity|].
  split; intros Hu.
  - apply Z.eqb_neq in Hu. rewrite Hu. cbn [negb fst snd trace set_trace].
    split; reflexivity.
  - rewrite Hu. cbn [Z.eqb negb fst snd trace set_trace].
    split; [reflexivity|]. eexists. reflexivity.
Qed.

(** C5, as stated, fails when the dispatch ends in an error: the STREAM
    frame of this packet is dispatched (and reported as flow controlled),
    the NEW_CONNECTION_ID frame after it is refused, and [_recv_and_ack]
    returns the error without a call to the flow controller. *)
Lemma recv_and_ack_dispatch_error_skips_flow_control :
  eval (receive_frames env_idle
          (encryption_level env_idle (pkt_type packet_with_stream_and_zero_cid))
          (payload packet_with_stream_and_zero_cid)) server_established
  = (Some zero_cid_error, true, true) /\
  eval (_recv_and_ack env_idle packet_with_stream_and_zero_cid) server_established
  = Some zero_cid_error /\
  trace (exec (_recv_and_ack env_idle packet_with_stream_and_zero_cid)
           server_established)
  = [C_dispatch_frame QUICEncryptionLevel.ONE_RTT (frame_of QUICFrameType.STREAM)].
Proof. repeat split; vm_compute; reflexivity. Qed.

(** The amended C5 on both branches after a dispatch without error: stream
    data within the limit, and beyond it. *)
Lemma recv_and_ack_flow_control_witness :
  (eval (_recv_and_ack env_idle packet_with_stream) server_established = None /\
   trace (exec (_recv_and_ack env_idle packet_with_stream) server_established)
   = [C_ack_update QUICEncryptionLevel.ONE_RTT 8 true;
      C_lfc_forward_limit 1024; C_lfc_update 0;
      C_dispatch_frame QUICEncryptionLevel.ONE_RTT (frame_of QUICFrameType.STREAM)]) /\
  (eval (_recv_and_ack env_over_limit packet_with_stream) server_established
   = Some flow_control_error /\
   trace (exec (_recv_and_ack env_over_limit packet_with_stream)
            server_established)
   = [C_lfc_update 5000;
      C_dispatch_frame QUICEncryptionLevel.ONE_RTT (frame_of QUICFrameType.STREAM)]).
Proof.
  assert (H1 : eval (receive_frames env_idle
                       (encryption_level env_idle (pkt_type packet_with_stream))
                       (payload packet_with_stream)) server_established
               = (None, true, true)) by (vm_compute; reflexivity).
  assert (H2 : eval (receive_frames env_over_limit
                       (encryption_level env_over_limit (pkt_type packet_with_stream))
                       (payload packet_with_stream)) server_established
               = (None, true, true)) by (vm_compute; reflexivity).
  split.
  - destruct (recv_and_ack_flow_control env_idle packet_with_stream
                server_established None true H1) as [_ H].
    destruct H as [E _]; [vm_compute; reflexivity|].
    split; [exact E | vm_compute; reflexivity].
  - destruct (recv_and_ack_flow_control env_over_limit packet_with_stream
                server_established None true H2) as [H _].
    apply H. vm_compute. discriminate.
Defined.

(** C4, as amended.  For a RETRY packet: when [_recv_and_ack] returns no
    error, the ack creator has been updated for the packet's number with
    [should_send_ack = false]; in every case the only update it may have
    received is that one, so a RETRY packet never elicits an ack. *)
Theorem recv_and_ack_retry (env : Env) (p : QUICPacket) (c : QUICNetVConnection) :
  pkt_type p = QUICPacketType.RETRY ->
  let level := encryption_level env (pkt_type p) in
  let c' := exec (_recv_and_ack env p) c in
  (eval (_recv_and_ack env p) c = None ->
   ack_updates (trace c') = (level, packet_number p, false) :: ack_updates (trace c)) /\
  (ack_updates (trace c') = ack_updates (trace c) \/
   ack_updates (trace c') = (level, packet_number p, false) :: ack_updates (trace c)).
Proof.
  intros Hp. cbv zeta.
  destruct (receive_frames_triple env (encryption_level env (pkt_type p))
              (payload p) c) as [error [ack [fc Hr]]].
  pose proof (recv_and_ack_after_dispatch env p c error ack fc Hr) as E.
  pose proof (extends_housekeeping_ack_updates _ _
                (receive_frames_adds env (encryption_level env (pkt_type p))
                   (payload p) c)) as Hd.
  cbv zeta in E. unfold eval, exec in *. rewrite E.
  rewrite Hp in *. cbn [QUICPacketType.eqb].
  destruct error; [cbn [fst snd]; split; [discriminate | left; exact Hd]|].
  destruct fc.
  - destruct (negb (lfc_update env _ _ =? 0));
      cbn [fst snd trace set_trace ack_updates]; rewrite Hd.
    + split; [discriminate | left; reflexivity].
    + split; [reflexivity | right; reflexivity].
  - cbn [fst snd trace set_trace ack_updates]. rewrite Hd.
    split; [reflexivity | right; reflexivity].
Qed.

(** C4, as stated, fails: the dispatcher returns no error for a RETRY packet
    that carries stream data, the local flow controller refuses the offset,
    and the ack creator is not updated at all. *)
Lemma recv_and_ack_retry_flow_control_error :
  pkt_type retry_with_stream = QUICPacketType.RETRY /\
  eval (receive_frames env_over_limit
          (encryption_level env_over_limit (pkt_type retry_with_stream))
          (payload retry_with_stream)) client_in_handshake
  = (None, true, true) /\
  eval (_recv_and_ack env_over_limit retry_with_stream) client_in_handshake
  = Some flow_control_error /\
  ack_updates (trace (exec (_recv_and_ack env_over_limit retry_with_stream)
                        client_in_handshake)) = [].
Proof. repeat split; vm_compute; reflexivity. Qed.

(** The amended C4 at a RETRY packet without stream data. *)
Lemma recv_and_ack_retry_witness :
  pkt_type retry_with_ping = QUICPacketType.RETRY /\
  eval (_recv_and_ack env_idle retry_with_ping) client_in_handshake = None /\
  ack_updates (trace (exec (_recv_and_ack env_idle retry_with_ping)
                        client_in_handshake))
  = [(QUICEncryptionLevel.NONE, 0, false)].
Proof.
  assert (H : eval (_recv_and_ack env_idle retry_with_ping) client_in_handshake
              = None) by (vm_compute; reflexivity).
  split; [reflexivity|]. split; [exact H|].
  exact (proj1 (recv_and_ack_retry env_idle retry_with_ping client_in_handshake
                  eq_refl) H).
Defined.

(** ** What a function leaves alone

    [keeps f m]: running [m] does not change the member [f]. *)

Lemma keeps_ret {B} (f : QUICNetVConnection -> B) {A} (a : A) : keeps f (ret a).
Proof. intros c. reflexivity. Qed.

Lemma keeps_bind {B} (f : QUICNetVConnection -> B) {A A'} (m : M A) (k : A -> M A') :
  keeps f m -> (forall a, keeps f (k a)) -> keeps f (bind m k).
Proof. intros Hm Hk c. rewrite exec_bind, Hk, Hm. reflexivity. Qed.

Lemma keeps_gets {B} (f : QUICNetVConnection -> B) {A} (g : QUICNetVConnection -> A) :
  keeps f (gets g).
Proof. intros c. reflexivity. Qed.

Lemma keeps_ask {B} (f : QUICNetVConnection -> B) env {A} (q : Env -> Trace -> A) :
  keeps f (ask env q).
Proof. intros c. reflexivity. Qed.

Lemma keeps_modify {B} (f : QUICNetVConnection -> B) g :
  (forall c, f (g c) = f c) -> keeps f (modify g).
Proof. intros H c. apply H. Qed.

Lemma keeps_call {B} (f : QUICNetVConnection -> B) x :
  (forall t c, f (set_trace t c) = f c) -> keeps f (call x).
Proof. intros H c. apply H. Qed.

Create HintDb keeps discriminated.

Ltac keeps_step :=
  lazymatch goal with
  | |- keeps _ (bind _ _) => apply keeps_bind; [ | intros ]
  | |- keeps _ (ret _) => apply keeps_ret
  | |- keeps _ (gets _) => apply keeps_gets
  | |- keeps _ (ask _ _) => apply keeps_ask
  | |- keeps _ direction => apply keeps_gets
  | |- keeps _ (modify _) =>
      apply keeps_modify; first [intros; reflexivity | solve [auto]]
  | |- keeps _ (call _) =>
      apply keeps_call; first [intros; reflexivity | solve [auto]]
  | |- keeps _ (when ?b _) => unfold when
  | |- keeps _ (if ?b then _ else _) => destruct b
  | |- keeps _ (match ?x with _ => _ end) => destruct x
  | |- keeps _ _ => solve [eauto with keeps]
  end.

Ltac keeps_tac := repeat keeps_step.

Lemma schedule_packet_write_ready_keeps_handler delay :
  keeps handler (_schedule_packet_write_ready delay).
Proof. unfold _schedule_packet_write_ready. keeps_tac. Qed.

Lemma unschedule_packet_write_ready_keeps_handler :
  keeps handler _unschedule_packet_write_ready.
Proof. unfold _unschedule_packet_write_ready. keeps_tac. Qed.

Lemma unschedule_closing_timeout_keeps_handler :
  keeps handler _unschedule_closing_timeout.
Proof. unfold _unschedule_closing_timeout. keeps_tac. Qed.

Lemma unschedule_path_validation_timeout_keeps_handler :
  keeps handler _unschedule_path_validation_timeout.
Proof. unfold _unschedule_path_validation_timeout. keeps_tac. Qed.

Lemma schedule_closed_event_keeps_handler : keeps handler _schedule_closed_event.
Proof. unfold _schedule_closed_event. keeps_tac. Qed.

Lemma dequeue_recv_packet_keeps_handler : keeps handler _dequeue_recv_packet.
Proof.
  unfold _dequeue_recv_packet, QUICPacketReceiveQueue_dequeue, _update_peer_cid.
  keeps_tac.
Qed.

Lemma handle_frame_new_cid_keeps_handler f : keeps handler (_handle_frame f).
Proof. unfold _handle_frame. keeps_tac. Qed.

Lemma shutdown_loss_detectors_keeps_handler l :
  keeps handler (shutdown_loss_detectors l).
Proof. induction l; cbn [shutdown_loss_detectors]; keeps_tac. Qed.

#[export] Hint Resolve schedule_packet_write_ready_keeps_handler
  unschedule_packet_write_ready_keeps_handler
  unschedule_closing_timeout_keeps_handler
  unschedule_path_validation_timeout_keeps_handler
  schedule_closed_event_keeps_handler dequeue_recv_packet_keeps_handler
  handle_frame_new_cid_keeps_handler shutdown_loss_detectors_keeps_handler
  : keeps.

Lemma state_connection_closed_keeps_handler event :
  keeps handler (state_connection_closed event).
Proof.
  unfold state_connection_closed, free, _close_closed_event, _close_packet_write_ready.
  keeps_tac.
Qed.

(** ** The draining state *)

Lemma drained_not_handshake c : drained c -> handler c <> Handler.state_handshake.
Proof. intros [H | H]; rewrite H; discriminate. Qed.

Lemma drained_same_handler c c' : handler c' = handler c -> drained c -> drained c'.
Proof. unfold drained. intros ->. auto. Qed.

(** Frames that the connection handles itself leave a draining or closed
    connection in its state: close frames are ignored there. *)
Lemma handle_frame_drained env level f c :
  drained c -> handler (exec (handle_frame env level f) c) = handler c.
Proof.
  intros D. unfold handle_frame.
  destruct (frame_type f); try reflexivity.
  - unfold exec. mnorm.
    destruct D as [D | D]; rewrite D; cbn [Handler.eqb orb ret snd]; exact D.
  - unfold exec. mnorm.
    destruct D as [D | D]; rewrite D; cbn [Handler.eqb orb ret snd]; exact D.
  - assert (K : keeps handler
                  (call (C_rfc_forward_limit (maximum_data f));;
                   _schedule_packet_write_ready false;;
                   ret (@None QUICConnectionError)))
      by keeps_tac.
    apply K.
  - apply handle_frame_new_cid_keeps_handler.
Qed.

Lemma dispatch_frames_drained env level fs c :
  drained c -> handler (exec (dispatch_frames env level fs) c) = handler c.
Proof.
  revert c. induction fs as [|f fs IH]; intros c D; [reflexivity|].
  cbn [dispatch_frames]. rewrite exec_bind.
  set (m := if existsb (QUICFrameType.eqb (frame_type f)) interests
            then handle_frame env level f
            else (e <- ask env (fun e t => fh_handle_frame e t level f);;
                  call (C_dispatch_frame level f);; ret e)).
  assert (Hm : handler (exec m c) = handler c).
  { subst m. destruct (existsb _ interests).
    - apply handle_frame_drained. exact D.
    - reflexivity. }
  destruct (eval m c).
  - exact Hm.
  - rewrite IH; [exact Hm|]. eapply drained_same_handler; eauto.
Qed.

Lemma recv_and_ack_drained env p c :
  drained c -> handler (exec (_recv_and_ack env p) c) = handler c.
Proof.
  intros D.
  destruct (receive_frames_triple env (encryption_level env (pkt_type p))
              (payload p) c) as [error [ack [fc Hr]]].
  pose proof (recv_and_ack_after_dispatch env p c error ack fc Hr) as E.
  cbv zeta in E. unfold exec at 1. rewrite E.
  assert (Hd : handler (exec (receive_frames env (encryption_level env (pkt_type p))
                                (payload p)) c) = handler c).
  { unfold receive_frames. rewrite exec_bind.
    rewrite <- (dispatch_frames_drained env (encryption_level env (pkt_type p))
                  (payload p) c D).
    reflexivity. }
  destruct error; [exact Hd|].
  destruct fc; [destruct (negb _)|]; cbn [snd handler set_trace]; exact Hd.
Qed.

Lemma state_draining_receive_packet_drained env c :
  drained c -> handler (exec (_state_draining_receive_packet env) c) = handler c.
Proof.
  intros D. unfold _state_draining_receive_packet. rewrite exec_bind.
  cbn [gets exec eval fst snd]. rewrite exec_bind.
  assert (L : forall n c, drained c ->
                handler (exec (_state_draining_receive_packet_loop env n) c)
                = handler c).
  { clear c D. induction n; intros c D; [reflexivity|].
    cbn [_state_draining_receive_packet_loop]. rewrite exec_bind.
    cbn [gets exec eval fst snd].
    destruct (0 <? Z.of_nat (length (_packet_recv_queue c))); [|reflexivity].
    fold (exec (_state_draining_receive_packet_body env;;
                _state_draining_receive_packet_loop env n) c).
    rewrite exec_bind.
    assert (B : handler (exec (_state_draining_receive_packet_body env) c)
                = handler c).
    { unfold _state_draining_receive_packet_body. rewrite exec_bind.
      pose proof (dequeue_recv_packet_keeps_handler c) as K.
      destruct (eval _dequeue_recv_packet c) as [[p|] []]; try exact K.
      rewrite exec_bind. cbn [ret exec snd].
      fold (exec (_recv_and_ack env p) (exec _dequeue_recv_packet c)).
      rewrite recv_and_ack_drained; [exact K|].
      eapply drained_same_handler; eauto. }
    rewrite IHn; [exact B|]. eapply drained_same_handler; eauto. }
  cbn [ret exec snd].
  fold (exec (_state_draining_receive_packet_loop env
                (length (_packet_recv_queue c))) c).
  apply L. exact D.
Qed.

Lemma switch_to_close_state_drained env c :
  drained c ->
  handler (exec (_switch_to_close_state env) c) = Handler.state_connection_closed.
Proof.
  intros D. unfold _switch_to_close_state.
  rewrite !exec_bind.
  rewrite schedule_closed_event_keeps_handler.
  set (c2 := exec _unschedule_path_validation_timeout
               (exec _unschedule_closing_timeout c)).
  assert (D2 : drained c2).
  { eapply drained_same_handler; [|exact D]. subst c2.
    rewrite unschedule_path_validation_timeout_keeps_handler.
    apply unschedule_closing_timeout_keeps_handler. }
  unfold exec at 2, _complete_handshake_if_possible.
  rewrite complete_handshake_if_possible_rec_other_state
    by (apply drained_not_handshake; exact D2).
  reflexivity.
Qed.

Lemma state_connection_draining_drained env event c :
  drained c -> drained (exec (state_connection_draining env event) c).
Proof.
  intros D. unfold state_connection_draining. rewrite exec_bind.
  cbn [ret exec snd].
  destruct event; try exact D.
  - eapply drained_same_handler; [|exact D].
    fold (exec (_state_draining_receive_packet env;; ret tt) c).
    rewrite exec_bind. cbn [ret exec snd].
    apply (state_draining_receive_packet_drained env c D).
  - fold (exec (_handle_path_validation_timeout env) c).
    unfold _handle_path_validation_timeout. rewrite !exec_bind.
    cbn [_close_path_validation_timeout modify ask exec eval fst snd].
    assert (D1 : drained (set_path_validation_timeout false c)) by exact D.
    destruct (negb (pv_is_validated env _)); cbn [when]; [|exact D1].
    right. apply switch_to_close_state_drained. exact D1.
  - fold (exec (_close_closing_timeout;; _switch_to_close_state env) c).
    rewrite exec_bind. right. apply switch_to_close_state_drained. exact D.
Qed.

(** ** Members that the close path and the receive step leave alone

    [close], the frame handlers and [_recv_and_ack] assign to the handler,
    the connection error, the pending write and closing-timeout events, the
    application flag, the flow control buffer size and the remote CIDs, and
    they log calls.  A member [f] that none of these assignments changes is
    kept by all of them. *)
Section Untouched.

Context {B : Type} (f : QUICNetVConnection -> B).

Hypothesis f_trace : forall t c, f (set_trace t c) = f c.
Hypothesis f_handler : forall v c, f (set_handler v c) = f c.
Hypothesis f_connection_error : forall v c, f (set_connection_error v c) = f c.
Hypothesis f_packet_write_ready :
  forall v c, f (set_packet_write_ready v c) = f c.
Hypothesis f_closing_timeout : forall v c, f (set_closing_timeout v c) = f c.
Hypothesis f_application_started :
  forall v c, f (set_application_started v c) = f c.
Hypothesis f_flow_control_buffer_size :
  forall v c, f (set_flow_control_buffer_size v c) = f c.
Hypothesis f_remote_alt_cids : forall v c, f (set_remote_alt_cids v c) = f c.

Lemma schedule_packet_write_ready_untouched delay :
  keeps f (_schedule_packet_write_ready delay).
Proof. unfold _schedule_packet_write_ready. keeps_tac. Qed.

Lemma schedule_closing_timeout_untouched i :
  keeps f (_schedule_closing_timeout i).
Proof. unfold _schedule_closing_timeout. keeps_tac. Qed.

Lemma closing_period_untouched env : keeps f (closing_period env).
Proof. unfold closing_period. keeps_tac. Qed.

Lemma init_flow_control_params_untouched l r :
  keeps f (_init_flow_control_params l r).
Proof. unfold _init_flow_control_params. keeps_tac. Qed.

#[local] Hint Resolve schedule_packet_write_ready_untouched
  schedule_closing_timeout_untouched closing_period_untouched
  init_flow_control_params_untouched : keeps.

Lemma close_rec_untouched env h e :
  (forall e, keeps f (h e)) -> keeps f (close_rec env h e).
Proof.
  intros H.
  unfold close_rec, _switch_to_closing_state_rec,
    _complete_handshake_if_possible_rec, _start_application_rec.
  keeps_tac.
Qed.

Lemma close_untouched env e : keeps f (close env e).
Proof.
  unfold close.
  assert (L : forall n e, keeps f (close_nested env n e)).
  { induction n; intros e'; cbn [close_nested];
      [apply keeps_ret | apply close_rec_untouched; exact IHn]. }
  apply L.
Qed.

Lemma complete_handshake_if_possible_untouched env :
  keeps f (_complete_handshake_if_possible env).
Proof.
  pose proof (close_untouched env) as H.
  unfold _complete_handshake_if_possible, _complete_handshake_if_possible_rec,
    _start_application_rec, _handle_error.
  keeps_tac.
Qed.

#[local] Hint Resolve close_untouched complete_handshake_if_possible_untouched
  : keeps.

Lemma handle_frame_untouched env level fr : keeps f (handle_frame env level fr).
Proof.
  unfold handle_frame, _handle_frame, _switch_to_draining_state. keeps_tac.
Qed.

#[local] Hint Resolve handle_frame_untouched : keeps.

Lemma dispatch_frames_untouched env level fs :
  keeps f (dispatch_frames env level fs).
Proof. induction fs as [|fr fs IH]; cbn [dispatch_frames]; keeps_tac. Qed.

#[local] Hint Resolve dispatch_frames_untouched : keeps.

Lemma recv_and_ack_untouched env p : keeps f (_recv_and_ack env p).
Proof. unfold _recv_and_ack, receive_frames. keeps_tac. Qed.

End Untouched.

(** Only the receive queue's own operations touch the queue. *)

Lemma schedule_packet_write_ready_keeps_queue delay :
  keeps _packet_recv_queue (_schedule_packet_write_ready delay).
Proof. apply schedule_packet_write_ready_untouched; reflexivity. Qed.

Lemma recv_and_ack_keeps_queue env p :
  keeps _packet_recv_queue (_recv_and_ack env p).
Proof. apply recv_and_ack_untouched; reflexivity. Qed.

#[export] Hint Resolve schedule_packet_write_ready_keeps_queue
  recv_and_ack_keeps_queue : keeps.

(** Only the closing receive loop touches its counters. *)

Lemma schedule_packet_write_ready_keeps_counters delay :
  keeps closing_counters (_schedule_packet_write_ready delay).
Proof. apply schedule_packet_write_ready_untouched; reflexivity. Qed.

Lemma recv_and_ack_keeps_counters env p :
  keeps closing_counters (_recv_and_ack env p).
Proof. apply recv_and_ack_untouched; reflexivity. Qed.

Lemma dequeue_recv_packet_keeps_counters :
  keeps closing_counters _dequeue_recv_packet.
Proof.
  unfold _dequeue_recv_packet, QUICPacketReceiveQueue_dequeue, _update_peer_cid.
  keeps_tac.
Qed.

(** [_dequeue_recv_packet] takes the front datagram off the queue and
    returns what it decodes to. *)
Lemma dequeue_recv_packet_front d q c :
  _packet_recv_queue c = d :: q ->
  _packet_recv_queue (exec _dequeue_recv_packet c) = q /\
  eval _dequeue_recv_packet c
  = match d with
    | Decodable p => (Some p, SUCCESS)
    | Undecodable r => (None, r)
    end.
Proof.
  destruct c as [h ctx fam mtu cid pcid ocid alt rq lrt hsh acm app fcb sav hps
                 sfs err fin cnt wnd pwr cto pvt cev nhp tr].
  cbn [_packet_recv_queue]. intros ->.
  unfold _dequeue_recv_packet, QUICPacketReceiveQueue_dequeue, _update_peer_cid.
  destruct d as [p | r]; [|destruct r; split; reflexivity].
  crun.
  destruct ctx; crun;
    try destruct (cid_eqb (source_cid p) QUICConnectionId_ZERO); crun;
    try destruct (cid_eqb pcid (source_cid p)); split; reflexivity.
Qed.
#[export] Hint Resolve schedule_packet_write_ready_keeps_counters
  recv_and_ack_keeps_counters dequeue_recv_packet_keeps_counters : keeps.

Lemma filter_app_none {A} (keep allowed : A -> bool) (l t : list A) :
  (forall x, allowed x = true -> keep x = false) ->
  forallb allowed l = true -> filter keep (l ++ t) = filter keep t.
Proof.
  intros H. induction l as [|x l IH]; cbn [forallb app filter]; [reflexivity|].
  intros F. apply andb_true_iff in F as [Fx Fl]. rewrite (H x Fx). auto.
Qed.

Lemma extends_filter keep allowed c c' :
  (forall x, allowed x = true -> keep x = false) ->
  extends allowed c c' -> filter keep (trace c') = filter keep (trace c).
Proof. intros H [[l [E F]] _]. rewrite E. apply filter_app_none with allowed; auto. Qed.

Lemma input_drained env i c :
  drained c -> from_outside i = true ->
  exists c', input env i c = Some c' /\ drained c' /\ extends receiving c c'.
Proof.
  intros D F. destruct i as [d | event | e]; [| |discriminate]; cbn [input].
  - eexists. split; [reflexivity|]. split.
    + exact D.
    + apply handle_received_packet_adds.
  - unfold handleEvent. destruct D as [D | D]; rewrite D.
    + eexists. split; [reflexivity|]. split.
      * apply state_connection_draining_drained. left. exact D.
      * apply state_connection_draining_adds.
    + eexists. split; [reflexivity|]. split.
      * right. rewrite state_connection_closed_keeps_handler. exact D.
      * eapply extends_weaken; [apply housekeeping_receiving|].
        apply state_connection_closed_adds.
Qed.

Lemma inputs_drained env l c :
  drained c -> forallb from_outside l = true ->
  exists c', inputs env l c = Some c' /\ drained c' /\ extends receiving c c'.
Proof.
  revert c. induction l as [|i l IH]; intros c D F; cbn [inputs].
  - exists c. split; [reflexivity|]. split; [exact D | apply extends_refl].
  - cbn [forallb] in F. apply andb_true_iff in F as [Fi Fl].
    destruct (input_drained env i c D Fi) as [c1 [E1 [D1 X1]]]. rewrite E1.
    destruct (IH c1 D1 Fl) as [c2 [E2 [D2 X2]]].
    exists c2. split; [exact E2|]. split; [exact D2|].
    eapply extends_trans; eauto.
Qed.

(** On a draining or closed connection, a frame other than MAX_DATA that the
    connection handles itself makes no call at all. *)
Lemma handle_frame_drained_quiet env level f c :
  drained c -> is_max_data f = false ->
  extends bookkeeping c (exec (handle_frame env level f) c).
Proof.
  intros D N. unfold is_max_data in N. unfold handle_frame.
  destruct (frame_type f); try discriminate; try apply extends_refl.
  - unfold exec. mnorm.
    destruct D as [D | D]; rewrite D; apply extends_refl.
  - unfold exec. mnorm.
    destruct D as [D | D]; rewrite D; apply extends_refl.
  - assert (K : adds bookkeeping (_handle_frame f))
      by (unfold _handle_frame; adds_tac).
    apply K.
Qed.

Lemma dispatch_frames_drained_quiet env level fs c :
  drained c -> existsb is_max_data fs = false ->
  extends bookkeeping c (exec (dispatch_frames env level fs) c).
Proof.
  revert c. induction fs as [|f fs IH]; intros c D N; [apply extends_refl|].
  cbn [existsb] in N. apply orb_false_iff in N as [Nf Nfs].
  cbn [dispatch_frames]. rewrite exec_bind.
  set (m := if existsb (QUICFrameType.eqb (frame_type f)) interests
            then handle_frame env level f
            else (e <- ask env (fun e t => fh_handle_frame e t level f);;
                  call (C_dispatch_frame level f);; ret e)).
  assert (Hm : extends bookkeeping c (exec m c) /\ handler (exec m c) = handler c).
  { subst m. destruct (existsb _ interests).
    - split; [apply handle_frame_drained_quiet | apply handle_frame_drained];
        assumption.
    - split; [|reflexivity].
      assert (K : adds bookkeeping
                    (e <- ask env (fun e t => fh_handle_frame e t level f);;
                     call (C_dispatch_frame level f);; ret e)) by adds_tac.
      apply K. }
  destruct Hm as [Hx Hh].
  destruct (eval m c).
  - exact Hx.
  - eapply extends_trans; [exact Hx|]. apply IH; [|exact Nfs].
    eapply drained_same_handler; eauto.
Qed.

Lemma recv_and_ack_drained_quiet env p c :
  drained c -> existsb is_max_data (payload p) = false ->
  extends bookkeeping c (exec (_recv_and_ack env p) c).
Proof.
  intros D N.
  destruct (receive_frames_triple env (encryption_level env (pkt_type p))
              (payload p) c) as [error [ack [fc Hr]]].
  pose proof (recv_and_ack_after_dispatch env p c error ack fc Hr) as E.
  cbv zeta in E. unfold exec at 1. rewrite E.
  set (c1 := exec (receive_frames env (encryption_level env (pkt_type p))
                     (payload p)) c) in *.
  assert (Hd : extends bookkeeping c c1).
  { subst c1. unfold receive_frames. rewrite exec_bind.
    apply (dispatch_frames_drained_quiet env _ _ c D N). }
  assert (Hs : forall l, forallb bookkeeping l = true ->
                 extends bookkeeping c (set_trace (l ++ trace c1) c1)).
  { intros l Hl. eapply extends_trans; [exact Hd|].
    split; [exists l; split; [reflexivity | exact Hl] | auto]. }
  destruct error; [exact Hd|].
  destruct fc; [destruct (negb _)|]; cbn [snd].
  - apply (Hs [_]). reflexivity.
  - apply (Hs [_; _; _]). reflexivity.
  - apply (Hs [_]). reflexivity.
Qed.

Lemma state_draining_receive_packet_loop_quiet env n c :
  drained c -> existsb carries_max_data (_packet_recv_queue c) = false ->
  extends bookkeeping c (exec (_state_draining_receive_packet_loop env n) c).
Proof.
  revert c. induction n; intros c D N; [apply extends_refl|].
  cbn [_state_draining_receive_packet_loop]. rewrite exec_bind.
  cbn [gets exec eval fst snd].
  destruct (_packet_recv_queue c) as [|d q] eqn:Q; [apply extends_refl|].
  cbn [length]. destruct (0 <? Z.of_nat (S (length q))); [|apply extends_refl].
  fold (exec (_state_draining_receive_packet_body env;;
              _state_draining_receive_packet_loop env n) c).
  rewrite exec_bind.
  cbn [existsb] in N. apply orb_false_iff in N as [Nd Nq].
  destruct (dequeue_recv_packet_front d q c Q) as [Q1 E1].
  pose proof (dequeue_recv_packet_keeps_handler c) as K1.
  pose proof (dequeue_recv_packet_adds bookkeeping c) as X1.
  set (c1 := exec _dequeue_recv_packet c) in *.
  assert (D1 : drained c1) by (eapply drained_same_handler; eauto).
  assert (B : extends bookkeeping c (exec (_state_draining_receive_packet_body env) c)
              /\ drained (exec (_state_draining_receive_packet_body env) c)
              /\ _packet_recv_queue (exec (_state_draining_receive_packet_body env) c)
                 = q).
  { unfold _state_draining_receive_packet_body. rewrite exec_bind. rewrite E1.
    fold c1. destruct d as [p | r].
    - rewrite exec_bind. cbn [ret exec snd].
      fold (exec (_recv_and_ack env p) c1).
      split; [|split].
      + eapply extends_trans; [exact X1|].
        apply recv_and_ack_drained_quiet; assumption.
      + eapply drained_same_handler; [|exact D1].
        apply recv_and_ack_drained. exact D1.
      + rewrite recv_and_ack_keeps_queue. exact Q1.
    - destruct r; (split; [exact X1 | split; [exact D1 | exact Q1]]). }
  destruct B as [Bx [Bd Bq]].
  eapply extends_trans; [exact Bx|]. apply IHn; [exact Bd|]. rewrite Bq. exact Nq.
Qed.

Lemma bookkeeping_not_write_ready x :
  bookkeeping x = true -> is_write_ready_scheduled x = false.
Proof. destruct x; cbn; congruence. Qed.

(** C2, as amended.  From the draining state, whatever datagrams arrive and
    whatever events are delivered (with no call of [close] in between),
    every event is handled, in the draining or the closed state, and nothing
    is put on its way out: no frame is generated, no packet built, none sent
    or handed to a loss detector.  The write-ready handler of the draining
    state only clears the pending event.  The receive path of the draining
    state schedules no write unless a queued packet carries a MAX_DATA
    frame. *)
Theorem draining_emits_nothing (env : Env) :
  (forall (l : list Input) (c : QUICNetVConnection),
     handler c = Handler.state_connection_draining ->
     forallb from_outside l = true ->
     exists c',
       inputs env l c = Some c' /\
       (handler c' = Handler.state_connection_draining \/
        handler c' = Handler.state_connection_closed) /\
       filter outbound (trace c') = filter outbound (trace c)) /\
  (forall c,
     state_connection_draining env QUIC_EVENT_PACKET_WRITE_READY c
     = (EVENT_DONE, set_packet_write_ready false c)) /\
  (forall c,
     handler c = Handler.state_connection_draining ->
     existsb carries_max_data (_packet_recv_queue c) = false ->
     filter is_write_ready_scheduled
       (trace (exec (state_connection_draining env QUIC_EVENT_PACKET_READ_READY) c))
     = filter is_write_ready_scheduled (trace c)).
Proof.
  split; [|split].
  - intros l c H F.
    destruct (inputs_drained env l c (or_introl H) F) as [c' [E [D X]]].
    exists c'. split; [exact E|]. split; [exact D|].
    apply extends_filter with receiving; [apply receiving_not_outbound | exact X].
  - reflexivity.
  - intros c H N.
    apply extends_filter with bookkeeping; [apply bookkeeping_not_write_ready|].
    unfold state_connection_draining. rewrite exec_bind. cbn [ret exec snd].
    fold (exec (_state_draining_receive_packet env;; ret tt) c).
    rewrite exec_bind. cbn [ret exec snd].
    fold (exec (_state_draining_receive_packet env) c).
    unfold _state_draining_receive_packet. rewrite exec_bind.
    cbn [gets exec eval fst snd]. rewrite exec_bind. cbn [ret exec snd].
    apply state_draining_receive_packet_loop_quiet; [left; exact H | exact N].
Qed.

(** C2, as stated, fails in its second half: in the draining state a packet
    with a MAX_DATA frame makes the receive path schedule a write. *)
Lemma draining_receive_schedules_write :
  handler server_draining = Handler.state_connection_draining /\
  option_map (fun c' => (handler c', filter is_write_ready_scheduled (trace c')))
    (inputs env_idle
       [Receive (Decodable packet_with_max_data);
        Deliver QUIC_EVENT_PACKET_READ_READY] server_draining)
  = Some (Handler.state_connection_draining,
          [C_schedule_imm QUIC_EVENT_PACKET_WRITE_READY]).
Proof. split; vm_compute; reflexivity. Qed.

(** The amended C2 on three such rounds followed by the closing timeout:
    the connection ends closed and has sent nothing. *)
Lemma draining_emits_nothing_witness :
  exists c',
    inputs env_idle
      (max_data_round ++ max_data_round ++ max_data_round
       ++ [Deliver QUIC_EVENT_CLOSING_TIMEOUT]) server_draining = Some c' /\
    (handler c' = Handler.state_connection_draining \/
     handler c' = Handler.state_connection_closed) /\
    filter outbound (trace c') = [].
Proof.
  exact (proj1 (draining_emits_nothing env_idle)
           (max_data_round ++ max_data_round ++ max_data_round
            ++ [Deliver QUIC_EVENT_CLOSING_TIMEOUT])
           server_draining eq_refl eq_refl).
Defined.

(** ** The packetizer and the send loop *)

Lemma generate_adds env g level credit size :
  adds packetizing (generate env g level credit size).
Proof. unfold generate. adds_tac. Qed.

#[export] Hint Resolve generate_adds : adds.

Lemma generate_while_adds env fuel g level st :
  adds packetizing (generate_while env fuel g level st).
Proof.
  revert st. induction fuel; intros st; cbn [generate_while]; adds_tac.
Qed.

Lemma generate_once_adds env g level st :
  adds packetizing (generate_once env g level st).
Proof. unfold generate_once. adds_tac. Qed.

Lemma generate_streams_adds env fuel level st :
  adds packetizing (generate_streams env fuel level st).
Proof.
  revert st. induction fuel; intros st; cbn [generate_streams]; adds_tac.
Qed.

Lemma minimum_quic_packet_size_adds env :
  adds packetizing (minimum_quic_packet_size env).
Proof. unfold minimum_quic_packet_size, _rnd. adds_tac. Qed.

Lemma build_packet_adds env level b n r p :
  adds packetizing (_build_packet env level b n r p).
Proof.
  unfold _build_packet, _build_packet_of_type, create_packet,
    largest_acked_packet_number.
  adds_tac.
Qed.

#[export] Hint Resolve generate_while_adds generate_once_adds
  generate_streams_adds minimum_quic_packet_size_adds build_packet_adds : adds.

Lemma packetize_frames_adds env fuel level size :
  adds packetizing (_packetize_frames env fuel level size).
Proof. unfold _packetize_frames. adds_tac. Qed.

Lemma count_cons kind x t :
  count kind (x :: t) = count kind t + (if kind x then 1 else 0).
Proof.
  unfold count. cbn [filter]. destruct (kind x); cbn [length]; lia.
Qed.

Lemma count_nonneg kind t : 0 <= count kind t.
Proof. unfold count. lia. Qed.

Lemma extends_count kind allowed c c' :
  (forall x, allowed x = true -> kind x = false) ->
  extends allowed c c' -> count kind (trace c') = count kind (trace c).
Proof.
  intros H X. unfold count. rewrite (extends_filter kind allowed c c' H X).
  reflexivity.
Qed.

Lemma packetizing_not_handed x :
  packetizing x = true -> is_packet_handed_to_loss_detector x = false.
Proof. destruct x; cbn; congruence. Qed.

Lemma packetizing_not_sent x :
  packetizing x = true -> is_datagram_sent x = false.
Proof. destruct x; cbn; congruence. Qed.

(** For the other levels [_build_packet] returns the null packet. *)
Lemma build_packet_no_type env level b n r p c :
  has_packet_type level = false ->
  _build_packet env level b n r p c = (None, c).
Proof. destruct level; intros H; try discriminate H; reflexivity. Qed.

Lemma builds_nothing_bind {A} (m : M A) (k : A -> M (option (option QUICPacket))) :
  (forall a, builds_nothing (k a)) -> builds_nothing (bind m k).
Proof. intros H c. rewrite eval_bind. apply H. Qed.

Lemma builds_nothing_bind_fuel {A} (m : M (option A))
  (k : A -> M (option (option QUICPacket))) :
  (forall a, builds_nothing (k a)) -> builds_nothing (bind_fuel m k).
Proof.
  intros H. unfold bind_fuel. apply builds_nothing_bind.
  intros [a|]; [apply H | right; reflexivity].
Qed.

(** So [_packetize_frames] returns no packet at the 0-RTT level. *)
Lemma packetize_frames_no_type env fuel level size :
  has_packet_type level = false ->
  builds_nothing (_packetize_frames env fuel level size).
Proof.
  intros HP. unfold _packetize_frames.
  repeat lazymatch goal with
    | |- builds_nothing (bind_fuel _ _) => apply builds_nothing_bind_fuel; intros
    | |- builds_nothing (bind (_build_packet _ _ _ _ _ _) _) =>
        intros c; rewrite eval_bind; unfold eval at 2;
        rewrite build_packet_no_type by exact HP; left; reflexivity
    | |- builds_nothing (bind _ _) => apply builds_nothing_bind; intros
    | |- builds_nothing (ret (Some None)) => intros c; left; reflexivity
    | |- builds_nothing (if ?b then _ else _) => destruct b
    end.
Qed.

(** One pass over the encryption levels hands at most one packet per level
    that has a packet type to a loss detector and sends nothing itself;
    [packet_count] goes up by the number of packets handed over; [written]
    leaves 0 only with a packet. *)
Lemma send_levels_counts env fuel levels len s c :
  let r := eval (send_levels env fuel levels len s) c in
  let c' := exec (send_levels env fuel levels len s) c in
  0 <= packet_count s ->
  packet_count s + Z.of_nat (length levels) < 2 ^ 32 ->
  handed c <= handed c' <= handed c + Z.of_nat (length (packet_levels levels)) /\
  datagrams c' = datagrams c /\
  (forall s', r = Some s' ->
     packet_count s' = packet_count s + (handed c' - handed c) /\
     (written s = 0 -> written s' <> 0 -> handed c < handed c')).
Proof.
  cbv zeta. unfold handed, datagrams.
  revert s c. induction levels as [|level rest IH]; intros s c P0 P1.
  - cbn [send_levels ret eval exec fst snd length]. split; [lia|].
    split; [reflexivity|]. intros s' E. injection E as <-. split; [lia|].
    intros; contradiction.
  - cbn [send_levels]. unfold eval, exec. mnorm.
    unfold _is_src_addr_verified. mnorm.
    cbn [length] in P1. rewrite Nat2Z.inj_succ in P1.
    assert (PL : Z.of_nat (length (packet_levels (level :: rest)))
                 = Z.of_nat (length (packet_levels rest))
                   + (if has_packet_type level then 1 else 0)).
    { unfold packet_levels. cbn [filter].
      destruct (has_packet_type level); cbn [length]; lia. }
    rewrite PL. clear PL.
    assert (PN : 0 <= Z.of_nat (length (packet_levels rest))) by lia.
    assert (HZ : 0 <= (if has_packet_type level then 1 else 0))
      by (destruct (has_packet_type level); lia).
    set (hp := if has_packet_type level then 1 else 0) in *.
    destruct (context_eqb (netvc_context c) NET_VCONNECTION_IN
              && negb (_src_addr_verified c)
              && (MAX_PACKETS_WITHOUT_SRC_ADDR_VARIDATION
                  <=? _handshake_packets_sent c)).
    { cbn [ret fst snd]. split; [lia|]. split; [reflexivity|].
      intros s' E. injection E as <-. cbn [packet_count written].
      split; [lia|]. intros; contradiction. }
    unfold bind_fuel. mnorm.
    set (m := _packetize_frames env fuel level (u32 (len - written s))).
    pose proof (packetize_frames_adds env fuel level (u32 (len - written s)) c)
      as X.
    fold m in X.
    pose proof (extends_count _ _ _ _ packetizing_not_handed X) as Xh.
    pose proof (extends_count _ _ _ _ packetizing_not_sent X) as Xd.
    unfold exec in Xh, Xd.
    pose proof (packetize_frames_no_type env fuel level (u32 (len - written s)))
      as NT.
    fold m in NT.
    destruct (fst (m c)) as [[p|]|] eqn:Em.
    + (* a packet *)
      assert (HP : hp = 1).
      { subst hp. destruct (has_packet_type level); [reflexivity|].
        destruct (NT eq_refl c) as [N | N]; unfold eval in N; rewrite Em in N;
          discriminate. }
      clear NT. mnorm.
      set (c1 := snd (when _ _ (snd (m c)))).
      assert (T1 : trace c1 = trace (snd (m c))).
      { subst c1. destruct (context_eqb _ _ && _); reflexivity. }
      cbn [call modify fst snd].
      set (c2 := set_trace (C_on_packet_sent (pn_space_index env level) p
                            :: trace c1) c1).
      set (s2 := {| written := u32 (written s + packet_store env p);
                    packet_count := u32 (packet_count s + 1);
                    error := error s; stored := stored s ++ [p] |}).
      assert (H2 : count is_packet_handed_to_loss_detector (trace c2)
                   = count is_packet_handed_to_loss_detector (trace c) + 1).
      { subst c2. cbn [trace set_trace]. rewrite count_cons, T1, Xh.
        reflexivity. }
      assert (D2 : count is_datagram_sent (trace c2)
                   = count is_datagram_sent (trace c)).
      { subst c2. cbn [trace set_trace]. rewrite count_cons, T1, Xd.
        cbn. lia. }
      assert (P2 : packet_count s2 = packet_count s + 1).
      { subst s2. cbn [packet_count]. unfold u32. apply Z.mod_small. lia. }
      destruct (IH s2 c2) as [Ha [Hb Hc]]; [lia | lia|].
      unfold eval, exec in Ha, Hb, Hc.
      split; [lia|]. split; [lia|].
      intros s' E. destruct (Hc s' E) as [Hp Hw].
      split; [lia|]. intros _ _. lia.
    + (* no packet at this level *)
      destruct (IH s (snd (m c))) as [Ha [Hb Hc]]; [lia | lia|].
      unfold eval, exec in Ha, Hb, Hc.
      split; [lia|]. split; [lia|].
      intros s' E. destruct (Hc s' E) as [Hp Hw].
      split; [lia|]. intros W0 W1. specialize (Hw W0 W1). lia.
    + (* out of fuel *)
      cbn [ret fst snd]. split; [lia|]. split; [lia|]. intros s' E. discriminate.
Qed.

(** The loop over datagrams: a datagram is started only while fewer than
    [PACKET_PER_EVENT] packets have been counted, and every datagram that is
    sent holds at least one packet. *)
Lemma send_datagrams_counts env fuel turns n err c :
  let c' := exec (send_datagrams env fuel turns n err) c in
  0 <= n ->
  n + (handed c' - handed c) <= Z.max n (PACKET_PER_EVENT - 1 + 3) /\
  n + (datagrams c' - datagrams c) <= Z.max n PACKET_PER_EVENT /\
  handed c <= handed c' /\ datagrams c <= datagrams c'.
Proof.
  cbv zeta. revert n err c. unfold PACKET_PER_EVENT.
  induction turns as [|turns IH]; intros n err c N0.
  all: cbn [send_datagrams]; unfold PACKET_PER_EVENT.
  all: destruct ((err =? 0) && (n <? 32)) eqn:G;
    [|cbn [ret exec snd]; lia].
  all: apply andb_true_iff in G as [_ G]; apply Z.ltb_lt in G.
  all: unfold exec; mnorm.
  all: destruct (cc_open_window env (trace c) =? 0); [cbn [ret snd]; lia|].
  all: mnorm; unfold bind_fuel; mnorm.
  all: set (s0 := {| written := 0; packet_count := n; error := err;
                     stored := [] |}).
  all: set (len := Z.min (cc_open_window env (trace c)) (_pmtu c)).
  all: pose proof (send_levels_counts env fuel QUIC_ENCRYPTION_LEVELS len s0 c)
         as L.
  all: cbv zeta in L; unfold eval, exec in L.
  all: destruct L as [La [Lb Lc]];
         [subst s0; cbn [packet_count]; lia
         |subst s0; cbn [packet_count length QUIC_ENCRYPTION_LEVELS]; lia|].
  all: change (Z.of_nat (length (packet_levels QUIC_ENCRYPTION_LEVELS))) with 3
         in La.
  all: destruct (fst (send_levels env fuel QUIC_ENCRYPTION_LEVELS len s0 c))
         as [s1|]; [|cbn [ret snd]; lia].
  all: destruct (Lc s1 eq_refl) as [Lp Lw]; cbn [written] in Lw.
  all: destruct (written s1 =? 0) eqn:W; cbn [negb]; [cbn [ret snd]; lia|].
  all: apply Z.eqb_neq in W; specialize (Lw eq_refl W).
  all: mnorm; cbn [call modify fst snd].
  all: set (c1 := snd (send_levels env fuel QUIC_ENCRYPTION_LEVELS len s0 c))
         in *.
  all: set (c2 := set_trace (C_send_packet (stored s1) :: trace c1) c1).
  all: assert (H2 : handed c2 = handed c1)
         by (unfold handed; subst c2; cbn [trace set_trace]; rewrite count_cons;
             cbn; lia).
  all: assert (D2 : datagrams c2 = datagrams c1 + 1)
         by (unfold datagrams; subst c2; cbn [trace set_trace];
             rewrite count_cons; reflexivity).
  - cbn [ret snd]. fold c2. cbn [Z.of_nat Pos.of_succ_nat Pos.succ] in La.
    clear Lc. clearbody c2 c1 s0 len. lia.
  - assert (Lp' : packet_count s1 = n + (handed c1 - handed c)) by exact Lp.
    cbn [Z.of_nat Pos.of_succ_nat Pos.succ] in La.
    destruct (IH (packet_count s1) (error s1) c2) as [Ia [Ib [Ic Id]]]; [lia|].
    unfold exec in Ia, Ib, Ic, Id.
    set (c3 := snd (send_datagrams env fuel turns (packet_count s1) (error s1) c2))
      in *.
    clear Lc Lp IH. clearbody c3 c2 c1 s0 len. lia.
Qed.

(** [PACKET_PER_EVENT] turns are enough for the loop over datagrams. *)
Lemma send_datagrams_turns env fuel turns k n err c :
  0 <= n -> PACKET_PER_EVENT - n <= Z.of_nat turns ->
  send_datagrams env fuel (turns + k) n err c
  = send_datagrams env fuel turns n err c.
Proof.
  revert n err c. unfold PACKET_PER_EVENT.
  induction turns as [|turns IH]; intros n err c N0 T.
  - destruct k; [reflexivity|].
    cbn [Nat.add send_datagrams]. unfold PACKET_PER_EVENT.
    assert (G : (n <? 32) = false) by (apply Z.ltb_ge; lia).
    rewrite G, andb_false_r. reflexivity.
  - cbn [Nat.add send_datagrams]. unfold PACKET_PER_EVENT.
    destruct ((err =? 0) && (n <? 32)) eqn:G; [|reflexivity].
    apply andb_true_iff in G as [_ G]. apply Z.ltb_lt in G.
    rewrite !bind_eq. cbn [ask fst snd].
    destruct (cc_open_window env (trace c) =? 0); [reflexivity|].
    rewrite !bind_eq. cbn [gets fst snd]. unfold bind_fuel. rewrite !bind_eq.
    set (s0 := {| written := 0; packet_count := n; error := err;
                  stored := [] |}).
    set (len := Z.min (cc_open_window env (trace c)) (_pmtu c)).
    pose proof (send_levels_counts env fuel QUIC_ENCRYPTION_LEVELS len s0 c)
      as L.
    cbv zeta in L. unfold eval, exec in L.
    destruct L as [La [Lb Lc]];
      [subst s0; cbn [packet_count]; lia
      |subst s0; cbn [packet_count length QUIC_ENCRYPTION_LEVELS]; lia|].
    destruct (fst (send_levels env fuel QUIC_ENCRYPTION_LEVELS len s0 c))
      as [s1|]; [|reflexivity].
    destruct (Lc s1 eq_refl) as [Lp Lw]. cbn [written] in Lw.
    assert (Lp' : packet_count s1
                  = n + (handed (snd (send_levels env fuel QUIC_ENCRYPTION_LEVELS
                                        len s0 c)) - handed c)) by exact Lp.
    destruct (written s1 =? 0) eqn:W; cbn [negb]; [reflexivity|].
    apply Z.eqb_neq in W. specialize (Lw eq_refl W).
    rewrite !bind_eq. apply IH; lia.
Qed.

(** C7, as amended.  One run of [_state_common_send_packet] starts a UDP
    datagram only while it has counted fewer than 32 packets, and a datagram
    holds at most one packet per encryption level: whatever the congestion
    controller and the frame generators answer, and whether or not the frame
    loops end, at most 31 + 3 = 34 packets are built and handed to the loss
    detectors, in at most 32 datagrams. *)
Theorem state_common_send_packet_bound (env : Env) (fuel : nat)
  (c : QUICNetVConnection) :
  let c' := exec (_state_common_send_packet env fuel) c in
  handed c' <= handed c + (PACKET_PER_EVENT - 1 + 3) /\
  datagrams c' <= datagrams c + PACKET_PER_EVENT.
Proof.
  cbv zeta. unfold _state_common_send_packet, bind_fuel.
  rewrite exec_bind.
  pose proof (send_datagrams_counts env fuel (Z.to_nat PACKET_PER_EVENT) 0 0 c) as H.
  cbv zeta in H. destruct H as [Ha [Hb _]]; [lia|].
  set (c1 := exec (send_datagrams env fuel (Z.to_nat PACKET_PER_EVENT) 0 0) c) in *.
  assert (K : forall (m : M (option (option QUICConnectionError))),
            (forall c0, trace (exec m c0) = trace c0 \/
                        exists n, trace (exec m c0)
                                  = C_net_activity :: C_stat_packets_sent n
                                    :: trace c0) ->
            handed (exec m c1) = handed c1 /\ datagrams (exec m c1) = datagrams c1).
  { intros m Hm. unfold handed, datagrams.
    destruct (Hm c1) as [E | [n E]]; rewrite E; [split; reflexivity|].
    rewrite !count_cons. cbn. split; lia. }
  destruct (eval (send_datagrams env fuel (Z.to_nat PACKET_PER_EVENT) 0 0) c) as [n|].
  - destruct (K (when (negb (n =? 0))
                   (call (C_stat_packets_sent n);; call C_net_activity);;
                 ret (Some None))) as [Kh Kd].
    { intros c0. destruct (negb (n =? 0)); [right; exists n|left]; reflexivity. }
    rewrite Kh, Kd. unfold PACKET_PER_EVENT in *. lia.
  - cbn [ret exec snd]. unfold PACKET_PER_EVENT in *. lia.
Qed.

(** C7, as stated, fails, and the bound of 34 is reached: with bulk data at
    the 1-RTT level, 31 datagrams of one packet each go out; the ACKs of the
    Initial and Handshake spaces then fall due, and the 32nd datagram holds
    three packets. *)
Lemma state_common_send_packet_34_packets :
  eval (_state_common_send_packet env_bulk 1) server_established = Some None /\
  handed (exec (_state_common_send_packet env_bulk 1) server_established) = 34 /\
  datagrams (exec (_state_common_send_packet env_bulk 1) server_established)
  = 32.
Proof. repeat split; vm_compute; reflexivity. Qed.

(** ** The closing state *)

(** One turn of the closing receive loop takes the front datagram off the
    queue and leaves the rest. *)
Lemma state_closing_receive_packet_body_queue env d q c :
  _packet_recv_queue c = d :: q ->
  _packet_recv_queue (exec (_state_closing_receive_packet_body env) c) = q.
Proof.
  intros Q. destruct (dequeue_recv_packet_front d q c Q) as [Q1 _].
  unfold _state_closing_receive_packet_body. rewrite exec_bind.
  set (r := eval _dequeue_recv_packet c).
  assert (K : forall r : option QUICPacket * QUICPacketCreationResult,
            keeps _packet_recv_queue
              (match r with
               | (Some packet, SUCCESS) =>
                   if QUICPacketType.eqb (pkt_type packet)
                        QUICPacketType.VERSION_NEGOTIATION
                   then ret tt
                   else (_recv_and_ack env packet;; ret tt)
               | _ => ret tt
               end;;
               count <- gets _state_closing_recv_packet_count;;
               modify (set_state_closing_recv_packet_count (u32 (count + 1)));;
               window <- gets _state_closing_recv_packet_window;;
               count <- gets _state_closing_recv_packet_count;;
               (if (window <? STATE_CLOSING_MAX_RECV_PKT_WIND) && (window <=? count)
                then
                  modify (set_state_closing_recv_packet_count 0);;
                  modify (set_state_closing_recv_packet_window
                            (u32 (Z.shiftl window 1)));;
                  _schedule_packet_write_ready true;;
                  ret true
                else ret false))).
  { intros r0. keeps_tac. }
  rewrite (K r). exact Q1.
Qed.

(** [turns] = the length of the queue is enough for the closing receive
    loop: more turns change nothing. *)
Lemma closing_receive_turns env n k c :
  (length (_packet_recv_queue c) <= n)%nat ->
  _state_closing_receive_packet_loop env (n + k) c
  = _state_closing_receive_packet_loop env n c.
Proof.
  revert c. induction n as [|n IH]; intros c L.
  - destruct (_packet_recv_queue c) as [|d q] eqn:Q; [|cbn in L; lia].
    destruct k; [reflexivity|].
    cbn [Nat.add _state_closing_receive_packet_loop]. rewrite bind_eq.
    cbn [gets fst snd]. rewrite Q. reflexivity.
  - cbn [Nat.add _state_closing_receive_packet_loop]. rewrite !bind_eq.
    cbn [gets fst snd].
    destruct (_packet_recv_queue c) as [|d q] eqn:Q; [reflexivity|].
    destruct (0 <? Z.of_nat (length (d :: q))); [|reflexivity].
    rewrite !bind_eq.
    destruct (fst (_state_closing_receive_packet_body env c)); [reflexivity|].
    apply IH.
    fold (exec (_state_closing_receive_packet_body env) c).
    rewrite (state_closing_receive_packet_body_queue env d q c Q).
    cbn [length] in L. lia.
Qed.

Lemma state_draining_receive_packet_body_queue env d q c :
  _packet_recv_queue c = d :: q ->
  _packet_recv_queue (exec (_state_draining_receive_packet_body env) c) = q.
Proof.
  intros Q. destruct (dequeue_recv_packet_front d q c Q) as [Q1 _].
  unfold _state_draining_receive_packet_body. rewrite exec_bind.
  set (r := eval _dequeue_recv_packet c).
  assert (K : forall r : option QUICPacket * QUICPacketCreationResult,
            keeps _packet_recv_queue
              (match r with
               | (Some packet, SUCCESS) => _recv_and_ack env packet;; ret tt
               | _ => ret tt
               end)).
  { intros r0. keeps_tac. }
  rewrite (K r). exact Q1.
Qed.

(** The same for the draining receive loop. *)
Lemma draining_receive_turns env n k c :
  (length (_packet_recv_queue c) <= n)%nat ->
  _state_draining_receive_packet_loop env (n + k) c
  = _state_draining_receive_packet_loop env n c.
Proof.
  revert c. induction n as [|n IH]; intros c L.
  - destruct (_packet_recv_queue c) as [|d q] eqn:Q; [|cbn in L; lia].
    destruct k; [reflexivity|].
    cbn [Nat.add _state_draining_receive_packet_loop]. rewrite bind_eq.
    cbn [gets fst snd]. rewrite Q. reflexivity.
  - cbn [Nat.add _state_draining_receive_packet_loop]. rewrite !bind_eq.
    cbn [gets fst snd].
    destruct (_packet_recv_queue c) as [|d q] eqn:Q; [reflexivity|].
    destruct (0 <? Z.of_nat (length (d :: q))); [|reflexivity].
    rewrite !bind_eq.
    apply IH.
    fold (exec (_state_draining_receive_packet_body env) c).
    rewrite (state_draining_receive_packet_body_queue env d q c Q).
    cbn [length] in L. lia.
Qed.

(** One turn of the closing receive loop counts the packet; when the count
    has reached the window and the window is below its maximum, the turn
    resets the count, doubles the window and leaves the loop (after
    [_schedule_packet_write_ready(true)]).  Nothing else in the turn touches
    the counters. *)
Lemma state_closing_receive_packet_body_counters env c :
  let count := u32 (_state_closing_recv_packet_count c + 1) in
  let window := _state_closing_recv_packet_window c in
  let stop := eval (_state_closing_receive_packet_body env) c in
  let c' := exec (_state_closing_receive_packet_body env) c in
  stop = (window <? STATE_CLOSING_MAX_RECV_PKT_WIND) && (window <=? count) /\
  closing_counters c'
  = if stop then (0, u32 (Z.shiftl window 1)) else (count, window).
Proof.
  cbv zeta. unfold _state_closing_receive_packet_body.
  rewrite eval_bind, exec_bind.
  set (c1 := exec _dequeue_recv_packet c).
  set (r := eval _dequeue_recv_packet c).
  rewrite eval_bind, exec_bind.
  set (m := match r with
            | (Some packet, SUCCESS) =>
                if QUICPacketType.eqb (pkt_type packet)
                     QUICPacketType.VERSION_NEGOTIATION
                then ret tt
                else (_recv_and_ack env packet;; ret tt)
            | _ => ret tt
            end).
  assert (K : closing_counters (exec m c1) = closing_counters c).
  { assert (Km : keeps closing_counters m) by (subst m; keeps_tac).
    rewrite Km. apply dequeue_recv_packet_keeps_counters. }
  destruct (exec m c1) as [h ctx fam mtu cid pcid ocid alt rq lrt hsh acm aps fcb
                           sav hps sfs err fin cnt wnd pwr cto pvt cev nhp tr].
  unfold closing_counters in K. cbn [_state_closing_recv_packet_count
    _state_closing_recv_packet_window] in K.
  injection K as <- <-.
  unfold _schedule_packet_write_ready. crun.
  destruct (wnd <? STATE_CLOSING_MAX_RECV_PKT_WIND);
    [destruct (wnd <=? u32 (cnt + 1)); [destruct pwr|]|];
    crun; split; reflexivity.
Qed.

Lemma closing_window_doubles k w :
  0 <= k <= STATE_CLOSING_MAX_SEND_PKT_NUM -> w = 2 ^ k ->
  (w <? STATE_CLOSING_MAX_RECV_PKT_WIND) = true ->
  k + 1 <= STATE_CLOSING_MAX_SEND_PKT_NUM /\ u32 (Z.shiftl w 1) = 2 ^ (k + 1).
Proof.
  unfold STATE_CLOSING_MAX_RECV_PKT_WIND, STATE_CLOSING_MAX_SEND_PKT_NUM.
  intros K -> L. apply Z.ltb_lt in L. rewrite Z.shiftl_1_l in L.
  assert (k < 8) by (apply (Z.pow_lt_mono_r_iff 2); lia).
  split; [lia|].
  rewrite Z.shiftl_mul_pow2 by lia. rewrite Z.pow_add_r by lia.
  unfold u32. apply Z.mod_small.
  assert (2 ^ k < 2 ^ 8) by (apply Z.pow_lt_mono_r; lia).
  assert (0 < 2 ^ k) by (apply Z.pow_pos_nonneg; lia).
  change (2 ^ 1) with 2. change (2 ^ 8) with 256 in *. change (2 ^ 32) with 4294967296. lia.
Qed.

(** One turn of the closing receive loop either leaves the window alone or
    doubles it, resets the count and leaves the loop; the window never
    exceeds [STATE_CLOSING_MAX_RECV_PKT_WIND]. *)
Lemma state_closing_receive_packet_body_window env k c :
  closing_window_at k c ->
  let stop := eval (_state_closing_receive_packet_body env) c in
  let c' := exec (_state_closing_receive_packet_body env) c in
  closing_window_at (if stop then k + 1 else k) c' /\
  _state_closing_recv_packet_window c' <= STATE_CLOSING_MAX_RECV_PKT_WIND /\
  (stop = true ->
   _state_closing_recv_packet_window c
   <= u32 (_state_closing_recv_packet_count c + 1) /\
   _state_closing_recv_packet_count c' = 0).
Proof.
  intros [K W]. cbv zeta.
  destruct (state_closing_receive_packet_body_counters env c) as [S C].
  cbv zeta in S, C. unfold closing_counters in C.
  assert (B : forall j, 0 <= j <= STATE_CLOSING_MAX_SEND_PKT_NUM ->
                2 ^ j <= STATE_CLOSING_MAX_RECV_PKT_WIND).
  { unfold STATE_CLOSING_MAX_RECV_PKT_WIND, STATE_CLOSING_MAX_SEND_PKT_NUM.
    intros j J. rewrite Z.shiftl_1_l. apply Z.pow_le_mono_r; lia. }
  destruct (eval (_state_closing_receive_packet_body env) c).
  - symmetry in S. apply andb_true_iff in S as [S1 S2].
    destruct (closing_window_doubles k _ K W S1) as [K1 W1].
    apply pair_equal_spec in C as [C1 C2].
    split; [split; [lia | rewrite C2; exact W1]|].
    split; [rewrite C2, W1; apply B; lia|].
    intros _. split; [apply Z.leb_le; exact S2 | exact C1].
  - apply pair_equal_spec in C as [C1 C2].
    split; [split; [exact K | rewrite C2; exact W]|].
    split; [rewrite C2, W; apply B; exact K | discriminate].
Qed.

Lemma closing_window_counters c c' :
  closing_counters c' = closing_counters c -> closing_window c -> closing_window c'.
Proof.
  unfold closing_counters. intros E [k [K W]].
  apply pair_equal_spec in E as [_ E]. exists k. split; [exact K | congruence].
Qed.

Lemma state_closing_receive_packet_loop_window env n c :
  closing_window c ->
  closing_window (exec (_state_closing_receive_packet_loop env n) c).
Proof.
  revert c. induction n as [|n IH]; intros c H; [exact H|].
  cbn [_state_closing_receive_packet_loop]. rewrite exec_bind.
  cbn [gets eval exec fst snd].
  destruct (0 <? Z.of_nat (length (_packet_recv_queue c))); [|exact H].
  fold (exec (stop <- _state_closing_receive_packet_body env;;
              if stop then ret tt
              else _state_closing_receive_packet_loop env n) c).
  rewrite exec_bind.
  destruct H as [k H].
  destruct (state_closing_receive_packet_body_window env k c H) as [H1 _].
  cbv zeta in H1.
  destruct (eval (_state_closing_receive_packet_body env) c).
  - exists (k + 1). exact H1.
  - apply IH. exists k. exact H1.
Qed.

Lemma switch_to_close_state_keeps_counters env :
  keeps closing_counters (_switch_to_close_state env).
Proof.
  pose proof (complete_handshake_if_possible_untouched closing_counters) as H.
  unfold _switch_to_close_state, _unschedule_closing_timeout,
    _unschedule_path_validation_timeout, _schedule_closed_event.
  keeps_tac.
Qed.

Lemma handle_path_validation_timeout_keeps_counters env :
  keeps closing_counters (_handle_path_validation_timeout env).
Proof.
  pose proof (switch_to_close_state_keeps_counters env).
  unfold _handle_path_validation_timeout, _close_path_validation_timeout.
  keeps_tac.
Qed.

Lemma build_packet_keeps_counters env level b n r p :
  keeps closing_counters (_build_packet env level b n r p).
Proof.
  unfold _build_packet, _build_packet_of_type, create_packet,
    largest_acked_packet_number.
  keeps_tac.
Qed.

Lemma state_draining_receive_packet_loop_keeps_counters env n :
  keeps closing_counters (_state_draining_receive_packet_loop env n).
Proof.
  induction n; cbn [_state_draining_receive_packet_loop];
    unfold _state_draining_receive_packet_body; keeps_tac.
Qed.

Lemma shutdown_loss_detectors_keeps_counters l :
  keeps closing_counters (shutdown_loss_detectors l).
Proof. induction l; cbn [shutdown_loss_detectors]; keeps_tac. Qed.

(** The window stays a power of two up to 2^8 under every input: only the
    closing receive loop changes it. *)
Lemma input_closing_window env i c c' :
  closing_window c -> input env i c = Some c' -> closing_window c'.
Proof.
  intros H E. destruct i as [d | event | e]; cbn [input] in E.
  - injection E as <-. revert H. apply closing_window_counters.
    assert (K : keeps closing_counters (handle_received_packet d))
      by (unfold handle_received_packet; keeps_tac).
    apply K.
  - unfold handleEvent in E.
    pose proof (switch_to_close_state_keeps_counters env) as K1.
    pose proof (handle_path_validation_timeout_keeps_counters env) as K2.
    destruct (handler c); try discriminate; injection E as <-.
    + (* closing *)
      unfold state_connection_closing. rewrite exec_bind. cbn [ret exec snd].
      destruct event; try exact H.
      * fold (exec (_state_closing_receive_packet env;; ret tt) c).
        rewrite exec_bind. cbn [ret exec snd].
        fold (exec (_state_closing_receive_packet env) c).
        unfold _state_closing_receive_packet. rewrite exec_bind.
        cbn [gets eval exec fst snd]. rewrite exec_bind. cbn [ret exec snd].
        apply state_closing_receive_packet_loop_window. exact H.
      * revert H. apply closing_window_counters.
        pose proof (build_packet_keeps_counters env) as K3.
        assert (K : keeps closing_counters
                      (_close_packet_write_ready;;
                       _state_closing_send_packet env;; ret tt)).
        { unfold _close_packet_write_ready, _state_closing_send_packet,
            _packetize_closing_frame. keeps_tac. }
        apply K.
      * revert H. apply closing_window_counters. apply K2.
      * revert H. apply closing_window_counters.
        assert (K : keeps closing_counters
                      (_close_closing_timeout;; _switch_to_close_state env))
          by (unfold _close_closing_timeout; keeps_tac).
        apply K.
    + (* draining *)
      revert H. apply closing_window_counters.
      pose proof (state_draining_receive_packet_loop_keeps_counters env) as K3.
      assert (K : keeps closing_counters (state_connection_draining env event)).
      { unfold state_connection_draining, _state_draining_receive_packet,
          _close_packet_write_ready, _close_closing_timeout.
        keeps_tac. }
      apply K.
    + (* closed *)
      revert H. apply closing_window_counters.
      pose proof shutdown_loss_detectors_keeps_counters as K3.
      assert (K : keeps closing_counters (state_connection_closed event)).
      { unfold state_connection_closed, free, _unschedule_packet_write_ready,
          _unschedule_closing_timeout, _unschedule_path_validation_timeout,
          _close_closed_event, _close_packet_write_ready.
        keeps_tac. }
      apply K.
  - injection E as <-. revert H. apply closing_window_counters.
    apply close_untouched; reflexivity.
Qed.

(** Over the whole closing period the receive window is a power of two and
    never exceeds [STATE_CLOSING_MAX_RECV_PKT_WIND] = 2^8. *)
Lemma closing_window_bounded env l c c' :
  closing_window c -> inputs env l c = Some c' ->
  closing_window c' /\
  _state_closing_recv_packet_window c' <= STATE_CLOSING_MAX_RECV_PKT_WIND.
Proof.
  intros H E.
  assert (H' : closing_window c').
  { revert c H E. induction l as [|i l IH]; intros c H E; cbn [inputs] in E.
    - injection E as <-. exact H.
    - destruct (input env i c) as [c1|] eqn:E1; [|discriminate].
      apply (IH c1); [|exact E].
      exact (input_closing_window env i c c1 H E1). }
  split; [exact H'|]. destruct H' as [k [K W]]. rewrite W.
  unfold STATE_CLOSING_MAX_RECV_PKT_WIND, STATE_CLOSING_MAX_SEND_PKT_NUM in *.
  rewrite Z.shiftl_1_l. apply Z.pow_le_mono_r; lia.
Qed.

Ltac receive_run :=
  crun;
  cbn [length Z.of_nat Z.ltb Z.compare Pos.of_succ_nat pkt_type source_cid
       QUICPacketType.eqb cid_eqb QUICConnectionId_ZERO
       payload dispatch_frames frame_type existsb interests QUICFrameType.eqb orb];
  unfold handle_frame; cbn [frame_type]; unfold _schedule_packet_write_ready;
  crun.

Ltac split_cond :=
  match goal with
  | |- context [match ?b with NET_VCONNECTION_UNSET => _ | _ => _ end] =>
      destruct b
  | |- context [if ?b then _ else _] => destruct b
  end; receive_run.

(** Reading a packet with a MAX_DATA frame in the closing state leaves a
    write pending, whatever the receive counters are: [handle_frame]
    schedules it before the counters are looked at. *)
Lemma closing_read_max_data env c :
  _packet_recv_queue c = [Decodable packet_with_max_data] ->
  _packet_write_ready c = false ->
  let c' := exec (state_connection_closing env QUIC_EVENT_PACKET_READ_READY) c in
  handler c' = handler c /\
  _the_final_packet c' = _the_final_packet c /\
  _connection_error c' = _connection_error c /\
  _packet_write_ready c' = true /\
  _packet_recv_queue c' = [] /\
  datagrams c' = datagrams c /\
  count is_write_ready_scheduled (trace c')
  = count is_write_ready_scheduled (trace c) + 1.
Proof.
  destruct c as [h ctx fam mtu cid pcid ocid alt rq lrt hsh acm aps fcb sav hps
                 sfs err fin cnt wnd pwr cto pvt cev nhp tr].
  unfold datagrams. cbn [_packet_write_ready _packet_recv_queue].
  intros -> ->. cbv zeta.
  unfold state_connection_closing, _state_closing_receive_packet. crun.
  cbn [length _state_closing_receive_packet_loop]. crun.
  unfold _state_closing_receive_packet_body, _dequeue_recv_packet,
    QUICPacketReceiveQueue_dequeue, _update_peer_cid. crun.
  unfold packet_with_max_data, received, max_data_frame.
  unfold _recv_and_ack, receive_frames.
  receive_run.
  repeat split_cond.
  all: rewrite ?count_cons; cbn [is_datagram_sent is_write_ready_scheduled];
    rewrite ?Z.add_0_r.
  all: repeat split; reflexivity.
Qed.

(** The write event of the closing state sends the stored close packet. *)
Lemma closing_write env p c :
  _the_final_packet c = Some p ->
  _connection_error c = None ->
  let c' := exec (state_connection_closing env QUIC_EVENT_PACKET_WRITE_READY) c in
  handler c' = handler c /\
  _the_final_packet c' = Some p /\
  _connection_error c' = None /\
  _packet_write_ready c' = false /\
  _packet_recv_queue c' = _packet_recv_queue c /\
  trace c' = C_send_packet [p] :: trace c.
Proof.
  destruct c as [h ctx fam mtu cid pcid ocid alt rq lrt hsh acm aps fcb sav hps
                 sfs err fin cnt wnd pwr cto pvt cev nhp tr].
  cbn [_the_final_packet _connection_error]. intros -> ->. cbv zeta.
  unfold state_connection_closing, _close_packet_write_ready,
    _state_closing_send_packet, _packetize_closing_frame.
  crun. repeat split; reflexivity.
Qed.

Lemma closing_receive_and_serve env p c :
  closing_with p c ->
  exists c', receive_and_serve env (Decodable packet_with_max_data) c = Some c' /\
             closing_with p c' /\ datagrams c' = datagrams c + 1 /\
             count is_write_ready_scheduled (trace c')
             = count is_write_ready_scheduled (trace c) + 1.
Proof.
  intros [Hh [Hf [He [Hw Hq]]]].
  unfold receive_and_serve. cbn [inputs input].
  set (c0 := exec (handle_received_packet (Decodable packet_with_max_data)) c).
  assert (E0 : c0 = set_packet_recv_queue [Decodable packet_with_max_data] c).
  { subst c0. unfold handle_received_packet. rewrite exec_bind.
    cbn [gets eval exec fst snd modify]. rewrite Hq. reflexivity. }
  assert (H0 : handler c0 = Handler.state_connection_closing)
    by (rewrite E0; exact Hh).
  unfold handleEvent at 1. rewrite H0.
  destruct (closing_read_max_data env c0) as [Rh [Rf [Re [Rw [Rq [Rd Rs]]]]]];
    [rewrite E0; reflexivity | rewrite E0; exact Hw |].
  set (c1 := exec (state_connection_closing env QUIC_EVENT_PACKET_READ_READY) c0)
    in *.
  unfold deliver_scheduled_write. rewrite Rw.
  unfold handleEvent. rewrite Rh, H0.
  destruct (closing_write env p c1) as [Wh [Wf [We [Ww [Wq Wt]]]]].
  { rewrite Rf, E0. exact Hf. }
  { rewrite Re, E0. exact He. }
  eexists. split; [reflexivity|]. split; [|split].
  - unfold closing_with. rewrite Wh, Rh, H0, Wq, Rq. auto.
  - unfold datagrams in *. rewrite Wt, count_cons, Rd, E0. reflexivity.
  - rewrite Wt, count_cons, Rs, E0. cbn [is_write_ready_scheduled].
    rewrite Z.add_0_r. reflexivity.
Qed.

(** C3 in the presence of MAX_DATA frames.  In the closing state, with the
    close packet built and no write pending, every received packet that
    carries a MAX_DATA frame makes the read event schedule a write, whatever
    the receive counters are and whatever the collaborators answer, and the
    write event so scheduled sends the close packet again.  With the write
    event delivered only when one is scheduled, [n] such packets schedule [n]
    writes and make [n] datagrams, for every [n]: neither the window nor the
    cap of 8 limits them. *)
Theorem closing_resends_on_every_max_data_packet (env : Env) (p : QUICPacket)
  (c : QUICNetVConnection) (n : nat) :
  closing_with p c ->
  exists c',
    receive_all env (repeat (Decodable packet_with_max_data) n) c = Some c' /\
    closing_with p c' /\
    datagrams c' = datagrams c + Z.of_nat n /\
    count is_write_ready_scheduled (trace c')
    = count is_write_ready_scheduled (trace c) + Z.of_nat n.
Proof.
  revert c. induction n as [|n IH]; intros c H.
  - exists c. split; [reflexivity|]. split; [exact H | cbn; lia].
  - destruct (closing_receive_and_serve env p c H) as [c1 [E1 [H1 [D1 S1]]]].
    destruct (IH c1 H1) as [c2 [E2 [H2 [D2 S2]]]].
    exists c2. cbn [repeat receive_all]. rewrite E1.
    split; [exact E2|]. split; [exact H2|]. lia.
Qed.

(** The theorem at a server connection that has just sent its close packet
    and holds no write event: nine packets with a MAX_DATA frame schedule
    nine writes and make nine more datagrams. *)
Lemma closing_resends_on_every_max_data_packet_witness :
  exists p c',
    closing_with p server_closing /\
    receive_all env_idle (repeat (Decodable packet_with_max_data) 9)
      server_closing = Some c' /\
    datagrams c' = datagrams server_closing + 9 /\
    count is_write_ready_scheduled (trace c')
    = count is_write_ready_scheduled (trace server_closing) + 9.
Proof.
  assert (H : closing_with
                {| pkt_type := QUICPacketType.PROTECTED;
                   destination_cid := [5; 6; 7; 8];
                   source_cid := QUICConnectionId_ZERO;
                   packet_number := 0; base_packet_number := 0;
                   payload := [create_close_frame QUICFrameType.CONNECTION_CLOSE
                                 internal_error];
                   payload_length := 10; is_retransmittable := false;
                   is_probing_packet := false |}
                server_closing).
  { vm_compute. repeat split; reflexivity. }
  destruct (closing_resends_on_every_max_data_packet env_idle _ server_closing 9 H)
    as [c' [E [_ [D S]]]].
  eexists. exists c'. split; [exact H|]. split; [exact E|].
  split; [exact D | exact S].
Defined.

(** The same run from the start: an established server connection is closed
    and sends its close packet; nine packets with a MAX_DATA frame follow,
    the write event being delivered only when the read has scheduled one.
    Ten datagrams have gone out, while the receive window has only reached
    8. *)
Example closing_ten_datagrams :
  option_map
    (fun c' => (handler c', datagrams c', _state_closing_recv_packet_window c'))
    (match inputs env_idle
             [Close internal_error; Deliver QUIC_EVENT_PACKET_WRITE_READY]
             server_established with
     | Some c => receive_all env_idle
                   (repeat (Decodable packet_with_max_data) 9) c
     | None => None
     end)
  = Some (Handler.state_connection_closing, 10, 8).
Proof. vm_compute. reflexivity. Qed.

(** Nine packets with a frame that schedules nothing are answered by the
    backoff alone, after the first, the third and the seventh: three more
    datagrams. *)
Example closing_backoff_alone :
  option_map datagrams
    (receive_all env_idle
       (repeat (Decodable
                  (received QUICPacketType.PROTECTED 7
                     [frame_of QUICFrameType.PING])) 9)
       server_closing)
  = Some (datagrams server_closing + 3).
Proof. vm_compute. reflexivity. Qed.

(** ** C6 *)

(** C6.  With [max_packet_size <= MAX_PACKET_OVERHEAD] (62),
    [_packetize_frames] returns the null packet at every encryption level,
    without asking a generator for a frame and without any other effect. *)
Theorem packetize_frames_small_budget (env : Env) (fuel : nat)
  (level : QUICEncryptionLevel.t) (max_packet_size : Z) (c : QUICNetVConnection) :
  max_packet_size <= MAX_PACKET_OVERHEAD ->
  _packetize_frames env fuel level max_packet_size c = (Some None, c).
Proof.
  intros H. unfold _packetize_frames.
  destruct (Z.leb_spec max_packet_size MAX_PACKET_OVERHEAD); [reflexivity | lia].
Qed.

(** C6 at the boundary, in an environment that has frames to send; one byte
    more and a packet is built. *)
Lemma packetize_frames_small_budget_witness :
  _packetize_frames env_bulk 0 QUICEncryptionLevel.ONE_RTT 62 server_established
  = (Some None, server_established) /\
  handed (exec (_state_common_send_packet env_bulk 1) server_established) = 34.
Proof.
  split.
  - apply packetize_frames_small_budget. unfold MAX_PACKET_OVERHEAD. lia.
  - vm_compute. reflexivity.
Defined.

(** ** C9 *)

Lemma land_0x3f_range r : 0 <= Z.land r 0x3f <= 63.
Proof.
  split.
  - apply Z.land_nonneg. right. lia.
  - assert (H : Z.land r 0x3f = r mod 2 ^ 6) by (apply (Z.land_ones r 6); lia).
    rewrite H. assert (0 <= r mod 2 ^ 6 < 2 ^ 6) by (apply Z.mod_pos_bound; lia).
    lia.
Qed.

Lemma land_0x3f_small r : 0 <= r <= 63 -> Z.land r 0x3f = r.
Proof.
  intros H.
  assert (E : Z.land r 0x3f = r mod 2 ^ 6) by (apply (Z.land_ones r 6); lia).
  rewrite E. apply Z.mod_small. lia.
Qed.

Lemma minimum_quic_packet_size_eval env c :
  eval (minimum_quic_packet_size env) c
  = if context_eqb (netvc_context c) NET_VCONNECTION_OUT
    then MINIMUM_INITIAL_PACKET_SIZE
    else 32 + Z.land (rnd env (trace c)) 0x3f.
Proof.
  unfold minimum_quic_packet_size, _rnd, eval. mnorm.
  destruct (context_eqb (netvc_context c) NET_VCONNECTION_OUT); reflexivity.
Qed.

(** C9, as amended.  [minimum_quic_packet_size] returns 1200 on a client
    connection; otherwise it returns 32 + (draw & 0x3f), which lies between
    32 and 95, and every value from 32 to 95 is returned for some draw. *)
Theorem minimum_quic_packet_size_range (env : Env) (c : QUICNetVConnection) :
  (netvc_context c = NET_VCONNECTION_OUT ->
   eval (minimum_quic_packet_size env) c = MINIMUM_INITIAL_PACKET_SIZE) /\
  (netvc_context c <> NET_VCONNECTION_OUT ->
   eval (minimum_quic_packet_size env) c = 32 + Z.land (rnd env (trace c)) 0x3f /\
   32 <= eval (minimum_quic_packet_size env) c <= 95 /\
   forall v, 32 <= v <= 95 ->
     eval (minimum_quic_packet_size (env_with_rnd (fun _ => v - 32) env)) c = v).
Proof.
  rewrite minimum_quic_packet_size_eval. split; intros H.
  - apply context_eqb_eq in H. rewrite H. reflexivity.
  - destruct (context_eqb (netvc_context c) NET_VCONNECTION_OUT) eqn:E.
    { apply context_eqb_eq in E. contradiction. }
    pose proof (land_0x3f_range (rnd env (trace c))).
    split; [reflexivity|]. split; [lia|].
    intros v Hv. rewrite minimum_quic_packet_size_eval, E.
    cbn [rnd env_with_rnd]. rewrite land_0x3f_small; lia.
Qed.

(** C9, as stated, fails at the upper end: 96 is in the stated range and is
    never returned. *)
Lemma minimum_quic_packet_size_never_96 :
  32 <= 96 <= 96 /\
  forall env c, eval (minimum_quic_packet_size env) c <> 96.
Proof.
  split; [lia|]. intros env c. rewrite minimum_quic_packet_size_eval.
  pose proof (land_0x3f_range (rnd env (trace c))).
  destruct (context_eqb _ _); unfold MINIMUM_INITIAL_PACKET_SIZE; lia.
Qed.

(** The amended C9 on a server connection: the draw 63 gives 95. *)
Lemma minimum_quic_packet_size_range_witness :
  eval (minimum_quic_packet_size (env_with_rnd (fun _ => 95 - 32) env_idle))
    server_established = 95 /\
  eval (minimum_quic_packet_size env_idle) client_in_handshake = 1200.
Proof.
  destruct (minimum_quic_packet_size_range env_idle server_established)
    as [_ H].
  destruct (minimum_quic_packet_size_range env_idle client_in_handshake)
    as [G _].
  split.
  - destruct H as [_ [_ H]]; [discriminate|]. apply H. lia.
  - apply G. reflexivity.
Defined.

(** ** [close], from every state *)

Lemma switch_to_closing_state_rec_result env h e c :
  let c' := exec (_switch_to_closing_state_rec env h e) c in
  handler c' = Handler.state_connection_closing /\
  _connection_error c' = Some e /\
  _packet_write_ready c' = true /\
  _closing_timeout c' = true /\
  In C_remove_from_active_queue (trace c') /\
  In (C_set_inactivity_timeout 0) (trace c').
Proof.
  cbv zeta. unfold _switch_to_closing_state_rec. rewrite exec_bind.
  destruct (exec (_complete_handshake_if_possible_rec env h) c)
    as [hd ctx fam mtu cid pcid ocid alt rq lrt hsh acm aps fcb sav hps
        sfs err fin cnt wnd pwr cto pvt cev nhp tr].
  unfold _schedule_packet_write_ready, _schedule_closing_timeout, closing_period.
  destruct pwr, cto; crun; repeat split; cbn; tauto.
Qed.

Lemma close_result env e c :
  handler c <> Handler.state_connection_closed ->
  handler c <> Handler.state_connection_closing ->
  let c' := exec (close env e) c in
  handler c' = Handler.state_connection_closing /\
  _connection_error c' = Some e /\
  _packet_write_ready c' = true /\
  _closing_timeout c' = true /\
  In C_remove_from_active_queue (trace c') /\
  In (C_set_inactivity_timeout 0) (trace c').
Proof.
  intros H1 H2. cbv zeta. unfold exec. rewrite close_unfold.
  unfold close_rec. rewrite bind_eq. cbn [gets fst snd].
  apply Handler_eqb_neq in H1, H2. rewrite H1, H2. cbn [orb].
  apply switch_to_closing_state_rec_result.
Qed.

(** X1.  From every state but closed and closing, [close(e)] enters the
    closing state with [e] recorded as the connection error (also when the
    handshake completion inside it has closed the connection with an error
    of its own), a write pending, the closing timer pending, the connection
    off the active queue and its inactivity timeout disabled. *)
Theorem close_enters_closing (env : Env) (e : QUICConnectionError)
  (c : QUICNetVConnection) :
  handler c <> Handler.state_connection_closed ->
  handler c <> Handler.state_connection_closing ->
  let c' := exec (close env e) c in
  handler c' = Handler.state_connection_closing /\
  _connection_error c' = Some e /\
  _packet_write_ready c' = true /\
  _closing_timeout c' = true /\
  In C_remove_from_active_queue (trace c') /\
  In (C_set_inactivity_timeout 0) (trace c').
Proof. apply close_result. Qed.

(** X1 on a server in the handshake state whose handshake is complete but
    whose application protocol has no endpoint: the completion inside
    [close] closes the connection with VERSION_NEGOTIATION_ERROR, and the
    error given to [close] replaces it. *)
Lemma close_enters_closing_witness :
  handler (exec (close env_no_endpoint internal_error) server_in_handshake)
  = Handler.state_connection_closing /\
  _connection_error (exec (close env_no_endpoint internal_error) server_in_handshake)
  = Some internal_error /\
  _connection_error
    (exec (_complete_handshake_if_possible env_no_endpoint) server_in_handshake)
  = Some (QUICConnectionError_trans VERSION_NEGOTIATION_ERROR).
Proof.
  destruct (close_enters_closing env_no_endpoint internal_error server_in_handshake)
    as [H1 [H2 _]]; [discriminate | discriminate|].
  split; [exact H1|]. split; [exact H2|]. vm_compute. reflexivity.
Defined.

Lemma close_ends_closing_or_closed env e c :
  handler (exec (close env e) c) = Handler.state_connection_closing \/
  handler (exec (close env e) c) = Handler.state_connection_closed.
Proof.
  destruct (Handler.eqb (handler c) Handler.state_connection_closed) eqn:H1.
  { apply Handler_eqb_eq in H1. right. unfold exec.
    rewrite close_noop_when_closing_or_closed by (right; exact H1). exact H1. }
  destruct (Handler.eqb (handler c) Handler.state_connection_closing) eqn:H2.
  { apply Handler_eqb_eq in H2. left. unfold exec.
    rewrite close_noop_when_closing_or_closed by (left; exact H2). exact H2. }
  apply Handler_eqb_neq in H1, H2. left.
  apply (close_result env e c H1 H2).
Qed.

(** X2.  [close] is idempotent from every state: after one call, a second
    call, with whatever error, changes nothing. *)
Theorem close_idempotent (env : Env) (e1 e2 : QUICConnectionError)
  (c : QUICNetVConnection) :
  close env e2 (exec (close env e1) c) = (tt, exec (close env e1) c).
Proof.
  apply close_noop_when_closing_or_closed. apply close_ends_closing_or_closed.
Qed.

(** ** Members that the packetizer leaves alone

    [_packetize_frames] counts the STREAM loop's frames in
    [_stream_frames_sent] and logs its calls; it assigns to nothing else. *)
Section PacketizerUntouched.

Context {B : Type} (f : QUICNetVConnection -> B).

Hypothesis f_trace : forall t c, f (set_trace t c) = f c.
Hypothesis f_stream_frames_sent :
  forall v c, f (set_stream_frames_sent v c) = f c.

Lemma generate_untouched env g level credit size :
  keeps f (generate env g level credit size).
Proof. unfold generate. keeps_tac. Qed.

#[local] Hint Resolve generate_untouched : keeps.

Lemma generate_while_untouched env fuel g level st :
  keeps f (generate_while env fuel g level st).
Proof.
  revert st. induction fuel; intros st; cbn [generate_while]; keeps_tac.
Qed.

Lemma generate_once_untouched env g level st :
  keeps f (generate_once env g level st).
Proof. unfold generate_once. keeps_tac. Qed.

Lemma generate_streams_untouched env fuel level st :
  keeps f (generate_streams env fuel level st).
Proof.
  revert st. induction fuel; intros st; cbn [generate_streams]; keeps_tac.
Qed.

Lemma minimum_quic_packet_size_untouched env :
  keeps f (minimum_quic_packet_size env).
Proof. unfold minimum_quic_packet_size, _rnd. keeps_tac. Qed.

Lemma build_packet_untouched env level b n r p :
  keeps f (_build_packet env level b n r p).
Proof.
  unfold _build_packet, _build_packet_of_type, create_packet,
    largest_acked_packet_number.
  keeps_tac.
Qed.

#[local] Hint Resolve generate_while_untouched generate_once_untouched
  generate_streams_untouched minimum_quic_packet_size_untouched
  build_packet_untouched : keeps.

Lemma packetize_frames_untouched env fuel level size :
  keeps f (_packetize_frames env fuel level size).
Proof. unfold _packetize_frames, bind_fuel. keeps_tac. Qed.

End PacketizerUntouched.

(** ** Sending before the client's address is verified *)

Lemma packetizing_not_handshake_handed x :
  packetizing x = true -> is_handshake_packet_handed x = false.
Proof. destruct x; cbn; congruence. Qed.

Lemma send_levels_amplification env fuel levels len s c :
  unverified_server c ->
  0 <= _handshake_packets_sent c <= MAX_PACKETS_WITHOUT_SRC_ADDR_VARIDATION ->
  let c' := exec (send_levels env fuel levels len s) c in
  unverified_server c' /\
  _handshake_packets_sent c <= _handshake_packets_sent c'
    <= MAX_PACKETS_WITHOUT_SRC_ADDR_VARIDATION /\
  handshake_packets_handed c' - handshake_packets_handed c
  = _handshake_packets_sent c' - _handshake_packets_sent c.
Proof.
  cbv zeta. unfold handshake_packets_handed, MAX_PACKETS_WITHOUT_SRC_ADDR_VARIDATION.
  revert s c. induction levels as [|level rest IH]; intros s c U B.
  - cbn [send_levels ret exec snd]. split; [exact U|]. lia.
  - destruct U as [Uc Uv].
    cbn [send_levels]. unfold exec. mnorm. unfold _is_src_addr_verified. mnorm.
    rewrite Uc, Uv. cbn [context_eqb negb andb].
    unfold MAX_PACKETS_WITHOUT_SRC_ADDR_VARIDATION.
    destruct (3 <=? _handshake_packets_sent c) eqn:L.
    { cbn [ret snd]. split; [split; assumption|]. lia. }
    apply Z.leb_gt in L.
    unfold bind_fuel. mnorm.
    set (m := _packetize_frames env fuel level (u32 (len - written s))).
    pose proof (packetize_frames_adds env fuel level (u32 (len - written s)) c) as X.
    pose proof (extends_count _ _ _ _ packetizing_not_handshake_handed X) as Xh.
    pose proof (packetize_frames_untouched netvc_context
                  (fun _ _ => eq_refl) (fun _ _ => eq_refl)
                  env fuel level (u32 (len - written s)) c) as Kc.
    pose proof (packetize_frames_untouched _src_addr_verified
                  (fun _ _ => eq_refl) (fun _ _ => eq_refl)
                  env fuel level (u32 (len - written s)) c) as Kv.
    pose proof (packetize_frames_untouched _handshake_packets_sent
                  (fun _ _ => eq_refl) (fun _ _ => eq_refl)
                  env fuel level (u32 (len - written s)) c) as Kh.
    fold m in X, Xh, Kc, Kv, Kh. unfold exec in Xh, Kc, Kv, Kh.
    destruct (fst (m c)) as [[p|]|].
    + mnorm.
      set (hs := QUICPacketType.eqb (pkt_type p) QUICPacketType.INITIAL
                 || QUICPacketType.eqb (pkt_type p) QUICPacketType.HANDSHAKE).
      set (c1 := snd (when hs _ (snd (m c)))).
      assert (F1 : netvc_context c1 = NET_VCONNECTION_IN /\
                   _src_addr_verified c1 = false /\
                   trace c1 = trace (snd (m c)) /\
                   _handshake_packets_sent c1
                   = _handshake_packets_sent c + (if hs then 1 else 0)).
      { subst c1. destruct hs; cbn [when modify ret snd netvc_context
          _src_addr_verified trace _handshake_packets_sent
          set_handshake_packets_sent].
        - rewrite Kc, Kv. repeat split; auto.
          unfold u32. apply Z.mod_small. lia.
        - rewrite Kc, Kv, Kh. repeat split; auto. lia. }
      destruct F1 as [F1c [F1v [F1t F1h]]].
      cbn [call modify fst snd].
      set (c2 := set_trace (C_on_packet_sent (pn_space_index env level) p
                            :: trace c1) c1).
      set (s2 := {| written := u32 (written s + packet_store env p);
                    packet_count := u32 (packet_count s + 1);
                    error := error s; stored := stored s ++ [p] |}).
      assert (H2 : count is_handshake_packet_handed (trace c2)
                   = count is_handshake_packet_handed (trace c)
                     + (if hs then 1 else 0)).
      { subst c2. cbn [trace set_trace]. rewrite count_cons, F1t, Xh.
        reflexivity. }
      assert (B2 : 0 <= _handshake_packets_sent c2 <= 3).
      { subst c2. cbn [_handshake_packets_sent set_trace]. rewrite F1h.
        destruct hs; lia. }
      destruct (IH s2 c2) as [Ia [Ib Ic]]; [split; assumption | exact B2|].
      unfold exec in Ia, Ib, Ic.
      assert (E2 : _handshake_packets_sent c2 = _handshake_packets_sent c1)
        by reflexivity.
      split; [exact Ia|]. destruct hs; lia.
    + destruct (IH s (snd (m c))) as [Ia [Ib Ic]];
        [split; congruence | lia |].
      unfold exec in Ia, Ib, Ic.
      split; [exact Ia|]. lia.
    + cbn [ret snd]. split; [split; congruence|]. lia.
Qed.

Lemma send_datagrams_amplification env fuel turns n err c :
  unverified_server c ->
  0 <= _handshake_packets_sent c <= MAX_PACKETS_WITHOUT_SRC_ADDR_VARIDATION ->
  let c' := exec (send_datagrams env fuel turns n err) c in
  unverified_server c' /\
  _handshake_packets_sent c <= _handshake_packets_sent c'
    <= MAX_PACKETS_WITHOUT_SRC_ADDR_VARIDATION /\
  handshake_packets_handed c' - handshake_packets_handed c
  = _handshake_packets_sent c' - _handshake_packets_sent c.
Proof.
  cbv zeta. revert n err c.
  assert (R : forall c, unverified_server c ->
                0 <= _handshake_packets_sent c
                  <= MAX_PACKETS_WITHOUT_SRC_ADDR_VARIDATION ->
                unverified_server c /\
                _handshake_packets_sent c <= _handshake_packets_sent c
                  <= MAX_PACKETS_WITHOUT_SRC_ADDR_VARIDATION /\
                handshake_packets_handed c - handshake_packets_handed c
                = _handshake_packets_sent c - _handshake_packets_sent c)
    by (intros; split; [assumption | lia]).
  induction turns as [|turns IH]; intros n err c U B.
  all: cbn [send_datagrams].
  all: destruct ((err =? 0) && (n <? PACKET_PER_EVENT)); [|apply R; assumption].
  all: unfold exec; mnorm.
  all: destruct (cc_open_window env (trace c) =? 0); [apply R; assumption|].
  all: mnorm; unfold bind_fuel; mnorm.
  all: set (s0 := {| written := 0; packet_count := n; error := err;
                     stored := [] |}).
  all: set (len := Z.min (cc_open_window env (trace c)) (_pmtu c)).
  all: destruct (send_levels_amplification env fuel QUIC_ENCRYPTION_LEVELS len s0 c
                   U B) as [La [Lb Lc]].
  all: unfold exec in La, Lb, Lc.
  all: set (c1 := snd (send_levels env fuel QUIC_ENCRYPTION_LEVELS len s0 c)) in *.
  all: destruct (fst (send_levels env fuel QUIC_ENCRYPTION_LEVELS len s0 c))
         as [s1|]; [|cbn [ret snd]; split; [exact La | split; assumption]].
  all: destruct (negb (written s1 =? 0));
         [|cbn [ret snd]; split; [exact La | split; assumption]].
  all: mnorm; cbn [call modify fst snd].
  all: set (c2 := set_trace (C_send_packet (stored s1) :: trace c1) c1).
  all: assert (U2 : unverified_server c2) by exact La.
  all: assert (H2 : handshake_packets_handed c2 = handshake_packets_handed c1)
         by (unfold handshake_packets_handed; subst c2; cbn [trace set_trace];
             rewrite count_cons; cbn; lia).
  all: assert (E2 : _handshake_packets_sent c2 = _handshake_packets_sent c1)
         by reflexivity.
  - cbn [ret snd]. fold c2. split; [exact U2|]. lia.
  - destruct (IH (packet_count s1) (error s1) c2 U2) as [Ia [Ib Ic]]; [lia|].
    unfold exec in Ia, Ib, Ic. split; [exact Ia|]. lia.
Qed.

Lemma state_common_send_packet_amplification env fuel c :
  unverified_server c ->
  0 <= _handshake_packets_sent c <= MAX_PACKETS_WITHOUT_SRC_ADDR_VARIDATION ->
  let c' := exec (_state_common_send_packet env fuel) c in
  unverified_server c' /\
  _handshake_packets_sent c <= _handshake_packets_sent c'
    <= MAX_PACKETS_WITHOUT_SRC_ADDR_VARIDATION /\
  handshake_packets_handed c' - handshake_packets_handed c
  = _handshake_packets_sent c' - _handshake_packets_sent c.
Proof.
  intros U B. cbv zeta. unfold _state_common_send_packet, bind_fuel.
  rewrite exec_bind.
  destruct (send_datagrams_amplification env fuel (Z.to_nat PACKET_PER_EVENT) 0 0 c
              U B) as [Ha [Hb Hc]].
  set (c1 := exec (send_datagrams env fuel (Z.to_nat PACKET_PER_EVENT) 0 0) c) in *.
  destruct (eval (send_datagrams env fuel (Z.to_nat PACKET_PER_EVENT) 0 0) c)
    as [n|]; [|cbn [ret exec snd]; split; [exact Ha | split; assumption]].
  rewrite exec_bind.
  assert (K : let c2 := exec (when (negb (n =? 0))
                                (call (C_stat_packets_sent n);;
                                 call C_net_activity)) c1 in
              unverified_server c2 /\
              _handshake_packets_sent c2 = _handshake_packets_sent c1 /\
              handshake_packets_handed c2 = handshake_packets_handed c1).
  { cbv zeta. destruct (negb (n =? 0)); cbn [when];
      [|split; [exact Ha | split; reflexivity]].
    split; [exact Ha|]. split; [reflexivity|].
    unfold handshake_packets_handed, exec. rewrite bind_eq.
    cbn [call modify fst snd trace set_trace]. rewrite !count_cons. cbn. lia. }
  cbv zeta in K. destruct K as [Ka [Kb Kc]]. cbn [ret exec snd].
  fold (exec (when (negb (n =? 0))
                (call (C_stat_packets_sent n);; call C_net_activity)) c1).
  split; [exact Ka|]. lia.
Qed.

Lemma state_common_send_packet_blocked env fuel c :
  unverified_server c ->
  MAX_PACKETS_WITHOUT_SRC_ADDR_VARIDATION <= _handshake_packets_sent c ->
  _state_common_send_packet env fuel c = (Some None, c).
Proof.
  intros [Uc Uv] B. apply Z.leb_le in B.
  unfold _state_common_send_packet, bind_fuel. rewrite bind_eq.
  assert (E : send_datagrams env fuel (Z.to_nat PACKET_PER_EVENT) 0 0 c
              = (Some 0, c)).
  { change (Z.to_nat PACKET_PER_EVENT) with 32%nat. cbn [send_datagrams].
    change ((0 =? 0) && (0 <? PACKET_PER_EVENT)) with true. cbv iota.
    mnorm. destruct (cc_open_window env (trace c) =? 0); [reflexivity|].
    mnorm. unfold bind_fuel. mnorm.
    cbn [QUIC_ENCRYPTION_LEVELS send_levels]. mnorm.
    unfold _is_src_addr_verified. mnorm. rewrite Uc, Uv, B. reflexivity. }
  rewrite E. reflexivity.
Qed.

(** X3.  On a server that has not verified its client's address, one run
    of [_state_common_send_packet] leaves [_handshake_packets_sent] at or
    below [MAX_PACKETS_WITHOUT_SRC_ADDR_VARIDATION] (3) if it was there
    before, and the counter goes up by exactly the number of Initial and
    Handshake packets handed to the loss detectors: no more than three such
    packets go out before the address is verified. *)
Theorem handshake_packets_before_validation (env : Env) (fuel : nat)
  (c : QUICNetVConnection) :
  unverified_server c ->
  0 <= _handshake_packets_sent c <= MAX_PACKETS_WITHOUT_SRC_ADDR_VARIDATION ->
  let c' := exec (_state_common_send_packet env fuel) c in
  unverified_server c' /\
  _handshake_packets_sent c <= _handshake_packets_sent c'
    <= MAX_PACKETS_WITHOUT_SRC_ADDR_VARIDATION /\
  handshake_packets_handed c' - handshake_packets_handed c
  = _handshake_packets_sent c' - _handshake_packets_sent c.
Proof. apply state_common_send_packet_amplification. Qed.

(** X3 on a server with a handshake flight to send: three Initial packets
    go out, in three datagrams, and the run stops there. *)
Lemma handshake_packets_before_validation_witness :
  _handshake_packets_sent
    (exec (_state_common_send_packet env_handshake_flight 5) server_unverified)
  <= 3 /\
  handshake_packets_handed
    (exec (_state_common_send_packet env_handshake_flight 5) server_unverified)
  = 3 /\
  datagrams
    (exec (_state_common_send_packet env_handshake_flight 5) server_unverified)
  = 3.
Proof.
  assert (U : unverified_server server_unverified) by (split; reflexivity).
  assert (B : 0 <= _handshake_packets_sent server_unverified
              <= MAX_PACKETS_WITHOUT_SRC_ADDR_VARIDATION)
    by (vm_compute; split; discriminate).
  destruct (handshake_packets_before_validation env_handshake_flight 5
              server_unverified U B) as [_ [H _]].
  split; [apply H|]. split; vm_compute; reflexivity.
Defined.

(** X4.  Once such a server has counted
    [MAX_PACKETS_WITHOUT_SRC_ADDR_VARIDATION] handshake packets,
    [_state_common_send_packet] does nothing at all: no frame generator is
    asked, no packet of any type is built, nothing is sent, and no error is
    returned. *)
Theorem no_packets_beyond_validation_limit (env : Env) (fuel : nat)
  (c : QUICNetVConnection) :
  unverified_server c ->
  MAX_PACKETS_WITHOUT_SRC_ADDR_VARIDATION <= _handshake_packets_sent c ->
  _state_common_send_packet env fuel c = (Some None, c).
Proof. apply state_common_send_packet_blocked. Qed.

(** X4 after the flight of X3, in an environment with bulk data to send. *)
Lemma no_packets_beyond_validation_limit_witness :
  _state_common_send_packet env_bulk 5
    (set_handshake_packets_sent 3 server_unverified)
  = (Some None, set_handshake_packets_sent 3 server_unverified).
Proof.
  apply no_packets_beyond_validation_limit.
  - split; reflexivity.
  - vm_compute. discriminate.
Defined.

(** ** The packet that the packetizer builds *)

(** What [_build_packet] puts into a packet. *)
Lemma build_packet_fields env level b n r pr c p :
  eval (_build_packet env level b n r pr) c = Some p ->
  pkt_type p = packet_type level /\
  payload p = b /\ payload_length p = n /\
  is_retransmittable p = r /\ is_probing_packet p = pr /\
  destination_cid p
  = (if QUICEncryptionLevel.eqb level QUICEncryptionLevel.INITIAL
        && context_eqb (netvc_context c) NET_VCONNECTION_OUT
     then _original_quic_connection_id c else _peer_quic_connection_id c) /\
  source_cid p
  = (if QUICEncryptionLevel.eqb level QUICEncryptionLevel.ONE_RTT
     then QUICConnectionId_ZERO else _quic_connection_id c).
Proof.
  unfold _build_packet, _build_packet_of_type, create_packet,
    largest_acked_packet_number, eval.
  destruct level; cbn [packet_type QUICEncryptionLevel.eqb andb]; mnorm;
    try discriminate.
  all: destruct (pf_create_packet env (trace c) _) as [pn|];
    cbn [ret call modify bind fst snd]; try discriminate.
  all: intros E; injection E as <-; cbn.
  all: repeat split; try reflexivity.
Qed.

Section PacketizerInvariant.

Variable env : Env.
Variable S : QUICNetVConnection -> Prop.
Variable Inv : Packetizing -> Prop.

Hypothesis S_trace : forall t c, S c -> S (set_trace t c).
Hypothesis S_stream_frames_sent :
  forall v c, S c -> S (set_stream_frames_sent v c).
Hypothesis Inv_add_frame : forall st f, Inv st -> Inv (add_frame env st f).

Lemma generate_carries g level credit size c :
  S c -> S (exec (generate env g level credit size) c).
Proof. intros H. unfold generate, exec. mnorm. apply S_trace. exact H. Qed.

Lemma generate_while_carries fuel g level st c :
  S c -> Inv st ->
  S (exec (generate_while env fuel g level st) c) /\
  match eval (generate_while env fuel g level st) c with
  | Some st' => Inv st'
  | None => True
  end.
Proof.
  revert st c. induction fuel as [|fuel IH]; intros st c Hs Hi.
  all: cbn [generate_while]; rewrite eval_bind, exec_bind.
  all: pose proof (generate_carries g level UINT16_MAX (max_frame_size (frames st))
                     c Hs) as H1.
  all: destruct (eval (generate env g level UINT16_MAX (max_frame_size (frames st)))
                   c) as [f|]; [|split; assumption].
  - split; [exact H1 | exact I].
  - apply IH; [exact H1 | apply Inv_add_frame; exact Hi].
Qed.

Lemma generate_once_carries g level st c :
  S c -> Inv st ->
  S (exec (generate_once env g level st) c) /\
  Inv (eval (generate_once env g level st) c).
Proof.
  intros Hs Hi. unfold generate_once. rewrite eval_bind, exec_bind.
  pose proof (generate_carries g level UINT16_MAX (max_frame_size (frames st))
                c Hs) as H1.
  destruct (eval (generate env g level UINT16_MAX (max_frame_size (frames st))) c);
    (split; [exact H1|]); [apply Inv_add_frame|]; exact Hi.
Qed.

Lemma generate_streams_carries fuel level st c :
  S c -> Inv st ->
  S (exec (generate_streams env fuel level st) c) /\
  match eval (generate_streams env fuel level st) c with
  | Some st' => Inv st'
  | None => True
  end.
Proof.
  revert st c. induction fuel as [|fuel IH]; intros st c Hs Hi.
  all: cbn [generate_streams]; rewrite eval_bind, exec_bind.
  all: cbn [ask eval exec fst snd]; rewrite eval_bind, exec_bind.
  all: pose proof (generate_carries GEN_stream_manager level
                     (rfc_credit env (trace c)) (max_frame_size (frames st))
                     c Hs) as H1.
  all: set (c1 := exec (generate env GEN_stream_manager level
                          (rfc_credit env (trace c)) (max_frame_size (frames st)))
                    c) in *.
  all: destruct (eval (generate env GEN_stream_manager level
                         (rfc_credit env (trace c)) (max_frame_size (frames st))) c)
         as [f|]; [|split; assumption].
  all: rewrite eval_bind, exec_bind.
  all: set (c2 := exec (when (QUICFrameType.eqb (frame_type f) QUICFrameType.STREAM)
                          (offset <- ask env sm_total_offset_sent;;
                           call (C_rfc_update offset))) c1).
  all: assert (H2 : S c2)
         by (subst c2; destruct (QUICFrameType.eqb _ _); cbn [when];
             [unfold exec; mnorm; apply S_trace; exact H1 | exact H1]).
  all: rewrite eval_bind, exec_bind; cbn [gets eval exec fst snd].
  all: rewrite eval_bind, exec_bind; cbn [modify eval exec fst snd].
  all: set (c3 := set_stream_frames_sent (u32 (_stream_frames_sent c2 + 1)) c2).
  all: assert (H3 : S c3) by (apply S_stream_frames_sent; exact H2).
  all: destruct (u32 (_stream_frames_sent c2 + 1) mod MAX_CONSECUTIVE_STREAMS =? 0);
         [split; [exact H3 | apply Inv_add_frame; exact Hi]|].
  - split; [exact H3 | exact I].
  - apply IH; [exact H3 | apply Inv_add_frame; exact Hi].
Qed.

(** The generators of [_packetize_frames] keep [S] and [Inv]: a packet that
    is returned comes out of [packetize_finish], run on buffers that satisfy
    [Inv] and a connection that satisfies [S]. *)
Lemma packetize_frames_finish fuel level size c p :
  S c -> Inv (packetize_start size (_maximum_stream_frame_data_size c)) ->
  eval (_packetize_frames env fuel level size) c = Some (Some p) ->
  exists st c1,
    S c1 /\ Inv st /\
    eval (packetize_finish env level size st) c1 = Some (Some p).
Proof.
  intros Hs Hi. unfold _packetize_frames.
  destruct (size <=? MAX_PACKET_OVERHEAD); [discriminate|].
  rewrite eval_bind. cbn [gets eval exec fst snd].
  fold (packetize_start size (_maximum_stream_frame_data_size c)).
  set (st0 := packetize_start size (_maximum_stream_frame_data_size c)) in *.
  unfold bind_fuel at 1. rewrite eval_bind.
  destruct (generate_while_carries fuel GEN_handshake_handler level st0 c Hs Hi)
    as [Hs1 Hi1].
  set (c1 := exec (generate_while env fuel GEN_handshake_handler level st0) c) in *.
  destruct (eval (generate_while env fuel GEN_handshake_handler level st0) c)
    as [st1|]; [|discriminate].
  rewrite eval_bind.
  destruct (generate_once_carries GEN_path_validator level st1 c1 Hs1 Hi1)
    as [Hs2 Hi2].
  set (c2 := exec (generate_once env GEN_path_validator level st1) c1) in *.
  set (st2 := eval (generate_once env GEN_path_validator level st1) c1) in *.
  rewrite eval_bind. cbn [gets eval exec fst snd].
  unfold bind_fuel at 1. rewrite eval_bind.
  set (m3 := if _alt_con_manager c2
             then generate_while env fuel GEN_alt_con_manager level st2
             else ret (Some st2)).
  assert (H3 : S (exec m3 c2) /\
               match eval m3 c2 with Some st' => Inv st' | None => True end).
  { subst m3. destruct (_alt_con_manager c2);
      [apply generate_while_carries; assumption | split; assumption]. }
  destruct H3 as [Hs3 Hi3].
  set (c3 := exec m3 c2) in *.
  destruct (eval m3 c2) as [st3|]; [|discriminate].
  unfold bind_fuel at 1. rewrite eval_bind.
  destruct (generate_while_carries fuel GEN_packet_retransmitter level st3 c3
              Hs3 Hi3) as [Hs4 Hi4].
  set (c4 := exec (generate_while env fuel GEN_packet_retransmitter level st3) c3)
    in *.
  destruct (eval (generate_while env fuel GEN_packet_retransmitter level st3) c3)
    as [st4|]; [|discriminate].
  rewrite eval_bind.
  destruct (generate_once_carries GEN_local_flow_controller level st4 c4 Hs4 Hi4)
    as [Hs5 Hi5].
  set (c5 := exec (generate_once env GEN_local_flow_controller level st4) c4) in *.
  set (st5 := eval (generate_once env GEN_local_flow_controller level st4) c4) in *.
  rewrite eval_bind. cbn [ask eval exec fst snd].
  rewrite eval_bind. cbn [ask eval exec fst snd].
  rewrite eval_bind.
  set (m6 := if (rfc_credit env (trace c5) =? 0)
                && sm_will_generate_frame env (trace c5) level
             then generate_once env GEN_remote_flow_controller level st5
             else ret st5).
  assert (H6 : S (exec m6 c5) /\ Inv (eval m6 c5)).
  { subst m6. destruct (_ && _);
      [apply generate_once_carries; assumption | split; assumption]. }
  destruct H6 as [Hs6 Hi6].
  set (c6 := exec m6 c5) in *. set (st6 := eval m6 c5) in *.
  rewrite eval_bind. cbn [ask eval exec fst snd].
  unfold bind_fuel at 1. rewrite eval_bind.
  set (m7 := if negb (pv_is_validating env (trace c6))
             then generate_streams env fuel level st6
             else ret (Some st6)).
  assert (H7 : S (exec m7 c6) /\
               match eval m7 c6 with Some st' => Inv st' | None => True end).
  { subst m7. destruct (negb _);
      [apply generate_streams_carries; assumption | split; assumption]. }
  destruct H7 as [Hs7 Hi7].
  set (c7 := exec m7 c6) in *.
  destruct (eval m7 c6) as [st7|]; [|discriminate].
  intros E. exists st7, c7. split; [exact Hs7|]. split; [exact Hi7|]. exact E.
Qed.

End PacketizerInvariant.

(** What [packetize_finish] puts into the packet it returns. *)
Lemma packetize_finish_packet env level size st c p :
  eval (packetize_finish env level size st) c = Some (Some p) ->
  exists frame : option QUICFrame,
    let st' := match frame with Some f => add_frame env st f | None => st end in
    let ack_only :=
      match frame with Some _ => frame_count st =? 0 | None => false end in
    let padded := QUICEncryptionLevel.eqb level QUICEncryptionLevel.INITIAL
                  && context_eqb (netvc_context c) NET_VCONNECTION_OUT in
    len (frames st') <> 0 /\
    pkt_type p = packet_type level /\
    payload p = buf (frames st') /\
    is_retransmittable p = negb ack_only /\
    is_probing_packet p = probing st' /\
    payload_length p
    = (if padded
       then Z.max (len (frames st')) (Z.min MINIMUM_INITIAL_PACKET_SIZE size)
       else len (frames st')) /\
    destination_cid p
    = (if padded then _original_quic_connection_id c
       else _peer_quic_connection_id c) /\
    source_cid p
    = (if QUICEncryptionLevel.eqb level QUICEncryptionLevel.ONE_RTT
       then QUICConnectionId_ZERO else _quic_connection_id c).
Proof.
  unfold packetize_finish. rewrite eval_bind. cbn [ask eval exec fst snd].
  rewrite eval_bind.
  set (m := if (frame_count st =? 0)
               && negb (ack_will_generate_frame env (trace c) level)
            then ret None
            else generate env GEN_ack_frame_creator level UINT16_MAX
                   (max_frame_size (frames st))).
  assert (K : forall B (f : QUICNetVConnection -> B),
            (forall t c0, f (set_trace t c0) = f c0) -> f (exec m c) = f c).
  { intros B f Hf. subst m. destruct (_ && _); [reflexivity|].
    apply (generate_untouched f Hf). }
  pose proof (K _ netvc_context (fun _ _ => eq_refl)) as Kc.
  pose proof (K _ _original_quic_connection_id (fun _ _ => eq_refl)) as Ko.
  pose proof (K _ _peer_quic_connection_id (fun _ _ => eq_refl)) as Kp.
  pose proof (K _ _quic_connection_id (fun _ _ => eq_refl)) as Kl.
  set (c1 := exec m c) in *. clearbody c1.
  intros E. exists (eval m c). cbv zeta in E |- *.
  set (st' := match eval m c with Some f => add_frame env st f | None => st end)
    in *.
  destruct (negb (len (frames st') =? 0)) eqn:L; [|discriminate E].
  apply negb_true_iff, Z.eqb_neq in L.
  rewrite eval_bind in E. cbn [gets eval exec fst snd] in E. rewrite Kc in E.
  rewrite eval_bind in E.
  set (pad := QUICEncryptionLevel.eqb level QUICEncryptionLevel.INITIAL
              && context_eqb (netvc_context c) NET_VCONNECTION_OUT) in *.
  set (m2 := if pad
             then (min_size <- minimum_quic_packet_size env;;
                   ret (if len (frames st') <? Z.min min_size size
                        then Z.min min_size size else len (frames st')))
             else ret (len (frames st'))) in *.
  assert (K2 : forall B (f : QUICNetVConnection -> B),
             (forall t c0, f (set_trace t c0) = f c0) -> f (exec m2 c1) = f c1).
  { intros B f Hf. subst m2. destruct pad; [|reflexivity].
    assert (H : keeps f (min_size <- minimum_quic_packet_size env;;
                         ret (if len (frames st') <? Z.min min_size size
                              then Z.min min_size size else len (frames st'))))
      by (unfold minimum_quic_packet_size, _rnd; keeps_tac).
    apply H. }
  assert (E2 : eval m2 c1
               = if pad
                 then Z.max (len (frames st')) (Z.min MINIMUM_INITIAL_PACKET_SIZE size)
                 else len (frames st')).
  { subst m2. destruct pad eqn:P; [|reflexivity].
    rewrite eval_bind. cbn [ret eval fst].
    rewrite minimum_quic_packet_size_eval.
    subst pad. apply andb_true_iff in P as [_ P]. rewrite Kc, P.
    destruct (Z.ltb_spec (len (frames st')) (Z.min MINIMUM_INITIAL_PACKET_SIZE size));
      lia. }
  rewrite E2 in E.
  pose proof (K2 _ netvc_context (fun _ _ => eq_refl)) as K2c.
  pose proof (K2 _ _original_quic_connection_id (fun _ _ => eq_refl)) as K2o.
  pose proof (K2 _ _peer_quic_connection_id (fun _ _ => eq_refl)) as K2p.
  pose proof (K2 _ _quic_connection_id (fun _ _ => eq_refl)) as K2l.
  set (c2 := exec m2 c1) in *. clearbody c2.
  rewrite eval_bind in E. cbn [ret eval fst] in E.
  destruct (eval (_build_packet env level _ _ _ _) c2) as [q|] eqn:Eb;
    [|discriminate E].
  injection E as <-.
  destruct (build_packet_fields env level _ _ _ _ c2 q Eb)
    as [F1 [F2 [F3 [F4 [F5 [F6 F7]]]]]].
  rewrite K2c, Kc, K2o, Ko, K2p, Kp in F6. rewrite K2l, Kl in F7.
  repeat split; assumption.
Qed.

Lemma counted_add_frame env st f : counted st -> counted (add_frame env st f).
Proof.
  intros [P [N E]]. unfold counted, add_frame, _store_frame.
  cbn [probing frame_count frames buf len]. repeat split.
  - rewrite existsb_app, P. cbn [existsb]. rewrite orb_false_r. reflexivity.
  - rewrite length_app, N. cbn [length]. lia.
  - intros H. apply app_eq_nil in H as [_ H]. discriminate H.
Qed.

Lemma packetize_frames_flags env fuel level size c p :
  eval (_packetize_frames env fuel level size) c = Some (Some p) ->
  pkt_type p = packet_type level /\
  payload p <> [] /\
  is_probing_packet p = existsb is_probing_frame (payload p) /\
  (is_retransmittable p = false -> exists f, payload p = [f]).
Proof.
  intros E.
  destruct (packetize_frames_finish env (fun _ => True) counted
              (fun _ _ _ => I) (fun _ _ _ => I) (counted_add_frame env)
              fuel level size c p I) as [st [c1 [_ [Hst E1]]]];
    [repeat split; cbn; congruence | exact E |].
  destruct (packetize_finish_packet env level size st c1 p E1)
    as [frame [L [T [B [R [Pr _]]]]]].
  set (st' := match frame with Some f => add_frame env st f | None => st end) in *.
  assert (Hst' : counted st').
  { subst st'. destruct frame; [apply counted_add_frame|]; exact Hst. }
  destruct Hst' as [P' [N' E']]. repeat split.
  - exact T.
  - rewrite B. intros H. apply L, E', H.
  - rewrite Pr, B. exact P'.
  - intros NR. rewrite NR in R. destruct frame as [f|]; [|discriminate R].
    exists f. rewrite B. subst st'. cbn [add_frame frames _store_frame buf].
    symmetry in R. apply negb_false_iff, Z.eqb_eq in R.
    destruct Hst as [_ [N _]]. rewrite R in N.
    destruct (buf (frames st)); [reflexivity | cbn [length] in N; lia].
Qed.

(** X5.  Every packet that [_packetize_frames] returns has the type of its
    encryption level and carries at least one frame; it is marked as a
    probing packet exactly when at least one of its frames is a probing
    frame; and a packet that is not retransmittable carries a single frame
    (the one of the ACK frame creator). *)
Theorem packetized_packet_flags (env : Env) (fuel : nat)
  (level : QUICEncryptionLevel.t) (size : Z) (c : QUICNetVConnection)
  (p : QUICPacket) :
  eval (_packetize_frames env fuel level size) c = Some (Some p) ->
  pkt_type p = packet_type level /\
  payload p <> [] /\
  is_probing_packet p = existsb is_probing_frame (payload p) /\
  (is_retransmittable p = false -> exists f, payload p = [f]).
Proof. apply packetize_frames_flags. Qed.

Lemma packetized_packet_flags_witness :
  exists p f,
    eval (_packetize_frames env_ack_due 5 QUICEncryptionLevel.ONE_RTT 1200)
      server_established = Some (Some p) /\
    is_retransmittable p = false /\ payload p = [f].
Proof.
  assert (E : exists p,
             eval (_packetize_frames env_ack_due 5 QUICEncryptionLevel.ONE_RTT 1200)
               server_established = Some (Some p) /\
             is_retransmittable p = false)
    by (eexists; split; vm_compute; reflexivity).
  destruct E as [p [E R]].
  destruct (packetized_packet_flags env_ack_due 5 QUICEncryptionLevel.ONE_RTT
              1200 server_established p E) as [_ [_ [_ H]]].
  destruct (H R) as [f F]. exists p, f. auto.
Defined.

Lemma client_initial_packet env fuel size c p :
  netvc_context c = NET_VCONNECTION_OUT ->
  eval (_packetize_frames env fuel QUICEncryptionLevel.INITIAL size) c
  = Some (Some p) ->
  pkt_type p = QUICPacketType.INITIAL /\
  destination_cid p = _original_quic_connection_id c /\
  source_cid p = _quic_connection_id c /\
  Z.min MINIMUM_INITIAL_PACKET_SIZE size <= payload_length p.
Proof.
  intros Hc E.
  destruct (packetize_frames_finish env
              (fun c' => netvc_context c' = NET_VCONNECTION_OUT /\
                         _original_quic_connection_id c'
                         = _original_quic_connection_id c /\
                         _quic_connection_id c' = _quic_connection_id c)
              (fun _ => True)
              (fun _ _ H => H) (fun _ _ H => H) (fun _ _ _ => I)
              fuel QUICEncryptionLevel.INITIAL size c p)
    as [st [c1 [[C1 [O1 Q1]] [_ E1]]]]; [auto | exact I | exact E |].
  destruct (packetize_finish_packet env _ size st c1 p E1)
    as [frame [_ [T [_ [_ [_ [Len [D Src]]]]]]]].
  rewrite C1 in Len, D. cbn in Len, D, Src.
  repeat split; [exact T | congruence | congruence | lia].
Qed.

(** X6.  On a client connection every Initial packet that
    [_packetize_frames] returns is addressed to the original connection id,
    carries the local connection id as its source, and is padded to
    1200 bytes or to [max_packet_size], whichever is smaller. *)
Theorem client_initial_packet_padded (env : Env) (fuel : nat) (size : Z)
  (c : QUICNetVConnection) (p : QUICPacket) :
  netvc_context c = NET_VCONNECTION_OUT ->
  eval (_packetize_frames env fuel QUICEncryptionLevel.INITIAL size) c
  = Some (Some p) ->
  pkt_type p = QUICPacketType.INITIAL /\
  destination_cid p = _original_quic_connection_id c /\
  source_cid p = _quic_connection_id c /\
  Z.min MINIMUM_INITIAL_PACKET_SIZE size <= payload_length p.
Proof. apply client_initial_packet. Qed.

Lemma client_initial_packet_padded_witness :
  exists p,
    eval (_packetize_frames env_handshake_flight 5 QUICEncryptionLevel.INITIAL 1252)
      client_in_handshake = Some (Some p) /\
    length (payload p) = 2%nat /\
    MINIMUM_INITIAL_PACKET_SIZE <= payload_length p.
Proof.
  assert (E : exists p,
             eval (_packetize_frames env_handshake_flight 5
                     QUICEncryptionLevel.INITIAL 1252)
               client_in_handshake = Some (Some p) /\
             length (payload p) = 2%nat)
    by (eexists; split; vm_compute; reflexivity).
  destruct E as [p [E L]].
  destruct (client_initial_packet_padded env_handshake_flight 5 1252
              client_in_handshake p eq_refl E) as [_ [_ [_ H]]].
  exists p. repeat split; [exact E | exact L | exact H].
Defined.

Lemma within_add_frame env budget st f :
  (forall f room, 0 <= room -> 0 <= frame_store env f room <= room) ->
  budget < 2 ^ 64 -> within budget st -> within budget (add_frame env st f).
Proof.
  intros Hs Hb [L [M B]]. unfold within, add_frame, _store_frame.
  cbn [frames len max_frame_size].
  pose proof (Hs f (max_frame_size (frames st)) M) as Hl.
  unfold u64. rewrite !Z.mod_small by lia. lia.
Qed.

Lemma packetize_frames_budget env fuel level size c p :
  (forall f room, 0 <= room -> 0 <= frame_store env f room <= room) ->
  0 <= size < 2 ^ 64 ->
  eval (_packetize_frames env fuel level size) c = Some (Some p) ->
  payload_length p <= size /\
  (level <> QUICEncryptionLevel.INITIAL \/
   netvc_context c <> NET_VCONNECTION_OUT ->
   payload_length p <= size - MAX_PACKET_OVERHEAD /\
   payload_length p <= _maximum_stream_frame_data_size c).
Proof.
  intros Hs Hsz E.
  assert (Big : MAX_PACKET_OVERHEAD < size).
  { unfold _packetize_frames in E.
    destruct (Z.leb_spec size MAX_PACKET_OVERHEAD); [discriminate E | lia]. }
  assert (Lim : 0 <= _maximum_stream_frame_data_size c).
  { unfold _maximum_stream_frame_data_size, u32. apply Z.mod_pos_bound. lia. }
  set (budget := Z.min (size - MAX_PACKET_OVERHEAD)
                       (_maximum_stream_frame_data_size c)).
  destruct (packetize_frames_finish env
              (fun c' => netvc_context c' = netvc_context c)
              (within budget)
              (fun _ _ H => H) (fun _ _ H => H)
              (fun st f => within_add_frame env budget st f Hs
                             ltac:(unfold budget, MAX_PACKET_OVERHEAD in *; lia))
              fuel level size c p)
    as [st [c1 [C1 [W E1]]]]; [reflexivity | | exact E |].
  { unfold within, packetize_start, budget, u64. cbn [frames len max_frame_size].
    rewrite Z.mod_small by (unfold MAX_PACKET_OVERHEAD in *; lia). lia. }
  destruct (packetize_finish_packet env level size st c1 p E1)
    as [frame [_ [_ [_ [_ [_ [Len _]]]]]]].
  set (st' := match frame with Some f => add_frame env st f | None => st end) in *.
  assert (W' : within budget st').
  { subst st'. destruct frame; [apply within_add_frame|]; auto.
    unfold budget, MAX_PACKET_OVERHEAD in *; lia. }
  destruct W' as [L [M B]]. rewrite C1 in Len.
  unfold budget, MAX_PACKET_OVERHEAD, MINIMUM_INITIAL_PACKET_SIZE in *.
  split.
  - rewrite Len. destruct (_ && _); lia.
  - intros H. rewrite Len.
    destruct level, (netvc_context c); cbn [QUICEncryptionLevel.eqb context_eqb andb];
      try lia; destruct H as [H|H]; congruence.
Qed.

(** X7.  When no frame stores more bytes than the room it is given, the
    payload of a packet that [_packetize_frames] returns is at most
    [max_packet_size] long; unless it is a client's Initial packet, which is
    padded, the payload is at most [max_packet_size - MAX_PACKET_OVERHEAD]
    and at most [_maximum_stream_frame_data_size()] long. *)
Theorem packetized_payload_within_budget (env : Env) (fuel : nat)
  (level : QUICEncryptionLevel.t) (size : Z) (c : QUICNetVConnection)
  (p : QUICPacket) :
  (forall f room, 0 <= room -> 0 <= frame_store env f room <= room) ->
  0 <= size < 2 ^ 64 ->
  eval (_packetize_frames env fuel level size) c = Some (Some p) ->
  payload_length p <= size /\
  (level <> QUICEncryptionLevel.INITIAL \/
   netvc_context c <> NET_VCONNECTION_OUT ->
   payload_length p <= size - MAX_PACKET_OVERHEAD /\
   payload_length p <= _maximum_stream_frame_data_size c).
Proof. apply packetize_frames_budget. Qed.

Lemma packetized_payload_within_budget_witness :
  exists p,
    eval (_packetize_frames env_fitting_frames 5 QUICEncryptionLevel.INITIAL 1252)
      server_unverified = Some (Some p) /\
    payload_length p <= 1252 - MAX_PACKET_OVERHEAD.
Proof.
  assert (S : forall f room, 0 <= room ->
                0 <= frame_store env_fitting_frames f room <= room).
  { intros f room H. cbn [frame_store env_fitting_frames].
    destruct (QUICFrameType.eqb _ _); lia. }
  assert (E : exists p,
             eval (_packetize_frames env_fitting_frames 5
                     QUICEncryptionLevel.INITIAL 1252)
               server_unverified = Some (Some p))
    by (eexists; vm_compute; reflexivity).
  destruct E as [p E].
  destruct (packetized_payload_within_budget env_fitting_frames 5
              QUICEncryptionLevel.INITIAL 1252 server_unverified p S
              ltac:(lia) E) as [_ H].
  exists p. split; [exact E|]. apply H. right. discriminate.
Defined.

(** ** How often the stream manager is asked for a frame *)

Lemma others_leave_streams {A} (m : M A) :
  adds packetizing_others m -> keeps _stream_frames_sent m -> leaves_streams m.
Proof.
  intros Ha Hk c. split; [|apply Hk].
  unfold stream_generations.
  apply (extends_count is_stream_generation packetizing_others c (exec m c));
    [|apply Ha].
  intros x. destruct x; cbn; try congruence.
  match goal with |- context [match ?g with _ => _ end] => destruct g end;
    congruence.
Qed.

Lemma generate_leaves_streams env g level credit size :
  g <> GEN_stream_manager ->
  leaves_streams (generate env g level credit size).
Proof.
  intros Hg. apply others_leave_streams.
  - unfold generate. apply adds_bind; [apply adds_ask|]. intros frame.
    apply adds_bind; [|intros; apply adds_ret].
    apply adds_call. destruct g; [reflexivity .. | congruence | reflexivity].
  - unfold generate. keeps_tac.
Qed.

Lemma leaves_streams_ret {A} (a : A) : leaves_streams (ret a).
Proof. intros c. split; reflexivity. Qed.

Lemma leaves_streams_bind {A B} (m : M A) (k : A -> M B) :
  leaves_streams m -> (forall a, leaves_streams (k a)) ->
  leaves_streams (bind m k).
Proof.
  intros Hm Hk c. rewrite exec_bind.
  destruct (Hk (eval m c) (exec m c)) as [E1 E2].
  destruct (Hm c) as [E3 E4]. split; congruence.
Qed.

Lemma generate_while_leaves_streams env fuel g level st :
  g <> GEN_stream_manager ->
  leaves_streams (generate_while env fuel g level st).
Proof.
  intros Hg. revert st. induction fuel; intros st; cbn [generate_while];
    (apply leaves_streams_bind; [apply generate_leaves_streams, Hg|]);
    intros [f|]; try apply leaves_streams_ret. apply IHfuel.
Qed.

Lemma generate_once_leaves_streams env g level st :
  g <> GEN_stream_manager ->
  leaves_streams (generate_once env g level st).
Proof.
  intros Hg. unfold generate_once.
  apply leaves_streams_bind; [apply generate_leaves_streams, Hg|].
  intros [f|]; apply leaves_streams_ret.
Qed.

Lemma packetize_finish_leaves_streams env level size st :
  leaves_streams (packetize_finish env level size st).
Proof.
  assert (G : forall credit room,
            adds packetizing_others
              (generate env GEN_ack_frame_creator level credit room)).
  { intros credit room. unfold generate. adds_tac. }
  apply others_leave_streams.
  - unfold packetize_finish, minimum_quic_packet_size, _rnd, _build_packet,
      _build_packet_of_type, create_packet, largest_acked_packet_number.
    adds_tac; apply G.
  - unfold packetize_finish.
    pose proof (generate_untouched _stream_frames_sent (fun _ _ => eq_refl) env).
    pose proof (minimum_quic_packet_size_untouched _stream_frames_sent
                  (fun _ _ => eq_refl) env).
    pose proof (build_packet_untouched _stream_frames_sent (fun _ _ => eq_refl) env).
    keeps_tac.
Qed.

Lemma stream_generations_call x c :
  stream_generations (exec (call x) c)
  = stream_generations c + (if is_stream_generation x then 1 else 0).
Proof.
  unfold stream_generations. destruct c. unfold exec, call, modify.
  cbn. apply count_cons.
Qed.

Lemma u32_mod_8 x : u32 x mod MAX_CONSECUTIVE_STREAMS = x mod MAX_CONSECUTIVE_STREAMS.
Proof.
  unfold u32, MAX_CONSECUTIVE_STREAMS.
  rewrite (Z.div_mod x (2 ^ 32)) at 2 by lia.
  replace (2 ^ 32 * (x / 2 ^ 32) + x mod 2 ^ 32)
    with (x mod 2 ^ 32 + (2 ^ 29 * (x / 2 ^ 32)) * 8) by lia.
  rewrite Z_mod_plus_full. reflexivity.
Qed.

(** The STREAM loop asks the stream manager until [_stream_frames_sent]
    reaches the next multiple of [MAX_CONSECUTIVE_STREAMS], at most. *)
Lemma generate_streams_asks env fuel level st c :
  stream_generations c
  <= stream_generations (exec (generate_streams env fuel level st) c)
  <= stream_generations c
     + (MAX_CONSECUTIVE_STREAMS
        - _stream_frames_sent c mod MAX_CONSECUTIVE_STREAMS).
Proof.
  revert st c. induction fuel; intros st c; cbn [generate_streams];
    rewrite exec_bind; cbn [ask eval exec fst snd];
    rewrite exec_bind;
    set (c1 := exec (generate env GEN_stream_manager level
                       (rfc_credit env (trace c)) (max_frame_size (frames st))) c).
  all: assert (G1 : stream_generations c1 = stream_generations c + 1)
         by (subst c1; unfold generate; rewrite exec_bind;
             cbn [ask eval exec fst snd]; rewrite exec_bind;
             cbn [ret exec snd]; apply stream_generations_call).
  all: assert (S1 : _stream_frames_sent c1 = _stream_frames_sent c)
         by (subst c1; apply (generate_untouched _stream_frames_sent
                                (fun _ _ => eq_refl))).
  all: pose proof (Z.mod_pos_bound (_stream_frames_sent c) MAX_CONSECUTIVE_STREAMS
                     ltac:(unfold MAX_CONSECUTIVE_STREAMS; lia)) as R.
  all: clearbody c1.
  all: destruct (eval _ c) as [f|];
    [|cbn [ret exec snd]; unfold MAX_CONSECUTIVE_STREAMS in *; lia].
  all: rewrite exec_bind.
  all: set (c2 := exec (when _ _) c1).
  all: assert (G2 : stream_generations c2 = stream_generations c1 /\
                    _stream_frames_sent c2 = _stream_frames_sent c1)
         by (subst c2; unfold when;
             destruct (QUICFrameType.eqb _ _); [|split; reflexivity];
             rewrite exec_bind; cbn [ask eval exec fst snd];
             split; [rewrite stream_generations_call; cbn; lia
                    | destruct c1; reflexivity]).
  all: destruct G2 as [G2 S2]; clearbody c2.
  all: rewrite exec_bind; cbn [gets eval exec fst snd].
  all: rewrite exec_bind; cbn [modify eval exec fst snd].
  all: set (c3 := set_stream_frames_sent (u32 (_stream_frames_sent c2 + 1)) c2).
  all: assert (G3 : stream_generations c3 = stream_generations c2)
         by (subst c3; destruct c2; reflexivity).
  all: assert (S3 : _stream_frames_sent c3 = u32 (_stream_frames_sent c2 + 1))
         by (subst c3; destruct c2; reflexivity).
  all: clearbody c3.
  all: destruct (Z.eqb_spec (u32 (_stream_frames_sent c2 + 1)
                             mod MAX_CONSECUTIVE_STREAMS) 0) as [Z0|Z0];
    [cbn [ret exec snd]; unfold MAX_CONSECUTIVE_STREAMS in *; lia|].
  - cbn [ret exec snd]. unfold MAX_CONSECUTIVE_STREAMS in *. lia.
  - specialize (IHfuel (add_frame env st f) c3).
    rewrite u32_mod_8 in Z0. rewrite S3, u32_mod_8, S2, S1 in IHfuel.
    rewrite S2, S1 in Z0.
    assert (M : (_stream_frames_sent c + 1) mod MAX_CONSECUTIVE_STREAMS
                = _stream_frames_sent c mod MAX_CONSECUTIVE_STREAMS + 1).
    { unfold MAX_CONSECUTIVE_STREAMS in *.
      rewrite Z.add_mod by lia.
      change (1 mod 8) with 1.
      destruct (Z.eq_dec (_stream_frames_sent c mod 8) 7) as [E|E].
      - exfalso. apply Z0. rewrite Z.add_mod by lia. rewrite E. reflexivity.
      - apply Z.mod_small. lia. }
    rewrite M in IHfuel. unfold MAX_CONSECUTIVE_STREAMS in *. lia.
Qed.

Lemma packetize_frames_stream_generations env fuel level size c :
  let c' := exec (_packetize_frames env fuel level size) c in
  stream_generations c <= stream_generations c'
  <= stream_generations c
     + (MAX_CONSECUTIVE_STREAMS
        - _stream_frames_sent c mod MAX_CONSECUTIVE_STREAMS) /\
  ((forall t, pv_is_validating env t = true) ->
   stream_generations c' = stream_generations c /\
   _stream_frames_sent c' = _stream_frames_sent c).
Proof.
  cbv zeta.
  pose proof (Z.mod_pos_bound (_stream_frames_sent c) MAX_CONSECUTIVE_STREAMS
                ltac:(unfold MAX_CONSECUTIVE_STREAMS; lia)) as R.
  pattern (exec (_packetize_frames env fuel level size) c).
  match goal with |- ?G _ => set (Goal := G) end.
  assert (Done : forall c1,
            stream_generations c1 = stream_generations c /\
            _stream_frames_sent c1 = _stream_frames_sent c -> Goal c1).
  { intros c1 [E1 E2]. subst Goal. cbv beta. unfold MAX_CONSECUTIVE_STREAMS in *.
    split; [lia | intros _; split; assumption]. }
  unfold _packetize_frames.
  destruct (size <=? MAX_PACKET_OVERHEAD); [apply Done; split; reflexivity|].
  rewrite exec_bind. cbn [gets eval exec fst snd].
  set (st0 := {| frames := _; frame_count := 0; probing := false |}).
  (* CRYPTO *)
  unfold bind_fuel at 1. rewrite exec_bind.
  pose proof (generate_while_leaves_streams env fuel GEN_handshake_handler level
                st0 ltac:(discriminate) c) as H1.
  set (c1 := exec (generate_while env fuel GEN_handshake_handler level st0) c) in *.
  clearbody c1.
  destruct (eval (generate_while env fuel GEN_handshake_handler level st0) c)
    as [st1|]; [|apply Done, H1].
  (* PATH_CHALLENGE, PATH_RESPONSE *)
  rewrite exec_bind.
  pose proof (generate_once_leaves_streams env GEN_path_validator level st1
                ltac:(discriminate) c1) as H2.
  set (st2 := eval (generate_once env GEN_path_validator level st1) c1).
  set (c2 := exec (generate_once env GEN_path_validator level st1) c1) in *.
  clearbody c2 st2.
  (* NEW_CONNECTION_ID *)
  rewrite exec_bind. cbn [gets eval exec fst snd].
  unfold bind_fuel at 1. rewrite exec_bind.
  set (m3 := if _alt_con_manager c2
             then generate_while env fuel GEN_alt_con_manager level st2
             else ret (Some st2)).
  assert (H3 : leaves_streams m3).
  { subst m3. destruct (_alt_con_manager c2);
      [apply generate_while_leaves_streams; discriminate
      | apply leaves_streams_ret]. }
  specialize (H3 c2). set (c3 := exec m3 c2) in *. clearbody c3.
  destruct (eval m3 c2) as [st3|];
    [|apply Done; cbn [ret exec snd]; destruct H1, H2, H3; split; congruence].
  (* Lost frames *)
  unfold bind_fuel at 1. rewrite exec_bind.
  pose proof (generate_while_leaves_streams env fuel GEN_packet_retransmitter level
                st3 ltac:(discriminate) c3) as H4.
  set (c4 := exec (generate_while env fuel GEN_packet_retransmitter level st3) c3)
    in *.
  clearbody c4.
  destruct (eval (generate_while env fuel GEN_packet_retransmitter level st3) c3)
    as [st4|]; [|apply Done; cbn [ret exec snd]; destruct H1, H2, H3, H4; split; congruence].
  (* MAX_DATA *)
  rewrite exec_bind.
  pose proof (generate_once_leaves_streams env GEN_local_flow_controller level st4
                ltac:(discriminate) c4) as H5.
  set (st5 := eval (generate_once env GEN_local_flow_controller level st4) c4).
  set (c5 := exec (generate_once env GEN_local_flow_controller level st4) c4) in *.
  clearbody c5 st5.
  (* BLOCKED *)
  rewrite exec_bind. cbn [ask eval exec fst snd].
  rewrite exec_bind. cbn [ask eval exec fst snd].
  rewrite exec_bind.
  set (m6 := if (rfc_credit env (trace c5) =? 0)
                && sm_will_generate_frame env (trace c5) level
             then generate_once env GEN_remote_flow_controller level st5
             else ret st5).
  assert (H6 : leaves_streams m6).
  { subst m6. destruct (_ && _);
      [apply generate_once_leaves_streams; discriminate
      | apply leaves_streams_ret]. }
  specialize (H6 c5). set (c6 := exec m6 c5) in *. set (st6 := eval m6 c5).
  clearbody c6 st6.
  assert (E6 : stream_generations c6 = stream_generations c /\
               _stream_frames_sent c6 = _stream_frames_sent c)
    by (destruct H1, H2, H3, H4, H5, H6; split; congruence).
  clear H1 H2 H3 H4 H5 H6. destruct E6 as [G6 S6].
  (* STREAM, MAX_STREAM_DATA, STREAM_BLOCKED *)
  rewrite exec_bind. cbn [ask eval exec fst snd].
  unfold bind_fuel at 1. rewrite exec_bind.
  set (m7 := if negb (pv_is_validating env (trace c6))
             then generate_streams env fuel level st6
             else ret (Some st6)).
  assert (H7 : stream_generations c6 <= stream_generations (exec m7 c6)
               <= stream_generations c6
                  + (MAX_CONSECUTIVE_STREAMS
                     - _stream_frames_sent c6 mod MAX_CONSECUTIVE_STREAMS) /\
               (pv_is_validating env (trace c6) = true ->
                stream_generations (exec m7 c6) = stream_generations c6 /\
                _stream_frames_sent (exec m7 c6) = _stream_frames_sent c6)).
  { subst m7. destruct (pv_is_validating env (trace c6)); cbn [negb].
    - cbn [ret exec snd]. rewrite S6. unfold MAX_CONSECUTIVE_STREAMS in *.
      split; [lia | intros _; split; reflexivity].
    - split; [apply generate_streams_asks | discriminate]. }
  set (c7 := exec m7 c6) in *. clearbody c7.
  rewrite G6, S6 in H7. destruct H7 as [B7 V7].
  assert (Last : forall c8,
            stream_generations c8 = stream_generations c7 /\
            _stream_frames_sent c8 = _stream_frames_sent c7 -> Goal c8).
  { intros c8 [E1 E2]. subst Goal. cbv beta. rewrite E1. split; [exact B7|].
    intros V. destruct (V7 (V _)) as [E3 E4]. rewrite E2. split; assumption. }
  destruct (eval m7 c6) as [st7|]; [|apply Last; split; reflexivity].
  apply (Last _ (packetize_finish_leaves_streams env level size st7 c7)).
Qed.

(** X8.  One call of [_packetize_frames] asks the stream manager for a frame
    at most [MAX_CONSECUTIVE_STREAMS] times, however many frames it has: the
    STREAM loop is left when [_stream_frames_sent], which is counted across
    packets, reaches a multiple of [MAX_CONSECUTIVE_STREAMS]. *)
Theorem stream_manager_quota (env : Env) (fuel : nat)
  (level : QUICEncryptionLevel.t) (size : Z) (c : QUICNetVConnection) :
  let c' := exec (_packetize_frames env fuel level size) c in
  stream_generations c <= stream_generations c'
  <= stream_generations c
     + (MAX_CONSECUTIVE_STREAMS
        - _stream_frames_sent c mod MAX_CONSECUTIVE_STREAMS).
Proof. apply packetize_frames_stream_generations. Qed.

Lemma stream_manager_quota_witness :
  let c1 := exec (_packetize_frames env_small_streams 20
                    QUICEncryptionLevel.ONE_RTT 1200) server_established in
  let c2 := exec (_packetize_frames env_small_streams 20
                    QUICEncryptionLevel.ONE_RTT 1200)
              (set_stream_frames_sent 5 server_established) in
  stream_generations c1 = 8 /\ stream_generations c2 <= 3.
Proof.
  split; [vm_compute; reflexivity|].
  apply (stream_manager_quota env_small_streams 20 QUICEncryptionLevel.ONE_RTT 1200
           (set_stream_frames_sent 5 server_established)).
Defined.

(** X9.  While the path validator is validating a path, [_packetize_frames]
    does not ask the stream manager for frames, and [_stream_frames_sent]
    stays as it is. *)
Theorem no_stream_frames_while_validating (env : Env) (fuel : nat)
  (level : QUICEncryptionLevel.t) (size : Z) (c : QUICNetVConnection) :
  (forall t, pv_is_validating env t = true) ->
  let c' := exec (_packetize_frames env fuel level size) c in
  stream_generations c' = stream_generations c /\
  _stream_frames_sent c' = _stream_frames_sent c.
Proof. intros V. apply packetize_frames_stream_generations, V. Qed.

Lemma no_stream_frames_while_validating_witness :
  stream_generations
    (exec (_packetize_frames env_validating 20 QUICEncryptionLevel.ONE_RTT 1200)
       server_established) = 0 /\
  stream_generations
    (exec (_packetize_frames env_small_streams 20 QUICEncryptionLevel.ONE_RTT 1200)
       server_established) = 8.
Proof.
  split; [|vm_compute; reflexivity].
  apply (no_stream_frames_while_validating env_validating 20
           QUICEncryptionLevel.ONE_RTT 1200 server_established).
  reflexivity.
Defined.

(** ** The closing period

    Once the close packet is built, nothing that reaches the connection from
    outside changes it, and nothing else is sent. *)

Lemma settled_refl c : past_close c -> settled c c.
Proof. intros H. split; [exact H | split; reflexivity]. Qed.

Lemma settled_trans c1 c2 c3 : settled c1 c2 -> settled c2 c3 -> settled c1 c3.
Proof.
  intros [_ [E1 F1]] [P [E2 F2]]. split; [exact P|]. split; congruence.
Qed.

Lemma settles_ret {A} (a : A) : settles (ret a).
Proof. intros c H. apply settled_refl, H. Qed.

Lemma settles_bind {A B} (m : M A) (k : A -> M B) :
  settles m -> (forall a, settles (k a)) -> settles (bind m k).
Proof.
  intros Hm Hk c H. rewrite exec_bind.
  pose proof (Hm c H) as H1.
  eapply settled_trans; [exact H1|]. apply Hk. apply H1.
Qed.

Lemma settles_gets {A} (f : QUICNetVConnection -> A) : settles (gets f).
Proof. intros c H. apply settled_refl, H. Qed.

Lemma settles_ask env {A} (q : Env -> Trace -> A) : settles (ask env q).
Proof. intros c H. apply settled_refl, H. Qed.

Lemma settles_modify g :
  (forall c, past_close c -> settled c (g c)) -> settles (modify g).
Proof. intros H c. apply H. Qed.

Lemma settles_call x : settles (call x).
Proof. intros c H. destruct c. exact (settled_refl _ H). Qed.

Create HintDb settles discriminated.

Ltac settled_field :=
  let c := fresh "c" in
  let H := fresh "H" in
  intros c H; unfold settled, past_close, drained in *;
  destruct c; cbn in *; repeat split; auto.

Ltac settles_step :=
  lazymatch goal with
  | |- settles (bind _ _) => apply settles_bind; [ | intros ]
  | |- settles (ret _) => apply settles_ret
  | |- settles (gets _) => apply settles_gets
  | |- settles (ask _ _) => apply settles_ask
  | |- settles direction => apply settles_gets
  | |- settles (modify _) => apply settles_modify; settled_field
  | |- settles (call _) => apply settles_call
  | |- settles (when ?b _) => unfold when
  | |- settles (if ?b then _ else _) => destruct b
  | |- settles (match ?x with _ => _ end) => destruct x
  | |- settles _ => solve [eauto with settles]
  end.

Ltac settles_tac := repeat settles_step.

Lemma past_close_not_handshake c :
  past_close c -> handler c <> Handler.state_handshake.
Proof. intros [H | [H | H]]; rewrite H; discriminate. Qed.

Lemma complete_handshake_if_possible_settles env :
  settles (_complete_handshake_if_possible env).
Proof.
  intros c H. unfold exec, _complete_handshake_if_possible.
  rewrite complete_handshake_if_possible_rec_other_state
    by (apply past_close_not_handshake, H).
  apply settled_refl, H.
Qed.

#[export] Hint Resolve complete_handshake_if_possible_settles : settles.

Lemma schedule_packet_write_ready_settles delay :
  settles (_schedule_packet_write_ready delay).
Proof. unfold _schedule_packet_write_ready. settles_tac. Qed.

Lemma switch_to_draining_state_settles env e :
  settles (_switch_to_draining_state env e).
Proof.
  unfold _switch_to_draining_state, closing_period, _schedule_closing_timeout.
  settles_tac.
Qed.

Lemma switch_to_close_state_settles env : settles (_switch_to_close_state env).
Proof.
  unfold _switch_to_close_state, _unschedule_closing_timeout,
    _unschedule_path_validation_timeout, _schedule_closed_event.
  settles_tac.
Qed.

#[export] Hint Resolve schedule_packet_write_ready_settles
  switch_to_draining_state_settles switch_to_close_state_settles : settles.

Lemma handle_path_validation_timeout_settles env :
  settles (_handle_path_validation_timeout env).
Proof.
  unfold _handle_path_validation_timeout, _close_path_validation_timeout.
  settles_tac.
Qed.

Lemma handle_frame_settles env level f : settles (handle_frame env level f).
Proof. unfold handle_frame, _handle_frame. settles_tac. Qed.

#[export] Hint Resolve handle_path_validation_timeout_settles
  handle_frame_settles : settles.

Lemma dispatch_frames_settles env level fs :
  settles (dispatch_frames env level fs).
Proof. induction fs; cbn [dispatch_frames]; settles_tac. Qed.

#[export] Hint Resolve dispatch_frames_settles : settles.

Lemma recv_and_ack_settles env p : settles (_recv_and_ack env p).
Proof. unfold _recv_and_ack, receive_frames. settles_tac. Qed.

Lemma dequeue_recv_packet_settles : settles _dequeue_recv_packet.
Proof.
  unfold _dequeue_recv_packet, QUICPacketReceiveQueue_dequeue, _update_peer_cid.
  settles_tac.
Qed.

#[export] Hint Resolve recv_and_ack_settles dequeue_recv_packet_settles : settles.

Lemma state_closing_receive_packet_settles env :
  settles (_state_closing_receive_packet env).
Proof.
  assert (L : forall n, settles (_state_closing_receive_packet_loop env n)).
  { induction n; cbn [_state_closing_receive_packet_loop];
      unfold _state_closing_receive_packet_body; settles_tac. }
  unfold _state_closing_receive_packet. settles_tac.
Qed.

Lemma state_draining_receive_packet_settles env :
  settles (_state_draining_receive_packet env).
Proof.
  assert (L : forall n, settles (_state_draining_receive_packet_loop env n)).
  { induction n; cbn [_state_draining_receive_packet_loop];
      unfold _state_draining_receive_packet_body; settles_tac. }
  unfold _state_draining_receive_packet. settles_tac.
Qed.

Lemma shutdown_loss_detectors_settles l : settles (shutdown_loss_detectors l).
Proof. induction l; cbn [shutdown_loss_detectors]; settles_tac. Qed.

#[export] Hint Resolve state_closing_receive_packet_settles
  state_draining_receive_packet_settles shutdown_loss_detectors_settles
  : settles.

Lemma handle_received_packet_settles d : settles (handle_received_packet d).
Proof. unfold handle_received_packet. settles_tac. Qed.

Lemma state_connection_draining_settles env event :
  settles (state_connection_draining env event).
Proof.
  unfold state_connection_draining, _close_packet_write_ready,
    _close_closing_timeout.
  settles_tac.
Qed.

Lemma state_connection_closed_settles event :
  settles (state_connection_closed event).
Proof.
  unfold state_connection_closed, free, _unschedule_packet_write_ready,
    _unschedule_closing_timeout, _unschedule_path_validation_timeout,
    _close_closed_event, _close_packet_write_ready.
  settles_tac.
Qed.

Lemma state_connection_closing_settles env event :
  event <> QUIC_EVENT_PACKET_WRITE_READY ->
  settles (state_connection_closing env event).
Proof.
  intros H. unfold state_connection_closing, _close_closing_timeout.
  destruct event; try congruence; settles_tac.
Qed.

Lemma state_connection_closing_adds env event :
  event <> QUIC_EVENT_PACKET_WRITE_READY ->
  adds receiving (state_connection_closing env event).
Proof.
  intros H.
  pose proof (housekeeping_adds_receiving _ (handle_path_validation_timeout_adds env)).
  pose proof (housekeeping_adds_receiving _ (switch_to_close_state_adds env)).
  assert (W : forall delay, adds receiving (_schedule_packet_write_ready delay))
    by (intros; apply housekeeping_adds_receiving,
          schedule_packet_write_ready_adds).
  assert (L : forall n, adds receiving (_state_closing_receive_packet_loop env n)).
  { induction n; cbn [_state_closing_receive_packet_loop];
      unfold _state_closing_receive_packet_body; adds_tac. }
  unfold state_connection_closing, _state_closing_receive_packet.
  destruct event; try congruence; adds_tac.
Qed.

Lemma datagrams_sent_app l t :
  forallb receiving l = true -> datagrams_sent (l ++ t) = datagrams_sent t.
Proof.
  induction l as [|x l IH]; [reflexivity|]. cbn [forallb List.app].
  intros H. apply andb_true_iff in H as [Hx Hl].
  destruct x; cbn in Hx; try discriminate; cbn [datagrams_sent]; auto.
Qed.

Lemma extends_datagrams_sent c c' :
  extends receiving c c' ->
  datagrams_sent (trace c') = datagrams_sent (trace c).
Proof. intros [[l [E F]] _]. rewrite E. apply datagrams_sent_app, F. Qed.

Lemma settled_close_packet_built p c c' :
  close_packet_built p c -> settled c c' -> close_packet_built p c'.
Proof.
  intros [_ [F E]] [P [E' F']]. split; [exact P|]. split; congruence.
Qed.

Lemma write_event_dec (event : QUICEvent) :
  {event = QUIC_EVENT_PACKET_WRITE_READY} + {event <> QUIC_EVENT_PACKET_WRITE_READY}.
Proof. destruct event; try (right; discriminate). left. reflexivity. Qed.

Lemma input_closing_period env p i c :
  close_packet_built p c -> from_outside i = true ->
  exists c',
    input env i c = Some c' /\ close_packet_built p c' /\
    datagrams_sent (trace c')
    = (if is_write_event i
          && Handler.eqb (handler c) Handler.state_connection_closing
       then [[p]] else []) ++ datagrams_sent (trace c).
Proof.
  intros B F. pose proof B as [P [Hf He]].
  assert (Q : forall {A} (m : M A),
            settles m -> adds receiving m ->
            close_packet_built p (exec m c) /\
            datagrams_sent (trace (exec m c)) = datagrams_sent (trace c)).
  { intros A m Hs Ha. split.
    - apply (settled_close_packet_built p c); [exact B | apply Hs, P].
    - apply extends_datagrams_sent, Ha. }
  destruct i as [d | event | e]; [| |discriminate]; cbn [input is_write_event andb].
  - eexists. split; [reflexivity|].
    apply Q; [apply handle_received_packet_settles
             | apply handle_received_packet_adds].
  - unfold handleEvent. destruct P as [P | [P | P]]; rewrite P.
    + destruct (write_event_dec event) as [-> | N].
      * eexists. split; [reflexivity|].
        destruct (closing_write env p c Hf He) as [W1 [W2 [W3 [_ [_ W6]]]]].
        split.
        -- split; [left; congruence | split; assumption].
        -- rewrite W6. reflexivity.
      * eexists. split; [reflexivity|].
        replace (match event with
                 | QUIC_EVENT_PACKET_WRITE_READY => true
                 | _ => false
                 end) with false by (destruct event; congruence).
        apply Q; [apply state_connection_closing_settles
                 | apply state_connection_closing_adds]; exact N.
    + eexists. split; [reflexivity|].
      rewrite andb_false_r.
      apply Q; [apply state_connection_draining_settles
               | apply state_connection_draining_adds].
    + eexists. split; [reflexivity|].
      rewrite andb_false_r.
      apply Q; [apply state_connection_closed_settles
               | apply housekeeping_adds_receiving,
                   state_connection_closed_adds].
Qed.

Lemma inputs_closing_period env p l c :
  close_packet_built p c -> forallb from_outside l = true ->
  exists c' n,
    inputs env l c = Some c' /\ close_packet_built p c' /\
    (n <= length (filter is_write_event l))%nat /\
    datagrams_sent (trace c') = repeat [p] n ++ datagrams_sent (trace c).
Proof.
  revert c. induction l as [|i l IH]; intros c B F; cbn [inputs].
  - exists c, O. split; [reflexivity|]. split; [exact B|].
    split; [cbn; lia | reflexivity].
  - cbn [forallb] in F. apply andb_true_iff in F as [Fi Fl].
    destruct (input_closing_period env p i c B Fi) as [c1 [E1 [B1 D1]]].
    rewrite E1.
    destruct (IH c1 B1 Fl) as [c2 [n [E2 [B2 [N2 D2]]]]].
    cbn [filter].
    destruct (is_write_event i) eqn:W; cbn [andb] in D1.
    + destruct (Handler.eqb (handler c) Handler.state_connection_closing).
      * exists c2, (n + 1)%nat. split; [exact E2|]. split; [exact B2|].
        split; [cbn [length]; lia|].
        rewrite D2, D1, repeat_app, <- app_assoc. reflexivity.
      * exists c2, n. split; [exact E2|]. split; [exact B2|].
        split; [cbn [length]; lia|]. rewrite D2, D1. reflexivity.
    + exists c2, n. split; [exact E2|]. split; [exact B2|].
      split; [exact N2|]. rewrite D2, D1. reflexivity.
Qed.

(** X10.  Once the close packet is built, whatever datagrams arrive and
    whatever events are delivered (with no call of [close] in between), every
    event is handled, the connection stays closing, draining or closed with the
    same close packet, and the only datagrams it sends are copies of that
    packet, at most one for each write event. *)
Theorem closing_period_sends_only_close_packet (env : Env) (p : QUICPacket)
  (l : list Input) (c : QUICNetVConnection) :
  close_packet_built p c -> forallb from_outside l = true ->
  exists c' n,
    inputs env l c = Some c' /\ close_packet_built p c' /\
    (n <= length (filter is_write_event l))%nat /\
    datagrams_sent (trace c') = repeat [p] n ++ datagrams_sent (trace c).
Proof. apply inputs_closing_period. Qed.

Lemma closing_period_sends_only_close_packet_witness :
  exists c',
    inputs env_idle
      [Receive (Decodable packet_with_max_data);
       Deliver QUIC_EVENT_PACKET_READ_READY;
       Deliver QUIC_EVENT_PACKET_WRITE_READY;
       Deliver QUIC_EVENT_CLOSING_TIMEOUT;
       Deliver QUIC_EVENT_PACKET_WRITE_READY] server_closing = Some c' /\
    handler c' = Handler.state_connection_closed /\
    datagrams_sent (trace c') = [[server_close_packet]; [server_close_packet]].
Proof.
  assert (B : close_packet_built server_close_packet server_closing)
    by (split; [left; reflexivity | split; reflexivity]).
  destruct (closing_period_sends_only_close_packet env_idle server_close_packet
              [Receive (Decodable packet_with_max_data);
               Deliver QUIC_EVENT_PACKET_READ_READY;
               Deliver QUIC_EVENT_PACKET_WRITE_READY;
               Deliver QUIC_EVENT_CLOSING_TIMEOUT;
               Deliver QUIC_EVENT_PACKET_WRITE_READY] server_closing B eq_refl)
    as [c' [n [E _]]].
  exists c'. split; [exact E|].
  vm_compute in E. injection E as <-. split; reflexivity.
Defined.

Lemma state_closing_send_packet_first env e c :
  _connection_error c = Some e ->
  let frame :=
    create_close_frame
      (match cls e with
       | APPLICATION => QUICFrameType.APPLICATION_CLOSE
       | _ => QUICFrameType.CONNECTION_CLOSE
       end) e in
  let level := hsp_current_encryption_level env (trace c) in
  let c' := exec (state_connection_closing env QUIC_EVENT_PACKET_WRITE_READY) c in
  handler c' = handler c /\
  _connection_error c' = None /\
  _packet_write_ready c' = false /\
  match (if has_packet_type level
         then pf_create_packet env (trace c) (packet_type level)
         else None) with
  | Some number =>
      exists p,
        _the_final_packet c' = Some p /\
        pkt_type p = packet_type level /\
        packet_number p = number /\
        payload p = [frame] /\
        payload_length p = u64 (frame_store env frame (maximum_quic_packet_size c)) /\
        is_retransmittable p = false /\ is_probing_packet p = false /\
        trace c' = C_send_packet [p] :: C_create_packet p :: trace c
  | None => _the_final_packet c' = None /\ trace c' = trace c
  end.
Proof.
  destruct c as [h ctx fam mtu cid pcid ocid alt rq lrt hsh acm aps fcb sav hps
                 sfs err fin cnt wnd pwr cto pvt cev nhp tr].
  cbn [_connection_error]. intros ->. cbv zeta.
  unfold state_connection_closing, _close_packet_write_ready,
    _state_closing_send_packet, _packetize_closing_frame, _build_packet,
    _build_packet_of_type, create_packet, largest_acked_packet_number,
    _store_frame, has_packet_type.
  crun. cbn [buf len max_frame_size List.app].
  destruct (cls e), (hsp_current_encryption_level env tr);
    cbn [packet_type]; crun;
    try (repeat split; reflexivity).
  all: destruct (pf_create_packet env tr _); crun;
    (split; [reflexivity|]); (split; [reflexivity|]); (split; [reflexivity|]);
    [eexists; cbn [pkt_type packet_number payload payload_length
                   is_retransmittable is_probing_packet] |];
    repeat split; reflexivity.
Qed.

(** X11.  The first write event after [close(error)] builds the close packet
    from the error and sends it.  When the current encryption level has a
    packet type and the packet factory delivers a packet, that packet is
    created with a single APPLICATION_CLOSE frame for an application error
    and a single CONNECTION_CLOSE frame otherwise, neither retransmittable
    nor probing; it is kept as the final packet and sent in a datagram of its
    own, and these are the only two calls.  Otherwise there is no final
    packet and no call is made.  The error is handed over either way. *)
Theorem close_packet_from_error (env : Env) (e : QUICConnectionError)
  (c : QUICNetVConnection) :
  _connection_error c = Some e ->
  let frame :=
    create_close_frame
      (match cls e with
       | APPLICATION => QUICFrameType.APPLICATION_CLOSE
       | _ => QUICFrameType.CONNECTION_CLOSE
       end) e in
  let level := hsp_current_encryption_level env (trace c) in
  let c' := exec (state_connection_closing env QUIC_EVENT_PACKET_WRITE_READY) c in
  handler c' = handler c /\
  _connection_error c' = None /\
  _packet_write_ready c' = false /\
  match (if has_packet_type level
         then pf_create_packet env (trace c) (packet_type level)
         else None) with
  | Some number =>
      exists p,
        _the_final_packet c' = Some p /\
        pkt_type p = packet_type level /\
        packet_number p = number /\
        payload p = [frame] /\
        payload_length p = u64 (frame_store env frame (maximum_quic_packet_size c)) /\
        is_retransmittable p = false /\ is_probing_packet p = false /\
        trace c' = C_send_packet [p] :: C_create_packet p :: trace c
  | None => _the_final_packet c' = None /\ trace c' = trace c
  end.
Proof. apply state_closing_send_packet_first. Qed.

Lemma close_packet_from_error_witness :
  _the_final_packet
    (exec (state_connection_closing env_idle QUIC_EVENT_PACKET_WRITE_READY)
       (exec (close env_idle internal_error) server_established))
  = Some server_close_packet /\
  hd_error
    (trace
       (exec (state_connection_closing env_idle QUIC_EVENT_PACKET_WRITE_READY)
          (exec (close env_idle internal_error) server_established)))
  = Some (C_send_packet [server_close_packet]) /\
  _connection_error
    (exec (state_connection_closing env_idle QUIC_EVENT_PACKET_WRITE_READY)
       (exec (close env_idle internal_error) server_established))
  = None.
Proof.
  split; [vm_compute; reflexivity|]. split; [vm_compute; reflexivity|].
  apply (close_packet_from_error env_idle internal_error
           (exec (close env_idle internal_error) server_established)).
  vm_compute. reflexivity.
Defined.

(** ** The end of a connection *)

Lemma input_closed env i c :
  handler c = Handler.state_connection_closed ->
  exists c',
    input env i c = Some c' /\
    handler c' = Handler.state_connection_closed /\
    _connection_error c' = _connection_error c /\
    _the_final_packet c' = _the_final_packet c /\
    filter outbound (trace c') = filter outbound (trace c).
Proof.
  intros H.
  assert (P : past_close c) by (right; right; exact H).
  assert (Q : forall {A} (m : M A),
            settles m -> keeps handler m -> adds receiving m ->
            handler (exec m c) = Handler.state_connection_closed /\
            _connection_error (exec m c) = _connection_error c /\
            _the_final_packet (exec m c) = _the_final_packet c /\
            filter outbound (trace (exec m c)) = filter outbound (trace c)).
  { intros A m Hs Hk Ha. destruct (Hs c P) as [_ [E F]].
    split; [rewrite Hk; exact H|]. split; [exact E|]. split; [exact F|].
    apply extends_filter with receiving; [apply receiving_not_outbound|].
    apply Ha. }
  destruct i as [d | event | e]; cbn [input].
  - eexists. split; [reflexivity|]. apply Q.
    + apply handle_received_packet_settles.
    + unfold handle_received_packet. keeps_tac.
    + apply handle_received_packet_adds.
  - unfold handleEvent. rewrite H. eexists. split; [reflexivity|]. apply Q.
    + apply state_connection_closed_settles.
    + intros c0. apply state_connection_closed_keeps_handler.
    + apply housekeeping_adds_receiving, state_connection_closed_adds.
  - unfold exec. rewrite close_noop_when_closing_or_closed by (right; exact H).
    eexists. split; [reflexivity|]. cbn [snd]. auto.
Qed.

(** X12.  The closed state is final: whatever datagrams arrive, whatever
    events are delivered and however often [close] is called, every event is
    handled, the connection stays closed with its error and close packet, and
    nothing is put on its way out. *)
Theorem closed_state_is_final (env : Env) (l : list Input)
  (c : QUICNetVConnection) :
  handler c = Handler.state_connection_closed ->
  exists c',
    inputs env l c = Some c' /\
    handler c' = Handler.state_connection_closed /\
    _connection_error c' = _connection_error c /\
    _the_final_packet c' = _the_final_packet c /\
    filter outbound (trace c') = filter outbound (trace c).
Proof.
  revert c. induction l as [|i l IH]; intros c H; cbn [inputs].
  - exists c. repeat split. exact H.
  - destruct (input_closed env i c H) as [c1 [E1 [H1 [A1 [B1 C1]]]]].
    rewrite E1. destruct (IH c1 H1) as [c2 [E2 [H2 [A2 [B2 C2]]]]].
    exists c2. repeat split; congruence.
Qed.

Lemma closed_state_is_final_witness :
  exists c',
    inputs env_idle
      [Close internal_error; Receive (Decodable packet_with_max_data);
       Deliver QUIC_EVENT_PACKET_READ_READY;
       Deliver QUIC_EVENT_PACKET_WRITE_READY]
      (set_handler Handler.state_connection_closed server_established)
    = Some c' /\
    handler c' = Handler.state_connection_closed /\
    _connection_error c' = None /\
    _packet_recv_queue c' = [Decodable packet_with_max_data].
Proof.
  destruct (closed_state_is_final env_idle
              [Close internal_error; Receive (Decodable packet_with_max_data);
               Deliver QUIC_EVENT_PACKET_READ_READY;
               Deliver QUIC_EVENT_PACKET_WRITE_READY]
              (set_handler Handler.state_connection_closed server_established)
              eq_refl) as [c' [E [H [A _]]]].
  exists c'. split; [exact E|]. split; [exact H|]. split; [exact A|].
  vm_compute in E. injection E as <-. reflexivity.
Defined.

Lemma complete_handshake_if_possible_other_state env c :
  handler c <> Handler.state_handshake ->
  _complete_handshake_if_possible env c = (0, c).
Proof. apply complete_handshake_if_possible_rec_other_state. Qed.

(** X13.  From the closing or the draining state, the closing timeout ends
    the connection in two steps.  The timeout puts it in the closed state
    and schedules the shutdown event (as its last call, unless one is held
    already).  The shutdown event then leaves no event of the connection's own
    pending, shuts every loss detector down and, as its last call, hands the
    connection back exactly once: to the net handler if there is one,
    otherwise through [free] to the packet handler.  Nothing is sent. *)
Theorem closing_timeout_then_shutdown (env : Env) (c : QUICNetVConnection) :
  handler c = Handler.state_connection_closing \/
  handler c = Handler.state_connection_draining ->
  exists c1 c',
    input env (Deliver QUIC_EVENT_CLOSING_TIMEOUT) c = Some c1 /\
    handler c1 = Handler.state_connection_closed /\
    _closed_event c1 = true /\
    (_closed_event c = false ->
     hd_error (trace c1) = Some (C_schedule_imm QUIC_EVENT_SHUTDOWN)) /\
    input env (Deliver QUIC_EVENT_SHUTDOWN) c1 = Some c' /\
    handler c' = Handler.state_connection_closed /\
    _packet_write_ready c' = false /\ _closing_timeout c' = false /\
    _path_validation_timeout c' = false /\ _closed_event c' = false /\
    (forall s, In s QUIC_PN_SPACES -> In (C_ld_shutdown s) (trace c')) /\
    hd_error (trace c')
    = Some (if nh c then C_free_netvc else C_close_connection) /\
    count is_handed_back (trace c') = count is_handed_back (trace c) + 1 /\
    datagrams_sent (trace c') = datagrams_sent (trace c).
Proof.
  intros H. cbn [input]. unfold handleEvent at 1.
  assert (E : match handler c with
              | Handler.state_connection_closing =>
                  Some (exec (state_connection_closing env QUIC_EVENT_CLOSING_TIMEOUT) c)
              | Handler.state_connection_draining =>
                  Some (exec (state_connection_draining env QUIC_EVENT_CLOSING_TIMEOUT) c)
              | Handler.state_connection_closed =>
                  Some (exec (state_connection_closed QUIC_EVENT_CLOSING_TIMEOUT) c)
              | _ => None
              end
              = Some (exec (_close_closing_timeout;; _switch_to_close_state env) c)).
  { destruct H as [-> | ->]; unfold state_connection_closing,
      state_connection_draining; rewrite exec_bind; reflexivity. }
  rewrite E. clear E.
  assert (N : handler c <> Handler.state_handshake)
    by (destruct H as [-> | ->]; discriminate).
  clear H.
  destruct c as [h ctx fam mtu cid pcid ocid alt rq lrt hsh acm aps fcb sav hps
                 sfs err fin cnt wnd pwr cto pvt cev nhp tr].
  cbn [handler] in N.
  unfold _close_closing_timeout, _switch_to_close_state,
    _unschedule_closing_timeout, _unschedule_path_validation_timeout,
    _schedule_closed_event.
  crun.
  destruct pvt; crun;
    (rewrite complete_handshake_if_possible_other_state by exact N);
    destruct cev; crun; unfold handleEvent; crun;
    unfold state_connection_closed, free, _unschedule_packet_write_ready,
      _unschedule_closing_timeout, _unschedule_path_validation_timeout,
      _close_closed_event; crun;
    destruct pwr; crun; cbn [shutdown_loss_detectors QUIC_PN_SPACES]; crun;
    destruct nhp; crun;
    eexists; eexists; (split; [reflexivity|]);
    cbn [handler _packet_write_ready _closing_timeout _path_validation_timeout
         _closed_event trace hd_error];
    (split; [reflexivity|]); (split; [reflexivity|]);
    (split; [intros; first [reflexivity | discriminate]|]);
    (split; [reflexivity|]);
    cbn [handler _packet_write_ready _closing_timeout _path_validation_timeout
         _closed_event trace hd_error];
    repeat split; try reflexivity.
  all: try (intros s Hs; unfold QUIC_PN_SPACES in Hs; cbn [In] in Hs;
            destruct Hs as [<- | [<- | [<- | []]]]; cbn [In]; auto 10).
  all: try (rewrite !count_cons; cbn [is_handed_back]; lia).
Qed.

Lemma closing_timeout_then_shutdown_witness :
  exists c1 c',
    input env_idle (Deliver QUIC_EVENT_CLOSING_TIMEOUT) server_closing = Some c1 /\
    hd_error (trace c1) = Some (C_schedule_imm QUIC_EVENT_SHUTDOWN) /\
    input env_idle (Deliver QUIC_EVENT_SHUTDOWN) c1 = Some c' /\
    _closing_timeout server_closing = true /\
    _closing_timeout c' = false /\
    hd_error (trace c') = Some C_free_netvc /\
    count is_handed_back (trace c') = 1.
Proof.
  destruct (closing_timeout_then_shutdown env_idle server_closing
              (or_introl eq_refl))
    as (c1 & c' & E1 & _ & _ & S & E2 & _ & _ & T & _ & _ & _ & F & K & _).
  exists c1, c'. split; [exact E1|]. split; [exact (S eq_refl)|].
  split; [exact E2|]. split; [reflexivity|]. split; [exact T|].
  split; [exact F | exact K].
Defined.

(** ** The handshake and the established state *)

Lemma bind'_returns {A B} (m : M' A) (k : A -> M' B) e a e1 :
  m e = Returns a e1 -> bind' m k e = k a e1.
Proof. intros H. unfold bind'. rewrite H. reflexivity. Qed.

Lemma bind'_crashes {A B} (m : M' A) (k : A -> M' B) e :
  m e = Crashes -> bind' m k e = Crashes.
Proof. intros H. unfold bind'. rewrite H. reflexivity. Qed.

Lemma lift_returns env {A} (m : Env -> M A) e :
  lift env m e
  = Returns (eval (m (env_of env (log e))) (vc e))
      (set_vc (exec (m (env_of env (log e))) (vc e)) e).
Proof. reflexivity. Qed.

(** On a server whose handshake is completed and whose application protocol
    has no endpoint, [_complete_handshake_if_possible] returns 0 with the
    connection closing. *)
Lemma complete_handshake_if_possible_no_endpoint env c :
  handler c = Handler.state_handshake ->
  netvc_context c = NET_VCONNECTION_IN ->
  _handshake_handler c = true ->
  _application_started c = false ->
  hs_is_completed env (trace c) = true ->
  (forall t name, np_findEndpoint env t name = false) ->
  let c' := exec (_complete_handshake_if_possible env) c in
  eval (_complete_handshake_if_possible env) c = 0 /\
  handler c' = Handler.state_connection_closing /\
  _connection_error c'
  = Some (QUICConnectionError_trans VERSION_NEGOTIATION_ERROR) /\
  _closing_timeout c' = true /\
  _packet_write_ready c' = true /\
  _application_started c' = true /\
  netvc_context c' = NET_VCONNECTION_IN /\
  _handshake_handler c' = true /\
  filter (fun x => match x with C_app_handleEvent _ => true | _ => false end)
    (trace c')
  = filter (fun x => match x with C_app_handleEvent _ => true | _ => false end)
      (trace c).
Proof.
  destruct c as [h ctx fam mtu cid pcid ocid alt rq lrt hsh acm aps fcb sav hps
                 sfs err fin cnt wnd pwr cto pvt cev nhp tr].
  cbn [handler netvc_context _handshake_handler _application_started trace].
  intros -> -> -> -> Hc Hn. cbv zeta.
  unfold eval, exec, _complete_handshake_if_possible, _handle_error, close,
    close_nested, close_rec, _switch_to_closing_state_rec,
    _complete_handshake_if_possible_rec, _start_application_rec,
    _init_flow_control_params, closing_period, _schedule_packet_write_ready,
    _schedule_closing_timeout.
  crun. rewrite Hc. crun.
  repeat match goal with
         | |- context [np_findEndpoint env ?t ?n] => rewrite (Hn t n)
         | |- context [match ?x with _ => _ end] =>
             lazymatch x with
             | context [match _ with _ => _ end] => fail
             | _ => destruct x eqn:?
             end
         | _ => progress crun
         end.
  all: cbn [filter]; repeat split; reflexivity.
Qed.

Lemma switch_to_established_state_no_endpoint env e :
  server_without_endpoint env e ->
  exists e',
    _switch_to_established_state env e = Returns tt e' /\
    established_with_close_pending e' /\
    filter is_app_event (trace (vc e')) = filter is_app_event (trace (vc e)).
Proof.
  intros [Hh [Hx [Hp [Hs [Hc Hn]]]]].
  destruct (complete_handshake_if_possible_no_endpoint (env_of env (log e)) (vc e)
              Hh Hx Hp Hs Hc Hn) as [R [H1 [H2 [H3 [_ [_ [H6 [H7 H8]]]]]]]].
  unfold _switch_to_established_state.
  rewrite (bind'_returns _ _ e _ _ (lift_returns env _ e)).
  rewrite R. cbn [Z.eqb when'].
  set (c1 := exec (_complete_handshake_if_possible (env_of env (log e))) (vc e)) in *.
  unfold bind' at 1. rewrite lift_returns. cbn [set_vc vc log].
  unfold handshake_handler, member, bind' at 1.
  cbn [vc log _connection_migration_initiated].
  cbn [modify exec eval fst snd].
  destruct c1 as [h ctx fam mtu cid pcid ocid alt rq lrt hsh acm aps fcb sav hps
                  sfs err fin cnt wnd pwr cto pvt cev nhp tr].
  cbn [handler netvc_context _handshake_handler _connection_error
       _closing_timeout trace] in *.
  subst. cbn.
  eexists. split; [reflexivity|].
  split; [|exact H8]. repeat split.
Qed.

Lemma handshake_is_completed_returns env e :
  handshake_is_completed env e
  = Returns (_handshake_handler (vc e)
             && hs_is_completed (env_of env (log e)) (trace (vc e))) e.
Proof.
  unfold handshake_is_completed, member, bind'. destruct e as [c i l].
  cbn [vc]. destruct (_handshake_handler c); [|reflexivity].
  rewrite lift_returns. cbn [ask eval exec fst snd set_vc vc log].
  reflexivity.
Qed.

Lemma member_returns {A} (f : QUICNetVConnection -> A) e :
  member f e = Returns (f (vc e)) e.
Proof. reflexivity. Qed.

Lemma handshake_completion_keeps_established env e :
  server_without_endpoint env e ->
  exists e',
    _switch_to_established_state env e = Returns tt e' /\
    established_with_close_pending e' /\
    filter is_app_event (trace (vc e')) = filter is_app_event (trace (vc e)) /\
    (forall fuel event,
       handleEvent' env (S (S fuel)) event e
       = state_connection_established env fuel event e') /\
    (forall fuel,
       state_connection_established env fuel QUIC_EVENT_CLOSING_TIMEOUT e'
       = Returns EVENT_CONT e').
Proof.
  intros H.
  destruct (switch_to_established_state_no_endpoint env e H) as [e' [E [P A]]].
  exists e'. split; [exact E|]. split; [exact P|]. split; [exact A|]. split.
  - intros fuel event. destruct H as [Hh [_ [Hp [_ [Hc _]]]]].
    cbn [handleEvent'].
    rewrite (bind'_returns _ _ e _ _ (member_returns handler e)). rewrite Hh.
    unfold state_handshake.
    rewrite (bind'_returns _ _ e _ _ (handshake_is_completed_returns env e)).
    rewrite Hp, Hc. cbn [andb].
    rewrite (bind'_returns _ _ e _ _ E).
    cbn [handleEvent'].
    rewrite (bind'_returns _ _ e' _ _ (member_returns handler e')).
    destruct P as [-> _]. reflexivity.
  - intros fuel. reflexivity.
Qed.

Lemma switch_to_established_state_without_remote_tp env e :
  client_without_remote_tp env e ->
  _switch_to_established_state env e = Returns tt e.
Proof.
  intros [Hh [Hx [Hp [Hc Ht]]]].
  unfold _switch_to_established_state.
  rewrite (bind'_returns _ _ e _ _ (lift_returns env _ e)).
  unfold eval, exec, _complete_handshake_if_possible,
    _complete_handshake_if_possible_rec.
  destruct e as [c i l]. cbn [vc log] in *.
  destruct c as [h ctx fam mtu cid pcid ocid alt rq lrt hsh acm aps fcb sav hps
                 sfs err fin cnt wnd pwr cto pvt cev nhp tr].
  cbn [handler netvc_context _handshake_handler trace] in *. subst.
  crun. rewrite Hc. crun. rewrite Ht. crun.
  reflexivity.
Qed.

Lemma handshake_never_returns env e fuel event :
  client_without_remote_tp env e ->
  handleEvent' env fuel event e = OutOfFuel.
Proof.
  intros H. induction fuel as [|fuel IH]; [reflexivity|].
  cbn [handleEvent'].
  rewrite (bind'_returns _ _ e _ _ (member_returns handler e)).
  pose proof H as [Hh [_ [Hp [Hc _]]]]. rewrite Hh.
  unfold state_handshake.
  rewrite (bind'_returns _ _ e _ _ (handshake_is_completed_returns env e)).
  rewrite Hp, Hc. cbn [andb].
  rewrite (bind'_returns _ _ e _ _
             (switch_to_established_state_without_remote_tp env e H)).
  exact IH.
Qed.

Lemma bind'_lift env {A B} (m : Env -> M A) (k : A -> M' B) e :
  bind' (lift env m) k e
  = k (eval (m (env_of env (log e))) (vc e))
      (set_vc (exec (m (env_of env (log e))) (vc e)) e).
Proof. reflexivity. Qed.

Lemma bind'_member {A B} (f : QUICNetVConnection -> A) (k : A -> M' B) e :
  bind' (member f) k e = k (f (vc e)) e.
Proof. reflexivity. Qed.

Lemma bind'_ask' env {A B} (q : Env' -> Log -> Trace -> A) (k : A -> M' B) e :
  bind' (ask' env q) k e = k (q env (log e) (trace (vc e))) e.
Proof. reflexivity. Qed.

Lemma bind'_call' {B} x (k : unit -> M' B) e :
  bind' (call' x) k e
  = k tt (set_log ((x, length (trace (vc e))) :: log e) e).
Proof. reflexivity. Qed.

Lemma bind'_ret' {A B} (a : A) (k : A -> M' B) e : bind' (ret' a) k e = k a e.
Proof. reflexivity. Qed.

Lemma bind'_assoc {A B C} (m : M' A) (k : A -> M' B) (k' : B -> M' C) e :
  bind' (bind' m k) k' e = bind' m (fun a => bind' (k a) k') e.
Proof. unfold bind'. destruct (m e); reflexivity. Qed.

Ltac step' :=
  first [ rewrite bind'_lift | rewrite bind'_member | rewrite bind'_ask'
        | rewrite bind'_call' | rewrite bind'_ret' | rewrite bind'_assoc ].

Lemma dequeue_recv_packet_silent c :
  trace (exec _dequeue_recv_packet c) = trace c.
Proof.
  destruct (dequeue_recv_packet_adds (fun _ => false) c) as [[l [E F]] _].
  destruct l; [exact E | discriminate F].
Qed.

Lemma dequeue_recv_packet_keeps_handler' :
  keeps handler _dequeue_recv_packet.
Proof.
  unfold _dequeue_recv_packet, QUICPacketReceiveQueue_dequeue, _update_peer_cid.
  keeps_tac.
Qed.

(** What [close] with INTERNAL_ERROR leaves of a connection that has just
    taken a datagram off its queue. *)
Lemma close_after_dequeue b d rest c0 :
  handler c0 <> Handler.state_connection_closed ->
  handler c0 <> Handler.state_connection_closing ->
  _packet_recv_queue c0 = d :: rest ->
  let c1 := exec _dequeue_recv_packet c0 in
  let c2 := exec (close b (QUICConnectionError_trans INTERNAL_ERROR)) c1 in
  handler c2 = Handler.state_connection_closing /\
  _connection_error c2 = Some (QUICConnectionError_trans INTERNAL_ERROR) /\
  _packet_recv_queue c2 = rest /\
  ack_updates (trace c2) = ack_updates (trace c0).
Proof.
  intros N1 N2 Q0. cbv zeta.
  destruct (dequeue_recv_packet_front d rest c0 Q0) as [Q1 _].
  pose proof (dequeue_recv_packet_silent c0) as T1.
  pose proof (dequeue_recv_packet_keeps_handler' c0) as H1.
  set (c1 := exec _dequeue_recv_packet c0) in *.
  rewrite <- H1 in N1, N2.
  destruct (close_result b (QUICConnectionError_trans INTERNAL_ERROR) c1 N1 N2)
    as [C1 [C2 _]].
  split; [exact C1|]. split; [exact C2|]. split.
  - rewrite (close_untouched _packet_recv_queue); try reflexivity. exact Q1.
  - rewrite (extends_housekeeping_ack_updates c1); [|apply close_adds].
    rewrite T1. reflexivity.
Qed.

Lemma established_unacceptable_datagram env fuel d rest e :
  handler (vc e) = Handler.state_connection_established ->
  _packet_recv_queue (vc e) = d :: rest ->
  unacceptable Handler.state_connection_established d = true ->
  exists e',
    handleEvent' env (S fuel) QUIC_EVENT_PACKET_READ_READY e
    = Returns EVENT_CONT e' /\
    handler (vc e') = Handler.state_connection_closing /\
    _connection_error (vc e') = Some (QUICConnectionError_trans INTERNAL_ERROR) /\
    _packet_recv_queue (vc e') = rest /\
    ack_updates (trace (vc e')) = ack_updates (trace (vc e)) /\
    log e' = log e.
Proof.
  intros Hh Hq Hu. cbn [handleEvent'].
  rewrite bind'_member, Hh.
  unfold state_connection_established,
    _state_connection_established_receive_packet.
  repeat step'. cbn [call modify eval exec fst snd set_vc vc log].
  set (c0 := set_trace (C_net_activity :: trace (vc e)) (vc e)).
  assert (Q0 : _packet_recv_queue c0 = d :: rest)
    by (subst c0; destruct (vc e); exact Hq).
  assert (N1 : handler c0 <> Handler.state_connection_closed)
    by (subst c0; destruct (vc e); cbn in *; rewrite Hh; discriminate).
  assert (N2 : handler c0 <> Handler.state_connection_closing)
    by (subst c0; destruct (vc e); cbn in *; rewrite Hh; discriminate).
  assert (A0 : ack_updates (trace c0) = ack_updates (trace (vc e)))
    by (subst c0; destruct (vc e); reflexivity).
  pose proof (close_after_dequeue (env_of env (log e)) d rest c0 N1 N2 Q0) as C.
  cbv zeta in C. rewrite A0 in C.
  rewrite Q0.
  cbn [length _state_connection_established_receive_packet_loop].
  unfold _state_connection_established_receive_packet_body.
  repeat step'. cbn [set_vc vc log].
  destruct (dequeue_recv_packet_front d rest c0 Q0) as [_ R1].
  rewrite R1.
  set (c1 := exec _dequeue_recv_packet c0) in *.
  destruct d as [p | r]; cbn [unacceptable] in Hu.
  - cbn [deref]. repeat step'.
    destruct (pkt_type p); try discriminate Hu; repeat step'; cbn [set_vc vc log].
    all: eexists; (split; [reflexivity|]); cbn [vc log set_vc];
      unfold _handle_error.
    all: destruct C as [C1 [C2 [C3 C4]]]; auto.
  - destruct r; try discriminate Hu. repeat step'. cbn [set_vc vc log].
    eexists. split; [reflexivity|]. cbn [vc log set_vc]. unfold _handle_error.
    destruct C as [C1 [C2 [C3 C4]]]; auto.
Qed.

Lemma handshake_unacceptable_datagram env fuel d rest e :
  handler (vc e) = Handler.state_handshake ->
  (forall t, hs_is_completed (env_of env (log e)) t = false) ->
  _packet_recv_queue (vc e) = d :: rest ->
  unacceptable Handler.state_handshake d = true ->
  exists e',
    handleEvent' env (S fuel) QUIC_EVENT_PACKET_READ_READY e
    = Returns EVENT_CONT e' /\
    handler (vc e') = Handler.state_connection_closing /\
    _connection_error (vc e') = Some (QUICConnectionError_trans INTERNAL_ERROR) /\
    _packet_recv_queue (vc e') = rest /\
    ack_updates (trace (vc e')) = ack_updates (trace (vc e)) /\
    log e' = log e.
Proof.
  intros Hh Hc Hq Hu. cbn [handleEvent'].
  rewrite bind'_member, Hh.
  unfold state_handshake.
  rewrite (bind'_returns _ _ e _ _ (handshake_is_completed_returns env e)).
  rewrite Hc, andb_false_r.
  repeat step'. cbn [call modify eval exec fst snd set_vc vc log].
  set (c0 := set_trace (C_net_activity :: trace (vc e)) (vc e)).
  assert (Q0 : _packet_recv_queue c0 = d :: rest)
    by (subst c0; destruct (vc e); exact Hq).
  assert (N1 : handler c0 <> Handler.state_connection_closed)
    by (subst c0; destruct (vc e); cbn in *; rewrite Hh; discriminate).
  assert (N2 : handler c0 <> Handler.state_connection_closing)
    by (subst c0; destruct (vc e); cbn in *; rewrite Hh; discriminate).
  assert (A0 : ack_updates (trace c0) = ack_updates (trace (vc e)))
    by (subst c0; destruct (vc e); reflexivity).
  pose proof (close_after_dequeue (env_of env (log e)) d rest c0 N1 N2 Q0) as C.
  cbv zeta in C. rewrite A0 in C.
  rewrite Q0.
  cbn [length state_handshake_read_loop].
  unfold state_handshake_read_body.
  repeat step'. cbn [set_vc vc log].
  destruct (dequeue_recv_packet_front d rest c0 Q0) as [_ R1].
  rewrite R1.
  set (c1 := exec _dequeue_recv_packet c0) in *.
  set (b := env_of env (log e)) in *.
  destruct d as [p | r]; cbn [unacceptable] in Hu.
  - unfold _state_handshake_process_packet. cbn [deref]. repeat step'.
    destruct (pkt_type p); try discriminate Hu; repeat step'.
    all: rewrite (bind'_returns _ _ _ _ _ (handshake_is_completed_returns env _)).
    all: cbn [set_vc vc log]; fold b; rewrite Hc, andb_false_r.
    all: repeat step'; cbn [set_vc vc log].
    all: eexists; (split; [reflexivity|]); cbn [vc log set_vc];
      unfold _handle_error; fold b.
    all: destruct C as [C1 [C2 [C3 C4]]]; auto.
  - destruct r; try discriminate Hu. repeat step'.
    rewrite (bind'_returns _ _ _ _ _ (handshake_is_completed_returns env _)).
    cbn [set_vc vc log]; fold b; rewrite Hc, andb_false_r.
    repeat step'; cbn [set_vc vc log].
    eexists. split; [reflexivity|]. cbn [vc log set_vc].
    unfold _handle_error; fold b.
    destruct C as [C1 [C2 [C3 C4]]]; auto.
Qed.

Ltac crun' :=
  cbv beta iota zeta delta
    [bind' ret' lift lift_fuel member ask' call' when' deref crash out_of_fuel
     set_vc set_log set_connection_migration_initiated vc log
     _connection_migration_initiated
     bind ret gets modify call ask when exec eval bind_fuel fst snd direction
     handler netvc_context ip_family _pmtu _quic_connection_id
     _peer_quic_connection_id _original_quic_connection_id _remote_alt_cids
     _packet_recv_queue _last_received_packet_type _handshake_handler
     _alt_con_manager _application_started _flow_control_buffer_size
     _src_addr_verified _handshake_packets_sent _stream_frames_sent
     _connection_error _the_final_packet _state_closing_recv_packet_count
     _state_closing_recv_packet_window _packet_write_ready _closing_timeout
     _path_validation_timeout _closed_event nh trace
     set_handler set_peer_quic_connection_id set_remote_alt_cids
     set_packet_recv_queue set_last_received_packet_type
     set_application_started set_flow_control_buffer_size
     set_handshake_packets_sent set_stream_frames_sent set_connection_error
     set_the_final_packet set_state_closing_recv_packet_count
     set_state_closing_recv_packet_window set_packet_write_ready
     set_closing_timeout set_path_validation_timeout set_closed_event
     set_trace set_nh set_src_addr_verified set_alt_con_manager
     set_quic_connection_id set_original_quic_connection_id
     negb andb orb Handler.eqb context_eqb].

Lemma idle_timeout_drains env fuel e :
  handler (vc e) = Handler.state_connection_established \/
  (handler (vc e) = Handler.state_handshake /\
   forall t, hs_is_completed (env_of env (log e)) t = false) ->
  exists e',
    handleEvent' env (S fuel) EVENT_IMMEDIATE e = Returns EVENT_CONT e' /\
    handler (vc e') = Handler.state_connection_draining /\
    _closing_timeout (vc e') = true /\
    _connection_error (vc e') = _connection_error (vc e) /\
    _the_final_packet (vc e') = _the_final_packet (vc e) /\
    _packet_write_ready (vc e') = _packet_write_ready (vc e) /\
    filter outbound (trace (vc e')) = filter outbound (trace (vc e)) /\
    log e' = log e.
Proof.
  intros H. destruct e as [c i l].
  destruct c as [h ctx fam mtu cid pcid ocid alt rq lrt hsh acm aps fcb sav hps
                 sfs err fin cnt wnd pwr cto pvt cev nhp tr].
  cbn [vc log handler] in H.
  cbn [handleEvent'].
  set (b := env_of env l) in *.
  assert (N : forall t w x y,
            _complete_handshake_if_possible b
              {| handler := h; netvc_context := ctx; ip_family := fam; _pmtu := mtu;
                 _quic_connection_id := cid; _peer_quic_connection_id := pcid;
                 _original_quic_connection_id := ocid; _remote_alt_cids := alt;
                 _packet_recv_queue := rq; _last_received_packet_type := lrt;
                 _handshake_handler := hsh; _alt_con_manager := acm;
                 _application_started := aps; _flow_control_buffer_size := fcb;
                 _src_addr_verified := sav; _handshake_packets_sent := hps;
                 _stream_frames_sent := sfs; _connection_error := err;
                 _the_final_packet := fin;
                 _state_closing_recv_packet_count := cnt;
                 _state_closing_recv_packet_window := wnd;
                 _packet_write_ready := w; _closing_timeout := x;
                 _path_validation_timeout := y; _closed_event := cev; nh := nhp;
                 trace := t |}
            = (if Handler.eqb h Handler.state_handshake then -1 else 0,
               {| handler := h; netvc_context := ctx; ip_family := fam; _pmtu := mtu;
                 _quic_connection_id := cid; _peer_quic_connection_id := pcid;
                 _original_quic_connection_id := ocid; _remote_alt_cids := alt;
                 _packet_recv_queue := rq; _last_received_packet_type := lrt;
                 _handshake_handler := hsh; _alt_con_manager := acm;
                 _application_started := aps; _flow_control_buffer_size := fcb;
                 _src_addr_verified := sav; _handshake_packets_sent := hps;
                 _stream_frames_sent := sfs; _connection_error := err;
                 _the_final_packet := fin;
                 _state_closing_recv_packet_count := cnt;
                 _state_closing_recv_packet_window := wnd;
                 _packet_write_ready := w; _closing_timeout := x;
                 _path_validation_timeout := y; _closed_event := cev; nh := nhp;
                 trace := t |})).
  { intros t w x y. unfold _complete_handshake_if_possible,
      _complete_handshake_if_possible_rec.
    destruct H as [-> | [-> Hc]]; crun; [reflexivity|].
    rewrite Hc. destruct hsh; reflexivity. }
  unfold state_handshake, state_connection_established, handshake_is_completed,
    _handle_idle_timeout, _handle_error, _switch_to_draining_state,
    closing_period, _schedule_closing_timeout.
  destruct H as [-> | [-> Hc]].
  - crun'. fold b. rewrite N. crun'. fold b.
    destruct cto; crun'; eexists; (split; [reflexivity|]); cbn [vc log handler
      _closing_timeout _connection_error _the_final_packet _packet_write_ready
      trace filter outbound];
      repeat split; reflexivity.
  - crun'. fold b.
    destruct hsh; crun'; fold b; rewrite ?Hc; crun'; fold b; rewrite N;
      crun'; fold b.
    all: destruct cto; crun'; eexists; (split; [reflexivity|]); cbn [vc log handler
      _closing_timeout _connection_error _the_final_packet _packet_write_ready
      trace filter outbound];
      repeat split; reflexivity.
Qed.

Lemma migrate_connection_without_manager env p e :
  _alt_con_manager (vc e) = false ->
  cid_eqb (destination_cid p) (_quic_connection_id (vc e)) = false ->
  netvc_context (vc e) <> NET_VCONNECTION_IN \/ _remote_alt_cids (vc e) <> [] ->
  _state_connection_established_migrate_connection env p e = Crashes.
Proof.
  intros Ha Hd Hx.
  unfold _state_connection_established_migrate_connection, handshake_handler.
  rewrite bind'_assoc, bind'_member.
  destruct (_handshake_handler (vc e)); [|reflexivity].
  rewrite bind'_ret'.
  rewrite bind'_member, Hd. rewrite !bind'_member.
  assert (E : context_eqb (netvc_context (vc e)) NET_VCONNECTION_IN
              && match _remote_alt_cids (vc e) with [] => true | _ => false end
              = false).
  { destruct Hx as [Hx | Hx].
    - destruct (netvc_context (vc e)); try reflexivity. congruence.
    - destruct (_remote_alt_cids (vc e)); [congruence|]. apply andb_false_r. }
  rewrite E. unfold alt_con_manager. rewrite bind'_assoc, bind'_member, Ha.
  reflexivity.
Qed.

Lemma established_client_crash env fuel p rest e :
  handler (vc e) = Handler.state_connection_established ->
  netvc_context (vc e) = NET_VCONNECTION_OUT ->
  _alt_con_manager (vc e) = false ->
  _packet_recv_queue (vc e) = Decodable p :: rest ->
  pkt_type p = QUICPacketType.PROTECTED ->
  cid_eqb (destination_cid p) (_quic_connection_id (vc e)) = false ->
  handleEvent' env (S fuel) QUIC_EVENT_PACKET_READ_READY e = Crashes.
Proof.
  intros Hh Hx Ha Hq Ht Hd. cbn [handleEvent'].
  rewrite bind'_member, Hh.
  unfold state_connection_established,
    _state_connection_established_receive_packet.
  repeat step'. cbn [call modify eval exec fst snd set_vc vc log].
  set (c0 := set_trace (C_net_activity :: trace (vc e)) (vc e)).
  assert (Q0 : _packet_recv_queue c0 = Decodable p :: rest)
    by (subst c0; destruct (vc e); exact Hq).
  rewrite Q0.
  cbn [length _state_connection_established_receive_packet_loop].
  unfold _state_connection_established_receive_packet_body.
  repeat step'. cbn [set_vc vc log].
  destruct (dequeue_recv_packet_front (Decodable p) rest c0 Q0) as [_ R1].
  rewrite R1. cbn [deref]. repeat step'. rewrite Ht. cbv beta iota.
  cbn [set_vc vc log].
  set (c1 := exec _dequeue_recv_packet c0).
  assert (K1 : _quic_connection_id c1 = _quic_connection_id (vc e)).
  { transitivity (_quic_connection_id c0);
      [|subst c0; destruct (vc e); reflexivity].
    assert (K : keeps _quic_connection_id _dequeue_recv_packet)
      by (unfold _dequeue_recv_packet, QUICPacketReceiveQueue_dequeue,
            _update_peer_cid; keeps_tac).
    apply K. }
  assert (K2 : _alt_con_manager c1 = false).
  { rewrite <- Ha. transitivity (_alt_con_manager c0);
      [|subst c0; destruct (vc e); reflexivity].
    assert (K : keeps _alt_con_manager _dequeue_recv_packet)
      by (unfold _dequeue_recv_packet, QUICPacketReceiveQueue_dequeue,
            _update_peer_cid; keeps_tac).
    apply K. }
  assert (K3 : netvc_context c1 = NET_VCONNECTION_OUT).
  { rewrite <- Hx. transitivity (netvc_context c0);
      [|subst c0; destruct (vc e); reflexivity].
    assert (K : keeps netvc_context _dequeue_recv_packet)
      by (unfold _dequeue_recv_packet, QUICPacketReceiveQueue_dequeue,
            _update_peer_cid; keeps_tac).
    apply K. }
  clearbody c1.
  rewrite !bind'_assoc. apply bind'_crashes.
  apply migrate_connection_without_manager.
  - exact K2.
  - cbn [set_vc vc]. rewrite K1. exact Hd.
  - left. cbn [set_vc vc]. rewrite K3. discriminate.
Qed.

(** X14.  On a server whose handshake is completed but whose application
    protocol has no endpoint, the completion of the handshake closes the
    connection with VERSION_NEGOTIATION_ERROR and then installs the handler
    of the established state over the one of the closing state: the
    connection is established with the error recorded and the closing timer
    running, the application is not told, the event at hand goes to the
    established state, and the closing timeout will be ignored there. *)
Theorem handshake_completion_overrides_closing (env : Env') (e : Endpoint) :
  server_without_endpoint env e ->
  exists e',
    _switch_to_established_state env e = Returns tt e' /\
    established_with_close_pending e' /\
    filter is_app_event (trace (vc e')) = filter is_app_event (trace (vc e)) /\
    (forall fuel event,
       handleEvent' env (S (S fuel)) event e
       = state_connection_established env fuel event e') /\
    (forall fuel,
       state_connection_established env fuel QUIC_EVENT_CLOSING_TIMEOUT e'
       = Returns EVENT_CONT e').
Proof. apply handshake_completion_keeps_established. Qed.

Lemma handshake_completion_overrides_closing_witness :
  exists e',
    inputs' (env_around env_no_endpoint) 5
      [Deliver QUIC_EVENT_PACKET_READ_READY; Deliver QUIC_EVENT_CLOSING_TIMEOUT]
      (endpoint server_in_handshake) = Returns tt e' /\
    handler (vc e') = Handler.state_connection_established /\
    _connection_error (vc e')
    = Some (QUICConnectionError_trans VERSION_NEGOTIATION_ERROR) /\
    _closing_timeout (vc e') = true.
Proof.
  assert (H : server_without_endpoint (env_around env_no_endpoint)
                (endpoint server_in_handshake))
    by (repeat split; reflexivity).
  destruct (handshake_completion_overrides_closing _ _ H)
    as [e1 [_ [[_ [_ [T _]]] _]]].
  eexists. split; [vm_compute; reflexivity|].
  split; [reflexivity|]. split; [reflexivity|]. vm_compute. reflexivity.
Defined.

(** X15.  On a client whose handshake is completed without the transport
    parameters of the server, the handler of the handshake state never
    returns, whatever the event: the switch to the established state is
    refused, and the event is dispatched to the same handler again, in the
    same state (in a release build, where the assertion that the handshake
    has to be completed is compiled out). *)
Theorem handshake_without_remote_tp_never_returns (env : Env') (e : Endpoint)
  (fuel : nat) (event : QUICEvent) :
  client_without_remote_tp env e ->
  handleEvent' env fuel event e = OutOfFuel.
Proof. apply handshake_never_returns. Qed.

Lemma handshake_without_remote_tp_never_returns_witness :
  handleEvent' (env_around env_without_remote_tp) 1000
    QUIC_EVENT_PACKET_WRITE_READY (endpoint client_in_handshake) = OutOfFuel /\
  exists e',
    handleEvent' (env_around env_idle) 10
      QUIC_EVENT_PACKET_WRITE_READY (endpoint client_in_handshake)
    = Returns EVENT_CONT e'.
Proof.
  split.
  - apply (handshake_without_remote_tp_never_returns
             (env_around env_without_remote_tp) (endpoint client_in_handshake)).
    repeat split; reflexivity.
  - eexists. vm_compute. reflexivity.
Defined.

(** X16.  The idle timeout (EVENT_IMMEDIATE) takes an established connection,
    and one whose handshake is not completed, to the draining state at once:
    the closing timer runs, no error is recorded, no close packet is built,
    no write is scheduled, no frame is generated and nothing is sent. *)
Theorem idle_timeout_drains_silently (env : Env') (fuel : nat) (e : Endpoint) :
  handler (vc e) = Handler.state_connection_established \/
  (handler (vc e) = Handler.state_handshake /\
   forall t, hs_is_completed (env_of env (log e)) t = false) ->
  exists e',
    handleEvent' env (S fuel) EVENT_IMMEDIATE e = Returns EVENT_CONT e' /\
    handler (vc e') = Handler.state_connection_draining /\
    _closing_timeout (vc e') = true /\
    _connection_error (vc e') = _connection_error (vc e) /\
    _the_final_packet (vc e') = _the_final_packet (vc e) /\
    _packet_write_ready (vc e') = _packet_write_ready (vc e) /\
    filter outbound (trace (vc e')) = filter outbound (trace (vc e)) /\
    log e' = log e.
Proof. apply idle_timeout_drains. Qed.

Lemma idle_timeout_drains_silently_witness :
  exists e',
    handleEvent' (env_around env_idle) 1 EVENT_IMMEDIATE
      (endpoint server_established) = Returns EVENT_CONT e' /\
    handler (vc e') = Handler.state_connection_draining /\
    _connection_error (vc e') = None /\
    trace (vc e')
    = [C_schedule_in_local QUIC_EVENT_CLOSING_TIMEOUT 300000000;
       C_set_inactivity_timeout 0; C_remove_from_active_queue;
       C_remove_from_active_queue].
Proof.
  destruct (idle_timeout_drains_silently (env_around env_idle) 0
              (endpoint server_established) (or_introl eq_refl))
    as [e' [E [H [_ [C _]]]]].
  exists e'. split; [exact E|]. split; [exact H|]. split; [exact C|].
  vm_compute in E. injection E as <-. reflexivity.
Defined.

(** X17.  In the established state, and in the handshake state while the
    handshake is not completed, one datagram for which packet creation fails,
    or which decodes to a packet of a type the state has no case for (a
    Version Negotiation or Retry packet once established, a 1-RTT packet
    during the handshake), closes the connection with INTERNAL_ERROR: the
    read event leaves the connection closing, the packet is not
    acknowledged, and the datagrams behind it stay in the queue. *)
Theorem unacceptable_datagram_closes_connection (env : Env') (fuel : nat)
  (d : Datagram) (rest : list Datagram) (e : Endpoint) :
  handler (vc e) = Handler.state_connection_established \/
  (handler (vc e) = Handler.state_handshake /\
   forall t, hs_is_completed (env_of env (log e)) t = false) ->
  _packet_recv_queue (vc e) = d :: rest ->
  unacceptable (handler (vc e)) d = true ->
  exists e',
    handleEvent' env (S fuel) QUIC_EVENT_PACKET_READ_READY e
    = Returns EVENT_CONT e' /\
    handler (vc e') = Handler.state_connection_closing /\
    _connection_error (vc e') = Some (QUICConnectionError_trans INTERNAL_ERROR) /\
    _packet_recv_queue (vc e') = rest /\
    ack_updates (trace (vc e')) = ack_updates (trace (vc e)) /\
    log e' = log e.
Proof.
  intros [H | [H Hc]] Hq Hu; rewrite H in Hu.
  - apply (established_unacceptable_datagram env fuel d rest e); assumption.
  - apply (handshake_unacceptable_datagram env fuel d rest e); assumption.
Qed.

Lemma unacceptable_datagram_closes_connection_witness :
  exists e',
    handleEvent' (env_around env_idle) 1 QUIC_EVENT_PACKET_READ_READY
      (endpoint (set_packet_recv_queue
                   [Decodable version_negotiation_packet;
                    Decodable packet_with_stream] server_established))
    = Returns EVENT_CONT e' /\
    handler (vc e') = Handler.state_connection_closing /\
    _packet_recv_queue (vc e') = [Decodable packet_with_stream].
Proof.
  destruct (unacceptable_datagram_closes_connection (env_around env_idle) 0
              (Decodable version_negotiation_packet)
              [Decodable packet_with_stream]
              (endpoint (set_packet_recv_queue
                           [Decodable version_negotiation_packet;
                            Decodable packet_with_stream] server_established))
              (or_introl eq_refl) eq_refl eq_refl)
    as [e' [E [H [_ [Q _]]]]].
  exists e'. auto.
Defined.

(** X18.  On a client that has no alt-connection manager (the migration
    exercise was off when the handshake completed, or the server disabled
    migration), a 1-RTT packet addressed to a connection ID other than the
    current one makes the read event of the established state call
    [migrate_to] through the null pointer. *)
Theorem client_without_alt_con_manager_crashes (env : Env') (fuel : nat)
  (p : QUICPacket) (rest : list Datagram) (e : Endpoint) :
  handler (vc e) = Handler.state_connection_established ->
  netvc_context (vc e) = NET_VCONNECTION_OUT ->
  _alt_con_manager (vc e) = false ->
  _packet_recv_queue (vc e) = Decodable p :: rest ->
  pkt_type p = QUICPacketType.PROTECTED ->
  cid_eqb (destination_cid p) (_quic_connection_id (vc e)) = false ->
  handleEvent' env (S fuel) QUIC_EVENT_PACKET_READ_READY e = Crashes.
Proof. apply established_client_crash. Qed.

Lemma client_without_alt_con_manager_crashes_witness :
  handleEvent' (env_around env_idle) 1 QUIC_EVENT_PACKET_READ_READY
    (endpoint (set_packet_recv_queue [Decodable packet_to_other_cid]
                 client_established)) = Crashes /\
  inputs' (env_around env_idle) 5
    [Receive (Decodable packet_to_other_cid);
     Deliver QUIC_EVENT_PACKET_READ_READY]
    (endpoint client_in_handshake) = Crashes.
Proof.
  split; [|vm_compute; reflexivity].
  apply (client_without_alt_con_manager_crashes (env_around env_idle) 0
           packet_to_other_cid []
           (endpoint (set_packet_recv_queue [Decodable packet_to_other_cid]
                        client_established))); reflexivity.
Defined.

(** ** Members that the send loop leaves alone

    [_state_common_send_packet] counts handshake packets and stream frames
    and logs its calls; it assigns to nothing else. *)
Section SendUntouched.

Context {B : Type} (f : QUICNetVConnection -> B).

Hypothesis f_trace : forall t c, f (set_trace t c) = f c.
Hypothesis f_stream_frames_sent :
  forall v c, f (set_stream_frames_sent v c) = f c.
Hypothesis f_handshake_packets_sent :
  forall v c, f (set_handshake_packets_sent v c) = f c.




End SendUntouched.




Lemma server_migrate_connection env p e :
  netvc_context (vc e) = NET_VCONNECTION_IN ->
  _handshake_handler (vc e) = true ->
  _alt_con_manager (vc e) = true ->
  exists e',
    _state_connection_established_migrate_connection env p e = Returns None e' /\
    if migration_accepted env p e
    then
      _quic_connection_id (vc e') = destination_cid p /\
      Some (_peer_quic_connection_id (vc e')) = hd_error (_remote_alt_cids (vc e)) /\
      _remote_alt_cids (vc e') = tl (_remote_alt_cids (vc e)) /\
      _path_validation_timeout (vc e') = true /\
      handler (vc e') = handler (vc e) /\
      netvc_context (vc e') = netvc_context (vc e) /\
      _handshake_handler (vc e') = _handshake_handler (vc e) /\
      _alt_con_manager (vc e') = _alt_con_manager (vc e) /\
      _packet_recv_queue (vc e') = _packet_recv_queue (vc e) /\
      map fst (log e')
      = [C_pv_validate; C_con_move p; C_acm_migrate_to (destination_cid p)]
        ++ map fst (log e)
    else vc e' = vc e.
Proof.
  destruct e as [c i l].
  destruct c as [h ctx fam mtu cid pcid ocid alt rq lrt hsh acm aps fcb sav hps
                 sfs err fin cnt wnd pwr cto pvt cev nhp tr].
  cbn [vc netvc_context _handshake_handler _alt_con_manager]. intros -> -> ->.
  unfold migration_accepted, _state_connection_established_migrate_connection,
    handshake_handler, alt_con_manager, _update_local_cid, take_remote_alt_cid, _validate_new_path,
    _update_peer_cid, _schedule_path_validation_timeout.
  cbn [vc log _quic_connection_id _remote_alt_cids trace].
  destruct (cid_eqb (destination_cid p) cid) eqn:D.
  - crun'. rewrite D. eexists. split; reflexivity.
  - destruct alt as [|front alt].
    + crun'. rewrite D. eexists. split; reflexivity.
    + cbn [negb andb].
      destruct (acm_migrate_to env l tr (destination_cid p)) eqn:A.
      * crun'. rewrite D. crun'. rewrite A. crun'.
        destruct pvt; crun'; eexists; (split; [reflexivity|]);
          cbn [vc log map fst List.app hd_error tl]; repeat split.
      * crun'. rewrite D. crun'. rewrite A. crun'.
        eexists. split; reflexivity.
Qed.

(** ** While the handshake is not completed *)

Lemma stays_before_close_ret {A} (a : A) : stays_before_close (ret a).
Proof. intros c H. exact H. Qed.

Lemma stays_before_close_bind {A B} (m : M A) (k : A -> M B) :
  stays_before_close m -> (forall a, stays_before_close (k a)) ->
  stays_before_close (bind m k).
Proof. intros Hm Hk c H. rewrite exec_bind. apply Hk, Hm, H. Qed.

Lemma stays_before_close_gets {A} (f : QUICNetVConnection -> A) :
  stays_before_close (gets f).
Proof. intros c H. exact H. Qed.

Lemma stays_before_close_ask env {A} (q : Env -> Trace -> A) :
  stays_before_close (ask env q).
Proof. intros c H. exact H. Qed.

Lemma stays_before_close_call x : stays_before_close (call x).
Proof. intros c H. destruct c. exact H. Qed.

Lemma stays_before_close_modify g :
  (forall c, before_close c -> before_close (g c)) ->
  stays_before_close (modify g).
Proof. intros H c. apply H. Qed.

Create HintDb before_close discriminated.

Ltac before_close_field :=
  let c := fresh "c" in
  let H := fresh "H" in
  intros c H; unfold before_close in *; destruct c; cbn in *; auto.

Ltac before_close_step :=
  lazymatch goal with
  | |- stays_before_close (bind _ _) =>
      apply stays_before_close_bind; [ | intros ]
  | |- stays_before_close (ret _) => apply stays_before_close_ret
  | |- stays_before_close (gets _) => apply stays_before_close_gets
  | |- stays_before_close (ask _ _) => apply stays_before_close_ask
  | |- stays_before_close (modify _) =>
      apply stays_before_close_modify; before_close_field
  | |- stays_before_close (call _) => apply stays_before_close_call
  | |- stays_before_close (when ?b _) => unfold when
  | |- stays_before_close (if ?b then _ else _) => destruct b
  | |- stays_before_close (match ?x with _ => _ end) => destruct x
  | |- stays_before_close _ => solve [eauto with before_close]
  end.

Ltac before_close_tac := repeat before_close_step.

Lemma complete_handshake_if_possible_never_completed b c :
  never_completed b ->
  _complete_handshake_if_possible b c
  = (if Handler.eqb (handler c) Handler.state_handshake then -1 else 0, c).
Proof.
  intros H. unfold _complete_handshake_if_possible,
    _complete_handshake_if_possible_rec.
  mnorm. destruct (Handler.eqb (handler c) Handler.state_handshake);
    [|reflexivity].
  cbn [negb]. mnorm. rewrite H, andb_false_r. reflexivity.
Qed.

Lemma complete_handshake_if_possible_stays b :
  never_completed b -> stays_before_close (_complete_handshake_if_possible b).
Proof.
  intros H c P. unfold exec.
  rewrite (complete_handshake_if_possible_never_completed b c H). exact P.
Qed.

Lemma recv_and_ack_stays_before_close b p :
  never_completed b -> stays_before_close (_recv_and_ack b p).
Proof.
  intros H.
  pose proof (complete_handshake_if_possible_stays b H) as C.
  assert (W : forall delay, stays_before_close (_schedule_packet_write_ready delay))
    by (intros; unfold _schedule_packet_write_ready; before_close_tac).
  assert (D : forall e, stays_before_close (_switch_to_draining_state b e))
    by (intros; unfold _switch_to_draining_state, closing_period,
          _schedule_closing_timeout; before_close_tac).
  assert (F : forall level f, stays_before_close (handle_frame b level f))
    by (intros; unfold handle_frame, _handle_frame; before_close_tac).
  assert (L : forall level fs, stays_before_close (dispatch_frames b level fs))
    by (intros level fs; induction fs; cbn [dispatch_frames]; before_close_tac).
  unfold _recv_and_ack, receive_frames. before_close_tac.
Qed.

Lemma initial_packet_without_remote_tp env fuel p rest e :
  server_without_remote_tp env e ->
  _packet_recv_queue (vc e) = Decodable p :: rest ->
  pkt_type p = QUICPacketType.INITIAL ->
  exists e' error,
    handleEvent' env (S fuel) QUIC_EVENT_PACKET_READ_READY e
    = Returns EVENT_CONT e' /\
    handler (vc e') = Handler.state_connection_closing /\
    _connection_error (vc e') = Some error /\
    (error = QUICConnectionError_trans TRANSPORT_PARAMETER_ERROR \/
     exists c, eval (_recv_and_ack (env_of env (log e')) p) c = Some error) /\
    _packet_recv_queue (vc e') = rest /\
    map fst (log e') = C_hs_start p :: map fst (log e).
Proof.
  intros [Hh [Hx [Hp [Hc [Hv Ht]]]]] Hq Hty. cbn [handleEvent'].
  rewrite bind'_member, Hh.
  unfold state_handshake.
  rewrite (bind'_returns _ _ e _ _ (handshake_is_completed_returns env e)).
  rewrite Hc, andb_false_r.
  repeat step'. cbn [call modify eval exec fst snd set_vc vc log].
  set (c0 := set_trace (C_net_activity :: trace (vc e)) (vc e)).
  assert (Q0 : _packet_recv_queue c0 = Decodable p :: rest)
    by (subst c0; destruct (vc e); exact Hq).
  rewrite Q0.
  cbn [length state_handshake_read_loop].
  unfold state_handshake_read_body.
  repeat step'. cbn [set_vc vc log].
  destruct (dequeue_recv_packet_front (Decodable p) rest c0 Q0) as [Q1 R1].
  rewrite R1.
  assert (K : forall {B} (f : QUICNetVConnection -> B),
            keeps f _dequeue_recv_packet -> f c0 = f (vc e) ->
            f (exec _dequeue_recv_packet c0) = f (vc e))
    by (intros B f Kf E0; rewrite Kf; exact E0).
  assert (Kd : forall {B} (f : QUICNetVConnection -> B),
            (forall v c, f (set_packet_recv_queue v c) = f c) ->
            (forall v c, f (set_peer_quic_connection_id v c) = f c) ->
            (forall v c, f (set_last_received_packet_type v c) = f c) ->
            keeps f _dequeue_recv_packet)
    by (intros B f F1 F2 F3;
        unfold _dequeue_recv_packet, QUICPacketReceiveQueue_dequeue,
          _update_peer_cid; keeps_tac).
  pose proof (K _ handler (Kd _ handler (fun _ _ => eq_refl) (fun _ _ => eq_refl)
                             (fun _ _ => eq_refl))
                ltac:(subst c0; destruct (vc e); reflexivity)) as K1.
  pose proof (K _ netvc_context
                (Kd _ netvc_context (fun _ _ => eq_refl) (fun _ _ => eq_refl)
                   (fun _ _ => eq_refl))
                ltac:(subst c0; destruct (vc e); reflexivity)) as K2.
  pose proof (K _ _handshake_handler
                (Kd _ _handshake_handler (fun _ _ => eq_refl)
                   (fun _ _ => eq_refl) (fun _ _ => eq_refl))
                ltac:(subst c0; destruct (vc e); reflexivity)) as K3.
  set (c1 := exec _dequeue_recv_packet c0) in *. clearbody c1. clear R1.
  unfold _state_handshake_process_packet. cbn [deref]. repeat step'.
  rewrite Hty. cbv beta iota.
  unfold _state_handshake_process_initial_packet, handshake_handler.
  repeat step'. cbn [set_vc vc log]. rewrite K2, Hx. cbn [context_eqb].
  repeat step'. cbn [set_vc vc log]. rewrite K3, Hp.
  repeat step'. cbn [set_vc set_log vc log]. rewrite Hv.
  repeat step'. cbn [set_vc set_log vc log].
  set (l1 := (C_hs_start p, length (trace c1)) :: log e).
  set (b1 := env_of env l1).
  assert (P1 : before_close c1) by (left; congruence).
  pose proof (recv_and_ack_stays_before_close b1 p (Hc l1) c1 P1) as P2.
  assert (Q2 : _packet_recv_queue (exec (_recv_and_ack b1 p) c1) = rest)
    by (rewrite (recv_and_ack_keeps_queue b1 p c1); exact Q1).
  set (c2 := exec (_recv_and_ack b1 p) c1) in *.
  assert (N1 : handler c2 <> Handler.state_connection_closed)
    by (destruct P2 as [P2 | P2]; rewrite P2; discriminate).
  assert (N2 : handler c2 <> Handler.state_connection_closing)
    by (destruct P2 as [P2 | P2]; rewrite P2; discriminate).
  assert (Fin : forall error,
            exists e',
              Returns EVENT_CONT
                {| vc := exec (_handle_error b1 error) c2;
                   _connection_migration_initiated :=
                     _connection_migration_initiated e;
                   log := l1 |} = Returns EVENT_CONT e' /\
              handler (vc e') = Handler.state_connection_closing /\
              _connection_error (vc e') = Some error /\
              _packet_recv_queue (vc e') = rest /\
              map fst (log e') = C_hs_start p :: map fst (log e)).
  { intros error. eexists. split; [reflexivity|]. cbn [vc log].
    unfold _handle_error.
    destruct (close_result b1 error c2 N1 N2) as [C1 [C2 _]].
    split; [exact C1|]. split; [exact C2|]. split; [|reflexivity].
    rewrite (close_untouched _packet_recv_queue); try reflexivity. exact Q2. }
  destruct (eval (_recv_and_ack b1 p) c1) as [e0|] eqn:Ev.
  - repeat step'.
    rewrite (bind'_returns _ _ _ _ _ (handshake_is_completed_returns env _)).
    cbn [set_vc vc log]. fold l1 b1. rewrite (Hc l1), andb_false_r.
    repeat step'. cbn [set_vc vc log]. fold l1 b1.
    destruct (Fin e0) as [e' [E [F1 [F2 [F3 F4]]]]].
    exists e', e0. split; [exact E|]. split; [exact F1|]. split; [exact F2|].
    split; [|split; assumption].
    right. exists c1.
    assert (El : log e' = l1) by (injection E as <-; reflexivity).
    rewrite El. exact Ev.
  - repeat step'. cbn [set_vc vc log ask eval exec fst snd]. rewrite Ht.
    cbn [negb]. repeat step'.
    rewrite (bind'_returns _ _ _ _ _ (handshake_is_completed_returns env _)).
    cbn [set_vc vc log]. fold l1 b1. rewrite (Hc l1), andb_false_r.
    repeat step'. cbn [set_vc vc log]. fold l1 b1.
    destruct (Fin (QUICConnectionError_trans TRANSPORT_PARAMETER_ERROR))
      as [e' [E [F1 [F2 [F3 F4]]]]].
    exists e', (QUICConnectionError_trans TRANSPORT_PARAMETER_ERROR).
    split; [exact E|]. split; [exact F1|]. split; [exact F2|].
    split; [left; reflexivity|]. split; assumption.
Qed.

(** ** The read event of an established server *)

Lemma lift_server_reading env {A} (m : Env -> M A) e :
  (forall b, keeps netvc_context (m b)) ->
  (forall b, keeps _handshake_handler (m b)) ->
  (forall b, keeps _alt_con_manager (m b)) ->
  (forall b, keeps _packet_recv_queue (m b)) ->
  server_reading e ->
  server_reading (set_vc (exec (m (env_of env (log e))) (vc e)) e).
Proof.
  intros K1 K0 K2 K3 [H1 [H0 [H2 H3]]]. unfold server_reading. cbn [set_vc vc].
  rewrite K1, K0, K2, K3. auto.
Qed.

Lemma recv_and_ack_server_reading env p s :
  server_reading s ->
  server_reading (set_vc (exec (_recv_and_ack (env_of env (log s)) p) (vc s)) s) /\
  _packet_recv_queue (exec (_recv_and_ack (env_of env (log s)) p) (vc s))
  = _packet_recv_queue (vc s).
Proof.
  intros [H1 [H0 [H2 H3]]].
  pose proof (recv_and_ack_untouched netvc_context) as K1.
  pose proof (recv_and_ack_untouched _handshake_handler) as K0.
  pose proof (recv_and_ack_untouched _alt_con_manager) as K2.
  pose proof (recv_and_ack_keeps_queue (env_of env (log s)) p (vc s)) as K3.
  split; [|exact K3].
  unfold server_reading. cbn [set_vc vc].
  rewrite K1, K0, K2, K3 by reflexivity. auto.
Qed.

Lemma established_receive_body_server env e :
  server_reading e ->
  exists t e',
    _state_connection_established_receive_packet_body env e = Returns t e' /\
    server_reading e' /\
    match t with
    | Again => S (length (_packet_recv_queue (vc e')))
               = length (_packet_recv_queue (vc e))
    | Leave _ => True
    end.
Proof.
  intros [H1 [H0 [H2 H3]]].
  unfold _state_connection_established_receive_packet_body.
  rewrite bind'_lift.
  assert (Kd : forall {B} (f : QUICNetVConnection -> B),
            (forall v c, f (set_packet_recv_queue v c) = f c) ->
            (forall v c, f (set_peer_quic_connection_id v c) = f c) ->
            (forall v c, f (set_last_received_packet_type v c) = f c) ->
            keeps f _dequeue_recv_packet)
    by (intros B f F1 F2 F3;
        unfold _dequeue_recv_packet, QUICPacketReceiveQueue_dequeue,
          _update_peer_cid; keeps_tac).
  pose proof (Kd _ netvc_context (fun _ _ => eq_refl) (fun _ _ => eq_refl)
                (fun _ _ => eq_refl) (vc e)) as K1.
  pose proof (Kd _ _handshake_handler (fun _ _ => eq_refl) (fun _ _ => eq_refl)
                (fun _ _ => eq_refl) (vc e)) as K0.
  pose proof (Kd _ _alt_con_manager (fun _ _ => eq_refl) (fun _ _ => eq_refl)
                (fun _ _ => eq_refl) (vc e)) as K2.
  destruct (_packet_recv_queue (vc e)) as [|d q] eqn:Q.
  - (* the queue is empty *)
    assert (E : _dequeue_recv_packet (vc e) = ((None, NO_PACKET), vc e)).
    { unfold _dequeue_recv_packet, QUICPacketReceiveQueue_dequeue.
      rewrite !bind_eq. cbn [gets fst snd]. rewrite Q. reflexivity. }
    unfold eval, exec. rewrite E. cbn [fst snd].
    eexists _, _. split; [reflexivity|]. split; [|exact I].
    unfold server_reading. cbn [set_vc vc]. rewrite Q. auto.
  - destruct (dequeue_recv_packet_front d q (vc e) Q) as [Q1 R1].
    rewrite R1. cbn [forallb] in H3. apply andb_true_iff in H3 as [Hd Hq].
    set (c1 := exec _dequeue_recv_packet (vc e)) in *.
    assert (S1 : server_reading (set_vc c1 e)).
    { unfold server_reading. cbn [set_vc vc]. rewrite K1, K0, K2, Q1. auto. }
    assert (L1 : S (length (_packet_recv_queue (vc (set_vc c1 e))))
                 = S (length q))
      by (cbn [set_vc vc]; rewrite Q1; reflexivity).
    clearbody c1. set (e1 := set_vc c1 e) in *. clearbody e1.
    clear K1 K0 K2 Q1 R1 H1 H0 H2 Q.
    cbn [length].
    destruct d as [p | r].
    + cbn [deref]. rewrite bind'_ret'.
      assert (RA : exists t e',
                bind' (lift env (fun b => _recv_and_ack b p))
                  (fun error =>
                     match error with
                     | Some _ => ret' (Leave error)
                     | None => ret' Again
                     end) e1 = Returns t e' /\
                server_reading e' /\
                match t with
                | Again => S (length (_packet_recv_queue (vc e'))) = S (length q)
                | Leave _ => True
                end).
      { rewrite bind'_lift.
        destruct (recv_and_ack_server_reading env p e1 S1) as [S2 Q2].
        destruct (eval (_recv_and_ack (env_of env (log e1)) p) (vc e1));
          eexists _, _; (split; [reflexivity|]); (split; [exact S2|]);
          [exact I|].
        cbn [set_vc vc]. rewrite Q2. exact L1. }
      destruct (pkt_type p).
      * (* VERSION_NEGOTIATION *)
        rewrite bind'_ret'. eexists _, _. split; [reflexivity|]. auto.
      * (* PROTECTED *)
        pose proof S1 as [X1 [X0 [X2 X3]]].
        destruct (server_migrate_connection env p e1 X1 X0 X2) as [e2 [M Hm]].
        rewrite bind'_assoc, (bind'_returns _ _ e1 _ _ M).
        assert (S2 : server_reading e2 /\
                     _packet_recv_queue (vc e2) = _packet_recv_queue (vc e1)).
        { destruct (migration_accepted env p e1).
          - destruct Hm as (_ & _ & _ & _ & _ & M1 & M0 & M2 & M3 & _).
            unfold server_reading. rewrite M1, M0, M2, M3. auto.
          - unfold server_reading. rewrite Hm. auto. }
        destruct S2 as [S2 Q2].
        rewrite bind'_assoc, bind'_member.
        destruct S2 as [Y1 [Y0 [Y2 Y3]]]. rewrite Y1. cbn [context_eqb when'].
        rewrite bind'_assoc, bind'_ret'.
        unfold _state_connection_established_process_protected_packet.
        rewrite bind'_lift.
        destruct (recv_and_ack_server_reading env p e2
                    (conj Y1 (conj Y0 (conj Y2 Y3)))) as [S3 Q3].
        destruct (eval (_recv_and_ack (env_of env (log e2)) p) (vc e2));
          eexists _, _; (split; [reflexivity|]); (split; [exact S3|]);
          [exact I|].
        cbn [set_vc vc]. rewrite Q3, Q2. exact L1.
      * (* STATELESS_RESET *)
        rewrite bind'_ret'. eexists _, _. split; [reflexivity|]. auto.
      * exact RA.
      * exact RA.
      * exact RA.
      * (* RETRY *)
        rewrite bind'_ret'. eexists _, _. split; [reflexivity|]. auto.
      * rewrite bind'_ret'. eexists _, _. split; [reflexivity|]. auto.
    + destruct r; try discriminate Hd;
        eexists _, _; (split; [reflexivity|]); (split; [exact S1|]);
        try exact I.
      exact L1.
Qed.

Lemma established_receive_loop_server env turns e :
  server_reading e ->
  (length (_packet_recv_queue (vc e)) < turns)%nat ->
  exists error e',
    _state_connection_established_receive_packet_loop env turns e
    = Returns error e' /\
    server_reading e'.
Proof.
  revert e. induction turns as [|turns IH]; intros e H L; [lia|].
  cbn [_state_connection_established_receive_packet_loop].
  destruct (established_receive_body_server env e H) as [t [e1 [E [H1 D]]]].
  rewrite (bind'_returns _ _ e _ _ E).
  destruct t as [|error].
  - apply IH; [exact H1 | lia].
  - eexists _, _. split; [reflexivity | exact H1].
Qed.

Lemma established_read_event_server env fuel e :
  handler (vc e) = Handler.state_connection_established ->
  server_reading e ->
  exists e',
    handleEvent' env (S fuel) QUIC_EVENT_PACKET_READ_READY e
    = Returns EVENT_CONT e' /\
    server_reading e'.
Proof.
  intros Hh H. cbn [handleEvent']. rewrite bind'_member, Hh.
  unfold state_connection_established,
    _state_connection_established_receive_packet.
  cbv beta iota. rewrite !bind'_assoc, bind'_lift. cbv beta.
  set (e0 := set_vc (exec (call C_net_activity) (vc e)) e).
  assert (H0 : server_reading e0).
  { destruct H as [H1 [H0 [H2 H3]]]. subst e0. unfold server_reading.
    cbn [set_vc vc]. destruct (vc e). cbn in *. auto. }
  rewrite bind'_assoc, bind'_member.
  destruct (established_receive_loop_server env
              (S (length (_packet_recv_queue (vc e0)))) e0 H0 (Nat.lt_succ_diag_r _))
    as [error [e1 [E H1]]].
  rewrite (bind'_returns _ _ e0 _ _ E).
  destruct error as [err|].
  - rewrite bind'_lift.
    eexists. split; [reflexivity|].
    apply (lift_server_reading env (fun b => _handle_error b err) e1);
      try exact H1; intros b; unfold _handle_error.
    + apply close_untouched; reflexivity.
    + apply close_untouched; reflexivity.
    + apply close_untouched; reflexivity.
    + apply close_untouched; reflexivity.
  - rewrite bind'_ret'. eexists. split; [reflexivity | exact H1].
Qed.

(** ** Packets of the handshake *)

Lemma process_handshake_packet_verifies env p e :
  netvc_context (vc e) = NET_VCONNECTION_IN ->
  exists error e',
    _state_handshake_process_handshake_packet env p e = Returns error e' /\
    _src_addr_verified (vc e') = true /\
    ~ unverified_server (vc e') /\
    _handshake_packets_sent (vc e') = _handshake_packets_sent (vc e) /\
    log e' = log e.
Proof.
  intros Hx. unfold _state_handshake_process_handshake_packet.
  rewrite !bind'_member, Hx. cbn [context_eqb andb].
  pose proof (recv_and_ack_untouched _src_addr_verified) as K1.
  pose proof (recv_and_ack_untouched _handshake_packets_sent) as K2.
  assert (V : forall s,
            _src_addr_verified (vc s) = true ->
            _handshake_packets_sent (vc s) = _handshake_packets_sent (vc e) ->
            log s = log e ->
            exists error e',
              lift env (fun b => _recv_and_ack b p) s = Returns error e' /\
              _src_addr_verified (vc e') = true /\
              ~ unverified_server (vc e') /\
              _handshake_packets_sent (vc e')
              = _handshake_packets_sent (vc e) /\
              log e' = log e).
  { intros s Hv Hs Hl. eexists _, _. split; [apply lift_returns|].
    cbn [set_vc vc log]. rewrite K1, K2 by reflexivity.
    split; [exact Hv|]. split; [|split; assumption].
    intros [_ U]. rewrite K1 in U by reflexivity. congruence. }
  destruct (_src_addr_verified (vc e)) eqn:Ev; cbn [negb when'].
  - rewrite bind'_ret'. apply V; auto.
  - rewrite bind'_lift. apply V; cbn [set_vc vc log modify exec snd];
      destruct (vc e); reflexivity.
Qed.

Lemma process_retry_packet_rerandomizes env p e :
  _handshake_handler (vc e) = true ->
  netvc_context (vc e) = NET_VCONNECTION_OUT ->
  exists error e' n,
    _state_handshake_process_retry_packet env p e = Returns error e' /\
    let before := tl (tl (log e')) in
    let cid := cid_randomize env before (trace (vc e')) in
    _original_quic_connection_id (vc e') = cid /\
    log e'
    = (C_initialize_key_materials cid, n) :: (C_cid_randomize, n) :: before /\
    map fst before
    = [C_packet_recv_queue_reset; C_packet_retransmitter_reset; C_cc_reset;
       C_ld_reset 2; C_ld_reset 1; C_ld_reset 0; C_hs_reset]
      ++ map fst (log e) /\
    (forall b fuel size q,
       eval (_packetize_frames b fuel QUICEncryptionLevel.INITIAL size) (vc e')
       = Some (Some q) ->
       destination_cid q = cid).
Proof.
  intros Hp Hx. unfold _state_handshake_process_retry_packet,
    handshake_handler, _rerandomize_original_cid.
  rewrite bind'_assoc, bind'_member, Hp. rewrite bind'_ret'.
  cbn [reset_loss_detectors QUIC_PN_SPACES].
  repeat step'. cbn [set_vc set_log vc log].
  set (l1 := (C_packet_retransmitter_reset, _) :: _).
  set (c1 := exec (_recv_and_ack (env_of env l1) p) (vc e)).
  assert (X1 : netvc_context c1 = NET_VCONNECTION_OUT)
    by (subst c1; rewrite (recv_and_ack_untouched netvc_context);
        [exact Hx | reflexivity ..]).
  clearbody c1.
  destruct c1 as [h ctx fam mtu cid pcid ocid alt rq lrt hsh acm aps fcb sav
                    hps sfs err fin cnt wnd pwr cto pvt cev nhp tr].
  cbn [netvc_context] in X1.
  cbn [modify eval exec fst snd set_original_quic_connection_id
         _original_quic_connection_id set_vc set_log vc log trace].
  eexists _, _, _. split; [reflexivity|]. cbv zeta.
  cbn [vc log tl trace _original_quic_connection_id].
  split; [reflexivity|]. split; [reflexivity|].
  split; [subst l1; reflexivity|].
  intros b fuel size q E.
  cbn [set_vc set_log vc set_original_quic_connection_id] in E.
  apply client_initial_packet in E as [_ [D _]]; [exact D | exact X1].
Qed.



(** X20.  On a server with its handshake handler and its alt-connection
    manager, [_state_connection_established_migrate_connection] returns
    without an error.  When the packet is addressed to a connection ID other
    than the current one, the peer has supplied a spare connection ID and the
    manager accepts the new one, the connection takes the packet's
    destination as its own connection ID and the first spare one as the
    peer's, moves to the packet's source and starts path validation with its
    timeout, in that order; otherwise the connection is left as it was. *)
Theorem server_follows_migration (env : Env') (p : QUICPacket) (e : Endpoint) :
  netvc_context (vc e) = NET_VCONNECTION_IN ->
  _handshake_handler (vc e) = true ->
  _alt_con_manager (vc e) = true ->
  exists e',
    _state_connection_established_migrate_connection env p e = Returns None e' /\
    if migration_accepted env p e
    then
      _quic_connection_id (vc e') = destination_cid p /\
      Some (_peer_quic_connection_id (vc e')) = hd_error (_remote_alt_cids (vc e)) /\
      _remote_alt_cids (vc e') = tl (_remote_alt_cids (vc e)) /\
      _path_validation_timeout (vc e') = true /\
      handler (vc e') = handler (vc e) /\
      netvc_context (vc e') = netvc_context (vc e) /\
      _handshake_handler (vc e') = _handshake_handler (vc e) /\
      _alt_con_manager (vc e') = _alt_con_manager (vc e) /\
      _packet_recv_queue (vc e') = _packet_recv_queue (vc e) /\
      map fst (log e')
      = [C_pv_validate; C_con_move p; C_acm_migrate_to (destination_cid p)]
        ++ map fst (log e)
    else vc e' = vc e.
Proof. apply server_migrate_connection. Qed.

Lemma server_follows_migration_witness :
  migration_accepted (env_around env_idle) packet_to_other_cid
    (endpoint server_migratable) = true /\
  exists e',
    _state_connection_established_migrate_connection (env_around env_idle)
      packet_to_other_cid (endpoint server_migratable) = Returns None e' /\
    _quic_connection_id (vc e') = [4; 3; 2; 1] /\
    _peer_quic_connection_id (vc e') = [8; 8; 8; 8] /\
    _remote_alt_cids (vc e') = [].
Proof.
  split; [reflexivity|].
  destruct (server_follows_migration (env_around env_idle) packet_to_other_cid
              (endpoint server_migratable) eq_refl eq_refl eq_refl)
    as [e' [E R]].
  exists e'. split; [exact E|].
  change (migration_accepted (env_around env_idle) packet_to_other_cid
            (endpoint server_migratable)) with true in R.
  destruct R as [R1 [R2 [R3 _]]].
  split; [exact R1|]. split; [|exact R3].
  injection R2 as R2. exact R2.
Defined.

(** X21.  A server in the handshake state, whose handshake engine has
    negotiated the version but does not complete and does not have the
    peer's transport parameters, closes the connection on the first Initial
    packet of a read event: the handshake is started with the packet, the
    packet is taken off the queue, and the connection enters the closing
    state with TRANSPORT_PARAMETER_ERROR, or with the error of receiving the
    packet if there is one.  The packets behind it stay queued. *)
Theorem initial_packet_without_transport_parameters (env : Env') (fuel : nat)
  (p : QUICPacket) (rest : list Datagram) (e : Endpoint) :
  server_without_remote_tp env e ->
  _packet_recv_queue (vc e) = Decodable p :: rest ->
  pkt_type p = QUICPacketType.INITIAL ->
  exists e' error,
    handleEvent' env (S fuel) QUIC_EVENT_PACKET_READ_READY e
    = Returns EVENT_CONT e' /\
    handler (vc e') = Handler.state_connection_closing /\
    _connection_error (vc e') = Some error /\
    (error = QUICConnectionError_trans TRANSPORT_PARAMETER_ERROR \/
     exists c, eval (_recv_and_ack (env_of env (log e')) p) c = Some error) /\
    _packet_recv_queue (vc e') = rest /\
    map fst (log e') = C_hs_start p :: map fst (log e).
Proof. apply initial_packet_without_remote_tp. Qed.

Lemma initial_packet_without_transport_parameters_witness :
  (exists e' error,
     handleEvent' (env_around env_first_flight) 1 QUIC_EVENT_PACKET_READ_READY
       (endpoint server_with_initial) = Returns EVENT_CONT e' /\
     handler (vc e') = Handler.state_connection_closing /\
     _connection_error (vc e') = Some error /\
     (error = QUICConnectionError_trans TRANSPORT_PARAMETER_ERROR \/
      exists c,
        eval (_recv_and_ack (env_of (env_around env_first_flight) (log e'))
                initial_packet) c = Some error) /\
     _packet_recv_queue (vc e') = [] /\
     map fst (log e') = [C_hs_start initial_packet]) /\
  option_map (fun r => _connection_error (vc (snd r)))
    (match handleEvent' (env_around env_first_flight) 1
             QUIC_EVENT_PACKET_READ_READY (endpoint server_with_initial) with
     | Returns r e' => Some (r, e')
     | _ => None
     end)
  = Some (Some (QUICConnectionError_trans TRANSPORT_PARAMETER_ERROR)).
Proof.
  split; [|vm_compute; reflexivity].
  apply (initial_packet_without_transport_parameters
           (env_around env_first_flight) 0 initial_packet []
           (endpoint server_with_initial)).
  - repeat split; intros; reflexivity.
  - reflexivity.
  - reflexivity.
Defined.

(** X22.  On a server that has its handshake handler and its alt-connection
    manager, the read event of the established state returns EVENT_CONT
    whatever packets are queued, of any type and to any connection ID,
    decodable or not: neither pointer is dereferenced while null, the receive
    loop ends, and the server still has both afterwards.  The datagrams are
    those the receive queue hands on with a result other than UNSUPPORTED. *)
Theorem server_read_event_returns (env : Env') (fuel : nat) (e : Endpoint) :
  handler (vc e) = Handler.state_connection_established ->
  server_reading e ->
  exists e',
    handleEvent' env (S fuel) QUIC_EVENT_PACKET_READ_READY e
    = Returns EVENT_CONT e' /\
    server_reading e'.
Proof. apply established_read_event_server. Qed.

Lemma server_read_event_returns_witness :
  exists e',
    handleEvent' (env_around env_idle) 1 QUIC_EVENT_PACKET_READ_READY
      (endpoint server_with_datagrams) = Returns EVENT_CONT e' /\
    server_reading e'.
Proof.
  apply (server_read_event_returns (env_around env_idle) 0
           (endpoint server_with_datagrams)).
  - reflexivity.
  - repeat split; reflexivity.
Defined.

(** X23.  On a server, [_state_handshake_process_handshake_packet] leaves
    the source address verified, whatever receiving the packet does, so the
    limit on handshake packets to an unverified client no longer applies; the
    count of handshake packets sent is not reset. *)
Theorem handshake_packet_verifies_source_address (env : Env') (p : QUICPacket)
  (e : Endpoint) :
  netvc_context (vc e) = NET_VCONNECTION_IN ->
  exists error e',
    _state_handshake_process_handshake_packet env p e = Returns error e' /\
    _src_addr_verified (vc e') = true /\
    ~ unverified_server (vc e') /\
    _handshake_packets_sent (vc e') = _handshake_packets_sent (vc e) /\
    log e' = log e.
Proof. apply process_handshake_packet_verifies. Qed.

Lemma handshake_packet_verifies_source_address_witness :
  unverified_server server_unverified /\
  exists error e',
    _state_handshake_process_handshake_packet (env_around env_idle)
      handshake_packet (endpoint server_unverified) = Returns error e' /\
    _src_addr_verified (vc e') = true /\
    ~ unverified_server (vc e') /\
    _handshake_packets_sent (vc e') = 0 /\
    log e' = [].
Proof.
  split; [split; reflexivity|].
  apply (handshake_packet_verifies_source_address (env_around env_idle)
           handshake_packet (endpoint server_unverified)).
  reflexivity.
Defined.

(** X24.  On a client, [_state_handshake_process_retry_packet] returns with
    the original connection ID replaced by the one that
    [QUICConnectionId::randomize] draws after the transport state is
    discarded; the key materials are initialised for that connection ID as
    the last call, and every Initial packet the packetizer builds afterwards
    is addressed to it. *)
Theorem retry_rerandomizes_original_cid (env : Env') (p : QUICPacket)
  (e : Endpoint) :
  _handshake_handler (vc e) = true ->
  netvc_context (vc e) = NET_VCONNECTION_OUT ->
  exists error e' n,
    _state_handshake_process_retry_packet env p e = Returns error e' /\
    let before := tl (tl (log e')) in
    let cid := cid_randomize env before (trace (vc e')) in
    _original_quic_connection_id (vc e') = cid /\
    log e'
    = (C_initialize_key_materials cid, n) :: (C_cid_randomize, n) :: before /\
    map fst before
    = [C_packet_recv_queue_reset; C_packet_retransmitter_reset; C_cc_reset;
       C_ld_reset 2; C_ld_reset 1; C_ld_reset 0; C_hs_reset]
      ++ map fst (log e) /\
    (forall b fuel size q,
       eval (_packetize_frames b fuel QUICEncryptionLevel.INITIAL size) (vc e')
       = Some (Some q) ->
       destination_cid q = cid).
Proof. apply process_retry_packet_rerandomizes. Qed.

Lemma retry_rerandomizes_original_cid_witness :
  _original_quic_connection_id client_in_handshake = [9; 9; 9; 9] /\
  exists error e' n,
    _state_handshake_process_retry_packet (env_around env_idle) retry_with_ping
      (endpoint client_in_handshake) = Returns error e' /\
    _original_quic_connection_id (vc e') = [7; 7; 7; 7] /\
    log e'
    = (C_initialize_key_materials [7; 7; 7; 7], n) :: (C_cid_randomize, n)
      :: tl (tl (log e')) /\
    (forall b fuel size q,
       eval (_packetize_frames b fuel QUICEncryptionLevel.INITIAL size) (vc e')
       = Some (Some q) ->
       destination_cid q = [7; 7; 7; 7]).
Proof.
  split; [reflexivity|].
  destruct (retry_rerandomizes_original_cid (env_around env_idle)
              retry_with_ping (endpoint client_in_handshake) eq_refl eq_refl)
    as (error & e' & n & E & R1 & R2 & _ & R3).
  exists error, e', n. split; [exact E|].
  split; [exact R1|]. split; [exact R2 | exact R3].
Defined.

(** ** The path validation timeout *)

Lemma path_validation_timeout_established env fuel e :
  handler (vc e) = Handler.state_connection_established ->
  exists e',
    handleEvent' env (S fuel) QUIC_EVENT_PATH_VALIDATION_TIMEOUT e
    = Returns EVENT_CONT e' /\
    log e' = log e /\
    _path_validation_timeout (vc e') = false /\
    _connection_error (vc e') = _connection_error (vc e) /\
    _the_final_packet (vc e') = _the_final_packet (vc e) /\
    filter outbound (trace (vc e')) = filter outbound (trace (vc e)) /\
    if pv_is_validated (env_of env (log e)) (trace (vc e))
    then vc e' = set_path_validation_timeout false (vc e)
    else handler (vc e') = Handler.state_connection_closed /\
         _closed_event (vc e') = true /\
         _closing_timeout (vc e') = false.
Proof.
  intros H. destruct e as [c i l].
  destruct c as [h ctx fam mtu cid pcid ocid alt rq lrt hsh acm aps fcb sav hps
                 sfs err fin cnt wnd pwr cto pvt cev nhp tr].
  cbn [vc log handler] in H. subst h.
  cbn [handleEvent'].
  set (b := env_of env l) in *.
  unfold state_connection_established, _handle_path_validation_timeout,
    _close_path_validation_timeout, _switch_to_close_state,
    _unschedule_closing_timeout, _unschedule_path_validation_timeout,
    _schedule_closed_event.
  crun'. fold b.
  destruct (pv_is_validated b tr) eqn:Ev; crun'.
  - eexists. split; [reflexivity|].
    cbn [vc log trace _path_validation_timeout _connection_error
           _the_final_packet]. repeat split; reflexivity.
  - fold b.
    assert (N : forall t x,
              _complete_handshake_if_possible b
                {| handler := Handler.state_connection_established;
                   netvc_context := ctx; ip_family := fam; _pmtu := mtu;
                   _quic_connection_id := cid; _peer_quic_connection_id := pcid;
                   _original_quic_connection_id := ocid; _remote_alt_cids := alt;
                   _packet_recv_queue := rq; _last_received_packet_type := lrt;
                   _handshake_handler := hsh; _alt_con_manager := acm;
                   _application_started := aps; _flow_control_buffer_size := fcb;
                   _src_addr_verified := sav; _handshake_packets_sent := hps;
                   _stream_frames_sent := sfs; _connection_error := err;
                   _the_final_packet := fin;
                   _state_closing_recv_packet_count := cnt;
                   _state_closing_recv_packet_window := wnd;
                   _packet_write_ready := pwr; _closing_timeout := x;
                   _path_validation_timeout := false; _closed_event := cev; nh := nhp;
                   trace := t |}
              = (0, {| handler := Handler.state_connection_established;
                   netvc_context := ctx; ip_family := fam; _pmtu := mtu;
                   _quic_connection_id := cid; _peer_quic_connection_id := pcid;
                   _original_quic_connection_id := ocid; _remote_alt_cids := alt;
                   _packet_recv_queue := rq; _last_received_packet_type := lrt;
                   _handshake_handler := hsh; _alt_con_manager := acm;
                   _application_started := aps; _flow_control_buffer_size := fcb;
                   _src_addr_verified := sav; _handshake_packets_sent := hps;
                   _stream_frames_sent := sfs; _connection_error := err;
                   _the_final_packet := fin;
                   _state_closing_recv_packet_count := cnt;
                   _state_closing_recv_packet_window := wnd;
                   _packet_write_ready := pwr; _closing_timeout := x;
                   _path_validation_timeout := false; _closed_event := cev; nh := nhp;
                   trace := t |}))
      by (intros; apply complete_handshake_if_possible_other_state;
          discriminate).
    destruct cto; crun'; fold b; rewrite N; crun';
      destruct cev; crun'; eexists; (split; [reflexivity|]);
      cbn [vc log trace handler _path_validation_timeout _connection_error
             _the_final_packet _closed_event _closing_timeout filter outbound];
      repeat split; reflexivity.
Qed.

(** X25.  In the established state the path validation timeout is handled
    and sends nothing.  If the path validator has validated the path, only
    the timeout event is let go.  If it has not, the connection is closed at
    once: it enters the closed state with the shutdown event scheduled and
    the closing timer stopped, without a closing or draining period, and
    no close frame is generated and no error recorded. *)
Theorem path_validation_timeout_closes_silently (env : Env') (fuel : nat)
  (e : Endpoint) :
  handler (vc e) = Handler.state_connection_established ->
  exists e',
    handleEvent' env (S fuel) QUIC_EVENT_PATH_VALIDATION_TIMEOUT e
    = Returns EVENT_CONT e' /\
    log e' = log e /\
    _path_validation_timeout (vc e') = false /\
    _connection_error (vc e') = _connection_error (vc e) /\
    _the_final_packet (vc e') = _the_final_packet (vc e) /\
    filter outbound (trace (vc e')) = filter outbound (trace (vc e)) /\
    if pv_is_validated (env_of env (log e)) (trace (vc e))
    then vc e' = set_path_validation_timeout false (vc e)
    else handler (vc e') = Handler.state_connection_closed /\
         _closed_event (vc e') = true /\
         _closing_timeout (vc e') = false.
Proof. apply path_validation_timeout_established. Qed.

Lemma path_validation_timeout_closes_silently_witness :
  exists e',
    handleEvent' (env_around env_path_unvalidated) 1
      QUIC_EVENT_PATH_VALIDATION_TIMEOUT (endpoint server_validating_path)
    = Returns EVENT_CONT e' /\
    handler (vc e') = Handler.state_connection_closed /\
    _closed_event (vc e') = true /\
    _connection_error (vc e') = None /\
    filter outbound (trace (vc e')) = [].
Proof.
  destruct (path_validation_timeout_closes_silently
              (env_around env_path_unvalidated) 0
              (endpoint server_validating_path) eq_refl)
    as [e' [E [_ [_ [R1 [_ [R2 R3]]]]]]].
  exists e'. split; [exact E|].
  change (pv_is_validated
            (env_of (env_around env_path_unvalidated)
               (log (endpoint server_validating_path)))
            (trace (vc (endpoint server_validating_path)))) with false in R3.
  destruct R3 as [R3 [R4 _]].
  split; [exact R3|]. split; [exact R4|]. split; [exact R1 | exact R2].
Defined.
